(** * Simulación de colas de un restaurante de comida rápida

    Shallow embedding of [src/src/simulacion_colas.cpp]: the discrete-event
    engine [SimulacionColas], its stations, customers, events, the random
    stream wrapper and the statistics reduction.

    - [double] values are kept abstract behind the class [Aritmetica]; two
      instances are given, exact rationals and IEEE binary64.  The laws of
      [<] and [==] that theorems use are those of [LeyesOrden], and the
      laws of the arithmetic, which in binary64 rest on its rounding,
      those of [LeyesSuma]; both are proved of both instances, of
      binary64 from the specification of its operations in [SpecFloat].
    - [std::mt19937] and the [<random>] distributions are library code: they
      are the operations of the class [Distribuciones], threaded as explicit
      generator state.
    - [std::priority_queue] is library code as well: the class
      [ColaPrioridad] gives its operations and [ColaPrioridadOk] its
      contract, so that no theorem depends on how ties are broken.
    - [int] values are [Z]; vector indexing is stdpp's total lookup, and the
      invariant [Inv] shows that every index used is in range. *)

From Stdlib Require Import ZArith QArith Lia Lqa Permutation.
From Stdlib Require Import Floats.PrimFloat Floats.FloatOps Floats.SpecFloat.
From Stdlib Require Import Floats.FloatAxioms.
From Corelib Require Import Uint63Axioms.
From Stdlib Require Uint63.
From stdpp Require Import base list relations sorting.

Close Scope Q_scope.
Close Scope float_scope.
Open Scope nat_scope.

(* ====================================================================== *)
(** ** Arithmetic on [double] *)
(* ====================================================================== *)

(** The operations the program uses on [double]: [+ - * /], [<], [==], the
    conversion from [int] and [round] followed by the conversion to [int]. *)
Class Aritmetica := {
  double : Type;
  suma : double → double → double;
  resta : double → double → double;
  mult : double → double → double;
  divi : double → double → double;
  menor : double → double → bool;
  igual : double → double → bool;
  de_int : Z → double;
  redondeo : double → Z
}.

Section Literales.
Context `{Ar : Aritmetica}.

(** The literal [0.0] (and the [int] literal [0] converted to [double]). *)
Definition cero : double := de_int 0.

(** A decimal literal [n/d], such as [0.4] = [decimal 4 10]. *)
Definition decimal (n d : Z) : double := divi (de_int n) (de_int d).

(** [a > b] on [double]. *)
Definition mayor (a b : double) : bool := menor b a.

(** [a <= b] read as "not [b < a]". *)
Definition no_mayor (a b : double) : Prop := menor b a = false.

(** [a] is not a NaN: it is equal to itself. *)
Definition es_numero (a : double) : Prop := igual a a = true.

(** [a >= b] on [double]: greater, or equal. *)
Definition mayor_igual (a b : double) : bool := mayor a b || igual a b.

(** [std::max(a, b)] and [std::min(a, b)] on [double]. *)
Definition max_double (a b : double) : double := if menor a b then b else a.
Definition min_double (a b : double) : double := if menor b a then b else a.
End Literales.

(** Only read outside the range of [probabilidadesEstaciones]. *)
#[global] Instance double_inhabited `{Ar : Aritmetica} : Inhabited double :=
  populate cero.

(* ====================================================================== *)
(** ** Enumerations *)
(* ====================================================================== *)

(** [enum IDEstacion], used as [int] throughout the program. *)
Definition CAJAS : Z := 0.
Definition REFRESCOS : Z := 1.
Definition FREIDORA : Z := 2.
Definition POSTRES : Z := 3.
Definition POLLO : Z := 4.
Definition NUM_ESTACIONES : Z := 5.

Inductive TipoEvento := LLEGADA | FIN_SERVICIO.

Definition TipoEvento_eqb (a b : TipoEvento) : bool :=
  match a, b with
  | LLEGADA, LLEGADA | FIN_SERVICIO, FIN_SERVICIO => true
  | _, _ => false
  end.

(* ====================================================================== *)
(** ** class Evento *)
(* ====================================================================== *)

Module Evento.
Section Def.
Context `{Ar : Aritmetica}.

Record t := mk {
  tiempo : double;
  tipo : TipoEvento;
  idCliente : Z;
  idEstacion : Z
}.

(** [bool operator>(const Evento& otro) const]. *)
Definition gt (a otro : t) : bool := mayor (tiempo a) (tiempo otro).
End Def.
Arguments t {_}.
End Evento.

(* ====================================================================== *)
(** ** class Cliente *)
(* ====================================================================== *)

Module Cliente.
Section Def.
Context `{Ar : Aritmetica}.

Record t := mk {
  id : Z;
  tiempoLlegada : double;
  tiempoEsperaTotal : double;
  tiempoServicioTotal : double;
  estaciones : list Z;
  numOrdenes : Z;
  indiceEstacionActual : Z;
  tiempoEntradaCola : double
}.

(** The default constructor. *)
Definition nuevo : t :=
  mk 0 cero cero cero [] 0 0 cero.

Definition getTiempoTotal (c : t) : double :=
  suma (tiempoEsperaTotal c) (tiempoServicioTotal c).

Definition con_tiempoEsperaTotal (x : double) (c : t) : t :=
  mk (id c) (tiempoLlegada c) x (tiempoServicioTotal c) (estaciones c)
     (numOrdenes c) (indiceEstacionActual c) (tiempoEntradaCola c).
Definition con_tiempoServicioTotal (x : double) (c : t) : t :=
  mk (id c) (tiempoLlegada c) (tiempoEsperaTotal c) x (estaciones c)
     (numOrdenes c) (indiceEstacionActual c) (tiempoEntradaCola c).
Definition con_indiceEstacionActual (x : Z) (c : t) : t :=
  mk (id c) (tiempoLlegada c) (tiempoEsperaTotal c) (tiempoServicioTotal c)
     (estaciones c) (numOrdenes c) x (tiempoEntradaCola c).
Definition con_tiempoEntradaCola (x : double) (c : t) : t :=
  mk (id c) (tiempoLlegada c) (tiempoEsperaTotal c) (tiempoServicioTotal c)
     (estaciones c) (numOrdenes c) (indiceEstacionActual c) x.
End Def.
Arguments t {_}.
End Cliente.

(* ====================================================================== *)
(** ** class GeneradorAleatorio *)
(* ====================================================================== *)

(** The generator and the distributions of [<random>].  Each draw takes the
    generator state and returns the value drawn and the next state. *)
Class Distribuciones `{Ar : Aritmetica} := {
  mt19937 : Type;
  mt19937_semilla : Z → mt19937;
  exponential_distribution : double → mt19937 → double * mt19937;
  normal_distribution : double → double → mt19937 → double * mt19937;
  binomial_distribution : Z → double → mt19937 → Z * mt19937;
  geometric_distribution : double → mt19937 → Z * mt19937;
  uniform_real_distribution : double → double → mt19937 → double * mt19937
}.

Module GeneradorAleatorio.
Section Def.
Context `{Di : Distribuciones}.

(** The only member is [mt19937 rng]. *)
Definition t : Type := mt19937.

Definition nuevo (semilla : Z) : t := mt19937_semilla semilla.

Definition tiempoEntreLlegadas (lambda : double) (g : t) : double * t :=
  exponential_distribution lambda g.

Definition tiempoServicioExp (mu : double) (g : t) : double * t :=
  exponential_distribution mu g.

Definition tiempoServicioNormDisc (media desvEst : double) (g : t) : Z * t :=
  let '(x, g') := normal_distribution media desvEst g in
  let valor := redondeo x in
  (Z.max 1 valor, g').

Definition tiempoServicioBinom (n : Z) (p : double) (g : t) : Z * t :=
  let '(valor, g') := binomial_distribution n p g in
  (Z.max 1 valor, g').

Definition tiempoServicioGeom (p : double) (g : t) : Z * t :=
  let '(valor, g') := geometric_distribution p g in
  ((valor + 1)%Z, g').

Definition numeroOrdenes (g : t) : Z * t :=
  let '(valor, g') := binomial_distribution 5 (decimal 4 10) g in
  (Z.max 1 valor, g').

Definition debeVisitar (proba : double) (g : t) : bool * t :=
  let '(u, g') := uniform_real_distribution cero (de_int 1) g in
  (menor u proba, g').
End Def.
End GeneradorAleatorio.

(* ====================================================================== *)
(** ** class Estacion *)
(* ====================================================================== *)

(** Index of the first entry of a [vector<bool>] equal to [b]. *)
Fixpoint primer_indice (b : bool) (l : list bool) : option nat :=
  match l with
  | [] => None
  | o :: r => if Bool.eqb o b then Some 0 else S <$> primer_indice b r
  end.

(** The counting loop of [actualizarTiempoOcupado]. *)
Fixpoint servidoresOcupados (l : list bool) : Z :=
  match l with
  | [] => 0
  | o :: r => ((if o then 1 else 0) + servidoresOcupados r)%Z
  end.

Module Estacion.
Section Def.
Context `{Ar : Aritmetica}.

Record t := mk {
  id : Z;
  numServidores : Z;
  colaEspera : list Z;
  servidorOcupado : list bool;
  tiempoTotalOcupado : double;
  tiempoUltimoCambio : double;
  totalAtendidos : Z
}.

(** The constructor.  [servidorOcupado.resize(servidores, false)] with a
    negative [int] asks for more than [max_size()] entries and throws
    [std::length_error]: [None]. *)
Definition nueva (idEstacion servidores : Z) : option t :=
  if (servidores <? 0)%Z then None
  else Some (mk idEstacion servidores [] (replicate (Z.to_nat servidores) false)
                cero cero 0).

Definition agregarCliente (idCliente : Z) (tiempoActual : double) (e : t) : t :=
  mk (id e) (numServidores e) (colaEspera e ++ [idCliente]) (servidorOcupado e)
     (tiempoTotalOcupado e) (tiempoUltimoCambio e) (totalAtendidos e).

Definition hayServidorDisponible (e : t) : bool :=
  match primer_indice false (servidorOcupado e) with
  | Some _ => true
  | None => false
  end.

Definition actualizarTiempoOcupado (tiempoActual : double) (e : t) : t :=
  let ocupados := servidoresOcupados (servidorOcupado e) in
  mk (id e) (numServidores e) (colaEspera e) (servidorOcupado e)
     (suma (tiempoTotalOcupado e)
           (mult (de_int ocupados) (resta tiempoActual (tiempoUltimoCambio e))))
     tiempoActual (totalAtendidos e).

Definition con_servidor (i : nat) (b : bool) (e : t) : t :=
  mk (id e) (numServidores e) (colaEspera e) (<[i:=b]> (servidorOcupado e))
     (tiempoTotalOcupado e) (tiempoUltimoCambio e) (totalAtendidos e).

Definition con_colaEspera (q : list Z) (e : t) : t :=
  mk (id e) (numServidores e) q (servidorOcupado e)
     (tiempoTotalOcupado e) (tiempoUltimoCambio e) (totalAtendidos e).

Definition con_totalAtendidos (n : Z) (e : t) : t :=
  mk (id e) (numServidores e) (colaEspera e) (servidorOcupado e)
     (tiempoTotalOcupado e) (tiempoUltimoCambio e) n.

(** Returns the customer taken into service, or [-1]. *)
Definition iniciarServicio (tiempoActual : double) (e : t) : Z * t :=
  match colaEspera e with
  | [] => ((-1)%Z, e)
  | idCliente :: resto =>
      match primer_indice false (servidorOcupado e) with
      | Some i =>
          (idCliente,
           actualizarTiempoOcupado tiempoActual
             (con_servidor i true (con_colaEspera resto e)))
      | None => ((-1)%Z, e)
      end
  end.

Definition finalizarServicio (tiempoActual : double) (e : t) : t :=
  match primer_indice true (servidorOcupado e) with
  | Some i =>
      let e' := actualizarTiempoOcupado tiempoActual (con_servidor i false e) in
      con_totalAtendidos (totalAtendidos e' + 1)%Z e'
  | None => e
  end.

Definition getUtilizacion (tiempoTotal : double) (e : t) : double :=
  if igual tiempoTotal cero || (numServidores e =? 0)%Z then cero
  else divi (tiempoTotalOcupado e) (mult (de_int (numServidores e)) tiempoTotal).

Definition getLongitudCola (e : t) : Z := Z.of_nat (length (colaEspera e)).

Definition estaVacia (e : t) : bool :=
  match colaEspera e with [] => true | _ => false end.
End Def.
Arguments t {_}.

(** Only read outside the range of [estaciones]; see [Inv]. *)
#[global] Instance inhabited `{Ar : Aritmetica} : Inhabited t :=
  populate (mk (-1)%Z 0%Z [] [] cero cero 0%Z).
End Estacion.

#[global] Instance Cliente_inhabited `{Ar : Aritmetica} : Inhabited Cliente.t :=
  populate Cliente.nuevo.

(* ====================================================================== *)
(** ** class ConfiguracionServidores, class Estadisticas *)
(* ====================================================================== *)

Module ConfiguracionServidores.
Record t := mk {
  cajas : Z;
  refrescos : Z;
  freidora : Z;
  postres : Z;
  pollo : Z
}.

(** The default constructor: no servers anywhere. *)
Definition nueva : t := mk 0 0 0 0 0.

Definition total (c : t) : Z :=
  (cajas c + refrescos c + freidora c + postres c + pollo c)%Z.

(** The costs of the variant of the file that prices the equipment, and
    its [calcularCosto] and [cumplePresupuesto]. *)
Definition COSTO_CAJA : Z := 500.
Definition COSTO_REFRESCOS : Z := 750.
Definition COSTO_FREIDORA : Z := 200.
Definition COSTO_POSTRES : Z := 0.
Definition COSTO_POLLO : Z := 100.

Definition calcularCosto (c : t) : Z :=
  (cajas c * COSTO_CAJA + refrescos c * COSTO_REFRESCOS
   + freidora c * COSTO_FREIDORA + postres c * COSTO_POSTRES
   + pollo c * COSTO_POLLO)%Z.

Definition cumplePresupuesto (presupuesto : Z) (c : t) : bool :=
  (calcularCosto c <=? presupuesto)%Z.
End ConfiguracionServidores.

Module Estadisticas.
Section Def.
Context `{Ar : Aritmetica}.

Record t := mk {
  tiempoEsperaPromedio : double;
  varianzaTiempoEspera : double;
  utilizacionEstaciones : list double;
  totalClientes : Z;
  tiempoSistemaPromedio : double
}.

(** The default constructor. *)
Definition nueva : t := mk cero cero [] 0 cero.

(** [inicializarPromedios]: [assign(numEstaciones, 0.0)] with a negative
    [int] asks for more than [max_size()] entries and throws: [None]. *)
Definition inicializarPromedios (numEstaciones : Z) (e : t) : option t :=
  if (numEstaciones <? 0)%Z then None
  else Some (mk cero cero (replicate (Z.to_nat numEstaciones) cero) 0 cero).

Definition setTiempoEsperaPromedio (valor : double) (e : t) : t :=
  mk valor (varianzaTiempoEspera e) (utilizacionEstaciones e) (totalClientes e)
     (tiempoSistemaPromedio e).
Definition setTiempoSistemaPromedio (valor : double) (e : t) : t :=
  mk (tiempoEsperaPromedio e) (varianzaTiempoEspera e) (utilizacionEstaciones e)
     (totalClientes e) valor.
Definition setVarianzaTiempoEspera (valor : double) (e : t) : t :=
  mk (tiempoEsperaPromedio e) valor (utilizacionEstaciones e) (totalClientes e)
     (tiempoSistemaPromedio e).
Definition setTotalClientes (total : Z) (e : t) : t :=
  mk (tiempoEsperaPromedio e) (varianzaTiempoEspera e) (utilizacionEstaciones e)
     total (tiempoSistemaPromedio e).

(** [utilizacionEstaciones[indice] = valor]; an index outside the vector
    has no defined behaviour: [None]. *)
Definition setUtilizacion (indice : Z) (valor : double) (e : t) : option t :=
  if (0 <=? indice)%Z && (indice <? Z.of_nat (length (utilizacionEstaciones e)))%Z
  then Some (mk (tiempoEsperaPromedio e) (varianzaTiempoEspera e)
                (<[Z.to_nat indice := valor]> (utilizacionEstaciones e))
                (totalClientes e) (tiempoSistemaPromedio e))
  else None.

(** The loop of [esEstable], which returns at the first utilization that
    is [>= 0.8]. *)
Fixpoint estable_desde (l : list double) : bool :=
  match l with
  | [] => true
  | utilizacion :: r =>
      if mayor_igual utilizacion (decimal 8 10) then false else estable_desde r
  end.

Definition esEstable (e : t) : bool := estable_desde (utilizacionEstaciones e).
End Def.
Arguments t {_}.
End Estadisticas.

(* ====================================================================== *)
(** ** The event queue *)
(* ====================================================================== *)

(** [priority_queue<Evento, vector<Evento>, greater<Evento>>].  [contenido]
    is the collection the queue holds, in no particular order; it is only
    used to state the contract and the invariants. *)
Class ColaPrioridad `{Ar : Aritmetica} := {
  cola : Type;
  pq_nueva : cola;
  pq_empty : cola → bool;
  pq_size : cola → nat;
  pq_top : cola → Evento.t;
  pq_pop : cola → cola;
  pq_push : Evento.t → cola → cola;
  contenido : cola → list Evento.t
}.

(** The contract of the queue: [top] is an element no other element is
    smaller than under [greater<Evento>], [pop] removes it, [push] adds one
    element. *)
Class ColaPrioridadOk `{Cp : ColaPrioridad} : Prop := {
  contenido_nueva : contenido pq_nueva = [];
  pq_empty_spec : ∀ q, pq_empty q = true ↔ contenido q = [];
  pq_size_spec : ∀ q, pq_size q = length (contenido q);
  pq_push_spec : ∀ e q, contenido (pq_push e q) ≡ₚ e :: contenido q;
  pq_pop_spec : ∀ q, pq_empty q = false →
                     contenido q ≡ₚ pq_top q :: contenido (pq_pop q);
  pq_top_spec : ∀ q e, pq_empty q = false → e ∈ contenido q →
                       Evento.gt (pq_top q) e = false
}.

(* ====================================================================== *)
(** ** class SimulacionColas *)
(* ====================================================================== *)

Section Motor.
Context `{Di : Distribuciones} `{Cp : !ColaPrioridad}.

Record SimulacionColas := mkSim {
  colaEventos : cola;
  estaciones : list Estacion.t;
  clientes : list Cliente.t;
  clientesCompletados : list Cliente.t;
  rng : GeneradorAleatorio.t;
  tiempoActual : double;
  duracionSimulacion : double;
  tiempoFinalReal : double;
  siguienteIdCliente : Z;
  tasaLlegada : double;
  probabilidadesEstaciones : list double
}.

Definition con_colaEventos (x : cola) (s : SimulacionColas) :=
  mkSim x (estaciones s) (clientes s) (clientesCompletados s) (rng s)
        (tiempoActual s) (duracionSimulacion s) (tiempoFinalReal s)
        (siguienteIdCliente s) (tasaLlegada s) (probabilidadesEstaciones s).
Definition con_estaciones (x : list Estacion.t) (s : SimulacionColas) :=
  mkSim (colaEventos s) x (clientes s) (clientesCompletados s) (rng s)
        (tiempoActual s) (duracionSimulacion s) (tiempoFinalReal s)
        (siguienteIdCliente s) (tasaLlegada s) (probabilidadesEstaciones s).
Definition con_clientes (x : list Cliente.t) (s : SimulacionColas) :=
  mkSim (colaEventos s) (estaciones s) x (clientesCompletados s) (rng s)
        (tiempoActual s) (duracionSimulacion s) (tiempoFinalReal s)
        (siguienteIdCliente s) (tasaLlegada s) (probabilidadesEstaciones s).
Definition con_clientesCompletados (x : list Cliente.t) (s : SimulacionColas) :=
  mkSim (colaEventos s) (estaciones s) (clientes s) x (rng s)
        (tiempoActual s) (duracionSimulacion s) (tiempoFinalReal s)
        (siguienteIdCliente s) (tasaLlegada s) (probabilidadesEstaciones s).
Definition con_rng (x : GeneradorAleatorio.t) (s : SimulacionColas) :=
  mkSim (colaEventos s) (estaciones s) (clientes s) (clientesCompletados s) x
        (tiempoActual s) (duracionSimulacion s) (tiempoFinalReal s)
        (siguienteIdCliente s) (tasaLlegada s) (probabilidadesEstaciones s).
Definition con_tiempoActual (x : double) (s : SimulacionColas) :=
  mkSim (colaEventos s) (estaciones s) (clientes s) (clientesCompletados s) (rng s)
        x (duracionSimulacion s) (tiempoFinalReal s)
        (siguienteIdCliente s) (tasaLlegada s) (probabilidadesEstaciones s).
Definition con_tiempoFinalReal (x : double) (s : SimulacionColas) :=
  mkSim (colaEventos s) (estaciones s) (clientes s) (clientesCompletados s) (rng s)
        (tiempoActual s) (duracionSimulacion s) x
        (siguienteIdCliente s) (tasaLlegada s) (probabilidadesEstaciones s).
Definition con_siguienteIdCliente (x : Z) (s : SimulacionColas) :=
  mkSim (colaEventos s) (estaciones s) (clientes s) (clientesCompletados s) (rng s)
        (tiempoActual s) (duracionSimulacion s) (tiempoFinalReal s)
        x (tasaLlegada s) (probabilidadesEstaciones s).

(** [estaciones[i]] and [clientes[i]] for an [int] index. *)
Definition estacion (i : Z) (s : SimulacionColas) : Estacion.t :=
  estaciones s !!! Z.to_nat i.
Definition cliente (i : Z) (s : SimulacionColas) : Cliente.t :=
  clientes s !!! Z.to_nat i.
Definition con_estacion (i : Z) (e : Estacion.t) (s : SimulacionColas) :=
  con_estaciones (<[Z.to_nat i := e]> (estaciones s)) s.
Definition con_cliente (i : Z) (c : Cliente.t) (s : SimulacionColas) :=
  con_clientes (<[Z.to_nat i := c]> (clientes s)) s.

(** The routing table the class declares:
    [{1.0, 0.9, 0.7, 0.25, 0.3}]. *)
Definition probabilidades_declaradas : list double :=
  [de_int 1; decimal 9 10; decimal 7 10; decimal 25 100; decimal 3 10].

(** The constructor, with the routing table as a parameter. *)
Definition SimulacionColas_con (probabilidades : list double)
    (duracion lambda : double) (semilla : Z) : SimulacionColas :=
  mkSim pq_nueva [] [] [] (GeneradorAleatorio.nuevo semilla)
        cero duracion cero 0 lambda probabilidades.

(** [SimulacionColas(duracion, lambda, semilla)]. *)
Definition SimulacionColas_nueva (duracion lambda : double) (semilla : Z) :=
  SimulacionColas_con probabilidades_declaradas duracion lambda semilla.

(** [SimulacionColas()]: 480 minutes, three customers a minute, seed 42. *)
Definition SimulacionColas_por_defecto : SimulacionColas :=
  SimulacionColas_nueva (de_int 480) (de_int 3) 42.

(** [while (!colaEventos.empty()) colaEventos.pop();] *)
Fixpoint vaciar_n (n : nat) (q : cola) : cola :=
  match n with
  | 0 => q
  | S n' => if pq_empty q then q else vaciar_n n' (pq_pop q)
  end.
Definition vaciar (q : cola) : cola := vaciar_n (pq_size q) q.

(** [inicializar]; [None] is the exception of a station constructor. *)
Definition inicializar (config : ConfiguracionServidores.t)
    (s : SimulacionColas) : option SimulacionColas :=
  e0 ← Estacion.nueva CAJAS (ConfiguracionServidores.cajas config);
  e1 ← Estacion.nueva REFRESCOS (ConfiguracionServidores.refrescos config);
  e2 ← Estacion.nueva FREIDORA (ConfiguracionServidores.freidora config);
  e3 ← Estacion.nueva POSTRES (ConfiguracionServidores.postres config);
  e4 ← Estacion.nueva POLLO (ConfiguracionServidores.pollo config);
  let '(primeraLlegada, g) :=
    GeneradorAleatorio.tiempoEntreLlegadas (tasaLlegada s) (rng s) in
  Some (mkSim (pq_push (Evento.mk primeraLlegada LLEGADA (-1) (-1))
                       (vaciar (colaEventos s)))
              [e0; e1; e2; e3; e4] [] [] g
              cero (duracionSimulacion s) (tiempoFinalReal s)
              0 (tasaLlegada s) (probabilidadesEstaciones s)).

Definition getTiempoServicio (idEstacion : Z) (g : GeneradorAleatorio.t)
    : double * GeneradorAleatorio.t :=
  match idEstacion with
  | 0%Z => GeneradorAleatorio.tiempoServicioExp (decimal 4 10) g
  | 1%Z => GeneradorAleatorio.tiempoServicioExp (decimal 1333 1000) g
  | 2%Z => let '(v, g') :=
             GeneradorAleatorio.tiempoServicioNormDisc (de_int 3) (decimal 5 10) g
           in (de_int v, g')
  | 3%Z => let '(v, g') :=
             GeneradorAleatorio.tiempoServicioBinom 5 (decimal 6 10) g
           in (de_int v, g')
  | 4%Z => let '(v, g') := GeneradorAleatorio.tiempoServicioGeom (decimal 1 10) g
           in (de_int v, g')
  | _ => (de_int 1, g)
  end.

Definition iniciarServicio (idEstacion : Z) (s : SimulacionColas)
    : SimulacionColas :=
  let '(idCliente, est) :=
    Estacion.iniciarServicio (tiempoActual s) (estacion idEstacion s) in
  let s1 := con_estacion idEstacion est s in
  if (idCliente <? 0)%Z then s1
  else
    let c := cliente idCliente s1 in
    let tiempoEspera := resta (tiempoActual s1) (Cliente.tiempoEntradaCola c) in
    let c1 := Cliente.con_tiempoEsperaTotal
                (suma (Cliente.tiempoEsperaTotal c) tiempoEspera) c in
    let '(tiempoServicio, g) := getTiempoServicio idEstacion (rng s1) in
    let c2 := Cliente.con_tiempoServicioTotal
                (suma (Cliente.tiempoServicioTotal c1) tiempoServicio) c1 in
    let tiempoFin := suma (tiempoActual s1) tiempoServicio in
    con_colaEventos
      (pq_push (Evento.mk tiempoFin FIN_SERVICIO idCliente idEstacion)
               (colaEventos s1))
      (con_rng g (con_cliente idCliente c2 s1)).

(** The route drawn by [procesarLlegada]: CAJAS, then one trial per
    optional station, in the order REFRESCOS, FREIDORA, POSTRES, POLLO. *)
Definition sortearRuta (probabilidades : list double) (g : GeneradorAleatorio.t)
    : list Z * GeneradorAleatorio.t :=
  let ruta := [CAJAS] in
  let '(v, g) := GeneradorAleatorio.debeVisitar
                   (probabilidades !!! Z.to_nat REFRESCOS) g in
  let ruta := if v then ruta ++ [REFRESCOS] else ruta in
  let '(v, g) := GeneradorAleatorio.debeVisitar
                   (probabilidades !!! Z.to_nat FREIDORA) g in
  let ruta := if v then ruta ++ [FREIDORA] else ruta in
  let '(v, g) := GeneradorAleatorio.debeVisitar
                   (probabilidades !!! Z.to_nat POSTRES) g in
  let ruta := if v then ruta ++ [POSTRES] else ruta in
  let '(v, g) := GeneradorAleatorio.debeVisitar
                   (probabilidades !!! Z.to_nat POLLO) g in
  let ruta := if v then ruta ++ [POLLO] else ruta in
  (ruta, g).

Definition procesarLlegada (s : SimulacionColas) : SimulacionColas :=
  let idNuevo := siguienteIdCliente s in
  let s := con_siguienteIdCliente (idNuevo + 1)%Z s in
  let '(ordenes, g) := GeneradorAleatorio.numeroOrdenes (rng s) in
  let '(ruta, g) := sortearRuta (probabilidadesEstaciones s) g in
  let c := Cliente.mk idNuevo (tiempoActual s) cero cero ruta ordenes 0
                      (tiempoActual s) in
  let s := con_clientes (clientes s ++ [c]) (con_rng g s) in
  let s := con_estacion CAJAS
             (Estacion.agregarCliente (Cliente.id c) (tiempoActual s)
                (estacion CAJAS s)) s in
  let s := if Estacion.hayServidorDisponible (estacion CAJAS s)
           then iniciarServicio CAJAS s else s in
  let '(entre, g) :=
    GeneradorAleatorio.tiempoEntreLlegadas (tasaLlegada s) (rng s) in
  let siguienteLlegada := suma (tiempoActual s) entre in
  let s := con_rng g s in
  if menor siguienteLlegada (duracionSimulacion s)
  then con_colaEventos
         (pq_push (Evento.mk siguienteLlegada LLEGADA (-1) (-1)) (colaEventos s)) s
  else s.

Definition procesarFinServicio (e : Evento.t) (s : SimulacionColas)
    : SimulacionColas :=
  let idEstacion := Evento.idEstacion e in
  let idCliente := Evento.idCliente e in
  let s := con_estacion idEstacion
             (Estacion.finalizarServicio (tiempoActual s) (estacion idEstacion s)) s in
  let c := cliente idCliente s in
  let c := Cliente.con_indiceEstacionActual
             (Cliente.indiceEstacionActual c + 1)%Z c in
  let s := con_cliente idCliente c s in
  let s :=
    if (Cliente.indiceEstacionActual c <? Z.of_nat (length (Cliente.estaciones c)))%Z
    then
      let siguienteEstacion : Z :=
        Cliente.estaciones c !!! Z.to_nat (Cliente.indiceEstacionActual c) in
      let c := Cliente.con_tiempoEntradaCola (tiempoActual s) c in
      let s := con_cliente idCliente c s in
      let s := con_estacion siguienteEstacion
                 (Estacion.agregarCliente (Cliente.id c) (tiempoActual s)
                    (estacion siguienteEstacion s)) s in
      if Estacion.hayServidorDisponible (estacion siguienteEstacion s)
      then iniciarServicio siguienteEstacion s else s
    else con_clientesCompletados (clientesCompletados s ++ [c]) s in
  if negb (Estacion.estaVacia (estacion idEstacion s))
     && Estacion.hayServidorDisponible (estacion idEstacion s)
  then iniciarServicio idEstacion s else s.

(** One iteration of the loop of [ejecutar]; [None] when the queue is
    empty and the loop ends. *)
Definition paso (s : SimulacionColas) : option SimulacionColas :=
  if pq_empty (colaEventos s) then None
  else
    let e := pq_top (colaEventos s) in
    let s := con_colaEventos (pq_pop (colaEventos s)) s in
    let s := con_tiempoActual (Evento.tiempo e) s in
    Some (match Evento.tipo e with
          | LLEGADA =>
              if menor (tiempoActual s) (duracionSimulacion s)
              then procesarLlegada s else s
          | FIN_SERVICIO => procesarFinServicio e s
          end).

(** The [while] loop, at most [n] iterations: [None] when [n] iterations
    did not empty the queue. *)
Fixpoint bucle (n : nat) (s : SimulacionColas) : option SimulacionColas :=
  match paso s with
  | None => Some s
  | Some s' => match n with
               | 0 => None
               | S n' => bucle n' s'
               end
  end.

Definition ejecutar (n : nat) (s : SimulacionColas) : option SimulacionColas :=
  s' ← bucle n s;
  Some (con_tiempoFinalReal (tiempoActual s') s').

(** The two accumulation loops of [getEstadisticas], each guarded by
    [c.indiceEstacionActual >= (int)c.estaciones.size()]. *)
Definition completo (c : Cliente.t) : bool :=
  (Cliente.indiceEstacionActual c >=? Z.of_nat (length (Cliente.estaciones c)))%Z.

Definition acumular (f : Cliente.t → double) (l : list Cliente.t) : double :=
  fold_left (λ acc c, if completo c then suma acc (f c) else acc) l cero.

Definition getEstadisticas (s : SimulacionColas) : Estadisticas.t :=
  let total := Z.of_nat (length (clientesCompletados s)) in
  if (total =? 0)%Z then
    Estadisticas.mk cero cero (replicate (Z.to_nat NUM_ESTACIONES) cero) total cero
  else
    let sumaEspera := acumular Cliente.tiempoEsperaTotal (clientesCompletados s) in
    let sumaSistema := acumular Cliente.getTiempoTotal (clientesCompletados s) in
    let promedioEspera := divi sumaEspera (de_int total) in
    let promedioSistema := divi sumaSistema (de_int total) in
    let sumaDiferenciasCuadradas :=
      acumular (λ c, let diferencia :=
                       resta (Cliente.tiempoEsperaTotal c) promedioEspera in
                     mult diferencia diferencia)
               (clientesCompletados s) in
    let varianza := divi sumaDiferenciasCuadradas (de_int total) in
    let tiempoSimulacion :=
      if mayor (tiempoFinalReal s) cero then tiempoFinalReal s
      else duracionSimulacion s in
    Estadisticas.mk promedioEspera varianza
      (map (λ i, Estacion.getUtilizacion tiempoSimulacion (estacion i s))
           [0; 1; 2; 3; 4]%Z)
      total promedioSistema.
End Motor.

(* ====================================================================== *)
(** ** ejecutarMultiplesReplicas and the search of main *)
(* ====================================================================== *)

Section Auxiliares.
Context `{Di : Distribuciones} `{Cp : !ColaPrioridad}.

(** The vectors the loop of [ejecutarMultiplesReplicas] fills, one entry
    per replica that completed a customer. *)
Record Muestras := mkMuestras {
  tiemposEspera : list double;
  tiemposSistema : list double;
  totalClientesPorReplica : list Z;
  utilizaciones : list (list double)
}.

Definition muestras_vacias : Muestras :=
  mkMuestras [] [] [] (replicate (Z.to_nat NUM_ESTACIONES) []).

(** The end of the body of the loop: the four [push_back]s, guarded by
    [stats.getTotalClientes() > 0]. *)
Definition anotar (stats : Estadisticas.t) (m : Muestras) : Muestras :=
  if (Estadisticas.totalClientes stats >? 0)%Z then
    mkMuestras
      (tiemposEspera m ++ [Estadisticas.tiempoEsperaPromedio stats])
      (tiemposSistema m ++ [Estadisticas.tiempoSistemaPromedio stats])
      (totalClientesPorReplica m ++ [Estadisticas.totalClientes stats])
      (fold_left
         (λ u j, <[j := u !!! j
                        ++ [Estadisticas.utilizacionEstaciones stats !!! j]]> u)
         (seq 0 (Z.to_nat NUM_ESTACIONES)) (utilizaciones m))
  else m.

(** The start of the body of the loop, replica [i]:
    [SimulacionColas sim(480.0, 0.8, 42 + i); sim.inicializar(config);
    sim.ejecutar(); sim.getEstadisticas()], the loop of [ejecutar] bounded
    by [n] iterations. *)
Definition replica (n : nat) (config : ConfiguracionServidores.t) (i : Z)
    : option Estadisticas.t :=
  s0 ← inicializar config
         (SimulacionColas_nueva (de_int 480) (decimal 8 10) (42 + i)%Z);
  sf ← ejecutar n s0;
  Some (getEstadisticas sf).

(** The loop, from replica [i], with [quedan] replicas to go. *)
Fixpoint replicar (n : nat) (config : ConfiguracionServidores.t) (i : Z)
    (quedan : nat) (m : Muestras) : option Muestras :=
  match quedan with
  | 0 => Some m
  | S q =>
      stats ← replica n config i;
      replicar n config (i + 1)%Z q (anotar stats m)
  end.

(** The five calls of [setUtilizacion] that end the function. *)
Fixpoint asignarUtilizaciones (js : list nat) (promedioUtilizacion : list double)
    (resultado : Estadisticas.t) : option Estadisticas.t :=
  match js with
  | [] => Some resultado
  | j :: r =>
      resultado' ← Estadisticas.setUtilizacion (Z.of_nat j)
                     (promedioUtilizacion !!! j) resultado;
      asignarUtilizaciones r promedioUtilizacion resultado'
  end.

(** What follows the loop: the averages over the replicas kept. *)
Definition promediar (m : Muestras) : option Estadisticas.t :=
  let replicasValidas := Z.of_nat (length (tiemposEspera m)) in
  resultado ← Estadisticas.inicializarPromedios NUM_ESTACIONES Estadisticas.nueva;
  if (replicasValidas =? 0)%Z then Some resultado
  else
    let promedioEspera :=
      divi (fold_left suma (tiemposEspera m) cero) (de_int replicasValidas) in
    let promedioSistema :=
      divi (fold_left suma (tiemposSistema m) cero) (de_int replicasValidas) in
    let promedioClientes :=
      Z.quot (fold_left Z.add (totalClientesPorReplica m) 0%Z) replicasValidas in
    let promedioUtilizacion :=
      map (λ j, divi (fold_left suma (utilizaciones m !!! j) cero)
                     (de_int replicasValidas))
          (seq 0 (Z.to_nat NUM_ESTACIONES)) in
    let varianza :=
      divi (fold_left (λ acc v, let d := resta v promedioEspera in
                                suma acc (mult d d))
                      (tiemposEspera m) cero)
           (de_int replicasValidas) in
    asignarUtilizaciones (seq 0 (Z.to_nat NUM_ESTACIONES)) promedioUtilizacion
      (Estadisticas.setTotalClientes promedioClientes
         (Estadisticas.setVarianzaTiempoEspera varianza
            (Estadisticas.setTiempoSistemaPromedio promedioSistema
               (Estadisticas.setTiempoEsperaPromedio promedioEspera resultado)))).

Definition ejecutarMultiplesReplicas (n : nat)
    (config : ConfiguracionServidores.t) (numReplicas : Z)
    : option Estadisticas.t :=
  m ← replicar n config 0 (Z.to_nat numReplicas) muestras_vacias;
  promediar m.

(** The loop of [main] over the candidate configurations: the body for
    one candidate, with the best waiting time and configuration so far. *)
Definition probar (n : nat) (mejor : double * ConfiguracionServidores.t)
    (config : ConfiguracionServidores.t)
    : option (double * ConfiguracionServidores.t) :=
  if negb (ConfiguracionServidores.total config =? 12)%Z then Some mejor
  else
    stats ← ejecutarMultiplesReplicas n config 10;
    if negb (Estadisticas.esEstable stats) then Some mejor
    else if menor (Estadisticas.tiempoEsperaPromedio stats) (fst mejor)
         then Some (Estadisticas.tiempoEsperaPromedio stats, config)
         else Some mejor.

Fixpoint buscar (n : nat) (configs : list ConfiguracionServidores.t)
    (mejor : double * ConfiguracionServidores.t)
    : option (double * ConfiguracionServidores.t) :=
  match configs with
  | [] => Some mejor
  | config :: r => mejor' ← probar n mejor config; buscar n r mejor'
  end.

(** The points [main] gives for the mean waiting time:
    [max(0.0, min(50.0, 50.0 * (1.0 - (W - W_min) / (W_max - W_min))))]
    with [W_min = 4.0] and [W_max = 18.0]. *)
Definition puntosMedia (W_obtenido : double) : double :=
  let W_min := de_int 4 in
  let W_max := de_int 18 in
  let puntos :=
    mult (de_int 50)
         (resta (de_int 1) (divi (resta W_obtenido W_min) (resta W_max W_min))) in
  max_double cero (min_double (de_int 50) puntos).

(** [generarConfiguracionesEnPresupuesto], of the variant of the file that
    prices the equipment: five nested loops over the counts. *)
Definition generarConfiguracionesEnPresupuesto (presupuestoMax : Z)
    : list ConfiguracionServidores.t :=
  c ← [1; 2; 3; 4]%Z;
  r ← [1; 2; 3]%Z;
  f ← [1; 2; 3]%Z;
  p ← [0; 1; 2]%Z;
  pl ← [1; 2; 3; 4]%Z;
  let config := ConfiguracionServidores.mk c r f p pl in
  if (ConfiguracionServidores.calcularCosto config <=? presupuestoMax)%Z
  then [config] else [].
End Auxiliares.

(* ====================================================================== *)
(** ** Instances *)
(* ====================================================================== *)

(** *** Exact rational arithmetic *)

(** [round] to the nearest integer, halves away from zero. *)
Definition Q_redondeo (q : Q) : Z :=
  let n := Qnum q in
  let d := Zpos (Qden q) in
  if (n <? 0)%Z then (- ((2 * (- n) + d) / (2 * d)))%Z
  else ((2 * n + d) / (2 * d))%Z.

Definition Arit_Q : Aritmetica := {|
  double := Q;
  suma := λ a b, Qred (Qplus a b);
  resta := λ a b, Qred (Qminus a b);
  mult := λ a b, Qred (Qmult a b);
  divi := λ a b, Qred (Qdiv a b);
  menor := λ a b, negb (Qle_bool b a);
  igual := Qeq_bool;
  de_int := inject_Z;
  redondeo := Q_redondeo
|}.

(** *** IEEE binary64 *)

(** [(double) z]: exact for an [int]; beyond 63 bits the greatest
    magnitude converted. *)
Definition float_de_int (z : Z) : float :=
  let m := PrimFloat.of_uint63 (of_Z (Z.min (Z.abs z) (2 ^ 63 - 1))) in
  if (z <? 0)%Z then PrimFloat.opp m else m.

Definition float_redondeo (f : float) : Z :=
  match Prim2SF f with
  | S754_finite s m e =>
      let a := if (0 <=? e)%Z then (Zpos m * 2 ^ e)%Z
               else ((2 * Zpos m + 2 ^ (- e)) / (2 * 2 ^ (- e)))%Z in
      if s then (- a)%Z else a
  | _ => 0%Z
  end.

Definition Arit_float : Aritmetica := {|
  double := float;
  suma := PrimFloat.add;
  resta := PrimFloat.sub;
  mult := PrimFloat.mul;
  divi := PrimFloat.div;
  menor := PrimFloat.ltb;
  igual := PrimFloat.eqb;
  de_int := float_de_int;
  redondeo := float_redondeo
|}.

(** The place of a binary64 value in the order of [<]: none for a NaN;
    the infinities at the ends, the two zeros together in the middle, the
    negative numbers by descending and the positive numbers by ascending
    exponent and mantissa. *)
Definition clave (f : spec_float) : option (Z * Z * Z) :=
  match f with
  | S754_nan => None
  | S754_infinity s => Some (if s then (-2, 0, 0) else (2, 0, 0))%Z
  | S754_zero _ => Some (0, 0, 0)%Z
  | S754_finite s m e =>
      Some (if s then (-1, - e, Z.neg m) else (1, e, Z.pos m))%Z
  end.

Definition clave_menor (a b : Z * Z * Z) : Prop :=
  (a.1.1 < b.1.1 ∨
   (a.1.1 = b.1.1 ∧ (a.1.2 < b.1.2 ∨ (a.1.2 = b.1.2 ∧ a.2 < b.2))))%Z.

Definition clave_igual (a b : Z * Z * Z) : Prop :=
  (a.1.1 = b.1.1 ∧ a.1.2 = b.1.2 ∧ a.2 = b.2)%Z.

(** *** Rounding in binary64

    What the proofs of the laws of the arithmetic say of [SpecFloat]'s
    rounding. *)

(** [k] shifts of [M]: the quotient by [2 ^ k], and no round or sticky bit
    when the division is exact. *)
Definition desplazado (M k : Z) (mrs : shr_record) : Prop :=
  shr_m mrs = (M / 2 ^ k)%Z ∧
  ((M mod 2 ^ k)%Z = 0%Z → shr_r mrs = false ∧ shr_s mrs = false).

(** The result of rounding [m * 2 ^ e], given on the grid of exponent
    [E = fexp (digits m + e)]: a mantissa between the quotient of [m] by
    [2 ^ (E - e)] and its successor, the quotient when the division is
    exact. *)
Definition redondeado (sx : bool) (m2 E : Z) : spec_float :=
  if (m2 =? 0)%Z then S754_zero sx
  else if (m2 <? 2 ^ 53)%Z then
    if (E <=? 971)%Z then S754_finite sx (Z.to_pos m2) E else S754_infinity sx
  else
    if (E + 1 <=? 971)%Z then S754_finite sx (Z.to_pos (2 ^ 52)) (E + 1)
    else S754_infinity sx.

(** The value of a mantissa and an exponent, as a multiple of the least
    positive number. *)
Definition peso (m : positive) (e : Z) : Z := (Z.pos m * 2 ^ (e + 1074))%Z.

(** A rounded value is a zero, a number or an infinity of the sign. *)
Inductive con_signo (s : bool) : spec_float → Prop :=
  | signo_cero : con_signo s (S754_zero s)
  | signo_finito m e : con_signo s (S754_finite s m e)
  | signo_infinito : con_signo s (S754_infinity s).

(** The laws of [LeyesSuma] as tests, at the values [vs] and the integers
    [ns]. *)
Section Muestra.
Context `{Ar : Aritmetica}.

Definition numero (a : double) : bool := igual a a.
Definition no_mayorb (a b : double) : bool := negb (menor b a).

Definition leyes_suma_en (vs : list double) (ns : list Z) : bool :=
  let en1 (P : double → bool) := forallb P vs in
  let en2 (P : double → double → bool) := forallb (λ a, forallb (P a) vs) vs in
  let enz (P : Z → double → bool) := forallb (λ n, forallb (P n) vs) ns in
  en2 (λ a b, implb (no_mayorb cero b) (no_mayorb a (suma a b)))
  && en2 (λ a b, implb (no_mayorb a b) (no_mayorb cero (resta b a)))
  && enz (λ n a, implb ((0 <=? n)%Z && no_mayorb cero a)
                       (no_mayorb cero (mult (de_int n) a)))
  && en2 (λ a b, implb (numero a && numero b
                        && no_mayorb cero a && no_mayorb cero b)
                       (numero (suma a b)))
  && en2 (λ a b, implb (numero (suma a b)) (numero a))
  && forallb (λ n, numero (de_int n)) ns
  && forallb (λ n, implb (0 <=? n)%Z (no_mayorb cero (de_int n))) ns
  && enz (λ n a, implb (negb (n =? 0)%Z && numero a)
                       (numero (mult (de_int n) a)))
  && enz (λ n a, implb (negb (n =? 0)%Z && negb (igual a cero))
                       (negb (igual (mult (de_int n) a) cero)))
  && en2 (λ a b, implb (igual a cero && igual b cero) (igual (suma a b) cero))
  && en2 (λ a b, implb (igual a cero && igual b cero) (igual (resta a b) cero))
  && enz (λ n a, implb (igual a cero) (igual (mult (de_int n) a) cero))
  && en2 (λ a b, implb (igual a cero && numero b && negb (igual b cero))
                       (igual (divi a b) cero)).
End Muestra.

Definition muestra_binary64 : list float :=
  [PrimFloat.nan; PrimFloat.infinity; PrimFloat.neg_infinity;
   0; -0; 1; -1; 0.5; -0.5; 3; 480; 8 / 10; 4 / 10; 1333 / 1000;
   0x1p-1074; -0x1p-1074; 0x1.fffffffffffffp1023; -0x1.fffffffffffffp1023;
   0x1p-1022; 0x1p53; 0x1.0000000000001p0; 0x1p996; 0x1p-997]%float.

Definition muestra_enteros : list Z :=
  [- 2 ^ 64; - 2 ^ 63; -5; -1; 0; 1; 2; 5; 12; 480; 2147483647;
   2 ^ 63 - 1; 2 ^ 63; 2 ^ 64 + 3]%Z.

Definition leyes_en_muestra : bool :=
  @leyes_suma_en Arit_float muestra_binary64 muestra_enteros.

(** *** A list as event queue

    [push] appends; [top] is the earliest-inserted event among those of
    least time. *)
Section ColaLista.
Context `{Ar : Aritmetica}.

(** The least element of [e :: l] and the other elements, in order. *)
Fixpoint extraer_min (e : Evento.t) (l : list Evento.t)
    : Evento.t * list Evento.t :=
  match l with
  | [] => (e, [])
  | x :: r =>
      let '(m, r') := extraer_min x r in
      if Evento.gt e m then (m, e :: r') else (e, x :: r)
  end.

Definition lista_top (q : list Evento.t) : Evento.t :=
  match q with
  | [] => Evento.mk cero LLEGADA (-1) (-1)
  | e :: l => fst (extraer_min e l)
  end.

Definition lista_pop (q : list Evento.t) : list Evento.t :=
  match q with
  | [] => []
  | e :: l => snd (extraer_min e l)
  end.

Definition Cola_lista : ColaPrioridad := {|
  cola := list Evento.t;
  pq_nueva := [];
  pq_empty := λ q, match q with [] => true | _ => false end;
  pq_size := length;
  pq_top := lista_top;
  pq_pop := lista_pop;
  pq_push := λ e q, q ++ [e];
  contenido := λ q, q
|}.
End ColaLista.

(** *** A small generator over the rationals

    A linear congruential state; every draw is a fixed function of the
    next state.  Gaps between arrivals lie in [[1/4, 4]] divided by the
    rate, uniform draws in [[0, 1)]. *)
Definition lcg (g : Z) : Z := ((g * 1103515245 + 12345) mod 2147483648)%Z.

Definition lcg_exponential (lambda : Q) (g : Z) : Q * Z :=
  let g' := lcg g in
  (Qred (Qdiv (Qmake (1 + (g' / 65536) mod 16) 4) lambda), g').

Definition lcg_normal (media desv : Q) (g : Z) : Q * Z :=
  let g' := lcg g in
  (Qred (Qplus media (Qmult desv (Qmake ((g' / 65536) mod 5 - 2) 1))), g').

Definition lcg_binomial (n : Z) (p : Q) (g : Z) : Z * Z :=
  let g' := lcg g in (((g' / 65536) mod (n + 1))%Z, g').

Definition lcg_geometric (p : Q) (g : Z) : Z * Z :=
  let g' := lcg g in (((g' / 65536) mod 8)%Z, g').

Definition lcg_uniform (a b : Q) (g : Z) : Q * Z :=
  let g' := lcg g in
  (Qred (Qplus a (Qmult (Qminus b a) (Qmake ((g' / 65536) mod 1000) 1000))), g').

Definition Dist_lcg : @Distribuciones Arit_Q :=
  @Build_Distribuciones Arit_Q Z (λ semilla, semilla)
    lcg_exponential lcg_normal lcg_binomial lcg_geometric lcg_uniform.

(** *** A generator whose gaps between arrivals are all 0

    The other draws are those of the small generator. *)
Definition Dist_cero : @Distribuciones Arit_Q :=
  @Build_Distribuciones Arit_Q Z (λ semilla, semilla)
    (λ _ g, (0%Q, lcg g)) lcg_normal lcg_binomial lcg_geometric lcg_uniform.

(* ====================================================================== *)
(** ** Assumptions on the library code *)
(* ====================================================================== *)

(** Laws of [<] and [==] on [double], and the signs of the literals the
    program compares with.  They hold of the rationals and of IEEE
    binary64, where every comparison with a NaN is false: a law that would
    fail at a NaN asks for a number, [es_numero]. *)
Class LeyesOrden `{Ar : Aritmetica} : Prop := {
  menor_irrefl : ∀ a, menor a a = false;
  menor_asim : ∀ a b, menor a b = true → menor b a = false;
  menor_numero : ∀ a b, menor a b = true → es_numero a ∧ es_numero b;
  no_mayor_trans : ∀ a b c,
    es_numero b → no_mayor a b → no_mayor b c → no_mayor a c;
  menor_no_mayor : ∀ a b c,
    es_numero c → menor a b = true → no_mayor b c → menor a c = true;
  tricotomia : ∀ a b,
    es_numero a → es_numero b → menor a b = false → menor b a = false →
    igual a b = true;
  igual_menor : ∀ a b c,
    igual a b = true → menor a c = menor b c ∧ menor c a = menor c b;
  igual_cero : igual cero cero = true;
  uno_pos : menor cero (de_int 1) = true;
  tasa_cajas_pos : menor cero (decimal 4 10) = true;
  tasa_refrescos_pos : menor cero (decimal 1333 1000) = true;
  tasa_llegada_pos : menor cero (decimal 8 10) = true
}.

(** Laws of the arithmetic on [double].  They hold of the rationals, and
    of IEEE binary64 by its rounding: a sum, a difference or a product is
    the exact result rounded to nearest, which keeps the order and the
    sign; an operation on a NaN gives a NaN; the conversion of an [int] is
    a number of its sign.  [Suma_Q] and [Suma_float] prove them. *)
Class LeyesSuma `{Ar : Aritmetica} : Prop := {
  suma_no_neg : ∀ a b, no_mayor cero b → no_mayor a (suma a b);
  resta_no_neg : ∀ a b, no_mayor a b → no_mayor cero (resta b a);
  mult_no_neg : ∀ n a, (0 ≤ n)%Z → no_mayor cero a →
                       no_mayor cero (mult (de_int n) a);
  suma_numero : ∀ a b,
    es_numero a → es_numero b → no_mayor cero a → no_mayor cero b →
    es_numero (suma a b);
  suma_nan : ∀ a b, es_numero (suma a b) → es_numero a;
  de_int_numero : ∀ n, es_numero (de_int n);
  de_int_no_neg : ∀ n, (0 ≤ n)%Z → no_mayor cero (de_int n);
  mult_numero : ∀ n a, n ≠ 0%Z → es_numero a → es_numero (mult (de_int n) a);
  mult_no_cero : ∀ n a, n ≠ 0%Z → igual a cero = false →
                        igual (mult (de_int n) a) cero = false;
  suma_cero : ∀ a b, igual a cero = true → igual b cero = true →
                     igual (suma a b) cero = true;
  resta_cero : ∀ a b, igual a cero = true → igual b cero = true →
                      igual (resta a b) cero = true;
  mult_cero : ∀ n a, igual a cero = true → igual (mult (de_int n) a) cero = true;
  divi_cero : ∀ a b, igual a cero = true → es_numero b → igual b cero = false →
                     igual (divi a b) cero = true
}.

(** Addition without rounding, and no NaN: laws of the rationals that
    binary64 does not have.  They serve to bound the arrivals of a
    generator whose gaps have a positive lower bound, nowhere else. *)
Class LeyesExactas `{Ar : Aritmetica} : Prop := {
  todo_numero : ∀ a, es_numero a;
  suma_no_mayor : ∀ a b c d,
    no_mayor a b → no_mayor c d → no_mayor (suma a c) (suma b d)
}.

(** Ranges of the draws: an exponential draw of positive rate is a number
    and not negative, a geometric draw is not negative, a uniform draw on
    [[a, b)] with [a <= b] is not below [a]. *)
Class DistribucionesOk `{Di : Distribuciones} : Prop := {
  exponential_no_neg : ∀ lambda g,
    menor cero lambda = true →
    es_numero (fst (exponential_distribution lambda g)) ∧
    no_mayor cero (fst (exponential_distribution lambda g));
  geometric_no_neg : ∀ p g, (0 ≤ fst (geometric_distribution p g))%Z;
  uniform_no_menor : ∀ a b g,
    no_mayor a b → menor (fst (uniform_real_distribution a b g)) a = false
}.

(* ====================================================================== *)
(** ** Quantities the invariants are stated with *)
(* ====================================================================== *)

(** Number of elements of [l] that satisfy [P]. *)
Definition cuenta {A} (P : A → bool) (l : list A) : nat :=
  sum_list_with (λ x, if P x then 1 else 0) l.

Section Medidas.
Context `{Di : Distribuciones} `{Cp : !ColaPrioridad}.

(** The events in the queue. *)
Definition eventos (s : SimulacionColas) : list Evento.t :=
  contenido (colaEventos s).

Definition es_llegada (e : Evento.t) : bool :=
  TipoEvento_eqb (Evento.tipo e) LLEGADA.

(** [e] is the end of a service of customer [i]. *)
Definition es_fin_de (i : Z) (e : Evento.t) : bool :=
  TipoEvento_eqb (Evento.tipo e) FIN_SERVICIO && (Evento.idCliente e =? i)%Z.

(** [e] is the end of a service at station [k]. *)
Definition es_fin_en (k : Z) (e : Evento.t) : bool :=
  TipoEvento_eqb (Evento.tipo e) FIN_SERVICIO && (Evento.idEstacion e =? k)%Z.

(** How many times customer [i] stands in a waiting queue. *)
Definition en_cola (i : Z) (s : SimulacionColas) : nat :=
  sum_list_with (λ e, cuenta (Z.eqb i) (Estacion.colaEspera e)) (estaciones s).

(** How many service ends are scheduled for customer [i]. *)
Definition en_servicio (i : Z) (s : SimulacionColas) : nat :=
  cuenta (es_fin_de i) (eventos s).

(** How many times customer [i] is in the completed list. *)
Definition completado (i : Z) (s : SimulacionColas) : nat :=
  cuenta (λ c, (Cliente.id c =? i)%Z) (clientesCompletados s).

(** What [procesarLlegada] can draw as a route: CAJAS first, at most five
    stations, each a station id. *)
Definition ruta_ok (r : list Z) : Prop :=
  head r = Some CAJAS ∧ length r ≤ 5 ∧ Forall (λ k, (0 ≤ k < 5)%Z) r.

(** The customer has stations left to visit. *)
Definition en_ruta (c : Cliente.t) : bool :=
  (Cliente.indiceEstacionActual c <? Z.of_nat (length (Cliente.estaciones c)))%Z.

(** The invariant of the engine between two events, once initialised. *)
Record Inv (s : SimulacionColas) : Prop := {
  inv_estaciones : length (estaciones s) = 5;
  inv_siguiente : siguienteIdCliente s = Z.of_nat (length (clientes s));
  inv_cliente : ∀ i c, clientes s !! i = Some c →
    Cliente.id c = Z.of_nat i ∧ ruta_ok (Cliente.estaciones c) ∧
    (0 ≤ Cliente.indiceEstacionActual c
       ≤ Z.of_nat (length (Cliente.estaciones c)))%Z;
  inv_colas : ∀ k e j, estaciones s !! k = Some e →
    j ∈ Estacion.colaEspera e →
    (0 ≤ j < Z.of_nat (length (clientes s)))%Z;
  inv_eventos : ∀ e, e ∈ eventos s → Evento.tipo e = FIN_SERVICIO →
    (0 ≤ Evento.idCliente e < Z.of_nat (length (clientes s)))%Z ∧
    (0 ≤ Evento.idEstacion e < 5)%Z;
  inv_pendiente : ∀ i c, clientes s !! i = Some c →
    en_cola (Z.of_nat i) s + en_servicio (Z.of_nat i) s
    = if en_ruta c then 1 else 0;
  inv_completado : ∀ i c, clientes s !! i = Some c →
    completado (Z.of_nat i) s = if en_ruta c then 0 else 1;
  inv_copia : ∀ d, d ∈ clientesCompletados s →
    (0 ≤ Cliente.id d)%Z ∧ clientes s !! Z.to_nat (Cliente.id d) = Some d
}.

(** Reachable states: the constructor, then [inicializar], iterations of
    the loop of [ejecutar] and its last assignment, in any order. *)
Inductive Alcanzable (s0 : SimulacionColas) : SimulacionColas → Prop :=
| alc_inicio : Alcanzable s0 s0
| alc_inicializar s config s' :
    Alcanzable s0 s → inicializar config s = Some s' → Alcanzable s0 s'
| alc_paso s s' :
    Alcanzable s0 s → paso s = Some s' → Alcanzable s0 s'
| alc_fin s :
    Alcanzable s0 s → paso s = None →
    Alcanzable s0 (con_tiempoFinalReal (tiempoActual s) s).
End Medidas.

(* ====================================================================== *)
(** ** The handlers in parts

    The pieces of [iniciarServicio], [procesarLlegada], [procesarFinServicio]
    and [paso] between which the invariants are stated.  The lemmas
    [iniciarServicio_casos], [procesarLlegada_eq], [procesarFinServicio_eq]
    and [paso_eq] relate them to the handlers. *)
(* ====================================================================== *)

Section Partes.
Context `{Di : Distribuciones} `{Cp : !ColaPrioridad}.

(** The body of [iniciarServicio] after its early return. *)
Definition atender (idCliente idEstacion : Z) (s1 : SimulacionColas) :=
  let c := cliente idCliente s1 in
  let tiempoEspera := resta (tiempoActual s1) (Cliente.tiempoEntradaCola c) in
  let c1 := Cliente.con_tiempoEsperaTotal
              (suma (Cliente.tiempoEsperaTotal c) tiempoEspera) c in
  let '(tiempoServicio, g) := getTiempoServicio idEstacion (rng s1) in
  let c2 := Cliente.con_tiempoServicioTotal
              (suma (Cliente.tiempoServicioTotal c1) tiempoServicio) c1 in
  let tiempoFin := suma (tiempoActual s1) tiempoServicio in
  con_colaEventos
    (pq_push (Evento.mk tiempoFin FIN_SERVICIO idCliente idEstacion)
             (colaEventos s1))
    (con_rng g (con_cliente idCliente c2 s1)).

(** The station after [Estacion.iniciarServicio] took a customer. *)
Definition ocupar (t : double) (i : nat) (resto : list Z) (est : Estacion.t) :=
  Estacion.actualizarTiempoOcupado t
    (Estacion.con_servidor i true (Estacion.con_colaEspera resto est)).

(** The customer [procesarLlegada] creates, and the generator after the
    draws of the order count and of the route. *)
Definition cliente_nuevo (s : SimulacionColas) : Cliente.t * GeneradorAleatorio.t :=
  let '(ordenes, g) := GeneradorAleatorio.numeroOrdenes (rng s) in
  let '(ruta, g) := sortearRuta (probabilidadesEstaciones s) g in
  (Cliente.mk (siguienteIdCliente s) (tiempoActual s) cero cero ruta ordenes 0
              (tiempoActual s), g).

(** [procesarLlegada] up to the customer standing in the queue of CAJAS. *)
Definition llegar (s : SimulacionColas) : SimulacionColas :=
  let '(c, g) := cliente_nuevo s in
  con_estacion CAJAS
    (Estacion.agregarCliente (Cliente.id c) (tiempoActual s) (estacion CAJAS s))
    (con_clientes (clientes s ++ [c])
       (con_rng g (con_siguienteIdCliente (siguienteIdCliente s + 1)%Z s))).

(** The end of [procesarLlegada]: the next arrival. *)
Definition programar (s : SimulacionColas) : SimulacionColas :=
  let '(entre, g) :=
    GeneradorAleatorio.tiempoEntreLlegadas (tasaLlegada s) (rng s) in
  let siguienteLlegada := suma (tiempoActual s) entre in
  let s := con_rng g s in
  if menor siguienteLlegada (duracionSimulacion s)
  then con_colaEventos
         (pq_push (Evento.mk siguienteLlegada LLEGADA (-1) (-1)) (colaEventos s)) s
  else s.

(** The customer of the event with its route index advanced. *)
Definition cliente_avanzado (e : Evento.t) (s : SimulacionColas) : Cliente.t :=
  let c := cliente (Evento.idCliente e) s in
  Cliente.con_indiceEstacionActual (Cliente.indiceEstacionActual c + 1)%Z c.

(** The station the customer of the event goes to next, if any. *)
Definition siguiente_de (e : Evento.t) (s : SimulacionColas) : option Z :=
  let c := cliente_avanzado e s in
  if en_ruta c
  then Some (Cliente.estaciones c !!! Z.to_nat (Cliente.indiceEstacionActual c))
  else None.

(** [procesarFinServicio] up to the customer standing in the next queue, or
    in the completed list. *)
Definition avanzar (e : Evento.t) (s : SimulacionColas) : SimulacionColas :=
  let idEstacion := Evento.idEstacion e in
  let idCliente := Evento.idCliente e in
  let c := cliente_avanzado e s in
  let s1 := con_cliente idCliente c
              (con_estacion idEstacion
                 (Estacion.finalizarServicio (tiempoActual s) (estacion idEstacion s))
                 s) in
  match siguiente_de e s with
  | Some siguienteEstacion =>
      let c := Cliente.con_tiempoEntradaCola (tiempoActual s) c in
      let s2 := con_cliente idCliente c s1 in
      con_estacion siguienteEstacion
        (Estacion.agregarCliente (Cliente.id c) (tiempoActual s)
           (estacion siguienteEstacion s2)) s2
  | None => con_clientesCompletados (clientesCompletados s1 ++ [c]) s1
  end.

(** The state in which [paso] handles the event it took from the queue. *)
Definition extraido (s : SimulacionColas) : SimulacionColas :=
  con_tiempoActual (Evento.tiempo (pq_top (colaEventos s)))
    (con_colaEventos (pq_pop (colaEventos s)) s).

(** Before [inicializar]: nothing in the engine. *)
Definition Previo (s : SimulacionColas) : Prop :=
  estaciones s = [] ∧ clientes s = [] ∧ clientesCompletados s = [] ∧
  eventos s = [].
End Partes.

(* ====================================================================== *)
(** ** Relations and measures the proofs are stated with *)
(* ====================================================================== *)

Section Analisis.
Context `{Di : Distribuciones} `{Cp : !ColaPrioridad}.

Implicit Types (s : SimulacionColas) (e : Evento.t) (c : Cliente.t).

(** What starting a service leaves alone in a customer. *)
Definition mismo_progreso (c c' : Cliente.t) : Prop :=
  Cliente.id c' = Cliente.id c ∧
  Cliente.estaciones c' = Cliente.estaciones c ∧
  Cliente.indiceEstacionActual c' = Cliente.indiceEstacionActual c ∧
  Cliente.tiempoLlegada c' = Cliente.tiempoLlegada c ∧
  Cliente.tiempoEntradaCola c' = Cliente.tiempoEntradaCola c.

(** [s'] has the customers of [s], each with the same progress, and the
    same clock, horizon, rate, routing table and completed list. *)
Definition marco (s s' : SimulacionColas) : Prop :=
  length (clientes s') = length (clientes s) ∧
  (∀ i c, clientes s !! i = Some c →
          ∃ c', clientes s' !! i = Some c' ∧ mismo_progreso c c') ∧
  tiempoActual s' = tiempoActual s ∧
  duracionSimulacion s' = duracionSimulacion s ∧
  tasaLlegada s' = tasaLlegada s ∧
  probabilidadesEstaciones s' = probabilidadesEstaciones s ∧
  clientesCompletados s' = clientesCompletados s.

(** One call of a method of a station at time [t]. *)
Inductive EstPaso (t : double) : Estacion.t → Estacion.t → Prop :=
| ep_agregar est j : EstPaso t est (Estacion.agregarCliente j t est)
| ep_ocupar est i j resto :
    Estacion.colaEspera est = j :: resto →
    primer_indice false (Estacion.servidorOcupado est) = Some i →
    EstPaso t est (ocupar t i resto est)
| ep_finalizar est : EstPaso t est (Estacion.finalizarServicio t est).

(** An event scheduled at time [t]: the next arrival, before the horizon,
    or the end of a service at a station of [ks]. *)
Definition NuevoEvento (t dur tasa : double) (ks : list Z) (e : Evento.t) : Prop :=
  (Evento.tipo e = LLEGADA ∧ menor (Evento.tiempo e) dur = true ∧
   ∃ g, Evento.tiempo e
        = suma t (fst (GeneradorAleatorio.tiempoEntreLlegadas tasa g))) ∨
  (Evento.tipo e = FIN_SERVICIO ∧ Evento.idEstacion e ∈ ks ∧
   ∃ g, Evento.tiempo e
        = suma t (fst (getTiempoServicio (Evento.idEstacion e) g))).

(** From [s] to [s'] the stations of [ks] went through calls of their
    methods at the clock, the other stations did not change, and the new
    events are as [NuevoEvento] says. *)
Definition cambio (ks : list Z) (s s' : SimulacionColas) : Prop :=
  (∀ k est', estaciones s' !! k = Some est' →
     ∃ est, estaciones s !! k = Some est ∧
            rtc (EstPaso (tiempoActual s)) est est' ∧
            (est' = est ∨ Z.of_nat k ∈ ks)) ∧
  (∀ e, e ∈ eventos s' →
     e ∈ eventos s ∨
     NuevoEvento (tiempoActual s) (duracionSimulacion s) (tasaLlegada s) ks e).

(** The stations an event can touch. *)
Definition tocadas (e : Evento.t) (s : SimulacionColas) : list Z :=
  match Evento.tipo e with
  | LLEGADA => [CAJAS]
  | FIN_SERVICIO =>
      Evento.idEstacion e ::
      match siguiente_de e s with Some k => [k] | None => [] end
  end.

(** Between two events the clock is a number and not negative, every
    scheduled event is at a number not before the clock, and no station
    changed after it. *)
Definition TInv (s : SimulacionColas) : Prop :=
  es_numero (tiempoActual s) ∧ no_mayor cero (tiempoActual s) ∧
  (∀ e, e ∈ eventos s →
        es_numero (Evento.tiempo e) ∧
        no_mayor (tiempoActual s) (Evento.tiempo e)) ∧
  (∀ k est, estaciones s !! k = Some est →
            no_mayor (Estacion.tiempoUltimoCambio est) (tiempoActual s)).

(** A run of the loop of [ejecutar] from [s0]: the events taken from the
    queue, in the order they were taken, and the state reached. *)
Inductive Corrida (s0 : SimulacionColas)
    : list Evento.t → SimulacionColas → Prop :=
| corrida_nil : Corrida s0 [] s0
| corrida_paso tr s s' :
    Corrida s0 tr s → paso s = Some s' →
    Corrida s0 (tr ++ [pq_top (colaEventos s)]) s'.

(** The times at which a service of customer [i] ended, oldest first. *)
Definition tiempos_fin (i : nat) (tr : list Evento.t) : list double :=
  Evento.tiempo <$> filter (λ e, es_fin_de (Z.of_nat i) e = true) tr.

(** What the events processed so far say about the customers. *)
Definition TrInv (tr : list Evento.t) (s : SimulacionColas) : Prop :=
  (∀ e, e ∈ tr → Evento.tipo e = FIN_SERVICIO →
        (0 ≤ Evento.idCliente e < Z.of_nat (length (clientes s)))%Z) ∧
  (∀ i c, clientes s !! i = Some c →
     Cliente.indiceEstacionActual c
     = Z.of_nat (cuenta (es_fin_de (Z.of_nat i)) tr) ∧
     menor (Cliente.tiempoLlegada c) (duracionSimulacion s) = true ∧
     (en_ruta c = true →
      Cliente.tiempoEntradaCola c
      = default (Cliente.tiempoLlegada c) (last (tiempos_fin i tr)))).

Definition es_fin (e : Evento.t) : bool :=
  TipoEvento_eqb (Evento.tipo e) FIN_SERVICIO.

(** Visits the customers have still to queue for, after the current one. *)
Definition futuras (s : SimulacionColas) : nat :=
  sum_list_with
    (λ c, Z.to_nat (Z.of_nat (length (Cliente.estaciones c))
                    - Cliente.indiceEstacionActual c - 1))
    (clientes s).

(** Customers standing in a waiting queue. *)
Definition encolados (s : SimulacionColas) : nat :=
  sum_list_with (λ x, length (Estacion.colaEspera x)) (estaciones s).

Definition fines (s : SimulacionColas) : nat := cuenta es_fin (eventos s).

Definition llegadas (s : SimulacionColas) : nat := cuenta es_llegada (eventos s).

(** The work left with no arrival scheduled. *)
Definition trabajo (s : SimulacionColas) : nat :=
  2 * (futuras s + encolados s) + fines s.

(** A bound on the iterations left when at most [N] customers can arrive. *)
Definition potencial (N : nat) (s : SimulacionColas) : nat :=
  llegadas s * (1 + 11 * (N - length (clientes s))) + trabajo s.

(** [n] times [δ], added up from the left. *)
Fixpoint multiplo (n : nat) (δ : double) : double :=
  match n with
  | 0 => cero
  | S m => match m with
           | 0 => δ
           | S _ => suma (multiplo m δ) δ
           end
  end.

(** At most one arrival is scheduled, and not before the time the gaps
    of the customers so far add up to. *)
Definition RInv (δ : double) (s : SimulacionColas) : Prop :=
  llegadas s ≤ 1 ∧
  ∀ e, e ∈ eventos s → Evento.tipo e = LLEGADA →
       no_mayor (multiplo (S (length (clientes s))) δ) (Evento.tiempo e).

(** The facts about [s] the bound needs: every gap between arrivals is
    at least [δ], and [N] gaps reach the horizon. *)
Definition Acotado (δ : double) (N : nat) (s : SimulacionColas) : Prop :=
  (∀ g, no_mayor δ (fst (GeneradorAleatorio.tiempoEntreLlegadas (tasaLlegada s) g))) ∧
  no_mayor (duracionSimulacion s) (multiplo N δ).

(** No run from [s0] has more than [N] customers. *)
Definition LlegadasAcotadas (N : nat) (s0 : SimulacionColas) : Prop :=
  ∀ tr s, Corrida s0 tr s → length (clientes s) ≤ N.

(** An arrival is scheduled, and before the horizon. *)
Definition llegada_pendiente (s : SimulacionColas) : Prop :=
  llegadas s = 1 ∧
  ∀ e, e ∈ eventos s → Evento.tipo e = LLEGADA →
       menor (Evento.tiempo e) (duracionSimulacion s) = true.

(** The route as the spec describes it: CAJAS, then each optional station
    whose trial succeeded, in the fixed order. *)
Definition ruta_de (b1 b2 b3 b4 : bool) : list Z :=
  CAJAS :: (if b1 then [REFRESCOS] else []) ++ (if b2 then [FREIDORA] else [])
        ++ (if b3 then [POSTRES] else []) ++ (if b4 then [POLLO] else []).


(** A full run: [inicializar], then [ejecutar] with at most [n]
    iterations of its loop. *)
Definition simular (config : ConfiguracionServidores.t) (n : nat)
    (s : SimulacionColas) : option SimulacionColas :=
  s0 ← inicializar config s; ejecutar n s0.

(** [procesarFinServicio] after the customer was served at the next
    station, if a server was free there. *)
Definition tras_siguiente (e : Evento.t) (s : SimulacionColas) : SimulacionColas :=
  let sa := avanzar e s in
  match siguiente_de e s with
  | Some k => if Estacion.hayServidorDisponible (estacion k sa)
              then iniciarServicio k sa else sa
  | None => sa
  end.

(** The calls of [iniciarServicio] in a run from [s0]: the events taken
    from the queue up to the call, the station, and the state in which
    the call is made.  [procesarLlegada] calls it for CAJAS;
    [procesarFinServicio] for the next station of the customer, and then
    for the station that just released a server. *)
Inductive Llamada (s0 : SimulacionColas)
    : list Evento.t → Z → SimulacionColas → Prop :=
| llamada_llegada tr s :
    Corrida s0 tr s → pq_empty (colaEventos s) = false →
    Evento.tipo (pq_top (colaEventos s)) = LLEGADA →
    menor (Evento.tiempo (pq_top (colaEventos s))) (duracionSimulacion s) = true →
    Estacion.hayServidorDisponible (estacion CAJAS (llegar (extraido s))) = true →
    Llamada s0 (tr ++ [pq_top (colaEventos s)]) CAJAS (llegar (extraido s))
| llamada_siguiente tr s k :
    Corrida s0 tr s → pq_empty (colaEventos s) = false →
    Evento.tipo (pq_top (colaEventos s)) = FIN_SERVICIO →
    siguiente_de (pq_top (colaEventos s)) (extraido s) = Some k →
    Estacion.hayServidorDisponible
      (estacion k (avanzar (pq_top (colaEventos s)) (extraido s))) = true →
    Llamada s0 (tr ++ [pq_top (colaEventos s)]) k
            (avanzar (pq_top (colaEventos s)) (extraido s))
| llamada_misma tr s :
    Corrida s0 tr s → pq_empty (colaEventos s) = false →
    Evento.tipo (pq_top (colaEventos s)) = FIN_SERVICIO →
    let e := pq_top (colaEventos s) in
    let sb := tras_siguiente e (extraido s) in
    negb (Estacion.estaVacia (estacion (Evento.idEstacion e) sb))
    && Estacion.hayServidorDisponible (estacion (Evento.idEstacion e) sb) = true →
    Llamada s0 (tr ++ [e]) (Evento.idEstacion e) sb.

End Analisis.

(* ====================================================================== *)
(** ** The statistics as the specification words them *)
(* ====================================================================== *)

Section Referencia.
Context `{Ar : Aritmetica}.

(** The sum, accumulated from 0 in the order of the list. *)
Definition sumatoria (l : list double) : double := fold_left suma l cero.

(** The sum divided by the count. *)
Definition media (l : list double) : double :=
  divi (sumatoria l) (de_int (Z.of_nat (length l))).

(** The population variance: the mean of the squared differences to the
    mean, dividing by the count. *)
Definition varianza_poblacional (l : list double) : double :=
  media ((λ x, mult (resta x (media l)) (resta x (media l))) <$> l).

End Referencia.

(* ====================================================================== *)
(** ** Invariants of the stations, of the customers and of the replicas *)
(* ====================================================================== *)

Section Analisis2.
Context `{Di : Distribuciones} `{Cp : !ColaPrioridad}.

Implicit Types (s : SimulacionColas) (e : Evento.t) (c : Cliente.t).

(** Customer [j] is at station [k]: the station its route index points to. *)
Definition lugar (j k : Z) (s : SimulacionColas) : Prop :=
  ∃ c, clientes s !! Z.to_nat j = Some c ∧
       Cliente.estaciones c !! Z.to_nat (Cliente.indiceEstacionActual c) = Some k.

(** What holds of the stations between two events: each keeps its id and
    its servers, a server is busy for each end of service scheduled at the
    station, and a customer waits or is served at the station its route
    index points to. *)
Record SInv (s : SimulacionColas) : Prop := {
  sinv_forma : ∀ k est, estaciones s !! k = Some est →
    Estacion.id est = Z.of_nat k ∧ (0 ≤ Estacion.numServidores est)%Z ∧
    length (Estacion.servidorOcupado est) = Z.to_nat (Estacion.numServidores est);
  sinv_ocupados : ∀ k est, estaciones s !! k = Some est →
    servidoresOcupados (Estacion.servidorOcupado est)
    = Z.of_nat (cuenta (es_fin_en (Z.of_nat k)) (eventos s));
  sinv_evento : ∀ e, e ∈ eventos s → Evento.tipo e = FIN_SERVICIO →
    lugar (Evento.idCliente e) (Evento.idEstacion e) s;
  sinv_cola : ∀ k est j, estaciones s !! k = Some est →
    j ∈ Estacion.colaEspera est → lugar j (Z.of_nat k) s;
  sinv_ruta : ∀ i c, clientes s !! i = Some c →
    StronglySorted Z.lt (Cliente.estaciones c)
}.

(** No customer waits at a station of [s] that has a free server, the
    stations of [ks] apart. *)
Definition Conserva (ks : list Z) (s : SimulacionColas) : Prop :=
  ∀ k est, estaciones s !! k = Some est → Z.of_nat k ∉ ks →
    Estacion.colaEspera est ≠ [] →
    Estacion.hayServidorDisponible est = false.

(** Same route and same route index. *)
Definition mismo_lugar (c c' : Cliente.t) : Prop :=
  Cliente.estaciones c' = Cliente.estaciones c ∧
  Cliente.indiceEstacionActual c' = Cliente.indiceEstacionActual c.

(** From [l] to [l'] the stations kept their servers and their count of
    customers served, the station [k] apart, which served [d] more. *)
Definition sirvio (k : Z) (d : Z) (l l' : list Estacion.t) : Prop :=
  ∀ n est', l' !! n = Some est' →
    ∃ est, l !! n = Some est ∧
           Estacion.numServidores est' = Estacion.numServidores est ∧
           Estacion.totalAtendidos est'
           = (Estacion.totalAtendidos est
              + if (Z.of_nat n =? k)%Z then d else 0)%Z.

(** What holds of a run when CAJAS has no server. *)
Definition SinCajas (s : SimulacionColas) : Prop :=
  (∀ e, e ∈ eventos s → Evento.tipo e = LLEGADA) ∧
  clientesCompletados s = [] ∧
  (∀ i c, clientes s !! i = Some c → Cliente.indiceEstacionActual c = 0%Z) ∧
  ∃ est, estaciones s !! 0 = Some est ∧ Estacion.servidorOcupado est = [] ∧
         Estacion.colaEspera est = Z.of_nat <$> seq 0 (length (clientes s)).

(** The times of a customer at clock [t]: nothing accumulated is
    negative, and it entered its queue at a time that is a number, after
    it arrived and not after [t]. *)
Definition tiempos_ok (t : double) (c : Cliente.t) : Prop :=
  no_mayor cero (Cliente.tiempoEsperaTotal c) ∧
  no_mayor cero (Cliente.tiempoServicioTotal c) ∧
  es_numero (Cliente.tiempoEntradaCola c) ∧
  no_mayor (Cliente.tiempoLlegada c) (Cliente.tiempoEntradaCola c) ∧
  no_mayor (Cliente.tiempoEntradaCola c) t.

(** Every customer of [s] has its times in order at the clock of [s]. *)
Definition WInv (s : SimulacionColas) : Prop :=
  Forall (tiempos_ok (tiempoActual s)) (clientes s).

(** What [ejecutarMultiplesReplicas] returns when no replica is kept. *)
Definition sin_replicas : Estadisticas.t :=
  Estadisticas.mk cero cero [cero; cero; cero; cero; cero] 0 cero.

(** The averages over the statistics [vs]: the mean and the population
    variance of the mean waits, the mean of the utilization of each
    station, the truncated mean of the counts and the mean of the system
    times. *)
Definition promedio_de (vs : list Estadisticas.t) : Estadisticas.t :=
  let esperas := Estadisticas.tiempoEsperaPromedio <$> vs in
  Estadisticas.mk
    (media esperas)
    (varianza_poblacional esperas)
    ((λ j, media ((λ st, Estadisticas.utilizacionEstaciones st !!! j) <$> vs))
       <$> seq 0 5)
    (Z.quot (fold_left Z.add (Estadisticas.totalClientes <$> vs) 0%Z)
            (Z.of_nat (length vs)))
    (media (Estadisticas.tiempoSistemaPromedio <$> vs)).

(** The replicas a call keeps: those that completed a customer. *)
Definition validas (l : list Estadisticas.t) : list Estadisticas.t :=
  filter (λ st, (0 < Estadisticas.totalClientes st)%Z) l.

(** The samples after the statistics [vs] were all kept. *)
Definition muestras_de (vs : list Estadisticas.t) : Muestras :=
  mkMuestras (Estadisticas.tiempoEsperaPromedio <$> vs)
             (Estadisticas.tiempoSistemaPromedio <$> vs)
             (Estadisticas.totalClientes <$> vs)
             ((λ j, (λ st, Estadisticas.utilizacionEstaciones st !!! j) <$> vs)
                <$> seq 0 5).

(** No server count of [config] is negative. *)
Definition cuentas_no_negativas (config : ConfiguracionServidores.t) : Prop :=
  (0 ≤ ConfiguracionServidores.cajas config)%Z ∧
  (0 ≤ ConfiguracionServidores.refrescos config)%Z ∧
  (0 ≤ ConfiguracionServidores.freidora config)%Z ∧
  (0 ≤ ConfiguracionServidores.postres config)%Z ∧
  (0 ≤ ConfiguracionServidores.pollo config)%Z.

(** No run of a replica of [config], whatever its seed, has more than
    [N] customers. *)
Definition ReplicasAcotadas (N : nat) (config : ConfiguracionServidores.t) : Prop :=
  ∀ i s0,
    inicializar config
      (SimulacionColas_nueva (de_int 480) (decimal 8 10) (42 + i)%Z) = Some s0 →
    LlegadasAcotadas N s0.

(** No customer of [s] is past a visit to station [k]. *)
Definition Detenidos (k : Z) (s : SimulacionColas) : Prop :=
  ∀ i c m, clientes s !! i = Some c →
    Cliente.estaciones c !! m = Some k →
    (Cliente.indiceEstacionActual c ≤ Z.of_nat m)%Z.

(** Every configuration the five loops build. *)
Definition configuraciones_en_rango : list ConfiguracionServidores.t :=
  c ← [1; 2; 3; 4]%Z;
  r ← [1; 2; 3]%Z;
  f ← [1; 2; 3]%Z;
  p ← [0; 1; 2]%Z;
  pl ← [1; 2; 3; 4]%Z;
  [ConfiguracionServidores.mk c r f p pl].

(** The counts of [config] lie in the ranges of the five loops. *)
Definition en_rango (config : ConfiguracionServidores.t) : Prop :=
  (1 ≤ ConfiguracionServidores.cajas config ≤ 4)%Z ∧
  (1 ≤ ConfiguracionServidores.refrescos config ≤ 3)%Z ∧
  (1 ≤ ConfiguracionServidores.freidora config ≤ 3)%Z ∧
  (0 ≤ ConfiguracionServidores.postres config ≤ 2)%Z ∧
  (1 ≤ ConfiguracionServidores.pollo config ≤ 4)%Z.

End Analisis2.

(* ====================================================================== *)
(** ** Concrete runs *)
(* ====================================================================== *)

(** Runs over the rationals with the list queue and the small generator:
    horizon 20, one arrival per unit of time on average, seed 42. *)
Section Ejemplo.
#[local] Existing Instance Arit_Q.
#[local] Existing Instance Dist_lcg.
#[local] Existing Instance Cola_lista.

Definition ejemplo_motor : SimulacionColas :=
  SimulacionColas_nueva (inject_Z 20) (inject_Z 1) 42.

Definition ejemplo_config : ConfiguracionServidores.t :=
  ConfiguracionServidores.mk 3 2 2 1 4.

(** After [inicializar]. *)
Definition ejemplo_s0 : SimulacionColas :=
  default ejemplo_motor (inicializar ejemplo_config ejemplo_motor).

(** After the first iteration of the loop. *)
Definition ejemplo_s1 : SimulacionColas :=
  default ejemplo_s0 (paso ejemplo_s0).

(** After [ejecutar]. *)
Definition ejemplo_final : SimulacionColas :=
  default ejemplo_s0 (ejecutar 200 ejemplo_s0).

(** The first arrival taken from the queue and the customer created, just
    before [procesarLlegada] calls [iniciarServicio CAJAS]. *)
Definition ejemplo_llegada : SimulacionColas := llegar (extraido ejemplo_s0).




(** [ConfiguracionServidores()] leaves every count at 0: the engine
    initialised with it, and run. *)
Definition ejemplo_vacio : SimulacionColas :=
  default ejemplo_motor (inicializar ConfiguracionServidores.nueva ejemplo_motor).

Definition ejemplo_vacio_final : SimulacionColas :=
  default ejemplo_vacio (ejecutar 200 ejemplo_vacio).
End Ejemplo.

(** A station with no server, in binary64. *)
Definition ejemplo_sin_servidores : @Estacion.t Arit_float :=
  default inhabitant (Estacion.nueva (Ar := Arit_float) CAJAS 0).

(** More runs over the rationals: without cashiers, and without servers at
    REFRESCOS. *)
Section Ejemplo2.
#[local] Existing Instance Arit_Q.
#[local] Existing Instance Dist_lcg.
#[local] Existing Instance Cola_lista.

(** After the first iteration of the loop with no server anywhere. *)
Definition ejemplo_vacio_s1 : SimulacionColas :=
  default ejemplo_vacio (paso ejemplo_vacio).

Definition ejemplo_sin_refrescos : ConfiguracionServidores.t :=
  ConfiguracionServidores.mk 3 0 2 1 4.

Definition ejemplo_r0 : SimulacionColas :=
  default ejemplo_motor (inicializar ejemplo_sin_refrescos ejemplo_motor).

(** When the loop has ended. *)
Definition ejemplo_rf : SimulacionColas :=
  default ejemplo_r0 (bucle 200 ejemplo_r0).

(** Twelve servers, none of them a cashier. *)
Definition ejemplo_sin_cajas : ConfiguracionServidores.t :=
  ConfiguracionServidores.mk 0 3 3 2 4.

(** Two candidates of twelve servers. *)
Definition ejemplo_candidatas : list ConfiguracionServidores.t :=
  [ejemplo_config; ConfiguracionServidores.mk 4 2 2 1 3].
End Ejemplo2.

(** More runs of the small generator: to the end of the loop without
    POSTRES on any route, with a negative arrival rate, and from an engine
    that was used before. *)
Section Ejemplo3.
#[local] Existing Instance Arit_Q.
#[local] Existing Instance Dist_lcg.
#[local] Existing Instance Cola_lista.


(** The example when its loop has ended, before [ejecutar] sets
    [tiempoFinalReal]. *)
Definition ejemplo_fin : SimulacionColas :=
  default ejemplo_s0 (bucle 200 ejemplo_s0).

(** One arrival expected per unit of time, backwards. *)
Definition ejemplo_tasa_negativa : SimulacionColas :=
  SimulacionColas_nueva (inject_Z 20) (inject_Z (-1)) 42.

Definition ejemplo_n0 : SimulacionColas :=
  default ejemplo_tasa_negativa (inicializar ejemplo_config ejemplo_tasa_negativa).

Definition ejemplo_n1 : SimulacionColas := default ejemplo_n0 (paso ejemplo_n0).

Definition ejemplo_n2 : SimulacionColas := default ejemplo_n1 (paso ejemplo_n1).

(** The engine of the example after a run without servers at REFRESCOS,
    given the seed of a new engine again. *)
Definition ejemplo_usado : SimulacionColas :=
  con_rng (GeneradorAleatorio.nuevo 42)
    (default ejemplo_r0 (ejecutar 200 ejemplo_r0)).

Definition ejemplo_final_usado : SimulacionColas :=
  default ejemplo_usado (simular ejemplo_config 300 ejemplo_usado).

(** The engine of the example initialised and run a second time. *)
Definition ejemplo_final2 : SimulacionColas :=
  default ejemplo_final (simular ejemplo_config 300 ejemplo_final).
End Ejemplo3.

(** The engine of the example with the generator whose gaps are 0. *)
Section Ejemplo4.
#[local] Existing Instance Arit_Q.
#[local] Existing Instance Dist_cero.
#[local] Existing Instance Cola_lista.

Definition ejemplo_sin_brechas : SimulacionColas :=
  SimulacionColas_nueva (inject_Z 20) (inject_Z 1) 42.

Definition ejemplo_b0 : SimulacionColas :=
  default ejemplo_sin_brechas (inicializar ejemplo_config ejemplo_sin_brechas).
End Ejemplo4.

(* ====================================================================== *)
(** * Properties *)
(* ====================================================================== *)

(** ** Counting in lists *)

Section Listas.
Context {A : Type}.
Implicit Types (P : A → bool) (l : list A).

Lemma cuenta_nil P : cuenta P [] = 0.
Proof. reflexivity. Qed.

Lemma cuenta_cons P x l :
  cuenta P (x :: l) = (if P x then 1 else 0) + cuenta P l.
Proof. reflexivity. Qed.

Lemma cuenta_app P l1 l2 : cuenta P (l1 ++ l2) = cuenta P l1 + cuenta P l2.
Proof. apply sum_list_with_app. Qed.

Lemma cuenta_perm P l1 l2 : l1 ≡ₚ l2 → cuenta P l1 = cuenta P l2.
Proof. intros H. unfold cuenta. by rewrite H. Qed.

Lemma cuenta_pos P l : 0 < cuenta P l → ∃ x, x ∈ l ∧ P x = true.
Proof.
  induction l as [|y l IH]; rewrite ?cuenta_nil, ?cuenta_cons; [lia|].
  destruct (P y) eqn:Hy; intros H.
  - exists y. split; [left | done].
  - destruct IH as (x & Hx & HP); [lia|]. exists x. split; [by right | done].
Qed.

Lemma cuenta_elem P l x : x ∈ l → P x = true → 0 < cuenta P l.
Proof.
  induction 1 as [x l | x y l _ IH]; rewrite cuenta_cons; intros HP.
  - rewrite HP. lia.
  - specialize (IH HP). lia.
Qed.

Lemma cuenta_ext P Q l :
  (∀ x, x ∈ l → P x = Q x) → cuenta P l = cuenta Q l.
Proof.
  induction l as [|y l IH]; [done|]. intros H. rewrite !cuenta_cons.
  rewrite (H y) by left. rewrite IH; [done|]. intros x Hx. apply H. by right.
Qed.

Lemma cuenta_cero P l : (∀ x, x ∈ l → P x = false) → cuenta P l = 0.
Proof.
  induction l as [|y l IH]; [done|]. intros H. rewrite cuenta_cons.
  rewrite (H y) by left. rewrite IH; [done|]. intros x Hx. apply H. by right.
Qed.

Lemma sum_list_with_insert (f : A → nat) l k x y :
  l !! k = Some x →
  sum_list_with f (<[k:=y]> l) + f x = sum_list_with f l + f y.
Proof.
  revert k. induction l as [|z l IH]; intros [|k] H; simplify_eq/=; [lia|].
  specialize (IH _ H). lia.
Qed.

Lemma lookup_total_insert_id `{Inhabited A} l k : <[k := l !!! k]> l = l.
Proof.
  destruct (l !! k) as [x|] eqn:Hk.
  - apply list_insert_id. by rewrite (list_lookup_total_correct _ _ _ Hk).
  - apply list_insert_ge. by apply lookup_ge_None.
Qed.
End Listas.

(** ** The invariant [Inv] holds in every state the engine reaches *)

Section Invariante.
Context `{Di : Distribuciones} `{Cp : !ColaPrioridad}.
Context {HCp : ColaPrioridadOk}.

Implicit Types (s : SimulacionColas) (e : Evento.t) (c : Cliente.t).

Lemma con_estacion_id k s : con_estacion k (estacion k s) s = s.
Proof.
  destruct s. unfold con_estacion, estacion, con_estaciones. simpl.
  by rewrite lookup_total_insert_id.
Qed.

Lemma estacion_lookup k s est :
  estaciones s !! Z.to_nat k = Some est → estacion k s = est.
Proof. intros H. unfold estacion. by apply list_lookup_total_correct. Qed.

Lemma cliente_lookup i s c :
  clientes s !! Z.to_nat i = Some c → cliente i s = c.
Proof. intros H. unfold cliente. by apply list_lookup_total_correct. Qed.

Lemma estacion_cola_lookup k s j :
  j ∈ Estacion.colaEspera (estacion k s) →
  estaciones s !! Z.to_nat k = Some (estacion k s).
Proof.
  unfold estacion. intros H.
  destruct (estaciones s !! Z.to_nat k) as [est|] eqn:Hk.
  - by rewrite (list_lookup_total_correct _ _ _ Hk).
  - rewrite list_lookup_total_alt, Hk in H. simpl in H. by apply elem_of_nil in H.
Qed.

Lemma iniciarServicio_casos k s :
  (iniciarServicio k s = s ∧
   (Estacion.colaEspera (estacion k s) = [] ∨
    Estacion.hayServidorDisponible (estacion k s) = false)) ∨
  (∃ j resto i,
     Estacion.colaEspera (estacion k s) = j :: resto ∧
     primer_indice false (Estacion.servidorOcupado (estacion k s)) = Some i ∧
     iniciarServicio k s =
       let s1 := con_estacion k (ocupar (tiempoActual s) i resto (estacion k s)) s in
       if (j <? 0)%Z then s1 else atender j k s1).
Proof.
  unfold iniciarServicio, Estacion.iniciarServicio, Estacion.hayServidorDisponible.
  destruct (Estacion.colaEspera (estacion k s)) as [|j resto] eqn:Hq.
  - left. simpl. split; [apply con_estacion_id | by left].
  - destruct (primer_indice false _) as [i|] eqn:Hi.
    + right. exists j, resto, i. repeat split; try done.
    + left. simpl. split; [apply con_estacion_id | by right].
Qed.

Lemma en_cola_insert i k s est est' :
  estaciones s !! k = Some est →
  en_cola i (con_estaciones (<[k:=est']> (estaciones s)) s)
    + cuenta (Z.eqb i) (Estacion.colaEspera est)
  = en_cola i s + cuenta (Z.eqb i) (Estacion.colaEspera est').
Proof.
  intros H. unfold en_cola. simpl.
  apply (sum_list_with_insert
           (λ x, cuenta (Z.eqb i) (Estacion.colaEspera x)) _ _ _ _ H).
Qed.

Lemma en_cola_pos k s est j :
  estaciones s !! k = Some est → j ∈ Estacion.colaEspera est → 0 < en_cola j s.
Proof.
  intros Hk Hj. unfold en_cola.
  pose proof (sum_list_with_in est
    (λ x, cuenta (Z.eqb j) (Estacion.colaEspera x)) (estaciones s)
    (list_elem_of_lookup_2 _ _ _ Hk)) as Hle. simpl in Hle.
  assert (0 < cuenta (Z.eqb j) (Estacion.colaEspera est)).
  { apply (cuenta_elem _ _ j Hj). apply Z.eqb_refl. }
  lia.
Qed.

Lemma en_servicio_pos i s :
  0 < en_servicio i s →
  ∃ e, e ∈ eventos s ∧ Evento.tipo e = FIN_SERVICIO ∧ Evento.idCliente e = i.
Proof.
  intros H. apply cuenta_pos in H as (e & He & HP). exists e. split; [done|].
  unfold es_fin_de in HP. apply andb_true_iff in HP as [Ht Hi].
  split; [by destruct (Evento.tipo e) | by apply Z.eqb_eq].
Qed.

Lemma eventos_push e q s :
  eventos (con_colaEventos (pq_push e q) s) ≡ₚ e :: contenido q.
Proof. unfold eventos. simpl. apply pq_push_spec. Qed.

Lemma en_cola_eq i s1 s2 :
  estaciones s1 = estaciones s2 → en_cola i s1 = en_cola i s2.
Proof. unfold en_cola. by intros ->. Qed.

Lemma en_servicio_perm i s1 s2 :
  eventos s1 ≡ₚ eventos s2 → en_servicio i s1 = en_servicio i s2.
Proof. unfold en_servicio. apply cuenta_perm. Qed.

Lemma atender_spec j k s1 :
  ∃ ts g, getTiempoServicio k (rng s1) = (ts, g) ∧
    atender j k s1 =
      con_colaEventos
        (pq_push (Evento.mk (suma (tiempoActual s1) ts) FIN_SERVICIO j k)
                 (colaEventos s1))
        (con_rng g
           (con_cliente j
              (Cliente.con_tiempoServicioTotal
                 (suma (Cliente.tiempoServicioTotal (cliente j s1)) ts)
                 (Cliente.con_tiempoEsperaTotal
                    (suma (Cliente.tiempoEsperaTotal (cliente j s1))
                          (resta (tiempoActual s1)
                                 (Cliente.tiempoEntradaCola (cliente j s1))))
                    (cliente j s1)))
              s1)).
Proof.
  unfold atender. destruct (getTiempoServicio k (rng s1)) as [ts g].
  by exists ts, g.
Qed.

Lemma iniciarServicio_Inv k s :
  (0 ≤ k < 5)%Z → Inv s → Inv (iniciarServicio k s).
Proof.
  intros Hk5 HI.
  destruct (iniciarServicio_casos k s)
    as [[-> _] | (j & resto & i & Hq & Hi & ->)]; [done|].
  assert (Hjq : j ∈ Estacion.colaEspera (estacion k s)) by (rewrite Hq; left).
  pose proof (estacion_cola_lookup _ _ _ Hjq) as Hk.
  pose proof (inv_colas _ HI _ _ _ Hk Hjq) as Hjr.
  cbv zeta. replace (j <? 0)%Z with false by (symmetry; apply Z.ltb_ge; lia).
  set (est' := ocupar (tiempoActual s) i resto (estacion k s)).
  set (s1 := con_estacion k est' s).
  destruct (atender_spec j k s1) as (ts & g & _ & ->).
  set (c := cliente j s1).
  assert (Hc : clientes s !! Z.to_nat j = Some c).
  { unfold c, cliente, s1. simpl. apply list_lookup_lookup_total_lt. lia. }
  set (c2 := Cliente.con_tiempoServicioTotal _ _).
  destruct (inv_cliente _ HI _ _ Hc) as (Hcid & Hcr & Hci).
  assert (Hlen : length (<[Z.to_nat j := c2]> (clientes s)) = length (clientes s))
    by apply length_insert.
  assert (Hcola : ∀ x, en_cola x (con_estaciones (<[Z.to_nat k:=est']> (estaciones s)) s)
                       + (if (x =? j)%Z then 1 else 0) = en_cola x s).
  { intros x. pose proof (en_cola_insert x _ s _ est' Hk) as H.
    assert (Hq' : Estacion.colaEspera est' = resto) by done.
    rewrite Hq, Hq', cuenta_cons in H. lia. }
  assert (Hserv : ∀ x, en_servicio x
            (con_colaEventos
               (pq_push (Evento.mk (suma (tiempoActual s1) ts) FIN_SERVICIO j k)
                  (colaEventos s1)) (con_rng g (con_cliente j c2 s1)))
            = (if (x =? j)%Z then 1 else 0) + en_servicio x s).
  { intros x. unfold en_servicio. rewrite (cuenta_perm _ _ _ (eventos_push _ _ _)).
    rewrite cuenta_cons. unfold es_fin_de at 1. simpl. rewrite (Z.eqb_sym j x).
    done. }
  assert (Hcli : ∀ n c', <[Z.to_nat j := c2]> (clientes s) !! n = Some c' →
            ∃ c0, clientes s !! n = Some c0 ∧ Cliente.id c' = Cliente.id c0 ∧
                  Cliente.estaciones c' = Cliente.estaciones c0 ∧
                  Cliente.indiceEstacionActual c' = Cliente.indiceEstacionActual c0 ∧
                  (n ≠ Z.to_nat j → c' = c0)).
  { intros n c' Hn. destruct (decide (n = Z.to_nat j)) as [->|Hne].
    - rewrite list_lookup_insert_eq in Hn by (apply lookup_lt_Some in Hc; done).
      inversion Hn; subst c'. exists c. by repeat split.
    - rewrite list_lookup_insert_ne in Hn by done. exists c'. by repeat split. }
  split; simpl.
  - rewrite length_insert. apply (inv_estaciones _ HI).
  - rewrite Hlen. apply (inv_siguiente _ HI).
  - intros n c' Hn. destruct (Hcli _ _ Hn) as (c0 & H0 & Hid & Hr & Hix & _).
    rewrite Hid, Hr, Hix. apply (inv_cliente _ HI _ _ H0).
  - intros k' e' j' Hk' Hj'. rewrite Hlen.
    destruct (decide (k' = Z.to_nat k)) as [->|Hne].
    + rewrite list_lookup_insert_eq in Hk' by (apply lookup_lt_Some in Hk; done).
      inversion Hk'; subst e'. unfold est', ocupar in Hj'. simpl in Hj'.
      apply (inv_colas _ HI _ _ _ Hk). rewrite Hq. by right.
    + rewrite list_lookup_insert_ne in Hk' by done.
      apply (inv_colas _ HI _ _ _ Hk' Hj').
  - intros e He Ht. rewrite Hlen.
    apply (elem_of_Permutation_proper _ _ _ (eventos_push _ _ _)) in He.
    apply elem_of_cons in He as [->|He]; simpl; [lia|].
    apply (inv_eventos _ HI _ He Ht).
  - intros n c' Hn. destruct (Hcli _ _ Hn) as (c0 & H0 & Hid & Hr & Hix & _).
    rewrite Hserv. pose proof (Hcola (Z.of_nat n)) as Hq'.
    pose proof (inv_pendiente _ HI _ _ H0) as Hp.
    unfold en_ruta in *. rewrite Hr, Hix.
    rewrite (en_cola_eq _ _ (con_estaciones (<[Z.to_nat k:=est']> (estaciones s)) s))
      by done.
    lia.
  - intros n c' Hn. destruct (Hcli _ _ Hn) as (c0 & H0 & Hid & Hr & Hix & _).
    unfold en_ruta. rewrite Hr, Hix. apply (inv_completado _ HI _ _ H0).
  - intros d Hd. destruct (inv_copia _ HI _ Hd) as [Hd0 Hdl]. split; [done|].
    rewrite list_lookup_insert_ne; [done|]. intros Heq.
    rewrite <- Heq in Hdl.
    assert (Hdc : d = c) by congruence. subst d.
    pose proof (inv_completado _ HI _ _ Hc) as Hco.
    pose proof (inv_pendiente _ HI _ _ Hc) as Hp.
    assert (0 < completado (Z.of_nat (Z.to_nat j)) s).
    { unfold completado. apply (cuenta_elem _ _ c Hd). apply Z.eqb_eq. lia. }
    pose proof (en_cola_pos _ _ _ _ Hk Hjq).
    rewrite Z2Nat.id in * by lia.
    destruct (en_ruta c); lia.
Qed.

Lemma completado_eq i s1 s2 :
  clientesCompletados s1 = clientesCompletados s2 →
  completado i s1 = completado i s2.
Proof. unfold completado. by intros ->. Qed.

(** [Inv] only reads the stations, the customers, the completed list, the
    events and the id counter. *)
Lemma Inv_ext s s' :
  estaciones s' = estaciones s → clientes s' = clientes s →
  clientesCompletados s' = clientesCompletados s →
  eventos s' ≡ₚ eventos s →
  siguienteIdCliente s' = siguienteIdCliente s →
  Inv s → Inv s'.
Proof.
  intros He Hc Hd Hv Hn HI.
  split; rewrite ?He, ?Hc, ?Hd, ?Hn; try apply HI.
  - intros e Hin. rewrite Hv in Hin. by apply (inv_eventos _ HI).
  - intros i c Hi. rewrite (en_cola_eq _ _ _ He), (en_servicio_perm _ _ _ Hv).
    by apply (inv_pendiente _ HI).
  - intros i c Hi. rewrite (completado_eq _ _ _ Hd).
    by apply (inv_completado _ HI).
Qed.

Lemma estacion_en_rango k s :
  Z.to_nat k < length (estaciones s) →
  estaciones s !! Z.to_nat k = Some (estacion k s).
Proof. intros H. unfold estacion. by apply list_lookup_lookup_total_lt. Qed.

Lemma cliente_en_rango i s :
  Z.to_nat i < length (clientes s) →
  clientes s !! Z.to_nat i = Some (cliente i s).
Proof. intros H. unfold cliente. by apply list_lookup_lookup_total_lt. Qed.

Lemma en_cola_cero i s :
  (∀ k est, estaciones s !! k = Some est → i ∉ Estacion.colaEspera est) →
  en_cola i s = 0.
Proof.
  unfold en_cola. intros H.
  induction (estaciones s) as [|x l IH]; [done|]. simpl.
  rewrite IH.
  - rewrite cuenta_cero; [done|]. intros j Hj.
    apply Z.eqb_neq. intros ->. by apply (H 0 x).
  - intros k est Hk. apply (H (S k) est Hk).
Qed.

Lemma en_servicio_cero i s :
  (∀ e, e ∈ eventos s → Evento.tipo e = FIN_SERVICIO → Evento.idCliente e ≠ i) →
  en_servicio i s = 0.
Proof.
  intros H. apply cuenta_cero. intros e He. unfold es_fin_de.
  destruct (Evento.tipo e) eqn:Ht; [done|]. simpl.
  apply Z.eqb_neq. by apply H.
Qed.

Lemma completado_cero i s :
  (∀ d, d ∈ clientesCompletados s → Cliente.id d ≠ i) → completado i s = 0.
Proof. intros H. apply cuenta_cero. intros d Hd. apply Z.eqb_neq. by apply H. Qed.

Lemma debeVisitar_rng p g : ∃ v g', GeneradorAleatorio.debeVisitar p g = (v, g').
Proof. destruct (GeneradorAleatorio.debeVisitar p g) as [v g']. by exists v, g'. Qed.

Lemma sortearRuta_ok ps g : ruta_ok (fst (sortearRuta ps g)).
Proof.
  unfold sortearRuta.
  repeat (match goal with
          | |- context [GeneradorAleatorio.debeVisitar ?p ?g] =>
              destruct (GeneradorAleatorio.debeVisitar p g) as [[] ?]; cbv iota beta
          end);
    unfold ruta_ok; simpl; (split; [reflexivity | split; [lia |]]);
    repeat constructor; unfold CAJAS, REFRESCOS, FREIDORA, POSTRES, POLLO; lia.
Qed.

Lemma Inv_con_rng g s : Inv s → Inv (con_rng g s).
Proof. by apply Inv_ext. Qed.

Lemma Inv_push_llegada t a b s :
  Inv s →
  Inv (con_colaEventos (pq_push (Evento.mk t LLEGADA a b) (colaEventos s)) s).
Proof.
  intros HI.
  split; simpl; try apply HI.
  - intros e He Ht.
    apply (elem_of_Permutation_proper _ _ _ (eventos_push _ _ _)) in He.
    apply elem_of_cons in He as [->|He]; [done|]. by apply (inv_eventos _ HI).
  - intros i c Hi. rewrite <- (inv_pendiente _ HI _ _ Hi). f_equal.
    unfold en_servicio. by rewrite (cuenta_perm _ _ _ (eventos_push _ _ _)).
Qed.

Lemma procesarLlegada_eq s :
  procesarLlegada s =
  programar (if Estacion.hayServidorDisponible (estacion CAJAS (llegar s))
             then iniciarServicio CAJAS (llegar s) else llegar s).
Proof.
  unfold procesarLlegada, llegar, cliente_nuevo, programar.
  destruct (GeneradorAleatorio.numeroOrdenes _) as [ordenes g1]. simpl.
  destruct (sortearRuta _ g1) as [ruta g2]. simpl.
  reflexivity.
Qed.

Lemma cliente_nuevo_spec s :
  let c := fst (cliente_nuevo s) in
  Cliente.id c = siguienteIdCliente s ∧
  ruta_ok (Cliente.estaciones c) ∧
  Cliente.indiceEstacionActual c = 0%Z ∧
  Cliente.tiempoLlegada c = tiempoActual s ∧
  Cliente.tiempoEntradaCola c = tiempoActual s ∧
  Cliente.tiempoEsperaTotal c = cero ∧
  Cliente.tiempoServicioTotal c = cero.
Proof.
  unfold cliente_nuevo.
  destruct (GeneradorAleatorio.numeroOrdenes _) as [ordenes g1].
  pose proof (sortearRuta_ok (probabilidadesEstaciones s) g1) as Hr.
  destruct (sortearRuta _ g1) as [ruta g2]. simpl in *.
  split; [done|]. split; [exact Hr|]. by repeat split.
Qed.

Lemma cliente_nuevo_ruta s :
  ∃ g, Cliente.estaciones (fst (cliente_nuevo s))
       = fst (sortearRuta (probabilidadesEstaciones s) g).
Proof.
  unfold cliente_nuevo.
  destruct (GeneradorAleatorio.numeroOrdenes _) as [ordenes g1].
  exists g1. by destruct (sortearRuta _ g1).
Qed.

Lemma ruta_ok_larga r : ruta_ok r → 0 < length r.
Proof. intros (Hh & _). destruct r; [done | simpl; lia]. Qed.

Lemma llegar_Inv s : Inv s → Inv (llegar s).
Proof.
  intros HI. unfold llegar.
  pose proof (cliente_nuevo_spec s) as (Hid & Hr & Hix & _).
  destruct (cliente_nuevo s) as [c g]. simpl in Hid, Hr, Hix.
  pose proof (inv_siguiente _ HI) as Hsig.
  pose proof (inv_estaciones _ HI) as Hlen.
  assert (H0 : estaciones s !! Z.to_nat CAJAS = Some (estacion CAJAS s)).
  { apply estacion_en_rango. rewrite Hlen. unfold CAJAS. simpl. lia. }
  set (est' := Estacion.agregarCliente _ _ _).
  assert (Hq' : Estacion.colaEspera est'
                = Estacion.colaEspera (estacion CAJAS s) ++ [Cliente.id c]) by done.
  assert (Hcola : ∀ x, en_cola x (con_estaciones
                                   (<[Z.to_nat CAJAS:=est']> (estaciones s)) s)
                       = en_cola x s + if (x =? Cliente.id c)%Z then 1 else 0).
  { intros x. pose proof (en_cola_insert x _ s _ est' H0) as H.
    rewrite Hq', cuenta_app, cuenta_cons, cuenta_nil in H. lia. }
  assert (Hruta : en_ruta c = true).
  { unfold en_ruta. rewrite Hix. apply Z.ltb_lt.
    pose proof (ruta_ok_larga _ Hr). lia. }
  split; simpl.
  - by rewrite length_insert.
  - rewrite length_app. simpl. lia.
  - intros i c' Hi. apply lookup_app_Some in Hi as [Hi | [Hge Hi]].
    + apply (inv_cliente _ HI _ _ Hi).
    + apply list_lookup_singleton_Some in Hi as [Hi ->].
      split; [lia|]. split; [done|]. lia.
  - intros k e' j Hk Hj. rewrite length_app. simpl.
    destruct (decide (k = Z.to_nat CAJAS)) as [->|Hne].
    + rewrite list_lookup_insert_eq in Hk by (apply lookup_lt_Some in H0; done).
      inversion Hk; subst e'. rewrite Hq' in Hj.
      apply elem_of_app in Hj as [Hj|Hj].
      * pose proof (inv_colas _ HI _ _ _ H0 Hj). lia.
      * apply list_elem_of_singleton in Hj. lia.
    + rewrite list_lookup_insert_ne in Hk by done.
      pose proof (inv_colas _ HI _ _ _ Hk Hj). lia.
  - intros e He Ht. rewrite length_app. simpl.
    pose proof (inv_eventos _ HI _ He Ht). lia.
  - intros i c' Hi.
    rewrite (en_cola_eq _ _ (con_estaciones
                               (<[Z.to_nat CAJAS:=est']> (estaciones s)) s)) by done.
    rewrite Hcola.
    change (en_servicio (Z.of_nat i) _) with (en_servicio (Z.of_nat i) s).
    apply lookup_app_Some in Hi as [Hi | [Hge Hi]].
    + rewrite <- (inv_pendiente _ HI _ _ Hi).
      apply lookup_lt_Some in Hi.
      replace (Z.of_nat i =? Cliente.id c)%Z with false
        by (symmetry; apply Z.eqb_neq; lia). lia.
    + apply list_lookup_singleton_Some in Hi as [Hi ->].
      assert (i = length (clientes s)) as -> by lia.
      rewrite Hruta. rewrite en_cola_cero, en_servicio_cero.
      * replace (_ =? _)%Z with true by (symmetry; apply Z.eqb_eq; lia). done.
      * intros e He Ht Heq. pose proof (inv_eventos _ HI _ He Ht). lia.
      * intros k est Hk Hin. pose proof (inv_colas _ HI _ _ _ Hk Hin). lia.
  - intros i c' Hi.
    change (completado (Z.of_nat i) _) with (completado (Z.of_nat i) s).
    apply lookup_app_Some in Hi as [Hi | [Hge Hi]].
    + apply (inv_completado _ HI _ _ Hi).
    + apply list_lookup_singleton_Some in Hi as [Hi ->].
      assert (i = length (clientes s)) as -> by lia.
      rewrite Hruta. apply completado_cero. intros d Hd Heq.
      destruct (inv_copia _ HI _ Hd) as [Hd0 Hdl].
      apply lookup_lt_Some in Hdl. lia.
  - intros d Hd. destruct (inv_copia _ HI _ Hd) as [Hd0 Hdl]. split; [done|].
    by apply lookup_app_l_Some.
Qed.

Lemma programar_Inv s : Inv s → Inv (programar s).
Proof.
  intros HI. unfold programar.
  destruct (GeneradorAleatorio.tiempoEntreLlegadas _ _) as [entre g]. simpl.
  destruct (menor _ _).
  - apply (Inv_push_llegada _ _ _ (con_rng g s)). by apply Inv_con_rng.
  - by apply Inv_con_rng.
Qed.

Lemma procesarLlegada_Inv s : Inv s → Inv (procesarLlegada s).
Proof.
  intros HI. rewrite procesarLlegada_eq. apply programar_Inv.
  pose proof (llegar_Inv _ HI).
  destruct (Estacion.hayServidorDisponible _); [|done].
  apply iniciarServicio_Inv; [unfold CAJAS; lia | done].
Qed.

Lemma procesarFinServicio_eq e s :
  procesarFinServicio e s =
  let sa := avanzar e s in
  let sb := match siguiente_de e s with
            | Some k => if Estacion.hayServidorDisponible (estacion k sa)
                        then iniciarServicio k sa else sa
            | None => sa
            end in
  if negb (Estacion.estaVacia (estacion (Evento.idEstacion e) sb))
     && Estacion.hayServidorDisponible (estacion (Evento.idEstacion e) sb)
  then iniciarServicio (Evento.idEstacion e) sb else sb.
Proof.
  unfold procesarFinServicio, avanzar, siguiente_de, cliente_avanzado, en_ruta.
  simpl.
  destruct (_ <? _)%Z; reflexivity.
Qed.

Lemma finalizarServicio_cola t est :
  Estacion.colaEspera (Estacion.finalizarServicio t est) = Estacion.colaEspera est.
Proof.
  unfold Estacion.finalizarServicio. by destruct (primer_indice true _).
Qed.

Lemma ruta_ok_estacion r i :
  ruta_ok r → i < length r → (0 ≤ r !!! i < 5)%Z.
Proof.
  intros (_ & _ & HF) Hi.
  apply (Forall_lookup_total_1 _ _ i HF Hi).
Qed.

(** The state [s0] before the event [e] was taken from the queue, the state
    [s] after. *)
Lemma avanzar_Inv s0 s e :
  Inv s0 → eventos s0 ≡ₚ e :: eventos s →
  estaciones s = estaciones s0 → clientes s = clientes s0 →
  clientesCompletados s = clientesCompletados s0 →
  siguienteIdCliente s = siguienteIdCliente s0 →
  Evento.tipo e = FIN_SERVICIO →
  Inv (avanzar e s).
Proof.
  intros HI Hev He Hc Hd Hn Ht.
  assert (Hein : e ∈ eventos s0) by (rewrite Hev; left).
  destruct (inv_eventos _ HI _ Hein Ht) as [Hjd Hkd].
  set (jd := Evento.idCliente e) in *. set (kd := Evento.idEstacion e) in *.
  pose proof (inv_estaciones _ HI) as Hlen.
  assert (Hc0 : clientes s0 !! Z.to_nat jd = Some (cliente jd s)).
  { rewrite <- Hc. apply cliente_en_rango. rewrite Hc. lia. }
  set (c0 := cliente jd s) in *.
  destruct (inv_cliente _ HI _ _ Hc0) as (Hid0 & Hr0 & Hix0).
  assert (Hserv : ∀ x, en_servicio x s0
                       = (if (x =? jd)%Z then 1 else 0) + en_servicio x s).
  { intros x. unfold en_servicio. rewrite (cuenta_perm _ _ _ Hev), cuenta_cons.
    unfold es_fin_de at 1. rewrite Ht. simpl. fold jd.
    by rewrite (Z.eqb_sym jd x). }
  pose proof (inv_pendiente _ HI _ _ Hc0) as Hp0.
  pose proof (Hserv jd) as Hs0. rewrite Z.eqb_refl in Hs0.
  rewrite Z2Nat.id in Hp0 by lia.
  assert (Hruta0 : en_ruta c0 = true) by (destruct (en_ruta c0); [done | lia]).
  rewrite Hruta0 in Hp0.
  assert (Hcomp0 : completado jd s0 = 0).
  { pose proof (inv_completado _ HI _ _ Hc0) as H.
    rewrite Z2Nat.id, Hruta0 in H by lia. done. }
  assert (Hnocomp : ∀ d, d ∈ clientesCompletados s0 → Cliente.id d ≠ jd).
  { intros d Hdin Heq.
    assert (0 < completado jd s0); [|lia].
    apply (cuenta_elem _ _ d Hdin). by apply Z.eqb_eq. }
  set (fin := Estacion.finalizarServicio (tiempoActual s) (estacion kd s)).
  assert (Hk0 : estaciones s !! Z.to_nat kd = Some (estacion kd s)).
  { apply estacion_en_rango. rewrite He. lia. }
  assert (Hcola1 : ∀ x, en_cola x (con_estaciones (<[Z.to_nat kd:=fin]> (estaciones s)) s)
                        = en_cola x s0).
  { intros x. pose proof (en_cola_insert x _ s _ fin Hk0) as H.
    unfold fin in H at 2. rewrite finalizarServicio_cola in H.
    rewrite (en_cola_eq x s s0 He) in H. lia. }
  unfold avanzar, siguiente_de. fold jd kd. fold fin.
  set (c1 := cliente_avanzado e s).
  assert (Hc1 : Cliente.id c1 = Cliente.id c0 ∧
                Cliente.estaciones c1 = Cliente.estaciones c0 ∧
                Cliente.indiceEstacionActual c1
                = (Cliente.indiceEstacionActual c0 + 1)%Z) by done.
  destruct Hc1 as (Hid1 & Hr1 & Hix1).
  assert (Hlt0 : (Cliente.indiceEstacionActual c0
                  < Z.of_nat (length (Cliente.estaciones c0)))%Z).
  { unfold en_ruta in Hruta0. by apply Z.ltb_lt. }
  assert (Hjl : Z.to_nat jd < length (clientes s)) by (rewrite Hc; lia).
  destruct (en_ruta c1) eqn:Hruta1.
  - (* the customer goes on to the next station *)
    assert (Hlt1 : (Cliente.indiceEstacionActual c1
                    < Z.of_nat (length (Cliente.estaciones c1)))%Z).
    { unfold en_ruta in Hruta1. by apply Z.ltb_lt. }
    set (sig := Cliente.estaciones c1 !!! Z.to_nat (Cliente.indiceEstacionActual c1)).
    assert (Hsig : (0 ≤ sig < 5)%Z).
    { unfold sig. rewrite Hr1. apply ruta_ok_estacion; [done|].
      rewrite Hr1 in Hlt1. lia. }
    set (c2 := Cliente.con_tiempoEntradaCola (tiempoActual s) c1).
    set (s2 := con_cliente jd c2 (con_cliente jd c1 (con_estacion kd fin s))).
    assert (Hest2 : estaciones s2 = <[Z.to_nat kd:=fin]> (estaciones s)) by done.
    assert (Hcli2 : clientes s2 = <[Z.to_nat jd:=c2]> (clientes s)).
    { unfold s2. simpl. by rewrite list_insert_insert_eq. }
    assert (Hks : estaciones s2 !! Z.to_nat sig = Some (estacion sig s2)).
    { apply estacion_en_rango. rewrite Hest2, length_insert, He. lia. }
    set (est' := Estacion.agregarCliente (Cliente.id c2) (tiempoActual s)
                   (estacion sig s2)).
    assert (Hq' : Estacion.colaEspera est'
                  = Estacion.colaEspera (estacion sig s2) ++ [jd]).
    { unfold est'. simpl. do 2 f_equal.
      change (Cliente.id c0 = jd). rewrite Hid0. unfold jd. lia. }
    assert (Hcola2 : ∀ x, en_cola x (con_estaciones
                                      (<[Z.to_nat sig:=est']> (estaciones s2)) s2)
                          = en_cola x s0 + if (x =? jd)%Z then 1 else 0).
    { intros x. pose proof (en_cola_insert x _ s2 _ est' Hks) as H.
      rewrite Hq', cuenta_app, cuenta_cons, cuenta_nil in H.
      rewrite (en_cola_eq x s2 (con_estaciones (<[Z.to_nat kd:=fin]> (estaciones s)) s))
        in H by done.
      rewrite Hcola1 in H. lia. }
    assert (Hcli : ∀ n c', clientes s2 !! n = Some c' →
              (n = Z.to_nat jd ∧ c' = c2) ∨
              (n ≠ Z.to_nat jd ∧ clientes s0 !! n = Some c')).
    { intros n c' Hn'. rewrite Hcli2 in Hn'.
      destruct (decide (n = Z.to_nat jd)) as [->|Hne].
      - rewrite list_lookup_insert_eq in Hn' by done. left. by inversion Hn'.
      - rewrite list_lookup_insert_ne in Hn' by done. right. by rewrite <- Hc. }
    assert (Hlen2 : length (clientes s2) = length (clientes s0)).
    { by rewrite Hcli2, length_insert, Hc. }
    split.
    + simpl. by rewrite !length_insert, He.
    + change (siguienteIdCliente s = Z.of_nat (length (clientes s2))).
      rewrite Hlen2, Hn. apply (inv_siguiente _ HI).
    + intros n c' Hn'. change (clientes s2 !! n = Some c') in Hn'.
      destruct (Hcli _ _ Hn') as [[-> ->] | [Hne Hn0]].
      * change (Cliente.id c1 = Z.of_nat (Z.to_nat jd) ∧
                ruta_ok (Cliente.estaciones c1) ∧
                (0 ≤ Cliente.indiceEstacionActual c1
                 ≤ Z.of_nat (length (Cliente.estaciones c1)))%Z).
        rewrite Hid1, Hr1. rewrite Hr1 in Hlt1.
        split; [done|]. split; [exact Hr0|]. lia.
      * apply (inv_cliente _ HI _ _ Hn0).
    + intros k e' j Hk Hj.
      change (length (clientes _)) with (length (clientes s2)). rewrite Hlen2.
      change (<[Z.to_nat sig:=est']> (estaciones s2) !! k = Some e') in Hk.
      assert (Hbase : ∀ k0 x0 j0, estaciones s2 !! k0 = Some x0 →
                j0 ∈ Estacion.colaEspera x0 →
                (0 ≤ j0 < Z.of_nat (length (clientes s0)))%Z).
      { intros k0 e0 j0 Hk0' Hj0. rewrite Hest2 in Hk0'.
        destruct (decide (k0 = Z.to_nat kd)) as [->|Hne].
        - rewrite list_lookup_insert_eq in Hk0'
            by (apply lookup_lt_Some in Hk0; done).
          inversion Hk0'; subst e0. unfold fin in Hj0.
          rewrite finalizarServicio_cola in Hj0. rewrite He in Hk0.
          apply (inv_colas _ HI _ _ _ Hk0 Hj0).
        - rewrite list_lookup_insert_ne, He in Hk0' by done.
          apply (inv_colas _ HI _ _ _ Hk0' Hj0). }
      destruct (decide (k = Z.to_nat sig)) as [->|Hne].
      * rewrite list_lookup_insert_eq in Hk by (apply lookup_lt_Some in Hks; done).
        inversion Hk; subst e'. rewrite Hq' in Hj.
        apply elem_of_app in Hj as [Hj|Hj].
        -- apply (Hbase _ _ _ Hks Hj).
        -- apply list_elem_of_singleton in Hj. subst j. lia.
      * rewrite list_lookup_insert_ne in Hk by done. apply (Hbase _ _ _ Hk Hj).
    + intros e' He' Ht'.
      change (length (clientes _)) with (length (clientes s2)). rewrite Hlen2.
      change (e' ∈ eventos s) in He'.
      apply (inv_eventos _ HI); [|done]. rewrite Hev. by right.
    + intros n c' Hn'. change (clientes s2 !! n = Some c') in Hn'.
      rewrite (en_cola_eq _ _ (con_estaciones
                                 (<[Z.to_nat sig:=est']> (estaciones s2)) s2)) by done.
      rewrite Hcola2.
      change (en_servicio (Z.of_nat n) _) with (en_servicio (Z.of_nat n) s).
      pose proof (Hserv (Z.of_nat n)) as Hsn.
      destruct (Hcli _ _ Hn') as [[-> ->] | [Hne Hn0]].
      * rewrite Z2Nat.id in * by lia. rewrite Z.eqb_refl in *.
        change (en_ruta c2) with (en_ruta c1). rewrite Hruta1. lia.
      * pose proof (inv_pendiente _ HI _ _ Hn0) as Hpn.
        replace (Z.of_nat n =? jd)%Z with false in *
          by (symmetry; apply Z.eqb_neq; lia).
        lia.
    + intros n c' Hn'. change (clientes s2 !! n = Some c') in Hn'.
      change (completado (Z.of_nat n) _) with (completado (Z.of_nat n) s).
      rewrite (completado_eq _ _ _ Hd).
      destruct (Hcli _ _ Hn') as [[-> ->] | [Hne Hn0]].
      * rewrite Z2Nat.id by lia. change (en_ruta c2) with (en_ruta c1).
        by rewrite Hruta1.
      * apply (inv_completado _ HI _ _ Hn0).
    + intros d Hdin. change (d ∈ clientesCompletados s) in Hdin.
      rewrite Hd in Hdin. destruct (inv_copia _ HI _ Hdin) as [Hd0 Hdl].
      split; [done|]. change (clientes s2 !! Z.to_nat (Cliente.id d) = Some d).
      rewrite Hcli2, list_lookup_insert_ne, Hc; [done|].
      intros Heq. apply (Hnocomp _ Hdin). lia.
  - (* the customer has completed the route *)
    assert (Hge1 : (Z.of_nat (length (Cliente.estaciones c1))
                    ≤ Cliente.indiceEstacionActual c1)%Z).
    { unfold en_ruta in Hruta1. by apply Z.ltb_ge. }
    set (s1 := con_cliente jd c1 (con_estacion kd fin s)).
    assert (Hcli1 : clientes s1 = <[Z.to_nat jd:=c1]> (clientes s)) by done.
    assert (Hcli : ∀ n c', clientes s1 !! n = Some c' →
              (n = Z.to_nat jd ∧ c' = c1) ∨
              (n ≠ Z.to_nat jd ∧ clientes s0 !! n = Some c')).
    { intros n c' Hn'. rewrite Hcli1 in Hn'.
      destruct (decide (n = Z.to_nat jd)) as [->|Hne].
      - rewrite list_lookup_insert_eq in Hn' by done. left. by inversion Hn'.
      - rewrite list_lookup_insert_ne in Hn' by done. right. by rewrite <- Hc. }
    assert (Hlen1 : length (clientes s1) = length (clientes s0)).
    { by rewrite Hcli1, length_insert, Hc. }
    assert (Hcompl : ∀ x, completado x
              (con_clientesCompletados (clientesCompletados s1 ++ [c1]) s1)
              = completado x s0 + if (x =? jd)%Z then 1 else 0).
    { intros x. unfold completado. simpl.
      rewrite cuenta_app, cuenta_cons, cuenta_nil, Hd.
      change (Cliente.id c1) with (Cliente.id c0). rewrite Hid0.
      rewrite Z2Nat.id by lia. rewrite (Z.eqb_sym jd x). lia. }
    split.
    + simpl. by rewrite length_insert, He.
    + change (siguienteIdCliente s = Z.of_nat (length (clientes s1))).
      rewrite Hlen1, Hn. apply (inv_siguiente _ HI).
    + intros n c' Hn'. change (clientes s1 !! n = Some c') in Hn'.
      destruct (Hcli _ _ Hn') as [[-> ->] | [Hne Hn0]].
      * rewrite Hid1, Hr1, Hix1. split; [done|]. split; [exact Hr0|]. lia.
      * apply (inv_cliente _ HI _ _ Hn0).
    + intros k e' j Hk Hj.
      change (length (clientes _)) with (length (clientes s1)). rewrite Hlen1.
      change (<[Z.to_nat kd:=fin]> (estaciones s) !! k = Some e') in Hk.
      destruct (decide (k = Z.to_nat kd)) as [->|Hne].
      * rewrite list_lookup_insert_eq in Hk by (apply lookup_lt_Some in Hk0; done).
        inversion Hk; subst e'. unfold fin in Hj.
        rewrite finalizarServicio_cola in Hj. rewrite He in Hk0.
        apply (inv_colas _ HI _ _ _ Hk0 Hj).
      * rewrite list_lookup_insert_ne, He in Hk by done.
        apply (inv_colas _ HI _ _ _ Hk Hj).
    + intros e' He' Ht'.
      change (length (clientes _)) with (length (clientes s1)). rewrite Hlen1.
      change (e' ∈ eventos s) in He'.
      apply (inv_eventos _ HI); [|done]. rewrite Hev. by right.
    + intros n c' Hn'. change (clientes s1 !! n = Some c') in Hn'.
      rewrite (en_cola_eq _ _ (con_estaciones
                                 (<[Z.to_nat kd:=fin]> (estaciones s)) s)) by done.
      rewrite Hcola1.
      change (en_servicio (Z.of_nat n) _) with (en_servicio (Z.of_nat n) s).
      pose proof (Hserv (Z.of_nat n)) as Hsn.
      destruct (Hcli _ _ Hn') as [[-> ->] | [Hne Hn0]].
      * rewrite Z2Nat.id in * by lia. rewrite Z.eqb_refl in *.
        rewrite Hruta1. lia.
      * pose proof (inv_pendiente _ HI _ _ Hn0) as Hpn.
        replace (Z.of_nat n =? jd)%Z with false in *
          by (symmetry; apply Z.eqb_neq; lia).
        lia.
    + intros n c' Hn'. change (clientes s1 !! n = Some c') in Hn'.
      rewrite Hcompl.
      destruct (Hcli _ _ Hn') as [[-> ->] | [Hne Hn0]].
      * rewrite Z2Nat.id by lia. rewrite Z.eqb_refl, Hruta1. lia.
      * pose proof (inv_completado _ HI _ _ Hn0) as Hpn.
        replace (Z.of_nat n =? jd)%Z with false
          by (symmetry; apply Z.eqb_neq; lia).
        lia.
    + intros d Hdin. change (d ∈ clientesCompletados s ++ [c1]) in Hdin.
      change (clientes _) with (clientes s1).
      apply elem_of_app in Hdin as [Hdin|Hdin].
      * rewrite Hd in Hdin. destruct (inv_copia _ HI _ Hdin) as [Hd0 Hdl].
        split; [done|].
        rewrite Hcli1, list_lookup_insert_ne, Hc; [done|].
        intros Heq. apply (Hnocomp _ Hdin). lia.
      * apply list_elem_of_singleton in Hdin. subst d.
        rewrite Hid1, Hid0, Nat2Z.id. split; [lia|].
        rewrite Hcli1. by apply list_lookup_insert_eq.
Qed.

Lemma paso_eq s :
  paso s =
  if pq_empty (colaEventos s) then None
  else Some (match Evento.tipo (pq_top (colaEventos s)) with
             | LLEGADA =>
                 if menor (tiempoActual (extraido s)) (duracionSimulacion s)
                 then procesarLlegada (extraido s) else extraido s
             | FIN_SERVICIO =>
                 procesarFinServicio (pq_top (colaEventos s)) (extraido s)
             end).
Proof. reflexivity. Qed.

Lemma eventos_extraido s :
  pq_empty (colaEventos s) = false →
  eventos s ≡ₚ pq_top (colaEventos s) :: eventos (extraido s).
Proof. intros H. unfold eventos. simpl. by apply pq_pop_spec. Qed.

Lemma extraido_Inv s :
  pq_empty (colaEventos s) = false →
  Evento.tipo (pq_top (colaEventos s)) = LLEGADA →
  Inv s → Inv (extraido s).
Proof.
  intros Hne Ht HI. pose proof (eventos_extraido _ Hne) as Hev.
  split; try apply HI.
  - intros e He Hte. apply (inv_eventos _ HI); [|done]. rewrite Hev. by right.
  - intros i c Hi. rewrite <- (inv_pendiente _ HI _ _ Hi).
    change (en_cola (Z.of_nat i) (extraido s)) with (en_cola (Z.of_nat i) s).
    f_equal. unfold en_servicio. rewrite (cuenta_perm _ _ _ Hev), cuenta_cons.
    assert (es_fin_de (Z.of_nat i) (pq_top (colaEventos s)) = false) as ->; [|done].
    unfold es_fin_de. by rewrite Ht.
Qed.

Lemma siguiente_de_rango s0 s e k :
  Inv s0 → e ∈ eventos s0 → clientes s = clientes s0 →
  Evento.tipo e = FIN_SERVICIO →
  siguiente_de e s = Some k → (0 ≤ k < 5)%Z.
Proof.
  intros HI He Hc Ht. unfold siguiente_de.
  destruct (inv_eventos _ HI _ He Ht) as [Hjd _].
  assert (Hc0 : clientes s0 !! Z.to_nat (Evento.idCliente e)
                = Some (cliente (Evento.idCliente e) s)).
  { rewrite <- Hc. apply cliente_en_rango. rewrite Hc. lia. }
  destruct (inv_cliente _ HI _ _ Hc0) as (_ & Hr & Hix).
  destruct (en_ruta _) eqn:Hruta; [|done]. intros [= <-].
  unfold en_ruta in Hruta. apply Z.ltb_lt in Hruta.
  apply ruta_ok_estacion; [done|]. simpl in *. lia.
Qed.

Lemma procesarFinServicio_Inv s :
  pq_empty (colaEventos s) = false →
  Evento.tipo (pq_top (colaEventos s)) = FIN_SERVICIO →
  Inv s → Inv (procesarFinServicio (pq_top (colaEventos s)) (extraido s)).
Proof.
  intros Hne Ht HI. pose proof (eventos_extraido _ Hne) as Hev.
  set (e := pq_top (colaEventos s)) in *.
  assert (Hein : e ∈ eventos s) by (rewrite Hev; left).
  destruct (inv_eventos _ HI _ Hein Ht) as [_ Hkd].
  rewrite procesarFinServicio_eq. cbv zeta.
  pose proof (avanzar_Inv s (extraido s) e HI Hev eq_refl eq_refl eq_refl eq_refl Ht)
    as Ha.
  set (sb := match siguiente_de e (extraido s) with
             | Some k => _ | None => _ end).
  assert (Hb : Inv sb).
  { unfold sb. destruct (siguiente_de e (extraido s)) as [k|] eqn:Hk; [|done].
    destruct (Estacion.hayServidorDisponible _); [|done].
    apply iniciarServicio_Inv; [|done].
    by apply (siguiente_de_rango s (extraido s) e k HI Hein eq_refl Ht). }
  destruct (_ && _); [|done]. by apply iniciarServicio_Inv.
Qed.

Lemma paso_Inv s s' : Inv s → paso s = Some s' → Inv s'.
Proof.
  intros HI. rewrite paso_eq.
  destruct (pq_empty (colaEventos s)) eqn:Hne; [done|]. intros [= <-].
  destruct (Evento.tipo (pq_top (colaEventos s))) eqn:Ht.
  - pose proof (extraido_Inv _ Hne Ht HI).
    destruct (menor _ _); [|done]. by apply procesarLlegada_Inv.
  - by apply procesarFinServicio_Inv.
Qed.

Lemma vaciar_n_vacia n q :
  length (contenido q) ≤ n → contenido (vaciar_n n q) = [].
Proof.
  revert q. induction n as [|n IH]; intros q Hn; simpl.
  - destruct (contenido q); [done | simpl in Hn; lia].
  - destruct (pq_empty q) eqn:Hq; [by apply pq_empty_spec|].
    apply IH. pose proof (pq_pop_spec q Hq) as Hp.
    apply Permutation_length in Hp. simpl in Hp. lia.
Qed.

Lemma vaciar_vacia q : contenido (vaciar q) = [].
Proof. apply vaciar_n_vacia. by rewrite pq_size_spec. Qed.

Lemma inicializar_Some config s s' :
  inicializar config s = Some s' →
  ∃ x0 x1 x2 x3 x4 t g,
    Estacion.nueva CAJAS (ConfiguracionServidores.cajas config) = Some x0 ∧
    Estacion.nueva REFRESCOS (ConfiguracionServidores.refrescos config) = Some x1 ∧
    Estacion.nueva FREIDORA (ConfiguracionServidores.freidora config) = Some x2 ∧
    Estacion.nueva POSTRES (ConfiguracionServidores.postres config) = Some x3 ∧
    Estacion.nueva POLLO (ConfiguracionServidores.pollo config) = Some x4 ∧
    GeneradorAleatorio.tiempoEntreLlegadas (tasaLlegada s) (rng s) = (t, g) ∧
    s' = mkSim (pq_push (Evento.mk t LLEGADA (-1) (-1)) (vaciar (colaEventos s)))
               [x0; x1; x2; x3; x4] [] [] g
               cero (duracionSimulacion s) (tiempoFinalReal s)
               0 (tasaLlegada s) (probabilidadesEstaciones s).
Proof.
  unfold inicializar. intros H.
  destruct (Estacion.nueva CAJAS _) as [e0|]; [|done].
  destruct (Estacion.nueva REFRESCOS _) as [e1|]; [|done].
  destruct (Estacion.nueva FREIDORA _) as [e2|]; [|done].
  destruct (Estacion.nueva POSTRES _) as [e3|]; [|done].
  destruct (Estacion.nueva POLLO _) as [e4|]; [|done].
  simpl in H.
  destruct (GeneradorAleatorio.tiempoEntreLlegadas _ _) as [t g].
  inversion H. by exists e0, e1, e2, e3, e4, t, g.
Qed.

Lemma Estacion_nueva_Some k n est :
  Estacion.nueva k n = Some est →
  (0 ≤ n)%Z ∧
  est = Estacion.mk k n [] (replicate (Z.to_nat n) false) cero cero 0.
Proof.
  unfold Estacion.nueva. destruct (n <? 0)%Z eqn:Hn; [done|].
  intros [= <-]. apply Z.ltb_ge in Hn. done.
Qed.

Lemma eventos_inicializar config s s' :
  inicializar config s = Some s' →
  ∃ t, eventos s' = [Evento.mk t LLEGADA (-1) (-1)] ∧
       t = fst (GeneradorAleatorio.tiempoEntreLlegadas (tasaLlegada s) (rng s)).
Proof.
  intros H.
  destruct (inicializar_Some _ _ _ H) as (e0&e1&e2&e3&e4&t&g&_&_&_&_&_&Hg&->).
  exists t. rewrite Hg. split; [|done]. unfold eventos. simpl.
  pose proof (pq_push_spec (Evento.mk t LLEGADA (-1) (-1)) (vaciar (colaEventos s)))
    as Hp.
  rewrite vaciar_vacia in Hp. by apply Permutation_singleton_r in Hp.
Qed.

Lemma inicializar_Inv config s s' : inicializar config s = Some s' → Inv s'.
Proof.
  intros H. destruct (eventos_inicializar _ _ _ H) as (t & Hev & _).
  destruct (inicializar_Some _ _ _ H) as (e0&e1&e2&e3&e4&t'&g&H0&H1&H2&H3&H4&_&Hs).
  apply Estacion_nueva_Some in H0 as [_ ->], H1 as [_ ->], H2 as [_ ->],
        H3 as [_ ->], H4 as [_ ->].
  split; rewrite ?Hev; subst s'; simpl; try done.
  - intros k x j Hk Hj.
    destruct k as [|[|[|[|[|k]]]]]; simpl in Hk; try done;
      inversion Hk; subst x; simpl in Hj; by apply elem_of_nil in Hj.
  - intros e He Ht. apply list_elem_of_singleton in He. by subst e.
  - intros d Hd. by apply elem_of_nil in Hd.
Qed.

Lemma Previo_con probabilidades duracion lambda semilla :
  Previo (SimulacionColas_con probabilidades duracion lambda semilla).
Proof. repeat split. apply contenido_nueva. Qed.

Lemma Previo_paso s : Previo s → paso s = None.
Proof.
  intros (_ & _ & _ & Hev). unfold paso.
  by rewrite (proj2 (pq_empty_spec _) Hev).
Qed.

(** Every state the engine can be in is either untouched or satisfies the
    invariant. *)
Lemma Alcanzable_Inv s0 s :
  Previo s0 → Alcanzable s0 s → Previo s ∨ Inv s.
Proof.
  intros H0. induction 1 as [|s config s' _ _ Hi|s s' _ IH Hp|s _ IH Hp].
  - by left.
  - right. by apply (inicializar_Inv _ _ _ Hi).
  - destruct IH as [IH|IH].
    + by rewrite (Previo_paso _ IH) in Hp.
    + right. by apply (paso_Inv _ _ IH).
  - destruct IH as [IH|IH]; [by left|]. right. revert IH. by apply Inv_ext.
Qed.

End Invariante.

(** ** What one iteration of the loop changes *)

Section Efectos.
Context `{Di : Distribuciones} `{Cp : !ColaPrioridad}.
Context {HCp : ColaPrioridadOk}.

Implicit Types (s : SimulacionColas) (e : Evento.t) (c : Cliente.t).

Lemma mismo_progreso_refl c : mismo_progreso c c.
Proof. by repeat split. Qed.

Lemma mismo_progreso_trans c1 c2 c3 :
  mismo_progreso c1 c2 → mismo_progreso c2 c3 → mismo_progreso c1 c3.
Proof.
  intros (?&?&?&?&?) (?&?&?&?&?). repeat split; congruence.
Qed.

(** The fields [iniciarServicio] never writes. *)
Lemma iniciarServicio_campos k s :
  let s' := iniciarServicio k s in
  tiempoActual s' = tiempoActual s ∧
  duracionSimulacion s' = duracionSimulacion s ∧
  tiempoFinalReal s' = tiempoFinalReal s ∧
  siguienteIdCliente s' = siguienteIdCliente s ∧
  tasaLlegada s' = tasaLlegada s ∧
  probabilidadesEstaciones s' = probabilidadesEstaciones s ∧
  clientesCompletados s' = clientesCompletados s ∧
  length (clientes s') = length (clientes s) ∧
  length (estaciones s') = length (estaciones s).
Proof.
  destruct (iniciarServicio_casos k s)
    as [[-> _] | (j & resto & i & Hq & Hi & ->)]; [done|].
  cbv zeta. destruct (j <? 0)%Z.
  - simpl. by rewrite length_insert.
  - destruct (atender_spec j k
                (con_estacion k (ocupar (tiempoActual s) i resto (estacion k s)) s))
      as (ts & g & _ & ->).
    simpl. by rewrite !length_insert.
Qed.

Lemma iniciarServicio_clientes k s i c :
  clientes s !! i = Some c →
  ∃ c', clientes (iniciarServicio k s) !! i = Some c' ∧ mismo_progreso c c'.
Proof.
  intros Hc.
  destruct (iniciarServicio_casos k s)
    as [[-> _] | (j & resto & n & Hq & Hi & ->)].
  { exists c. split; [done | apply mismo_progreso_refl]. }
  cbv zeta. destruct (j <? 0)%Z.
  { exists c. split; [done | apply mismo_progreso_refl]. }
  destruct (atender_spec j k
              (con_estacion k (ocupar (tiempoActual s) n resto (estacion k s)) s))
    as (ts & g & _ & ->).
  simpl. destruct (decide (i = Z.to_nat j)) as [->|Hne].
  - rewrite list_lookup_insert_eq by (by apply lookup_lt_Some in Hc).
    eexists. split; [done|].
    unfold cliente. simpl. rewrite (list_lookup_total_correct _ _ _ Hc).
    by repeat split.
  - rewrite list_lookup_insert_ne by done.
    exists c. split; [done | apply mismo_progreso_refl].
Qed.

(** The events after [iniciarServicio]: those before, and at most one new
    end of service at station [k], scheduled at the clock plus a service
    time drawn for station [k]. *)
Lemma iniciarServicio_eventos k s :
  eventos (iniciarServicio k s) = eventos s ∨
  ∃ j g est,
    estaciones s !! Z.to_nat k = Some est ∧
    head (Estacion.colaEspera est) = Some j ∧
    Estacion.hayServidorDisponible est = true ∧
    eventos (iniciarServicio k s)
    ≡ₚ Evento.mk (suma (tiempoActual s) (fst (getTiempoServicio k g)))
                 FIN_SERVICIO j k :: eventos s.
Proof.
  destruct (iniciarServicio_casos k s)
    as [[-> _] | (j & resto & n & Hq & Hi & ->)]; [by left|].
  cbv zeta. destruct (j <? 0)%Z; [by left|]. right.
  destruct (atender_spec j k
              (con_estacion k (ocupar (tiempoActual s) n resto (estacion k s)) s))
    as (ts & g & Hts & ->).
  exists j, (rng s), (estacion k s).
  assert (Hjq : j ∈ Estacion.colaEspera (estacion k s)) by (rewrite Hq; left).
  split; [by apply (estacion_cola_lookup _ _ j)|].
  split; [by rewrite Hq|].
  split; [unfold Estacion.hayServidorDisponible; by rewrite Hi|].
  simpl in Hts. rewrite Hts. simpl. apply eventos_push.
Qed.

Lemma marco_refl s : marco s s.
Proof.
  repeat split. intros i c Hc. exists c. split; [done | apply mismo_progreso_refl].
Qed.

Lemma marco_ext s s' :
  clientes s' = clientes s → tiempoActual s' = tiempoActual s →
  duracionSimulacion s' = duracionSimulacion s →
  tasaLlegada s' = tasaLlegada s →
  probabilidadesEstaciones s' = probabilidadesEstaciones s →
  clientesCompletados s' = clientesCompletados s →
  marco s s'.
Proof.
  intros Hc ? ? ? ? ?. repeat split; try done; rewrite Hc; [done|].
  intros i c Hi. exists c. split; [done | apply mismo_progreso_refl].
Qed.

Lemma marco_trans s1 s2 s3 : marco s1 s2 → marco s2 s3 → marco s1 s3.
Proof.
  intros (Hl1 & Hc1 & Ht1 & Hd1 & Hr1 & Hp1 & Hk1)
         (Hl2 & Hc2 & Ht2 & Hd2 & Hr2 & Hp2 & Hk2).
  repeat split; try congruence.
  intros i c Hc. destruct (Hc1 _ _ Hc) as (c' & Hc' & Hm).
  destruct (Hc2 _ _ Hc') as (c'' & Hc'' & Hm'). exists c''.
  split; [done | by apply (mismo_progreso_trans _ c')].
Qed.

Lemma marco_inv s s' i c' :
  marco s s' → clientes s' !! i = Some c' →
  ∃ c, clientes s !! i = Some c ∧ mismo_progreso c c'.
Proof.
  intros (Hl & Hc & _) Hc'.
  assert (Hi : i < length (clientes s)).
  { rewrite <- Hl. by apply lookup_lt_Some in Hc'. }
  apply lookup_lt_is_Some in Hi as [c Hi]. exists c. split; [done|].
  destruct (Hc _ _ Hi) as (c'' & Hc'' & Hm). congruence.
Qed.

Lemma iniciarServicio_marco k s : marco s (iniciarServicio k s).
Proof.
  pose proof (iniciarServicio_campos k s) as (?&?&?&?&?&?&?&?&?).
  repeat split; try done. intros i c. apply iniciarServicio_clientes.
Qed.

Lemma programar_marco s : marco s (programar s).
Proof.
  unfold programar.
  destruct (GeneradorAleatorio.tiempoEntreLlegadas _ _) as [entre g]. simpl.
  destruct (menor _ _); by apply marco_ext.
Qed.

Lemma tras_llegar_marco s :
  marco (llegar s)
    (programar (if Estacion.hayServidorDisponible (estacion CAJAS (llegar s))
                then iniciarServicio CAJAS (llegar s) else llegar s)).
Proof.
  eapply marco_trans; [|apply programar_marco].
  destruct (Estacion.hayServidorDisponible _);
    [apply iniciarServicio_marco | apply marco_refl].
Qed.

Lemma tras_avanzar_marco e s :
  marco (avanzar e s) (procesarFinServicio e s).
Proof.
  rewrite procesarFinServicio_eq. cbv zeta.
  set (sb := match siguiente_de e s with Some k => _ | None => _ end).
  assert (Hb : marco (avanzar e s) sb).
  { unfold sb. destruct (siguiente_de e s); [|apply marco_refl].
    destruct (Estacion.hayServidorDisponible _);
      [apply iniciarServicio_marco | apply marco_refl]. }
  destruct (_ && _); [|done].
  eapply marco_trans; [exact Hb | apply iniciarServicio_marco].
Qed.

Lemma llegar_clientes s :
  clientes (llegar s) = clientes s ++ [fst (cliente_nuevo s)] ∧
  tiempoActual (llegar s) = tiempoActual s ∧
  duracionSimulacion (llegar s) = duracionSimulacion s ∧
  tasaLlegada (llegar s) = tasaLlegada s ∧
  probabilidadesEstaciones (llegar s) = probabilidadesEstaciones s ∧
  clientesCompletados (llegar s) = clientesCompletados s.
Proof. unfold llegar. by destruct (cliente_nuevo s). Qed.

(** What one iteration of the loop does to the customers: each customer of
    the new state was there with the same progress, or has just arrived,
    or is the customer whose service ended. *)
Lemma paso_clientes s s' :
  Inv s → paso s = Some s' →
  let e := pq_top (colaEventos s) in
  e ∈ eventos s ∧
  tiempoActual s' = Evento.tiempo e ∧
  duracionSimulacion s' = duracionSimulacion s ∧
  tasaLlegada s' = tasaLlegada s ∧
  probabilidadesEstaciones s' = probabilidadesEstaciones s ∧
  length (clientes s) ≤ length (clientes s') ∧
  ∀ i c', clientes s' !! i = Some c' →
    (∃ c, clientes s !! i = Some c ∧ mismo_progreso c c' ∧
          ¬ (Evento.tipo e = FIN_SERVICIO ∧ Evento.idCliente e = Z.of_nat i)) ∨
    (i = length (clientes s) ∧ Evento.tipo e = LLEGADA ∧
     menor (Evento.tiempo e) (duracionSimulacion s) = true ∧
     Cliente.indiceEstacionActual c' = 0%Z ∧
     Cliente.tiempoLlegada c' = Evento.tiempo e ∧
     Cliente.tiempoEntradaCola c' = Evento.tiempo e ∧
     ∃ g, Cliente.estaciones c'
          = fst (sortearRuta (probabilidadesEstaciones s) g)) ∨
    (∃ c, clientes s !! i = Some c ∧
          Evento.tipo e = FIN_SERVICIO ∧ Evento.idCliente e = Z.of_nat i ∧
          Cliente.id c' = Cliente.id c ∧
          Cliente.estaciones c' = Cliente.estaciones c ∧
          Cliente.tiempoLlegada c' = Cliente.tiempoLlegada c ∧
          Cliente.indiceEstacionActual c'
          = (Cliente.indiceEstacionActual c + 1)%Z ∧
          en_ruta c = true ∧
          (en_ruta c' = true → Cliente.tiempoEntradaCola c' = Evento.tiempo e)).
Proof.
  intros HI. rewrite paso_eq.
  destruct (pq_empty (colaEventos s)) eqn:Hne; [done|]. intros [= <-].
  pose proof (eventos_extraido _ Hne) as Hev.
  set (e := pq_top (colaEventos s)) in *. cbv zeta.
  assert (Hein : e ∈ eventos s) by (rewrite Hev; left).
  split; [done|].
  destruct (Evento.tipo e) eqn:Ht.
  - change (tiempoActual (extraido s)) with (Evento.tiempo e).
    destruct (menor (Evento.tiempo e) (duracionSimulacion s)) eqn:Hlt.
    + (* an arrival within the horizon *)
      rewrite procesarLlegada_eq.
      pose proof (tras_llegar_marco (extraido s)) as Hm.
      pose proof (llegar_clientes (extraido s)) as (Hcl & Hta & Hdu & Hra & Hpr & _).
      pose proof (cliente_nuevo_spec (extraido s)) as (_ & _ & Hix & Hll & Hec & _).
      pose proof (cliente_nuevo_ruta (extraido s)) as (g0 & Hg0).
      set (s' := programar _) in *.
      pose proof Hm as (Hl & Hcs & Ht' & Hd' & Hr' & Hp' & _).
      split; [by rewrite Ht', Hta|]. split; [by rewrite Hd', Hdu|].
      split; [by rewrite Hr', Hra|]. split; [by rewrite Hp', Hpr|].
      split; [rewrite Hl, Hcl, length_app; simpl; lia|].
      intros i c' Hc'.
      destruct (marco_inv _ _ _ _ Hm Hc') as (c & Hc & Hmp).
      rewrite Hcl in Hc. apply lookup_app_Some in Hc as [Hc | [Hge Hc]].
      * left. exists c. split; [done|]. split; [done|]. by intros [? _].
      * right. left. apply list_lookup_singleton_Some in Hc as [Hi <-].
        destruct Hmp as (_ & Hrt' & Hix' & Hll' & Hec').
        simpl in Hi, Hge.
        split; [lia|]. split; [done|]. split; [done|].
        rewrite Hix', Hll', Hec', Hrt', Hix, Hll, Hec.
        repeat split; try done. by exists g0.
    + (* an arrival at or after the horizon: dropped *)
      repeat split; try done.
      intros i c' Hc'. left. exists c'. split; [done|].
      split; [apply mismo_progreso_refl | by intros [? _]].
  - (* the end of a service *)
    pose proof (tras_avanzar_marco e (extraido s)) as Hm.
    set (s' := procesarFinServicio e (extraido s)) in *.
    destruct (inv_eventos _ HI _ Hein Ht) as [Hjd Hkd].
    set (jd := Evento.idCliente e) in *.
    assert (Hc0 : clientes s !! Z.to_nat jd = Some (cliente jd (extraido s))).
    { apply (cliente_en_rango jd (extraido s)). simpl. lia. }
    set (c0 := cliente jd (extraido s)) in *.
    (* the customer was being served *)
    assert (Hruta0 : en_ruta c0 = true).
    { pose proof (inv_pendiente _ HI _ _ Hc0) as Hp.
      assert (0 < en_servicio (Z.of_nat (Z.to_nat jd)) s).
      { apply (cuenta_elem _ _ e Hein). unfold es_fin_de. rewrite Ht. simpl.
        apply Z.eqb_eq. fold jd. lia. }
      destruct (en_ruta c0); [done | lia]. }
    assert (Hav : ∃ c1,
      clientes (avanzar e (extraido s)) = <[Z.to_nat jd := c1]> (clientes s) ∧
      Cliente.id c1 = Cliente.id c0 ∧
      Cliente.estaciones c1 = Cliente.estaciones c0 ∧
      Cliente.tiempoLlegada c1 = Cliente.tiempoLlegada c0 ∧
      Cliente.indiceEstacionActual c1 = (Cliente.indiceEstacionActual c0 + 1)%Z ∧
      (en_ruta c1 = true → Cliente.tiempoEntradaCola c1 = Evento.tiempo e) ∧
      tiempoActual (avanzar e (extraido s)) = Evento.tiempo e ∧
      duracionSimulacion (avanzar e (extraido s)) = duracionSimulacion s ∧
      tasaLlegada (avanzar e (extraido s)) = tasaLlegada s ∧
      probabilidadesEstaciones (avanzar e (extraido s))
      = probabilidadesEstaciones s).
    { unfold avanzar, siguiente_de. fold jd. fold c0.
      destruct (en_ruta (cliente_avanzado e (extraido s))) eqn:Hr1.
      - eexists. split; [simpl; by rewrite list_insert_insert_eq|].
        by repeat split.
      - eexists. split; [simpl; done|]. repeat split; try done.
        intros Hr. by rewrite Hr1 in Hr. }
    destruct Hav as (c1 & Hcl & Hid1 & Hr1 & Hll1 & Hix1 & Hec1 & Hta & Hdu & Hra & Hpr).
    pose proof Hm as (Hl & Hcs & Ht' & Hd' & Hr' & Hp' & Hk').
    split; [by rewrite Ht', Hta|]. split; [by rewrite Hd', Hdu|].
    split; [by rewrite Hr', Hra|]. split; [by rewrite Hp', Hpr|].
    split; [rewrite Hl, Hcl, length_insert; lia|].
    intros i c' Hc'.
    destruct (marco_inv _ _ _ _ Hm Hc') as (c & Hc & Hmp).
    rewrite Hcl in Hc.
    destruct Hmp as (Hid' & Hrt' & Hix' & Hll' & Hec').
    destruct (decide (i = Z.to_nat jd)) as [->|Hne'].
    * right. right. exists c0.
      rewrite list_lookup_insert_eq in Hc by (by apply lookup_lt_Some in Hc0).
      inversion Hc; subst c.
      split; [done|]. split; [done|]. split; [lia|].
      split; [congruence|]. split; [congruence|]. split; [congruence|].
      split; [congruence|]. split; [done|].
      intros Hr. rewrite Hec'. apply Hec1.
      unfold en_ruta in *. by rewrite <- Hrt', <- Hix'.
    * left. rewrite list_lookup_insert_ne in Hc by done.
      exists c. split; [done|]. split; [by repeat split|].
      intros [_ Heq]. apply Hne'. lia.
Qed.

Lemma cambio_refl ks s : cambio ks s s.
Proof.
  split.
  - intros k est' Hk. exists est'. split; [done|]. split; [apply rtc_refl | by left].
  - intros e He. by left.
Qed.

Lemma cambio_trans ks s1 s2 s3 :
  tiempoActual s2 = tiempoActual s1 →
  duracionSimulacion s2 = duracionSimulacion s1 →
  tasaLlegada s2 = tasaLlegada s1 →
  cambio ks s1 s2 → cambio ks s2 s3 → cambio ks s1 s3.
Proof.
  intros Ht Hd Hr [He1 Hv1] [He2 Hv2]. rewrite Ht, Hd, Hr in *. split.
  - intros k est3 Hk. destruct (He2 _ _ Hk) as (est2 & Hk2 & Hr2 & Hc2).
    destruct (He1 _ _ Hk2) as (est1 & Hk1 & Hr1 & Hc1).
    exists est1. split; [done|]. split; [by eapply rtc_trans|].
    destruct Hc2 as [->|?]; [|by right]. done.
  - intros e He. destruct (Hv2 _ He) as [He2'|Hn]; [|by right]. by apply Hv1.
Qed.

Lemma NuevoEvento_mas t dur tasa ks ks' e :
  ks ⊆ ks' → NuevoEvento t dur tasa ks e → NuevoEvento t dur tasa ks' e.
Proof.
  intros Hs [H|(Ht & Hk & Hg)]; [by left|]. right. split; [done|].
  split; [by apply Hs | done].
Qed.

Lemma cambio_mas ks ks' s s' : ks ⊆ ks' → cambio ks s s' → cambio ks' s s'.
Proof.
  intros Hs [He Hv]. split.
  - intros k est' Hk. destruct (He _ _ Hk) as (est & Hk0 & Hr & Hc).
    exists est. split; [done|]. split; [done|].
    destruct Hc as [->|Hc]; [by left | right; by apply Hs].
  - intros e Hin. destruct (Hv _ Hin) as [?|Hn]; [by left|].
    right. by apply (NuevoEvento_mas _ _ _ ks).
Qed.

Lemma cambio_insert ks s s' k est est' :
  estaciones s !! Z.to_nat k = Some est →
  (0 ≤ k)%Z → k ∈ ks →
  EstPaso (tiempoActual s) est est' →
  estaciones s' = <[Z.to_nat k := est']> (estaciones s) →
  (∀ e, e ∈ eventos s' →
     e ∈ eventos s ∨
     NuevoEvento (tiempoActual s) (duracionSimulacion s) (tasaLlegada s) ks e) →
  cambio ks s s'.
Proof.
  intros Hk H0 Hin Hp He Hv. split; [|done].
  intros k' x' Hk'. rewrite He in Hk'.
  destruct (decide (k' = Z.to_nat k)) as [->|Hne].
  - rewrite list_lookup_insert_eq in Hk' by (by apply lookup_lt_Some in Hk).
    inversion Hk'; subst x'. exists est. split; [done|].
    split; [by apply rtc_once|]. right. by rewrite Z2Nat.id.
  - rewrite list_lookup_insert_ne in Hk' by done. exists x'.
    split; [done|]. split; [apply rtc_refl | by left].
Qed.

Lemma iniciarServicio_cambio k s : (0 ≤ k)%Z → cambio [k] s (iniciarServicio k s).
Proof.
  intros H0.
  destruct (iniciarServicio_casos k s)
    as [[-> _] | (j & resto & i & Hq & Hi & Heq)]; [apply cambio_refl|].
  assert (Hjq : j ∈ Estacion.colaEspera (estacion k s)) by (rewrite Hq; left).
  pose proof (estacion_cola_lookup _ _ _ Hjq) as Hk.
  apply (cambio_insert _ _ _ k (estacion k s)
           (ocupar (tiempoActual s) i resto (estacion k s)));
    try done; [by left | by apply (ep_ocupar _ _ i j resto) | |].
  - rewrite Heq. cbv zeta. destruct (j <? 0)%Z; [done|].
    destruct (atender_spec j k
                (con_estacion k (ocupar (tiempoActual s) i resto (estacion k s)) s))
      as (ts & g & _ & ->). done.
  - intros e He.
    destruct (iniciarServicio_eventos k s) as [Hv | (j' & g & est & _ & _ & _ & Hv)].
    + left. by rewrite <- Hv.
    + rewrite Hv in He. apply elem_of_cons in He as [->|He]; [|by left].
      right. right. simpl. split; [done|]. split; [by left|]. by exists g.
Qed.

Lemma llegar_cambio s :
  0 < length (estaciones s) → cambio [CAJAS] s (llegar s).
Proof.
  intros Hlen.
  pose proof (estacion_en_rango CAJAS s Hlen) as H0.
  unfold llegar. destruct (cliente_nuevo s) as [c g].
  eapply (cambio_insert _ _ _ CAJAS); try done.
  - by left.
  - apply ep_agregar.
  - intros e He. by left.
Qed.

Lemma programar_cambio ks s : cambio ks s (programar s).
Proof.
  unfold programar.
  destruct (GeneradorAleatorio.tiempoEntreLlegadas _ _) as [entre g] eqn:Hg.
  simpl. destruct (menor _ _) eqn:Hlt.
  - split.
    + intros k est' Hk. exists est'. split; [done|].
      split; [apply rtc_refl | by left].
    + intros e He.
      apply (elem_of_Permutation_proper _ _ _ (eventos_push _ _ _)) in He.
      apply elem_of_cons in He as [->|He]; [|by left].
      right. left. simpl. split; [done|]. split; [done|].
      exists (rng s). by rewrite Hg.
  - split; [|intros e He; by left].
    intros k est' Hk. exists est'. split; [done|].
    split; [apply rtc_refl | by left].
Qed.

Lemma avanzar_cambio e s :
  (0 ≤ Evento.idEstacion e)%Z →
  Z.to_nat (Evento.idEstacion e) < length (estaciones s) →
  (∀ k, siguiente_de e s = Some k →
        (0 ≤ k)%Z ∧ Z.to_nat k < length (estaciones s)) →
  cambio (Evento.idEstacion e ::
          match siguiente_de e s with Some k => [k] | None => [] end)
         s (avanzar e s).
Proof.
  intros Hkd0 Hkd Hsig. set (kd := Evento.idEstacion e) in *.
  set (ks := kd :: _).
  set (fin := Estacion.finalizarServicio (tiempoActual s) (estacion kd s)).
  assert (H1 : cambio ks s (con_estacion kd fin s)).
  { apply (cambio_insert _ _ _ kd (estacion kd s) fin); try done.
    - by apply estacion_en_rango.
    - by left.
    - apply ep_finalizar.
    - intros x Hx. by left. }
  unfold avanzar. fold kd. fold fin.
  destruct (siguiente_de e s) as [k|] eqn:Hk.
  - destruct (Hsig k eq_refl) as [Hk0 Hkl].
    set (c2 := Cliente.con_tiempoEntradaCola _ _).
    set (s2 := con_cliente _ c2 _).
    eapply (cambio_trans _ _ (con_estacion kd fin s)); try done.
    eapply (cambio_insert _ _ _ k (estacion k s2)); try done.
    + apply (estacion_en_rango k s2). unfold s2. simpl.
      by rewrite length_insert.
    + right. by left.
    + apply (ep_agregar (tiempoActual s)).
    + intros x Hx. by left.
  - split; [|intros x Hx; by left]. apply H1.
Qed.

Lemma tras_cambio ks k s1 s2 :
  (0 ≤ k)%Z → k ∈ ks → ∀ b : bool,
  cambio ks s1 s2 →
  tiempoActual s2 = tiempoActual s1 →
  duracionSimulacion s2 = duracionSimulacion s1 →
  tasaLlegada s2 = tasaLlegada s1 →
  cambio ks s1 (if b then iniciarServicio k s2 else s2).
Proof.
  intros H0 Hin [] Hc Ht Hd Hr; [|done].
  eapply cambio_trans; try done.
  apply (cambio_mas [k]); [|by apply iniciarServicio_cambio].
  intros x Hx. apply list_elem_of_singleton in Hx. by subst x.
Qed.

(** What one iteration of the loop does to the stations and to the event
    queue. *)
Lemma paso_cambio s s' :
  Inv s → paso s = Some s' →
  cambio (tocadas (pq_top (colaEventos s)) (extraido s)) (extraido s) s'.
Proof.
  intros HI. rewrite paso_eq.
  destruct (pq_empty (colaEventos s)) eqn:Hne; [done|]. intros [= <-].
  pose proof (eventos_extraido _ Hne) as Hev.
  set (e := pq_top (colaEventos s)) in *.
  assert (Hein : e ∈ eventos s) by (rewrite Hev; left).
  pose proof (inv_estaciones _ HI) as Hlen.
  unfold tocadas. destruct (Evento.tipo e) eqn:Ht.
  - change (tiempoActual (extraido s)) with (Evento.tiempo e).
    destruct (menor (Evento.tiempo e) (duracionSimulacion s));
      [|apply cambio_refl].
    rewrite procesarLlegada_eq.
    pose proof (llegar_clientes (extraido s)) as (_ & Hta & Hdu & Hra & _).
    assert (Hl : cambio [CAJAS] (extraido s) (llegar (extraido s))).
    { apply llegar_cambio. simpl. lia. }
    set (sb := if Estacion.hayServidorDisponible _ then _ else _).
    assert (Hb : cambio [CAJAS] (extraido s) sb).
    { apply tras_cambio; try done. by left. }
    pose proof (iniciarServicio_campos CAJAS (llegar (extraido s)))
      as (Hta' & Hdu' & _ & _ & Hra' & _).
    eapply cambio_trans; [| | |exact Hb|apply programar_cambio];
      unfold sb; destruct (Estacion.hayServidorDisponible _); congruence.
  - destruct (inv_eventos _ HI _ Hein Ht) as [_ Hkd].
    rewrite procesarFinServicio_eq. cbv zeta.
    set (ks := Evento.idEstacion e :: _).
    assert (Hsig : ∀ k, siguiente_de e (extraido s) = Some k →
              (0 ≤ k)%Z ∧ Z.to_nat k < length (estaciones (extraido s))).
    { intros k Hk.
      pose proof (siguiente_de_rango s (extraido s) e k HI Hein eq_refl Ht Hk).
      simpl. lia. }
    assert (Ha : cambio ks (extraido s) (avanzar e (extraido s))).
    { apply avanzar_cambio; [lia | simpl; lia | done]. }
    pose proof (tras_avanzar_marco e (extraido s)) as Hm.
    assert (Hcam : tiempoActual (avanzar e (extraido s)) = tiempoActual (extraido s) ∧
                   duracionSimulacion (avanzar e (extraido s))
                   = duracionSimulacion (extraido s) ∧
                   tasaLlegada (avanzar e (extraido s)) = tasaLlegada (extraido s)).
    { unfold avanzar. by destruct (siguiente_de e (extraido s)). }
    destruct Hcam as (Hta & Hdu & Hra).
    set (sb := match siguiente_de e (extraido s) with
               | Some k => _ | None => _ end).
    assert (Hb : cambio ks (extraido s) sb ∧
                 tiempoActual sb = tiempoActual (extraido s) ∧
                 duracionSimulacion sb = duracionSimulacion (extraido s) ∧
                 tasaLlegada sb = tasaLlegada (extraido s)).
    { unfold sb, ks. destruct (siguiente_de e (extraido s)) as [k|] eqn:Hk; [|done].
      pose proof (iniciarServicio_campos k (avanzar e (extraido s)))
        as (Hta' & Hdu' & _ & _ & Hra' & _).
      split.
      - apply tras_cambio; try done; [by apply Hsig | right; by left].
      - destruct (Estacion.hayServidorDisponible _); repeat split; congruence. }
    destruct Hb as (Hb & Htb & Hdb & Hrb).
    apply tras_cambio; try done; [lia | by left].
Qed.

End Efectos.

(** ** The clock never goes back *)

Section Reloj.
Context `{Di : Distribuciones} `{Cp : !ColaPrioridad}.
Context {HCp : ColaPrioridadOk}.
Context {HL : LeyesOrden} {HS : LeyesSuma} {HD : DistribucionesOk}.

Implicit Types (s : SimulacionColas) (e : Evento.t) (c : Cliente.t).

Lemma no_mayor_refl (a : double) : no_mayor a a.
Proof. apply menor_irrefl. Qed.

(** Nothing is above a NaN. *)
Lemma no_numero_no_mayor (a b : double) : ¬ es_numero b → no_mayor a b.
Proof.
  intros Hb. unfold no_mayor. destruct (menor b a) eqn:H; [|done].
  apply menor_numero in H as [H _]. done.
Qed.

Lemma suma_de_no_negativos (a b : double) :
  es_numero a → es_numero b → no_mayor cero a → no_mayor cero b →
  es_numero (suma a b) ∧ no_mayor cero (suma a b) ∧ no_mayor a (suma a b).
Proof.
  intros Ha Hb Za Zb. split; [by apply suma_numero|].
  pose proof (suma_no_neg a b Zb) as H. split; [|done].
  by apply (no_mayor_trans _ a).
Qed.

Lemma servidoresOcupados_no_neg l : (0 ≤ servidoresOcupados l)%Z.
Proof. induction l as [|[] l IH]; simpl; lia. Qed.

Lemma actualizar_crece t est :
  no_mayor (Estacion.tiempoUltimoCambio est) t →
  no_mayor (Estacion.tiempoTotalOcupado est)
           (Estacion.tiempoTotalOcupado (Estacion.actualizarTiempoOcupado t est)).
Proof.
  intros H. simpl. apply suma_no_neg. apply mult_no_neg.
  - apply servidoresOcupados_no_neg.
  - by apply resta_no_neg.
Qed.

(** A call of a method of a station at a time not before its last change
    does not decrease the busy time, which is a number before the call if
    it is one after it, and leaves the last change not after that time. *)
Lemma EstPaso_crece t est est' :
  no_mayor (Estacion.tiempoUltimoCambio est) t → EstPaso t est est' →
  no_mayor (Estacion.tiempoTotalOcupado est) (Estacion.tiempoTotalOcupado est') ∧
  (es_numero (Estacion.tiempoTotalOcupado est') →
   es_numero (Estacion.tiempoTotalOcupado est)) ∧
  no_mayor (Estacion.tiempoUltimoCambio est') t.
Proof.
  intros H Hp. destruct Hp as [x j | x i j resto Hq Hi | x].
  - split; [apply no_mayor_refl|]. split; [done | exact H].
  - split; [|split; [|apply no_mayor_refl]].
    + apply (actualizar_crece t
               (Estacion.con_servidor i true (Estacion.con_colaEspera resto x))).
      done.
    + simpl. apply suma_nan.
  - unfold Estacion.finalizarServicio.
    destruct (primer_indice true _) as [i|];
      [|split; [apply no_mayor_refl | split; [done | exact H]]].
    split; [|split; [|apply no_mayor_refl]].
    + apply (actualizar_crece t (Estacion.con_servidor i false x)). done.
    + simpl. apply suma_nan.
Qed.

Lemma EstPasos_crece t est est' :
  no_mayor (Estacion.tiempoUltimoCambio est) t → rtc (EstPaso t) est est' →
  no_mayor (Estacion.tiempoTotalOcupado est) (Estacion.tiempoTotalOcupado est') ∧
  (es_numero (Estacion.tiempoTotalOcupado est') →
   es_numero (Estacion.tiempoTotalOcupado est)) ∧
  no_mayor (Estacion.tiempoUltimoCambio est') t.
Proof.
  intros H Hr. induction Hr as [x | x y z Hxy Hyz IH].
  - split; [apply no_mayor_refl|]. split; done.
  - destruct (EstPaso_crece _ _ _ H Hxy) as (Ha & Hn & Hb).
    destruct (IH Hb) as (Hc & Hm & Hd).
    split; [|split; [tauto | done]].
    destruct (igual (Estacion.tiempoTotalOcupado z)
                    (Estacion.tiempoTotalOcupado z)) eqn:Hz.
    + apply (no_mayor_trans _ (Estacion.tiempoTotalOcupado y)); [|done|done].
      by apply Hm.
    + apply no_numero_no_mayor. unfold es_numero. congruence.
Qed.

Lemma getTiempoServicio_no_neg k g :
  es_numero (fst (getTiempoServicio k g)) ∧
  no_mayor cero (fst (getTiempoServicio k g)).
Proof.
  pose proof (geometric_no_neg (decimal 1 10) g) as Hg.
  unfold getTiempoServicio, GeneradorAleatorio.tiempoServicioBinom,
    GeneradorAleatorio.tiempoServicioNormDisc,
    GeneradorAleatorio.tiempoServicioGeom, GeneradorAleatorio.tiempoServicioExp.
  destruct k as [|[[|[]|]|[|[]|]|]|];
    first [ apply exponential_no_neg; first [apply tasa_cajas_pos
                                            | apply tasa_refrescos_pos]
          | destruct (binomial_distribution _ _ _) as [v g']
          | destruct (normal_distribution _ _ _) as [v g']
          | destruct (geometric_distribution _ _) as [v g']
          | idtac ];
    simpl in *; (split; [apply de_int_numero | apply de_int_no_neg; lia]).
Qed.

Lemma NuevoEvento_no_antes t dur tasa ks e :
  es_numero t → no_mayor cero t →
  menor cero tasa = true → NuevoEvento t dur tasa ks e →
  es_numero (Evento.tiempo e) ∧ no_mayor t (Evento.tiempo e).
Proof.
  intros Ht Zt Hr [(_ & _ & g & ->) | (_ & _ & g & ->)].
  - destruct (exponential_no_neg tasa g Hr) as [Hn Hz].
    destruct (suma_de_no_negativos t _ Ht Hn Zt Hz) as (? & _ & ?). done.
  - destruct (getTiempoServicio_no_neg (Evento.idEstacion e) g) as [Hn Hz].
    destruct (suma_de_no_negativos t _ Ht Hn Zt Hz) as (? & _ & ?). done.
Qed.

Lemma paso_TInv s s' :
  Inv s → TInv s → menor cero (tasaLlegada s) = true → paso s = Some s' →
  TInv s' ∧
  no_mayor (tiempoActual s) (tiempoActual s') ∧
  (∀ k est', estaciones s' !! k = Some est' →
     ∃ est, estaciones s !! k = Some est ∧
            rtc (EstPaso (tiempoActual s')) est est' ∧
            no_mayor (Estacion.tiempoTotalOcupado est)
                     (Estacion.tiempoTotalOcupado est')).
Proof.
  intros HI (Hnum & Hpos & HT1 & HT2) Hr Hp.
  pose proof (paso_cambio _ _ HI Hp) as [Hce Hcv].
  pose proof (paso_clientes _ _ HI Hp) as (Hein & Hta & _).
  assert (Hne : pq_empty (colaEventos s) = false).
  { rewrite paso_eq in Hp. by destruct (pq_empty (colaEventos s)). }
  set (e := pq_top (colaEventos s)) in *. cbv zeta in Hta.
  change (tiempoActual (extraido s)) with (Evento.tiempo e) in *.
  change (estaciones (extraido s)) with (estaciones s) in *.
  rewrite <- Hta in *.
  destruct (HT1 _ Hein) as [Hnum' Hclk]. rewrite <- Hta in Hnum', Hclk.
  assert (Hpos' : no_mayor cero (tiempoActual s'))
    by (by apply (no_mayor_trans _ (tiempoActual s))).
  assert (Hest : ∀ k est', estaciones s' !! k = Some est' →
     ∃ est, estaciones s !! k = Some est ∧
            rtc (EstPaso (tiempoActual s')) est est' ∧
            no_mayor (Estacion.tiempoTotalOcupado est)
                     (Estacion.tiempoTotalOcupado est') ∧
            no_mayor (Estacion.tiempoUltimoCambio est') (tiempoActual s')).
  { intros k est' Hk. destruct (Hce _ _ Hk) as (est & Hk0 & Hrt & _).
    exists est. split; [done|]. split; [done|].
    destruct (EstPasos_crece (tiempoActual s') est est') as (? & _ & ?);
      [|done|done].
    apply (no_mayor_trans _ (tiempoActual s)); [done | by apply (HT2 k) | done]. }
  split; [split; [done|split; [done|split]]|split; [done|]].
  - intros x Hx. destruct (Hcv _ Hx) as [Hx0 | Hn].
    + assert (Hx1 : x ∈ eventos s).
      { apply (elem_of_Permutation_proper _ _ _ (eventos_extraido _ Hne)).
        by right. }
      split; [by apply HT1|].
      pose proof (pq_top_spec (colaEventos s) x Hne) as Htop.
      rewrite Hta. by apply Htop.
    + by apply (NuevoEvento_no_antes _ _ _ _ _ Hnum' Hpos' Hr Hn).
  - intros k est' Hk. by destruct (Hest _ _ Hk) as (est & _ & _ & _ & H).
  - intros k est' Hk. destruct (Hest _ _ Hk) as (est & H1 & H2 & H3 & _).
    by exists est.
Qed.

End Reloj.

(** ** Runs and the events they process *)

Section Corridas.
Context `{Di : Distribuciones} `{Cp : !ColaPrioridad}.
Context {HCp : ColaPrioridadOk}.

Implicit Types (s : SimulacionColas) (e : Evento.t) (c : Cliente.t).

Lemma Corrida_Inv s0 tr s : Inv s0 → Corrida s0 tr s → Inv s.
Proof. intros H0. induction 1; [done|]. by eapply paso_Inv. Qed.

Lemma Corrida_Alcanzable sc s0 tr s :
  Alcanzable sc s0 → Corrida s0 tr s → Alcanzable sc s.
Proof. intros H0. induction 1; [done|]. by eapply alc_paso. Qed.

Lemma bucle_Corrida n s0 s :
  bucle n s0 = Some s → ∃ tr, Corrida s0 tr s ∧ paso s = None.
Proof.
  intros H.
  assert (Hgen : ∀ tr0 s1, Corrida s0 tr0 s1 → bucle n s1 = Some s →
                   ∃ tr, Corrida s0 tr s ∧ paso s = None).
  { clear H. induction n as [|n IH]; intros tr0 s1 Hc Hb; simpl in Hb.
    - destruct (paso s1) eqn:Hp; [done|]. inversion Hb; subst. by exists tr0.
    - destruct (paso s1) as [s2|] eqn:Hp.
      + eapply IH; [|exact Hb]. by eapply corrida_paso.
      + inversion Hb; subst. by exists tr0. }
  eapply Hgen; [apply corrida_nil | done].
Qed.

Lemma tiempos_fin_snoc i tr e :
  tiempos_fin i (tr ++ [e])
  = tiempos_fin i tr ++ (if es_fin_de (Z.of_nat i) e then [Evento.tiempo e] else []).
Proof.
  unfold tiempos_fin. rewrite filter_app, fmap_app. f_equal.
  destruct (es_fin_de (Z.of_nat i) e) eqn:He.
  - by rewrite filter_cons_True.
  - rewrite filter_cons_False; [done|]. by rewrite He.
Qed.

Lemma filter_ninguno {A} (P : A → Prop) `{∀ x, Decision (P x)} (l : list A) :
  (∀ x, x ∈ l → ¬ P x) → filter P l = [].
Proof.
  induction l as [|y l IH]; [done|]. intros Hn.
  rewrite filter_cons_False by (apply Hn; left).
  apply IH. intros x Hx. apply Hn. by right.
Qed.

Lemma cuenta_snoc {A} (P : A → bool) l x :
  cuenta P (l ++ [x]) = cuenta P l + if P x then 1 else 0.
Proof. rewrite cuenta_app, cuenta_cons, cuenta_nil. lia. Qed.

Lemma paso_TrInv tr s s' :
  Inv s → TrInv tr s → paso s = Some s' →
  TrInv (tr ++ [pq_top (colaEventos s)]) s'.
Proof.
  intros HI [HT1 HT2] Hp.
  pose proof (paso_clientes _ _ HI Hp) as (Hein & Hta & Hdu & _ & _ & Hlen & Hcl).
  set (e := pq_top (colaEventos s)) in *. cbv zeta in *.
  split.
  - intros x Hx Ht. apply elem_of_app in Hx as [Hx|Hx].
    + pose proof (HT1 _ Hx Ht). lia.
    + apply list_elem_of_singleton in Hx. subst x.
      destruct (inv_eventos _ HI _ Hein Ht). lia.
  - intros i c' Hc'. rewrite cuenta_snoc, tiempos_fin_snoc, Hdu.
    destruct (Hcl _ _ Hc') as [(c & Hc & Hm & Hno) | [Hnew | Hfin]].
    + destruct (HT2 _ _ Hc) as (Hix & Hll & Hec).
      destruct Hm as (_ & Hr' & Hix' & Hll' & Hec').
      assert (Hf : es_fin_de (Z.of_nat i) e = false).
      { unfold es_fin_de. destruct (Evento.tipo e) eqn:Ht; [done|]. simpl.
        apply Z.eqb_neq. intros Heq. by apply Hno. }
      rewrite Hf, app_nil_r, Hix', Hll', Hec'.
      split; [lia|]. split; [done|]. intros Hr. apply Hec.
      unfold en_ruta in *. by rewrite <- Hr', <- Hix'.
    + destruct Hnew as (-> & Ht & Hlt & Hix & Hll & Hec & _).
      assert (Hf : es_fin_de (Z.of_nat (length (clientes s))) e = false).
      { unfold es_fin_de. by rewrite Ht. }
      assert (Hz : cuenta (es_fin_de (Z.of_nat (length (clientes s)))) tr = 0).
      { apply cuenta_cero. intros x Hx. unfold es_fin_de.
        destruct (Evento.tipo x) eqn:Htx; [done|]. simpl.
        apply Z.eqb_neq. pose proof (HT1 _ Hx Htx). lia. }
      assert (Hn : tiempos_fin (length (clientes s)) tr = []).
      { unfold tiempos_fin.
        rewrite filter_ninguno; [done|]. intros x Hx Hfx.
        assert (0 < cuenta (es_fin_de (Z.of_nat (length (clientes s)))) tr); [|lia].
        by apply (cuenta_elem _ _ x). }
      rewrite Hf, Hz, Hn, Hix, Hll, Hec. simpl. by repeat split.
    + destruct Hfin as (c & Hc & Ht & Hid & Hid' & Hr' & Hll' & Hix' & Hruta & Hec').
      destruct (HT2 _ _ Hc) as (Hix & Hll & Hec).
      assert (Hf : es_fin_de (Z.of_nat i) e = true).
      { unfold es_fin_de. rewrite Ht. simpl. by apply Z.eqb_eq. }
      rewrite Hf, Hix', Hll', Hix. split; [lia|]. split; [done|].
      intros Hr. rewrite (Hec' Hr), last_snoc. done.
Qed.

Lemma Corrida_TrInv s0 tr s :
  Inv s0 → clientes s0 = [] → Corrida s0 tr s → TrInv tr s.
Proof.
  intros H0 Hc0. induction 1 as [|tr s s' Hc IH Hp].
  - split; [intros e He; by apply elem_of_nil in He|].
    intros i c Hi. by rewrite Hc0 in Hi.
  - apply paso_TrInv; [by apply (Corrida_Inv s0 tr) | done | done].
Qed.

Lemma Corrida_campos s0 tr s :
  Inv s0 → Corrida s0 tr s →
  duracionSimulacion s = duracionSimulacion s0 ∧
  tasaLlegada s = tasaLlegada s0 ∧
  probabilidadesEstaciones s = probabilidadesEstaciones s0.
Proof.
  intros H0. induction 1 as [|tr s s' Hc IH Hp]; [done|].
  pose proof (paso_clientes _ _ (Corrida_Inv _ _ _ H0 Hc) Hp)
    as (_ & _ & Hdu & Hra & Hpr & _).
  destruct IH as (? & ? & ?). repeat split; congruence.
Qed.

End Corridas.

(** ** Events are processed in ascending order of time *)

Section RelojCorrida.
Context `{Di : Distribuciones} `{Cp : !ColaPrioridad}.
Context {HCp : ColaPrioridadOk}.
Context {HL : LeyesOrden} {HS : LeyesSuma} {HD : DistribucionesOk}.

Implicit Types (s : SimulacionColas) (e : Evento.t) (c : Cliente.t).

Lemma StronglySorted_snoc {A} (R : relation A) l y :
  StronglySorted R l → (∀ x, x ∈ l → R x y) → StronglySorted R (l ++ [y]).
Proof.
  induction 1 as [|x l Hl IH Hx]; intros Hy; simpl.
  - repeat constructor.
  - constructor.
    + apply IH. intros z Hz. apply Hy. by right.
    + apply Forall_app. split; [done|]. constructor; [|constructor].
      apply Hy. left.
Qed.

Lemma inicializar_TInv config s s' :
  menor cero (tasaLlegada s) = true →
  inicializar config s = Some s' → TInv s'.
Proof.
  intros Hr H. destruct (eventos_inicializar _ _ _ H) as (t & Hev & Ht).
  destruct (inicializar_Some _ _ _ H) as (e0&e1&e2&e3&e4&t'&g&H0&H1&H2&H3&H4&_&Hs).
  apply Estacion_nueva_Some in H0 as [_ ->], H1 as [_ ->], H2 as [_ ->],
        H3 as [_ ->], H4 as [_ ->].
  split; [|split; [|split]].
  - subst s'. simpl. apply igual_cero.
  - subst s'. simpl. apply no_mayor_refl.
  - intros e He. rewrite Hev in He. apply list_elem_of_singleton in He.
    subst e s'. simpl. rewrite Ht. by apply exponential_no_neg.
  - intros k x Hk. subst s'. simpl in *.
    destruct k as [|[|[|[|[|k]]]]]; simpl in Hk; try done;
      inversion Hk; subst x; simpl; apply no_mayor_refl.
Qed.

(** Along a run the clock does not go back: the events are taken from the
    queue in ascending order of time. *)
Lemma Corrida_TInv s0 tr s :
  Inv s0 → TInv s0 → menor cero (tasaLlegada s0) = true →
  Corrida s0 tr s →
  TInv s ∧
  no_mayor (tiempoActual s0) (tiempoActual s) ∧
  (∀ e, e ∈ tr → no_mayor (Evento.tiempo e) (tiempoActual s)) ∧
  StronglySorted no_mayor (Evento.tiempo <$> tr).
Proof.
  intros H0 HT0 Hr. induction 1 as [|tr s s' Hc IH Hp].
  - split; [done|]. split; [apply no_mayor_refl|].
    split; [intros e He; by apply elem_of_nil in He | constructor].
  - destruct IH as (HT & Hclk & Htr & Hso).
    pose proof (Corrida_Inv _ _ _ H0 Hc) as HI.
    destruct (Corrida_campos _ _ _ H0 Hc) as (_ & Hra & _).
    rewrite <- Hra in Hr.
    destruct (paso_TInv _ _ HI HT Hr Hp) as (HT' & Hstep & _).
    pose proof (paso_clientes _ _ HI Hp) as (_ & Hta & _). cbv zeta in Hta.
    pose proof HT as (Hnum & _).
    split; [done|].
    split; [by apply (no_mayor_trans _ (tiempoActual s))|].
    assert (Hall : ∀ e, e ∈ tr ++ [pq_top (colaEventos s)] →
                        no_mayor (Evento.tiempo e) (tiempoActual s')).
    { intros e He. apply elem_of_app in He as [He|He].
      - apply (no_mayor_trans _ (tiempoActual s)); [done | by apply Htr | done].
      - apply list_elem_of_singleton in He. subst e. rewrite Hta.
        apply no_mayor_refl. }
    split; [done|].
    rewrite fmap_app. simpl. apply StronglySorted_snoc; [done|].
    intros x Hx. apply list_elem_of_fmap in Hx as (e & -> & He).
    rewrite <- Hta.
    apply (no_mayor_trans _ (tiempoActual s)); [done | by apply Htr | done].
Qed.

End RelojCorrida.

(** ** A measure that every iteration decreases *)

Section Potencial.
Context `{Di : Distribuciones} `{Cp : !ColaPrioridad}.
Context {HCp : ColaPrioridadOk}.

Implicit Types (s : SimulacionColas) (e : Evento.t) (c : Cliente.t).

Lemma sum_list_with_lookup {A} (f : A → nat) (l l' : list A) :
  length l = length l' →
  (∀ i x x', l !! i = Some x → l' !! i = Some x' → f x = f x') →
  sum_list_with f l = sum_list_with f l'.
Proof.
  revert l'. induction l as [|x l IH]; intros [|x' l'] Hlen Hf; simplify_eq/=.
  - done.
  - rewrite (Hf 0 x x') by done. f_equal. apply IH; [done|].
    intros i y y' Hy Hy'. by apply (Hf (S i)).
Qed.

Lemma marco_futuras s s' : marco s s' → futuras s' = futuras s.
Proof.
  intros (Hl & Hc & _). unfold futuras. symmetry.
  apply sum_list_with_lookup; [done|].
  intros i x x' Hx Hx'. destruct (Hc _ _ Hx) as (y & Hy & (_ & Hr & Hi & _)).
  assert (y = x') by congruence. subst y. by rewrite Hr, Hi.
Qed.

Lemma es_fin_llegada e : es_fin e = negb (es_llegada e).
Proof. unfold es_fin, es_llegada. by destruct (Evento.tipo e). Qed.

(** Starting a service moves one customer from a queue to the events. *)
Lemma iniciarServicio_trabajo k s :
  Inv s →
  let s' := iniciarServicio k s in
  llegadas s' = llegadas s ∧ trabajo s' ≤ trabajo s ∧
  length (clientes s') = length (clientes s).
Proof.
  intros HI s'.
  pose proof (iniciarServicio_marco k s) as Hm.
  pose proof (marco_futuras _ _ Hm) as Hf. fold s' in Hf.
  destruct Hm as (Hlen & _). fold s' in Hlen.
  unfold trabajo. rewrite Hf.
  destruct (iniciarServicio_casos k s)
    as [[Heq _] | (j & resto & i & Hq & Hi & Heq)].
  { unfold s'. rewrite Heq. repeat split; lia. }
  assert (Hjq : j ∈ Estacion.colaEspera (estacion k s)) by (rewrite Hq; left).
  pose proof (estacion_cola_lookup _ _ _ Hjq) as Hk.
  pose proof (inv_colas _ HI _ _ _ Hk Hjq) as Hjr.
  cbv zeta in Heq.
  replace (j <? 0)%Z with false in Heq by (symmetry; apply Z.ltb_ge; lia).
  set (est' := ocupar (tiempoActual s) i resto (estacion k s)) in *.
  destruct (atender_spec j k (con_estacion k est' s)) as (ts & g & _ & Hat).
  rewrite Hat in Heq. clear Hat.
  assert (Henc : encolados s' + 1 = encolados s).
  { unfold s', encolados. rewrite Heq. simpl.
    pose proof (sum_list_with_insert (λ x, length (Estacion.colaEspera x))
                  (estaciones s) _ _ est' Hk) as H.
    simpl in H. rewrite Hq in H. simpl in H. lia. }
  assert (Hev : eventos s' ≡ₚ
                Evento.mk (suma (tiempoActual s) ts) FIN_SERVICIO j k :: eventos s).
  { unfold s'. rewrite Heq. apply eventos_push. }
  unfold llegadas, fines. rewrite !(cuenta_perm _ _ _ Hev), !cuenta_cons.
  simpl. fold (fines s) (llegadas s). repeat split; lia.
Qed.

Lemma programar_trabajo s :
  let s' := programar s in
  trabajo s' = trabajo s ∧ llegadas s' ≤ llegadas s + 1 ∧
  length (clientes s') = length (clientes s).
Proof.
  unfold programar.
  destruct (GeneradorAleatorio.tiempoEntreLlegadas _ _) as [entre g].
  cbv zeta. change (duracionSimulacion (con_rng g s)) with (duracionSimulacion s).
  destruct (menor _ _);
    [|split; [reflexivity|]; split; [|reflexivity];
      change (llegadas (con_rng g s)) with (llegadas s); lia].
  set (ev := Evento.mk _ _ _ _).
  set (s' := con_colaEventos _ _).
  assert (Hev : eventos s' ≡ₚ ev :: eventos s) by apply eventos_push.
  assert (Hfi : fines s' = fines s).
  { unfold fines. by rewrite (cuenta_perm _ _ _ Hev), cuenta_cons. }
  assert (Hll : llegadas s' = 1 + llegadas s).
  { unfold llegadas. by rewrite (cuenta_perm _ _ _ Hev), cuenta_cons. }
  unfold trabajo. rewrite Hfi, Hll.
  change (futuras s') with (futuras s). change (encolados s') with (encolados s).
  repeat split; try done; lia.
Qed.

Lemma llegar_trabajo s :
  Inv s →
  let s' := llegar s in
  trabajo s' ≤ trabajo s + 10 ∧ llegadas s' = llegadas s ∧
  length (clientes s') = S (length (clientes s)).
Proof.
  intros HI. pose proof (cliente_nuevo_spec s) as (_ & (_ & Hr5 & _) & Hix & _).
  unfold llegar. destruct (cliente_nuevo s) as [c g]. simpl in Hr5, Hix.
  pose proof (inv_estaciones _ HI) as Hlen.
  assert (H0 : estaciones s !! Z.to_nat CAJAS = Some (estacion CAJAS s)).
  { apply estacion_en_rango. rewrite Hlen. unfold CAJAS. simpl. lia. }
  set (est' := Estacion.agregarCliente _ _ _).
  set (s' := con_estacion _ _ _). cbv zeta.
  assert (Hfu : futuras s' ≤ futuras s + 4).
  { unfold futuras, s'. simpl. rewrite sum_list_with_app. simpl. lia. }
  assert (Hen : encolados s' = encolados s + 1).
  { unfold encolados, s'. simpl.
    pose proof (sum_list_with_insert (λ x, length (Estacion.colaEspera x))
                  (estaciones s) _ _ est' H0) as H.
    simpl in H. rewrite length_app in H. simpl in H. lia. }
  assert (Hcl : length (clientes s') = S (length (clientes s))).
  { unfold s'. simpl. rewrite length_app. simpl. lia. }
  unfold trabajo. change (fines s') with (fines s).
  change (llegadas s') with (llegadas s).
  repeat split; try done; lia.
Qed.

(** The customer of a scheduled end of service is on its route. *)
Lemma evento_fin_cliente s e :
  Inv s → e ∈ eventos s → Evento.tipo e = FIN_SERVICIO →
  (0 ≤ Evento.idCliente e)%Z ∧ (0 ≤ Evento.idEstacion e < 5)%Z ∧
  ∃ c, clientes s !! Z.to_nat (Evento.idCliente e) = Some c ∧ en_ruta c = true.
Proof.
  intros HI He Ht. destruct (inv_eventos _ HI _ He Ht) as [Hj Hk].
  split; [lia|]. split; [done|].
  destruct (lookup_lt_is_Some_2 (clientes s) (Z.to_nat (Evento.idCliente e)))
    as [c Hc]; [lia|].
  exists c. split; [done|].
  pose proof (inv_pendiente _ HI _ _ Hc) as Hp.
  assert (0 < en_servicio (Z.of_nat (Z.to_nat (Evento.idCliente e))) s).
  { apply (cuenta_elem _ _ e He). unfold es_fin_de. rewrite Ht. simpl.
    apply Z.eqb_eq. lia. }
  destruct (en_ruta c); [done | lia].
Qed.

Lemma extraido_trabajo s :
  pq_empty (colaEventos s) = false →
  let e := pq_top (colaEventos s) in
  llegadas s = (if es_llegada e then 1 else 0) + llegadas (extraido s) ∧
  trabajo s = (if es_fin e then 1 else 0) + trabajo (extraido s).
Proof.
  intros Hne. pose proof (eventos_extraido _ Hne) as Hev. cbv zeta.
  unfold trabajo, llegadas, fines.
  rewrite !(cuenta_perm _ _ _ Hev), !cuenta_cons.
  change (futuras (extraido s)) with (futuras s).
  change (encolados (extraido s)) with (encolados s).
  split; lia.
Qed.

Lemma encolados_insert s k est est' :
  estaciones s !! k = Some est →
  encolados (con_estaciones (<[k:=est']> (estaciones s)) s)
    + length (Estacion.colaEspera est)
  = encolados s + length (Estacion.colaEspera est').
Proof.
  intros H. unfold encolados. simpl.
  apply (sum_list_with_insert (λ x, length (Estacion.colaEspera x)) _ _ _ _ H).
Qed.

Lemma avanzar_trabajo s0 s e :
  Inv s0 → e ∈ eventos s0 →
  estaciones s = estaciones s0 → clientes s = clientes s0 →
  Evento.tipo e = FIN_SERVICIO →
  trabajo (avanzar e s) ≤ trabajo s ∧
  llegadas (avanzar e s) = llegadas s ∧
  length (clientes (avanzar e s)) = length (clientes s).
Proof.
  intros HI Hein He Hc Ht.
  destruct (evento_fin_cliente _ _ HI Hein Ht) as (Hj0 & Hk5 & c0 & Hc0 & Hruta0).
  set (jd := Evento.idCliente e) in *. set (kd := Evento.idEstacion e) in *.
  pose proof (inv_estaciones _ HI) as Hlen.
  rewrite <- Hc in Hc0. rewrite <- He in Hlen.
  assert (Hcli : cliente jd s = c0) by by apply cliente_lookup.
  assert (Hlt0 : (Cliente.indiceEstacionActual c0
                  < Z.of_nat (length (Cliente.estaciones c0)))%Z).
  { unfold en_ruta in Hruta0. by apply Z.ltb_lt. }
  set (fin := Estacion.finalizarServicio (tiempoActual s) (estacion kd s)).
  assert (Hk0 : estaciones s !! Z.to_nat kd = Some (estacion kd s)).
  { apply estacion_en_rango. lia. }
  set (s1 := con_estacion kd fin s).
  assert (Henc1 : encolados s1 = encolados s).
  { pose proof (encolados_insert s _ _ fin Hk0) as H.
    assert (Hq : Estacion.colaEspera fin = Estacion.colaEspera (estacion kd s))
      by apply finalizarServicio_cola.
    rewrite Hq in H. change (encolados (con_estaciones _ s)) with (encolados s1) in H.
    lia. }
  set (f := λ c : Cliente.t,
         Z.to_nat (Z.of_nat (length (Cliente.estaciones c))
                   - Cliente.indiceEstacionActual c - 1)).
  assert (Hfut : ∀ c1, futuras (con_clientes (<[Z.to_nat jd := c1]> (clientes s)) s)
                       + f c0 = futuras s + f c1).
  { intros c1. unfold futuras. simpl.
    apply (sum_list_with_insert f _ _ _ _ Hc0). }
  unfold avanzar, siguiente_de. fold jd kd. fold fin.
  set (c1 := cliente_avanzado e s).
  assert (Hc1 : Cliente.estaciones c1 = Cliente.estaciones c0 ∧
                Cliente.indiceEstacionActual c1
                = (Cliente.indiceEstacionActual c0 + 1)%Z).
  { unfold c1, cliente_avanzado. fold jd. by rewrite Hcli. }
  destruct Hc1 as (Hr1 & Hix1).
  destruct (en_ruta c1) eqn:Hruta1.
  - assert (Hlt1 : (Cliente.indiceEstacionActual c1
                    < Z.of_nat (length (Cliente.estaciones c1)))%Z).
    { unfold en_ruta in Hruta1. by apply Z.ltb_lt. }
    set (sig := Cliente.estaciones c1 !!! Z.to_nat (Cliente.indiceEstacionActual c1)).
    assert (Hsig : (0 ≤ sig < 5)%Z).
    { unfold sig. destruct (inv_cliente _ HI (Z.to_nat jd) c0) as (_ & Hr0 & Hix0).
      { by rewrite <- Hc. }
      rewrite Hr1. apply ruta_ok_estacion; [done|].
      rewrite Hr1 in Hlt1. lia. }
    set (c2 := Cliente.con_tiempoEntradaCola (tiempoActual s) c1).
    set (s2 := con_cliente jd c2 (con_cliente jd c1 s1)).
    assert (Hks : estaciones s2 !! Z.to_nat sig = Some (estacion sig s2)).
    { apply estacion_en_rango. unfold s2, s1. simpl. rewrite length_insert. lia. }
    set (est' := Estacion.agregarCliente _ _ _).
    set (s3 := con_estacion sig est' s2).
    assert (Henc : encolados s3 = encolados s + 1).
    { rewrite <- Henc1.
      pose proof (encolados_insert s2 _ _ est' Hks) as H.
      assert (Hq : length (Estacion.colaEspera est')
                   = length (Estacion.colaEspera (estacion sig s2)) + 1).
      { unfold est'. simpl. rewrite length_app. reflexivity. }
      change (encolados (con_estaciones _ s2)) with (encolados s3) in H.
      change (encolados s2) with (encolados s1) in H. lia. }
    assert (Hfu : futuras s3 + 1 = futuras s).
    { pose proof (Hfut c2) as H.
      assert (Heq : futuras s3
                    = futuras (con_clientes (<[Z.to_nat jd:=c2]> (clientes s)) s)).
      { unfold futuras, s3, s2. simpl. by rewrite list_insert_insert_eq. }
      rewrite Heq. change (f c2) with (f c1) in H.
      unfold f in H. rewrite Hr1, Hix1 in H.
      rewrite Hr1, Hix1 in Hlt1. lia. }
    change (trabajo s3 ≤ trabajo s ∧ llegadas s3 = llegadas s ∧
            length (clientes s3) = length (clientes s)).
    unfold trabajo. change (fines s3) with (fines s).
    change (llegadas s3) with (llegadas s).
    split; [lia|]. split; [done|].
    unfold s3, s2. simpl. by rewrite !length_insert.
  - assert (Hge1 : (Z.of_nat (length (Cliente.estaciones c1))
                    ≤ Cliente.indiceEstacionActual c1)%Z).
    { unfold en_ruta in Hruta1. by apply Z.ltb_ge. }
    set (s2 := con_cliente jd c1 s1).
    pose (s3 := con_clientesCompletados (clientesCompletados s2 ++ [c1]) s2).
    assert (Hfu : futuras s3 = futuras s).
    { pose proof (Hfut c1) as H.
      assert (Heq : futuras s3
                    = futuras (con_clientes (<[Z.to_nat jd:=c1]> (clientes s)) s))
        by done.
      rewrite Heq. unfold f in H. rewrite Hr1, Hix1 in H.
      rewrite Hr1, Hix1 in Hge1. lia. }
    change (trabajo s3 ≤ trabajo s ∧ llegadas s3 = llegadas s ∧
            length (clientes s3) = length (clientes s)).
    unfold trabajo. change (fines s3) with (fines s).
    change (llegadas s3) with (llegadas s).
    change (encolados s3) with (encolados s1).
    split; [lia|]. split; [done|].
    unfold s3, s2. simpl. by rewrite !length_insert.
Qed.

Lemma procesarFinServicio_trabajo s :
  pq_empty (colaEventos s) = false →
  Evento.tipo (pq_top (colaEventos s)) = FIN_SERVICIO →
  Inv s →
  let s' := procesarFinServicio (pq_top (colaEventos s)) (extraido s) in
  trabajo s' < trabajo s ∧ llegadas s' = llegadas s ∧
  length (clientes s') = length (clientes s).
Proof.
  intros Hne Ht HI. pose proof (eventos_extraido _ Hne) as Hev.
  set (e := pq_top (colaEventos s)) in *.
  assert (Hein : e ∈ eventos s) by (rewrite Hev; left).
  destruct (inv_eventos _ HI _ Hein Ht) as [_ Hkd].
  pose proof (extraido_trabajo s Hne) as [Hl0 Ht0]. cbv zeta in Hl0, Ht0.
  fold e in Hl0, Ht0. unfold es_llegada, es_fin in Hl0, Ht0. rewrite Ht in Hl0, Ht0.
  simpl in Hl0, Ht0.
  pose proof (avanzar_trabajo s (extraido s) e HI Hein eq_refl eq_refl Ht)
    as (Ha1 & Ha2 & Ha3).
  pose proof (avanzar_Inv s (extraido s) e HI Hev eq_refl eq_refl eq_refl eq_refl Ht)
    as Ha.
  cbv zeta. rewrite procesarFinServicio_eq. cbv zeta.
  set (sb := match siguiente_de e (extraido s) with
             | Some k => _ | None => _ end).
  assert (Hb : Inv sb ∧ trabajo sb ≤ trabajo (avanzar e (extraido s)) ∧
               llegadas sb = llegadas (avanzar e (extraido s)) ∧
               length (clientes sb) = length (clientes (avanzar e (extraido s)))).
  { unfold sb. destruct (siguiente_de e (extraido s)) as [k|] eqn:Hk; [|done].
    destruct (Estacion.hayServidorDisponible _); [|done].
    pose proof (iniciarServicio_trabajo k _ Ha) as (? & ? & ?).
    split; [|done]. apply iniciarServicio_Inv; [|done].
    by apply (siguiente_de_rango s (extraido s) e k HI Hein eq_refl Ht). }
  destruct Hb as (Hb & Hb1 & Hb2 & Hb3).
  change (length (clientes (extraido s))) with (length (clientes s)) in Ha3.
  destruct (_ && _).
  - pose proof (iniciarServicio_trabajo (Evento.idEstacion e) _ Hb) as (? & ? & ?).
    repeat split; lia.
  - repeat split; lia.
Qed.

End Potencial.

(** ** When the loop ends *)

Section Terminacion.
Context `{Di : Distribuciones} `{Cp : !ColaPrioridad}.
Context {HCp : ColaPrioridadOk}.

Implicit Types (s : SimulacionColas) (e : Evento.t) (c : Cliente.t).

Lemma llegadas_cero s e :
  llegadas s = 0 → e ∈ eventos s → Evento.tipo e = LLEGADA → False.
Proof.
  intros H0 He Ht.
  assert (0 < llegadas s); [|lia].
  apply (cuenta_elem _ _ e He). unfold es_llegada. by rewrite Ht.
Qed.

Lemma iniciarServicio_viejo_o_fin k s e :
  e ∈ eventos (iniciarServicio k s) →
  e ∈ eventos s ∨ Evento.tipo e = FIN_SERVICIO.
Proof.
  intros He.
  destruct (iniciarServicio_eventos k s) as [Hv | (j & g & est & _ & _ & _ & Hv)].
  - left. by rewrite <- Hv.
  - rewrite Hv in He. apply elem_of_cons in He as [->|He]; [by right | by left].
Qed.

Lemma procesarFinServicio_viejo_o_fin e0 s e :
  e ∈ eventos (procesarFinServicio e0 s) →
  e ∈ eventos s ∨ Evento.tipo e = FIN_SERVICIO.
Proof.
  rewrite procesarFinServicio_eq. cbv zeta.
  set (sb := match siguiente_de e0 s with Some k => _ | None => _ end).
  assert (Ha : eventos (avanzar e0 s) = eventos s).
  { unfold avanzar. by destruct (siguiente_de e0 s). }
  assert (Hb : e ∈ eventos sb → e ∈ eventos s ∨ Evento.tipo e = FIN_SERVICIO).
  { unfold sb. destruct (siguiente_de e0 s) as [k|]; [|by rewrite Ha; left].
    destruct (Estacion.hayServidorDisponible _); [|by rewrite Ha; left].
    intros He. apply iniciarServicio_viejo_o_fin in He as [He|He]; [|by right].
    left. by rewrite <- Ha. }
  destruct (_ && _); [|done].
  intros He. apply iniciarServicio_viejo_o_fin in He as [He|He]; [|by right].
  by apply Hb.
Qed.

(** At most one arrival is scheduled at a time. *)
Lemma paso_llegadas s s' :
  Inv s → llegadas s ≤ 1 → paso s = Some s' → llegadas s' ≤ 1.
Proof.
  intros HI Hl. rewrite paso_eq.
  destruct (pq_empty (colaEventos s)) eqn:Hne; [done|]. intros [= <-].
  destruct (extraido_trabajo s Hne) as [Hx _]. unfold es_llegada in Hx.
  destruct (Evento.tipo (pq_top (colaEventos s))) eqn:Ht; simpl in Hx.
  - pose proof (extraido_Inv _ Hne Ht HI) as HIx.
    destruct (menor _ _); [|lia].
    rewrite procesarLlegada_eq.
    destruct (llegar_trabajo _ HIx) as (_ & Hll & _).
    destruct (programar_trabajo
                (if Estacion.hayServidorDisponible (estacion CAJAS (llegar (extraido s)))
                 then iniciarServicio CAJAS (llegar (extraido s))
                 else llegar (extraido s))) as (_ & Hp & _).
    cbv zeta in *.
    destruct (Estacion.hayServidorDisponible _).
    + destruct (iniciarServicio_trabajo CAJAS _ (llegar_Inv _ HIx)) as (Hi & _).
      cbv zeta in Hi. lia.
    + lia.
  - destruct (procesarFinServicio_trabajo s Hne Ht HI) as (_ & Hf & _).
    cbv zeta in Hf. lia.
Qed.

Lemma Corrida_llegadas s0 tr s :
  Inv s0 → llegadas s0 ≤ 1 → Corrida s0 tr s → llegadas s ≤ 1.
Proof.
  intros HI Hl Hc. induction Hc as [|tr s s' Hc IH Hp]; [done|].
  apply (paso_llegadas s s'); [by eapply Corrida_Inv | done | done].
Qed.

(** A run seen from its first iteration. *)
Lemma Corrida_cons s s' tr s'' :
  paso s = Some s' → Corrida s' tr s'' →
  Corrida s (pq_top (colaEventos s) :: tr) s''.
Proof.
  intros Hp. induction 1 as [|tr x x' Hc IH Hx].
  - exact (corrida_paso s [] s s' (corrida_nil s) Hp).
  - exact (corrida_paso s _ x x' IH Hx).
Qed.

Lemma Corrida_cabeza s tr s2 :
  Corrida s tr s2 →
  s2 = s ∨ ∃ s' tr', paso s = Some s' ∧ Corrida s' tr' s2.
Proof.
  induction 1 as [|tr x x' Hc IH Hx]; [by left|]. right.
  destruct IH as [-> | (s' & tr' & Hp & Hc')].
  - exists x', []. split; [done | constructor].
  - exists s', (tr' ++ [pq_top (colaEventos x)]). split; [done|].
    by apply corrida_paso.
Qed.

(** Two runs from the same state: one continues the other. *)
Lemma Corrida_lineal s0 tr1 s1 tr2 s2 :
  Corrida s0 tr1 s1 → Corrida s0 tr2 s2 →
  (∃ tr, Corrida s1 tr s2) ∨ (∃ tr, Corrida s2 tr s1).
Proof.
  intros H1 H2. induction H1 as [|tr x x' Hc IH Hx]; [left; by exists tr2|].
  destruct IH as [[tr' Hc'] | [tr' Hc']].
  - destruct (Corrida_cabeza _ _ _ Hc') as [-> | (y & tr'' & Hp & Hc'')].
    + right. exists ([] ++ [pq_top (colaEventos x)]).
      apply (corrida_paso x [] x x'); [constructor | done].
    + left. exists tr''. congruence.
  - right. exists (tr' ++ [pq_top (colaEventos x)]). by apply corrida_paso.
Qed.

Lemma Corrida_clientes s tr s' :
  Inv s → Corrida s tr s' → length (clientes s) ≤ length (clientes s').
Proof.
  intros HI. induction 1 as [|tr x x' Hc IH Hx]; [done|].
  pose proof (paso_clientes _ _ (Corrida_Inv _ _ _ HI Hc) Hx)
    as (_ & _ & _ & _ & _ & Hlen & _).
  lia.
Qed.

(** Every state of a run leads to the state in which the loop ended. *)
Lemma Corrida_hasta_el_fin s0 tr s trf sf :
  Corrida s0 tr s → Corrida s0 trf sf → paso sf = None →
  ∃ tr', Corrida s tr' sf.
Proof.
  intros H1 H2 Hf. destruct (Corrida_lineal _ _ _ _ _ H1 H2) as [H | [tr' H]];
    [done|].
  destruct (Corrida_cabeza _ _ _ H) as [-> | (y & tr'' & Hp & _)].
  - exists []. constructor.
  - congruence.
Qed.

(** When the loop ends, no state of the run had more customers than the
    last one. *)
Lemma bucle_LlegadasAcotadas n s0 sf :
  Inv s0 → bucle n s0 = Some sf → LlegadasAcotadas (length (clientes sf)) s0.
Proof.
  intros HI Hb tr s Hc. destruct (bucle_Corrida _ _ _ Hb) as (trf & Hcf & Hp).
  destruct (Corrida_hasta_el_fin _ _ _ _ _ Hc Hcf Hp) as [tr' Hc'].
  apply (Corrida_clientes s tr'); [by eapply Corrida_Inv | done].
Qed.

Lemma LlegadasAcotadas_paso N s s' :
  LlegadasAcotadas N s → paso s = Some s' → LlegadasAcotadas N s'.
Proof.
  intros HA Hp tr x Hc. apply (HA (pq_top (colaEventos s) :: tr)).
  by apply (Corrida_cons s s').
Qed.

(** An iteration that leaves at most [N] customers decreases the
    potential. *)
Lemma paso_potencial N s s' :
  Inv s → llegadas s ≤ 1 → paso s = Some s' → length (clientes s') ≤ N →
  potencial N s' < potencial N s.
Proof.
  intros HI HR1 Hp. rewrite paso_eq in Hp.
  destruct (pq_empty (colaEventos s)) eqn:Hne; [done|].
  injection Hp as <-.
  pose proof (extraido_trabajo s Hne) as [Hl0 Ht0]. cbv zeta in Hl0, Ht0.
  set (e := pq_top (colaEventos s)) in *.
  unfold es_llegada, es_fin in Hl0, Ht0.
  destruct (Evento.tipo e) eqn:Ht; simpl in Hl0, Ht0.
  - (* an arrival *)
    assert (Hl1 : llegadas s = 1) by lia.
    assert (Hl2 : llegadas (extraido s) = 0) by lia.
    change (tiempoActual (extraido s)) with (Evento.tiempo e) in *.
    destruct (menor (Evento.tiempo e) (duracionSimulacion s)) eqn:Hlt.
    + rewrite procesarLlegada_eq in *.
      pose proof (extraido_Inv _ Hne Ht HI) as HIe.
      pose proof (llegar_trabajo _ HIe) as (Ha1 & Ha2 & Ha3). cbv zeta in *.
      pose proof (llegar_Inv _ HIe) as HIl.
      set (sb := if Estacion.hayServidorDisponible _ then _ else _) in *.
      assert (Hb : trabajo sb ≤ trabajo (llegar (extraido s)) ∧
                   llegadas sb = llegadas (llegar (extraido s)) ∧
                   length (clientes sb) = length (clientes (llegar (extraido s)))).
      { unfold sb. destruct (Estacion.hayServidorDisponible _); [|done].
        pose proof (iniciarServicio_trabajo CAJAS _ HIl) as (? & ? & ?). done. }
      destruct Hb as (Hb1 & Hb2 & Hb3).
      pose proof (programar_trabajo sb) as (Hp1 & Hp2 & Hp3). cbv zeta in *.
      set (s' := programar sb) in *.
      change (length (clientes (extraido s))) with (length (clientes s)) in Ha3.
      intros HN. unfold potencial. rewrite Hp3, Hb3, Ha3, Hl1.
      rewrite Hp3, Hb3, Ha3 in HN.
      assert (llegadas s' = 0 ∨ llegadas s' = 1) as [-> | ->] by lia; lia.
    + intros _. unfold potencial. rewrite Hl1, Hl2.
      change (length (clientes (extraido s))) with (length (clientes s)). lia.
  - (* the end of a service *)
    pose proof (procesarFinServicio_trabajo s Hne Ht HI) as (Hf1 & Hf2 & Hf3).
    cbv zeta in *. fold e in Hf1, Hf2, Hf3.
    intros _. unfold potencial. rewrite Hf2, Hf3. nia.
Qed.

(** When no run from [s] has more than [N] customers, the loop ends within
    [potencial N s] iterations. *)
Lemma bucle_termina N n s :
  Inv s → llegadas s ≤ 1 → LlegadasAcotadas N s → potencial N s ≤ n →
  ∃ s', bucle n s = Some s'.
Proof.
  revert s. induction n as [|n IH]; intros s HI HR HA Hpot; simpl.
  - destruct (paso s) as [s'|] eqn:Hp; [|by eexists].
    assert (HN : length (clientes s') ≤ N).
    { apply (HA ([] ++ [pq_top (colaEventos s)])).
      exact (corrida_paso s [] s s' (corrida_nil s) Hp). }
    pose proof (paso_potencial N _ _ HI HR Hp HN). lia.
  - destruct (paso s) as [s'|] eqn:Hp; [|by eexists].
    assert (HN : length (clientes s') ≤ N).
    { apply (HA ([] ++ [pq_top (colaEventos s)])).
      exact (corrida_paso s [] s s' (corrida_nil s) Hp). }
    pose proof (paso_potencial N _ _ HI HR Hp HN).
    apply IH; [by eapply paso_Inv | by eapply paso_llegadas
              | by eapply LlegadasAcotadas_paso | lia].
Qed.

Lemma programar_llegadas s :
  menor (suma (tiempoActual s)
              (fst (GeneradorAleatorio.tiempoEntreLlegadas (tasaLlegada s) (rng s))))
        (duracionSimulacion s) = true →
  llegadas (programar s) = 1 + llegadas s.
Proof.
  unfold programar.
  destruct (GeneradorAleatorio.tiempoEntreLlegadas _ _) as [entre g]. simpl.
  intros ->.
  set (ev := Evento.mk _ _ _ _). set (s' := con_colaEventos _ _).
  assert (Hev : eventos s' ≡ₚ ev :: eventos s) by apply eventos_push.
  unfold llegadas. by rewrite (cuenta_perm _ _ _ Hev), cuenta_cons.
Qed.

(** When no gap takes an arrival to the horizon, an arrival before the
    horizon stays scheduled. *)
Lemma paso_llegada_pendiente s s' :
  (∀ t g, menor t (duracionSimulacion s) = true →
          menor (suma t (fst (GeneradorAleatorio.tiempoEntreLlegadas
                                (tasaLlegada s) g)))
                (duracionSimulacion s) = true) →
  Inv s → llegada_pendiente s → paso s = Some s' → llegada_pendiente s'.
Proof.
  intros Hgap HI [Hl1 Hl2] Hp.
  pose proof (paso_cambio _ _ HI Hp) as [_ Hcv].
  pose proof (paso_clientes _ _ HI Hp) as (Hein & _ & Hdu & _).
  cbv zeta in Hein.
  assert (Hne : pq_empty (colaEventos s) = false).
  { rewrite paso_eq in Hp. by destruct (pq_empty (colaEventos s)). }
  split.
  - rewrite paso_eq, Hne in Hp. injection Hp as <-.
    pose proof (extraido_trabajo s Hne) as [Hl0 _]. cbv zeta in Hl0.
    unfold es_llegada in Hl0.
    destruct (Evento.tipo (pq_top (colaEventos s))) eqn:Ht; simpl in Hl0.
    + change (tiempoActual (extraido s))
        with (Evento.tiempo (pq_top (colaEventos s))).
      pose proof (Hl2 _ Hein Ht) as Hlt.
      change (duracionSimulacion (extraido s)) with (duracionSimulacion s).
      rewrite Hlt. rewrite procesarLlegada_eq.
      pose proof (extraido_Inv _ Hne Ht HI) as HIe.
      pose proof (llegar_trabajo _ HIe) as (_ & Ha2 & _). cbv zeta in Ha2.
      pose proof (llegar_Inv _ HIe) as HIl.
      assert (Hll : tiempoActual (llegar (extraido s))
                    = Evento.tiempo (pq_top (colaEventos s)) ∧
                    duracionSimulacion (llegar (extraido s)) = duracionSimulacion s ∧
                    tasaLlegada (llegar (extraido s)) = tasaLlegada s).
      { unfold llegar. by destruct (cliente_nuevo (extraido s)). }
      destruct Hll as (Hta & Hdd & Hra).
      set (sb := if Estacion.hayServidorDisponible _ then _ else _) in *.
      assert (Hb : llegadas sb = llegadas (llegar (extraido s)) ∧
                   marco (llegar (extraido s)) sb).
      { unfold sb. destruct (Estacion.hayServidorDisponible _);
          [|split; [done | apply marco_refl]].
        split; [|apply iniciarServicio_marco].
        by pose proof (iniciarServicio_trabajo CAJAS _ HIl) as (? & _). }
      destruct Hb as (Hb & _ & _ & Hta' & Hdd' & Hra' & _).
      rewrite programar_llegadas; [lia|].
      rewrite Hta', Hdd', Hra', Hta, Hdd, Hra. by apply Hgap.
    + pose proof (procesarFinServicio_trabajo s Hne Ht HI) as (_ & Hf & _).
      cbv zeta in Hf. lia.
  - intros x Hx Htx. rewrite Hdu.
    destruct (Hcv _ Hx) as [Hx0 | [(_ & Hlt & _) | (Hf & _)]].
    + apply Hl2; [|done]. rewrite (eventos_extraido _ Hne). by right.
    + done.
    + congruence.
Qed.

(** Then the loop does not end, whatever the number of iterations. *)
Lemma bucle_sin_fin n s :
  (∀ t g, menor t (duracionSimulacion s) = true →
          menor (suma t (fst (GeneradorAleatorio.tiempoEntreLlegadas
                                (tasaLlegada s) g)))
                (duracionSimulacion s) = true) →
  Inv s → llegada_pendiente s → bucle n s = None.
Proof.
  revert s. induction n as [|n IH]; intros s Hgap HI HP; simpl.
  - destruct (paso s) as [s'|] eqn:Hp; [done|]. exfalso.
    rewrite paso_eq in Hp.
    destruct (pq_empty (colaEventos s)) eqn:He; [|done].
    apply pq_empty_spec in He. destruct HP as [Hl _].
    unfold llegadas, eventos in Hl. rewrite He in Hl. done.
  - destruct (paso s) as [s'|] eqn:Hp.
    + pose proof (paso_clientes _ _ HI Hp) as (_ & _ & Hdu & Hra & _).
      apply IH; [by rewrite Hdu, Hra | by eapply paso_Inv
                | by eapply paso_llegada_pendiente].
    + exfalso. rewrite paso_eq in Hp.
      destruct (pq_empty (colaEventos s)) eqn:He; [|done].
      apply pq_empty_spec in He. destruct HP as [Hl _].
      unfold llegadas, eventos in Hl. rewrite He in Hl. done.
Qed.

End Terminacion.

(** ** Routes *)

Section Rutas.
Context `{Di : Distribuciones} `{Cp : !ColaPrioridad}.
Context {HCp : ColaPrioridadOk}.

Implicit Types (s : SimulacionColas) (e : Evento.t) (c : Cliente.t).

Lemma sortearRuta_forma ps g :
  ∃ b1 g1 b2 g2 b3 g3 b4 g4,
    GeneradorAleatorio.debeVisitar (ps !!! Z.to_nat REFRESCOS) g = (b1, g1) ∧
    GeneradorAleatorio.debeVisitar (ps !!! Z.to_nat FREIDORA) g1 = (b2, g2) ∧
    GeneradorAleatorio.debeVisitar (ps !!! Z.to_nat POSTRES) g2 = (b3, g3) ∧
    GeneradorAleatorio.debeVisitar (ps !!! Z.to_nat POLLO) g3 = (b4, g4) ∧
    sortearRuta ps g = (ruta_de b1 b2 b3 b4, g4).
Proof.
  unfold sortearRuta.
  destruct (GeneradorAleatorio.debeVisitar (ps !!! Z.to_nat REFRESCOS) g)
    as [b1 g1] eqn:E1.
  destruct (GeneradorAleatorio.debeVisitar (ps !!! Z.to_nat FREIDORA) g1)
    as [b2 g2] eqn:E2.
  destruct (GeneradorAleatorio.debeVisitar (ps !!! Z.to_nat POSTRES) g2)
    as [b3 g3] eqn:E3.
  destruct (GeneradorAleatorio.debeVisitar (ps !!! Z.to_nat POLLO) g3)
    as [b4 g4] eqn:E4.
  exists b1, g1, b2, g2, b3, g3, b4, g4.
  do 4 (split; [done|]).
  destruct b1, b2, b3, b4; reflexivity.
Qed.


Lemma inicializar_estaciones config s s' k est :
  inicializar config s = Some s' → estaciones s' !! k = Some est →
  Estacion.tiempoTotalOcupado est = cero ∧
  Estacion.tiempoUltimoCambio est = cero ∧
  Estacion.colaEspera est = [] ∧
  (0 ≤ Estacion.numServidores est)%Z ∧
  Estacion.servidorOcupado est
  = replicate (Z.to_nat (Estacion.numServidores est)) false.
Proof.
  intros H Hk.
  destruct (inicializar_Some _ _ _ H) as (e0&e1&e2&e3&e4&t'&g&H0&H1&H2&H3&H4&_&Hs).
  apply Estacion_nueva_Some in H0 as [? ->], H1 as [? ->], H2 as [? ->],
        H3 as [? ->], H4 as [? ->].
  subst s'. simpl in Hk.
  destruct k as [|[|[|[|[|k]]]]]; simpl in Hk; try done;
    inversion Hk; subst est; by repeat split.
Qed.

End Rutas.

(** ** A station with routing probability 0 *)

Section Cero.
Context `{Di : Distribuciones} `{Cp : !ColaPrioridad}.
Context {HCp : ColaPrioridadOk}.
Context {HL : LeyesOrden} {HS : LeyesSuma} {HD : DistribucionesOk}.

Implicit Types (s : SimulacionColas) (e : Evento.t) (c : Cliente.t).





(** A station whose busy time is [0] has utilization [0] over every
    elapsed time that is a number. *)
Lemma getUtilizacion_cero t est :
  es_numero t → igual (Estacion.tiempoTotalOcupado est) cero = true →
  igual (Estacion.getUtilizacion t est) cero = true.
Proof.
  intros Hn H. unfold Estacion.getUtilizacion.
  destruct (igual t cero) eqn:Ht; simpl; [apply igual_cero|].
  destruct (Estacion.numServidores est =? 0)%Z eqn:Hz; [apply igual_cero|].
  apply Z.eqb_neq in Hz.
  apply divi_cero; [done | by apply mult_numero | by apply mult_no_cero].
Qed.

End Cero.

(** ** The engine as a function of its parameters *)

Section Funcion.
Context `{Di : Distribuciones} `{Cp : !ColaPrioridad}.

Implicit Types (s : SimulacionColas) (e : Evento.t) (c : Cliente.t).

Lemma bucle_unico n m s r r' :
  bucle n s = Some r → bucle m s = Some r' → r = r'.
Proof.
  revert m s. induction n as [|n IH]; intros [|m] s; simpl;
    destruct (paso s) as [s1|]; try congruence.
  apply IH.
Qed.

Lemma ejecutar_unico n m s r r' :
  ejecutar n s = Some r → ejecutar m s = Some r' → r = r'.
Proof.
  unfold ejecutar. destruct (bucle n s) as [x|] eqn:Hn; [|done].
  destruct (bucle m s) as [y|] eqn:Hm; [|done]. simpl.
  rewrite (bucle_unico _ _ _ _ _ Hn Hm). congruence.
Qed.

(** C10. The binomial service time is [max(1, draw)]: it is at least 1
    whatever the draw, so the service time of POSTRES is the conversion of
    an [int] that is at least 1, never of 0. *)
Theorem C10_binomial_al_menos_uno (n : Z) (p : double) (g : GeneradorAleatorio.t) :
  fst (GeneradorAleatorio.tiempoServicioBinom n p g)
  = Z.max 1 (fst (binomial_distribution n p g)) ∧
  (1 ≤ fst (GeneradorAleatorio.tiempoServicioBinom n p g))%Z ∧
  ∃ v, (1 ≤ v)%Z ∧
       v = Z.max 1 (fst (binomial_distribution 5 (decimal 6 10) g)) ∧
       fst (getTiempoServicio POSTRES g) = de_int v.
Proof.
  unfold getTiempoServicio, POSTRES, GeneradorAleatorio.tiempoServicioBinom.
  destruct (binomial_distribution n p g) as [v g'].
  destruct (binomial_distribution 5 (decimal 6 10) g) as [v5 g5]. simpl.
  split; [done|]. split; [lia|].
  exists (Z.max 1 v5). split; [lia | done].
Qed.

(** The handlers neither read nor write [tiempoFinalReal]. *)
Lemma iniciarServicio_final x k s :
  iniciarServicio k (con_tiempoFinalReal x s)
  = con_tiempoFinalReal x (iniciarServicio k s).
Proof.
  unfold iniciarServicio.
  change (tiempoActual (con_tiempoFinalReal x s)) with (tiempoActual s).
  change (estacion k (con_tiempoFinalReal x s)) with (estacion k s).
  destruct (Estacion.iniciarServicio _ _) as [j est]. cbv zeta.
  destruct (j <? 0)%Z; [reflexivity|].
  change (rng (con_estacion k est (con_tiempoFinalReal x s)))
    with (rng (con_estacion k est s)).
  by destruct (getTiempoServicio _ _) as [ts g].
Qed.

Lemma procesarLlegada_final x s :
  procesarLlegada (con_tiempoFinalReal x s)
  = con_tiempoFinalReal x (procesarLlegada s).
Proof.
  rewrite !procesarLlegada_eq.
  assert (Hl : llegar (con_tiempoFinalReal x s) = con_tiempoFinalReal x (llegar s)).
  { unfold llegar, cliente_nuevo. simpl.
    destruct (GeneradorAleatorio.numeroOrdenes _) as [o g].
    by destruct (sortearRuta _ _) as [r g']. }
  rewrite Hl.
  change (estacion CAJAS (con_tiempoFinalReal x (llegar s)))
    with (estacion CAJAS (llegar s)).
  assert (Hp : ∀ y, programar (con_tiempoFinalReal x y)
                    = con_tiempoFinalReal x (programar y)).
  { intros y. unfold programar. simpl.
    destruct (GeneradorAleatorio.tiempoEntreLlegadas _ _) as [t g]. simpl.
    by destruct (menor _ _). }
  destruct (Estacion.hayServidorDisponible _); [|apply Hp].
  rewrite iniciarServicio_final. apply Hp.
Qed.

Lemma procesarFinServicio_final x e s :
  procesarFinServicio e (con_tiempoFinalReal x s)
  = con_tiempoFinalReal x (procesarFinServicio e s).
Proof.
  rewrite !procesarFinServicio_eq. cbv zeta.
  assert (Hs : siguiente_de e (con_tiempoFinalReal x s) = siguiente_de e s)
    by reflexivity.
  assert (Ha : avanzar e (con_tiempoFinalReal x s)
               = con_tiempoFinalReal x (avanzar e s)).
  { unfold avanzar. rewrite Hs. by destruct (siguiente_de e s). }
  rewrite Hs, Ha.
  set (sb := match siguiente_de e s with Some k => _ | None => _ end).
  set (sb' := match siguiente_de e s with Some k => _ | None => _ end).
  assert (Hb : sb = con_tiempoFinalReal x sb').
  { unfold sb, sb'. destruct (siguiente_de e s) as [k|]; [|done].
    change (estacion k (con_tiempoFinalReal x (avanzar e s)))
      with (estacion k (avanzar e s)).
    destruct (Estacion.hayServidorDisponible _); [|done].
    apply iniciarServicio_final. }
  rewrite Hb.
  change (estacion (Evento.idEstacion e) (con_tiempoFinalReal x sb'))
    with (estacion (Evento.idEstacion e) sb').
  destruct (_ && _); [|done]. apply iniciarServicio_final.
Qed.

Lemma paso_final x s :
  paso (con_tiempoFinalReal x s) = con_tiempoFinalReal x <$> paso s.
Proof.
  rewrite !paso_eq.
  change (colaEventos (con_tiempoFinalReal x s)) with (colaEventos s).
  destruct (pq_empty (colaEventos s)); [done|]. simpl. f_equal.
  change (extraido (con_tiempoFinalReal x s))
    with (con_tiempoFinalReal x (extraido s)).
  destruct (Evento.tipo _).
  - change (tiempoActual (con_tiempoFinalReal x (extraido s)))
      with (tiempoActual (extraido s)).
    change (duracionSimulacion (con_tiempoFinalReal x (extraido s)))
      with (duracionSimulacion (extraido s)).
    destruct (menor _ _); [|done]. apply procesarLlegada_final.
  - apply procesarFinServicio_final.
Qed.

Lemma bucle_final x n s :
  bucle n (con_tiempoFinalReal x s) = con_tiempoFinalReal x <$> bucle n s.
Proof.
  revert s. induction n as [|n IH]; intros s; simpl; rewrite paso_final;
    destruct (paso s) as [s'|]; simpl; done.
Qed.

(** [ejecutar] overwrites [tiempoFinalReal]: the value before the run
    does not matter. *)
Lemma ejecutar_final x n s : ejecutar n (con_tiempoFinalReal x s) = ejecutar n s.
Proof.
  unfold ejecutar. rewrite bucle_final. by destruct (bucle n s).
Qed.

(** What [inicializar] keeps of the engine it is called on: the
    generator, the horizon, the rate and the routing table, the emptied
    queue, and [tiempoFinalReal]. *)
Lemma inicializar_lee config s1 s2 :
  rng s1 = rng s2 → duracionSimulacion s1 = duracionSimulacion s2 →
  tasaLlegada s1 = tasaLlegada s2 →
  probabilidadesEstaciones s1 = probabilidadesEstaciones s2 →
  vaciar (colaEventos s1) = vaciar (colaEventos s2) →
  inicializar config s1
  = con_tiempoFinalReal (tiempoFinalReal s1) <$> inicializar config s2.
Proof.
  intros Hg Hd Hr Hp Hq. unfold inicializar.
  rewrite Hg, Hd, Hr, Hp, Hq.
  destruct (Estacion.nueva CAJAS _); [|done]. simpl.
  destruct (Estacion.nueva REFRESCOS _); [|done]. simpl.
  destruct (Estacion.nueva FREIDORA _); [|done]. simpl.
  destruct (Estacion.nueva POSTRES _); [|done]. simpl.
  destruct (Estacion.nueva POLLO _); [|done]. simpl.
  by destruct (GeneradorAleatorio.tiempoEntreLlegadas _ _).
Qed.

(** C6. Determinism: the state a run of an engine ends in, and so the
    statistics, are a function of the configuration and of what the
    engine holds of the parameters of its constructor — the generator
    the seed gave, the horizon, the rate and the routing table — and of
    nothing else the engine holds: not of its clock, customers, stations,
    scheduled events or final time, which [inicializar] and [ejecutar]
    overwrite, nor of the bound on the iterations each run was given.  (The
    hypothesis on the emptied queues is met by two empty queues; the class
    of the queue does not say that emptied queues are equal.)  So two
    engines built with the same duration, rate and seed end in the same
    state, with the same statistics. *)
Theorem C6_determinismo (config : ConfiguracionServidores.t) (n1 n2 : nat)
    (s1 s2 sf1 sf2 : SimulacionColas) :
  rng s1 = rng s2 → duracionSimulacion s1 = duracionSimulacion s2 →
  tasaLlegada s1 = tasaLlegada s2 →
  probabilidadesEstaciones s1 = probabilidadesEstaciones s2 →
  vaciar (colaEventos s1) = vaciar (colaEventos s2) →
  simular config n1 s1 = Some sf1 →
  simular config n2 s2 = Some sf2 →
  sf1 = sf2 ∧ getEstadisticas sf1 = getEstadisticas sf2 ∧
  ∀ duracion lambda semilla r1 r2,
    simular config n1 (SimulacionColas_nueva duracion lambda semilla) = Some r1 →
    simular config n2 (SimulacionColas_nueva duracion lambda semilla) = Some r2 →
    r1 = r2 ∧ getEstadisticas r1 = getEstadisticas r2.
Proof.
  intros Hg Hd Hr Hp Hq H1 H2.
  assert (Hgen : ∀ a b fa fb,
    rng a = rng b → duracionSimulacion a = duracionSimulacion b →
    tasaLlegada a = tasaLlegada b →
    probabilidadesEstaciones a = probabilidadesEstaciones b →
    vaciar (colaEventos a) = vaciar (colaEventos b) →
    simular config n1 a = Some fa → simular config n2 b = Some fb → fa = fb).
  { clear. intros a b fa fb Hg Hd Hr Hp Hq. unfold simular.
    rewrite (inicializar_lee config a b Hg Hd Hr Hp Hq).
    destruct (inicializar config b) as [s0|]; [|done]. simpl.
    rewrite ejecutar_final. apply ejecutar_unico. }
  split; [by apply (Hgen s1 s2)|]. split; [by rewrite (Hgen s1 s2 sf1 sf2)|].
  intros duracion lambda semilla r1 r2 Hr1 Hr2.
  assert (r1 = r2) as ->; [|done].
  exact (Hgen _ _ r1 r2 eq_refl eq_refl eq_refl eq_refl eq_refl Hr1 Hr2).
Qed.

(** C8, as the code has it.  [inicializar] validates nothing: it fails
    exactly when a server count is negative, through the length error of
    the station's vector; with counts of zero and with any arrival rate it
    builds the five stations with the counts given, unchanged, and
    schedules the first arrival. *)
Theorem C8_sin_validacion (config : ConfiguracionServidores.t) (s : SimulacionColas) :
  let cuentas := [ConfiguracionServidores.cajas config;
                  ConfiguracionServidores.refrescos config;
                  ConfiguracionServidores.freidora config;
                  ConfiguracionServidores.postres config;
                  ConfiguracionServidores.pollo config] in
  (inicializar config s = None ↔ ∃ n, n ∈ cuentas ∧ (n < 0)%Z) ∧
  ∀ s0, inicializar config s = Some s0 →
    Estacion.numServidores <$> estaciones s0 = cuentas ∧
    tasaLlegada s0 = tasaLlegada s ∧
    colaEventos s0
    = pq_push (Evento.mk (fst (GeneradorAleatorio.tiempoEntreLlegadas
                                 (tasaLlegada s) (rng s)))
                         LLEGADA (-1) (-1))
              (vaciar (colaEventos s)).
Proof.
  destruct config as [a b c d e]. cbv zeta. simpl.
  unfold inicializar, Estacion.nueva. simpl.
  destruct (a <? 0)%Z eqn:Ha, (b <? 0)%Z eqn:Hb, (c <? 0)%Z eqn:Hc,
           (d <? 0)%Z eqn:Hd, (e <? 0)%Z eqn:He; simpl;
    rewrite ?Z.ltb_lt, ?Z.ltb_ge in *;
    try (split; [split; [intros _|done] | done];
         first [ exists a; split; [set_solver | lia]
               | exists b; split; [set_solver | lia]
               | exists c; split; [set_solver | lia]
               | exists d; split; [set_solver | lia]
               | exists e; split; [set_solver | lia] ]).
  destruct (GeneradorAleatorio.tiempoEntreLlegadas _ _) as [t g]. simpl.
  split.
  - split; [done|]. intros (n & Hn & Hlt).
    rewrite !elem_of_cons, elem_of_nil in Hn. lia.
  - intros s0 [= <-]. done.
Qed.

(** C7. [getEstadisticas] is defined on every state: the count is the
    length of the completed list, there are always five utilizations, and
    with no completed customer every average, the variance and the five
    utilizations are [0].  In every state the engine can reach, the five
    stations it reads exist as soon as a customer completed. *)
Theorem C7_estadisticas_total {HCp : ColaPrioridadOk} (sc s : SimulacionColas) :
  Previo sc → Alcanzable sc s →
  Estadisticas.totalClientes (getEstadisticas s)
  = Z.of_nat (length (clientesCompletados s)) ∧
  length (Estadisticas.utilizacionEstaciones (getEstadisticas s)) = 5 ∧
  (clientesCompletados s = [] →
   getEstadisticas s
   = Estadisticas.mk cero cero [cero; cero; cero; cero; cero] 0 cero) ∧
  (clientesCompletados s ≠ [] → length (estaciones s) = 5).
Proof.
  intros H0 Ha. unfold getEstadisticas.
  destruct (clientesCompletados s) as [|c l] eqn:Hc; simpl.
  - repeat split; done.
  - repeat split; try done. intros _.
    destruct (Alcanzable_Inv _ _ H0 Ha) as [(_ & _ & Hp & _) | HI].
    + congruence.
    + apply (inv_estaciones _ HI).
Qed.

End Funcion.

(** ** Waits and route progress *)

Section Llamadas.
Context `{Di : Distribuciones} `{Cp : !ColaPrioridad}.
Context {HCp : ColaPrioridadOk}.

Implicit Types (s : SimulacionColas) (e : Evento.t) (c : Cliente.t).

Lemma TrInv_marco tr x s' : marco x s' → TrInv tr s' → TrInv tr x.
Proof.
  intros (Hl & Hc & _ & Hd & _) [HT1 HT2]. split.
  - intros e He Ht. rewrite <- Hl. by apply HT1.
  - intros i c Hi. destruct (Hc _ _ Hi) as (c' & Hi' & (_ & Hr & Hix & Hll & Hec)).
    destruct (HT2 _ _ Hi') as (H1 & H2 & H3).
    rewrite <- Hix, <- Hll, <- Hec, <- Hd. split; [done|]. split; [done|].
    intros Hruta. apply H3. unfold en_ruta in *. by rewrite Hr, Hix.
Qed.

Lemma tras_siguiente_marco e s : marco (avanzar e s) (tras_siguiente e s).
Proof.
  unfold tras_siguiente. cbv zeta.
  destruct (siguiente_de e s); [|apply marco_refl].
  destruct (Estacion.hayServidorDisponible _);
    [apply iniciarServicio_marco | apply marco_refl].
Qed.

Lemma procesarFinServicio_tras e s :
  procesarFinServicio e s =
  let sb := tras_siguiente e s in
  if negb (Estacion.estaVacia (estacion (Evento.idEstacion e) sb))
     && Estacion.hayServidorDisponible (estacion (Evento.idEstacion e) sb)
  then iniciarServicio (Evento.idEstacion e) sb else sb.
Proof. apply procesarFinServicio_eq. Qed.

Lemma tras_siguiente_Inv s :
  pq_empty (colaEventos s) = false →
  Evento.tipo (pq_top (colaEventos s)) = FIN_SERVICIO →
  Inv s → Inv (tras_siguiente (pq_top (colaEventos s)) (extraido s)).
Proof.
  intros Hne Ht HI. pose proof (eventos_extraido _ Hne) as Hev.
  set (e := pq_top (colaEventos s)) in *.
  assert (Hein : e ∈ eventos s) by (rewrite Hev; left).
  pose proof (avanzar_Inv s (extraido s) e HI Hev eq_refl eq_refl eq_refl eq_refl Ht)
    as Ha.
  unfold tras_siguiente. cbv zeta.
  destruct (siguiente_de e (extraido s)) as [k|] eqn:Hk; [|done].
  destruct (Estacion.hayServidorDisponible _); [|done].
  apply iniciarServicio_Inv; [|done].
  by apply (siguiente_de_rango s (extraido s) e k HI Hein eq_refl Ht).
Qed.

(** The state of a call satisfies the invariants, for the events up to
    the one being handled. *)
Lemma Llamada_Inv s0 tr k x :
  Inv s0 → clientes s0 = [] → Llamada s0 tr k x →
  Inv x ∧ TrInv tr x ∧ (0 ≤ k < 5)%Z ∧
  Estacion.hayServidorDisponible (estacion k x) = true ∧
  ∃ e, last tr = Some e ∧ tiempoActual x = Evento.tiempo e.
Proof.
  intros H0 Hc0 HL.
  destruct HL as [tr s Hc Hne Ht Hlt Hhay | tr s k Hc Hne Ht Hk Hhay
                 | tr s Hc Hne Ht e sb Hg];
    pose proof (Corrida_Inv _ _ _ H0 Hc) as HI;
    pose proof (Corrida_TrInv _ _ _ H0 Hc0 Hc) as HT;
    pose proof (eventos_extraido _ Hne) as Hev.
  - assert (Hp : paso s = Some (procesarLlegada (extraido s))).
    { rewrite paso_eq, Hne, Ht.
      change (tiempoActual (extraido s))
        with (Evento.tiempo (pq_top (colaEventos s))).
      by rewrite Hlt. }
    pose proof (paso_TrInv _ _ _ HI HT Hp) as HT'.
    rewrite procesarLlegada_eq in HT'.
    split; [by apply llegar_Inv, extraido_Inv|].
    split; [by apply (TrInv_marco _ _ _ (tras_llegar_marco (extraido s)))|].
    split; [unfold CAJAS; lia|]. split; [done|].
    exists (pq_top (colaEventos s)). split; [apply last_snoc|].
    by destruct (llegar_clientes (extraido s)) as (_ & -> & _).
  - set (e := pq_top (colaEventos s)) in *.
    assert (Hein : e ∈ eventos s) by (rewrite Hev; left).
    assert (Hp : paso s = Some (procesarFinServicio e (extraido s))).
    { rewrite paso_eq, Hne. fold e. by rewrite Ht. }
    pose proof (paso_TrInv _ _ _ HI HT Hp) as HT'. fold e in HT'.
    split; [by apply (avanzar_Inv s (extraido s) e)|].
    split; [by apply (TrInv_marco _ _ _ (tras_avanzar_marco e (extraido s)))|].
    split; [by apply (siguiente_de_rango s (extraido s) e k HI Hein eq_refl Ht)|].
    split; [done|].
    exists e. split; [apply last_snoc|].
    unfold avanzar. by destruct (siguiente_de e (extraido s)).
  - fold e in Ht, Hev.
    assert (Hein : e ∈ eventos s) by (rewrite Hev; left).
    assert (Hp : paso s = Some (procesarFinServicio e (extraido s))).
    { rewrite paso_eq, Hne. fold e. by rewrite Ht. }
    pose proof (paso_TrInv _ _ _ HI HT Hp) as HT'. fold e in HT'.
    apply andb_true_iff in Hg as [_ Hhay].
    split; [by apply tras_siguiente_Inv|].
    split.
    { apply (TrInv_marco _ _ (procesarFinServicio e (extraido s))); [|done].
      rewrite procesarFinServicio_tras. cbv zeta. fold sb.
      destruct (_ && _); [apply iniciarServicio_marco | apply marco_refl]. }
    split; [by destruct (inv_eventos _ HI _ Hein Ht)|]. split; [done|].
    exists e. split; [apply last_snoc|].
    destruct (tras_siguiente_marco e (extraido s)) as (_ & _ & Hta & _).
    fold sb in Hta. rewrite Hta.
    unfold avanzar. by destruct (siguiente_de e (extraido s)).
Qed.

Lemma tiempos_fin_length i tr :
  length (tiempos_fin i tr) = cuenta (es_fin_de (Z.of_nat i)) tr.
Proof.
  unfold tiempos_fin. rewrite length_fmap.
  induction tr as [|e tr IH]; [done|]. rewrite cuenta_cons, filter_cons.
  case_decide as Hd; simpl; rewrite IH.
  - by rewrite Hd.
  - by destruct (es_fin_de (Z.of_nat i) e).
Qed.

(** C5. Whenever [iniciarServicio] takes a customer from a queue, the wait
    it adds is the clock minus [tiempoEntradaCola], and that field holds
    the time the customer entered this queue: the time its last service
    ended, or its arrival time when no service of it has ended yet (the
    first station). *)
Theorem C5_espera_por_estacion (config : ConfiguracionServidores.t)
    (sp s0 : SimulacionColas) (tr : list Evento.t) (k : Z)
    (x : SimulacionColas) (j : Z) (resto : list Z) :
  inicializar config sp = Some s0 →
  Llamada s0 tr k x →
  Estacion.colaEspera (estacion k x) = j :: resto →
  let c := cliente j x in
  Cliente.tiempoEsperaTotal (cliente j (iniciarServicio k x))
  = suma (Cliente.tiempoEsperaTotal c)
         (resta (tiempoActual x) (Cliente.tiempoEntradaCola c)) ∧
  Cliente.tiempoEntradaCola c
  = default (Cliente.tiempoLlegada c) (last (tiempos_fin (Z.to_nat j) tr)) ∧
  length (tiempos_fin (Z.to_nat j) tr)
  = Z.to_nat (Cliente.indiceEstacionActual c) ∧
  (Cliente.indiceEstacionActual c = 0%Z →
   Cliente.tiempoEntradaCola c = Cliente.tiempoLlegada c).
Proof.
  intros Hini HL Hq c.
  pose proof (inicializar_Inv _ _ _ Hini) as H0.
  assert (Hc0 : clientes s0 = []).
  { destruct (inicializar_Some _ _ _ Hini) as (?&?&?&?&?&?&?&_&_&_&_&_&_&->). done. }
  destruct (Llamada_Inv _ _ _ _ H0 Hc0 HL) as (HI & [_ HT] & Hk5 & Hhay & _).
  assert (Hjq : j ∈ Estacion.colaEspera (estacion k x)) by (rewrite Hq; left).
  pose proof (estacion_cola_lookup _ _ _ Hjq) as Hk.
  pose proof (inv_colas _ HI _ _ _ Hk Hjq) as Hjr.
  assert (Hc : clientes x !! Z.to_nat j = Some c).
  { apply cliente_en_rango. lia. }
  destruct (HT _ _ Hc) as (Hix & _ & Hec).
  assert (Hruta : en_ruta c = true).
  { pose proof (inv_pendiente _ HI _ _ Hc) as Hp.
    pose proof (en_cola_pos _ _ _ _ Hk Hjq) as Hpos.
    rewrite Z2Nat.id in Hp by lia. destruct (en_ruta c); [done | lia]. }
  specialize (Hec Hruta).
  assert (Hlen : length (tiempos_fin (Z.to_nat j) tr)
                 = Z.to_nat (Cliente.indiceEstacionActual c)).
  { rewrite tiempos_fin_length, Hix. lia. }
  split; [|split; [done|split; [done|]]].
  - destruct (iniciarServicio_casos k x)
      as [[_ [Hn|Hn]] | (j' & resto' & i & Hq' & Hi & ->)];
      [congruence | congruence |].
    rewrite Hq in Hq'. injection Hq' as <- <-. cbv zeta.
    replace (j <? 0)%Z with false by (symmetry; apply Z.ltb_ge; lia).
    destruct (atender_spec j k
                (con_estacion k (ocupar (tiempoActual x) i resto (estacion k x)) x))
      as (ts & g & _ & ->).
    unfold cliente at 1. simpl.
    rewrite list_lookup_total_insert_eq by (apply lookup_lt_Some in Hc; done).
    done.
  - intros Hz. rewrite Hec. rewrite Hz in Hlen.
    by destruct (tiempos_fin (Z.to_nat j) tr).
Qed.

Lemma inicializar_clientes config sp s0 :
  inicializar config sp = Some s0 →
  clientes s0 = [] ∧ clientesCompletados s0 = [] ∧
  tasaLlegada s0 = tasaLlegada sp ∧
  duracionSimulacion s0 = duracionSimulacion sp ∧
  probabilidadesEstaciones s0 = probabilidadesEstaciones sp ∧
  tiempoActual s0 = cero.
Proof.
  intros H.
  destruct (inicializar_Some _ _ _ H) as (?&?&?&?&?&?&?&_&_&_&_&_&_&->). done.
Qed.

(** C9. In a run, the route index of a customer is the number of its
    services that have ended: it starts at 0, an iteration of the loop
    leaves it or adds one to it, it never exceeds the length of the route,
    and the customer is in the completed list, once, exactly when the
    index is the length of the route. *)
Theorem C9_progreso_monotono (config : ConfiguracionServidores.t)
    (sp s0 : SimulacionColas) (tr : list Evento.t) (s : SimulacionColas) :
  inicializar config sp = Some s0 → Corrida s0 tr s →
  (∀ i c, clientes s !! i = Some c →
     Cliente.indiceEstacionActual c
     = Z.of_nat (cuenta (es_fin_de (Z.of_nat i)) tr) ∧
     (0 ≤ Cliente.indiceEstacionActual c
        ≤ Z.of_nat (length (Cliente.estaciones c)))%Z ∧
     completado (Z.of_nat i) s
     = (if (Cliente.indiceEstacionActual c
            =? Z.of_nat (length (Cliente.estaciones c)))%Z then 1 else 0) ∧
     (0 < completado (Z.of_nat i) s → c ∈ clientesCompletados s)) ∧
  (∀ s', paso s = Some s' →
     (∀ i c, clientes s !! i = Some c →
        ∃ c', clientes s' !! i = Some c' ∧
              Cliente.estaciones c' = Cliente.estaciones c ∧
              (Cliente.indiceEstacionActual c ≤ Cliente.indiceEstacionActual c'
               ≤ Cliente.indiceEstacionActual c + 1)%Z) ∧
     (∀ i c', clientes s !! i = None → clientes s' !! i = Some c' →
        Cliente.indiceEstacionActual c' = 0%Z)).
Proof.
  intros Hini Hc.
  pose proof (inicializar_Inv _ _ _ Hini) as H0.
  destruct (inicializar_clientes _ _ _ Hini) as (Hc0 & _).
  pose proof (Corrida_Inv _ _ _ H0 Hc) as HI.
  destruct (Corrida_TrInv _ _ _ H0 Hc0 Hc) as [_ HT].
  split.
  - intros i c Hi. destruct (HT _ _ Hi) as (Hix & _).
    destruct (inv_cliente _ HI _ _ Hi) as (Hid & _ & Hr).
    pose proof (inv_completado _ HI _ _ Hi) as Hco. unfold en_ruta in Hco.
    split; [done|]. split; [done|]. split.
    + rewrite Hco.
      destruct (_ <? _)%Z eqn:Hlt, (_ =? _)%Z eqn:Heq; try done;
        rewrite ?Z.ltb_lt, ?Z.ltb_ge, ?Z.eqb_eq, ?Z.eqb_neq in *; lia.
    + intros Hpos. apply cuenta_pos in Hpos as (d & Hd & Hdi).
      apply Z.eqb_eq in Hdi.
      destruct (inv_copia _ HI _ Hd) as [_ Hdl].
      rewrite Hdi, Nat2Z.id in Hdl. congruence.
  - intros s' Hp.
    pose proof (paso_clientes _ _ HI Hp) as (_ & _ & _ & _ & _ & Hlen & Hcl).
    cbv zeta in Hcl. split.
    + intros i c Hi.
      destruct (lookup_lt_is_Some_2 (clientes s') i) as [c' Hi'].
      { apply lookup_lt_Some in Hi. lia. }
      exists c'. split; [done|].
      destruct (Hcl _ _ Hi') as [(c1 & Hc1 & Hm & _) | [Hnew | Hfin]].
      * destruct Hm as (_ & Hr & Hix & _).
        assert (c1 = c) by congruence. subst c1. split; [done | lia].
      * destruct Hnew as (-> & _). apply lookup_lt_Some in Hi. lia.
      * destruct Hfin as (c1 & Hc1 & _ & _ & _ & Hr & _ & Hix & _).
        assert (c1 = c) by congruence. subst c1. split; [done | lia].
    + intros i c' Hn Hi'.
      destruct (Hcl _ _ Hi') as [(c1 & Hc1 & _) | [Hnew | Hfin]].
      * congruence.
      * by destruct Hnew as (_ & _ & _ & Hix & _).
      * destruct Hfin as (c1 & Hc1 & _). congruence.
Qed.

End Llamadas.

(** ** The flags of the servers *)

Section Banderas.

Implicit Types (l : list bool).

Lemma servidoresOcupados_cota l :
  (0 ≤ servidoresOcupados l ≤ Z.of_nat (length l))%Z.
Proof. induction l as [|[] l IH]; simpl; lia. Qed.

Lemma primer_indice_rango b l i : primer_indice b l = Some i → l !! i = Some b.
Proof.
  revert i. induction l as [|o l IH]; intros i; simpl; [done|].
  destruct (Bool.eqb o b) eqn:Ho.
  - intros [= <-]. apply Bool.eqb_prop in Ho. by subst.
  - destruct (primer_indice b l) as [n|]; [|done]. simpl. intros [= <-].
    by apply IH.
Qed.

Lemma servidoresOcupados_insert l i b :
  l !! i = Some (negb b) →
  servidoresOcupados (<[i:=b]> l)
  = (servidoresOcupados l + (if b then 1 else -1))%Z.
Proof.
  revert i. induction l as [|o l IH]; intros [|i]; simpl; try done.
  - intros [= ->]. destruct b; simpl; lia.
  - intros H. rewrite (IH _ H). lia.
Qed.

Lemma primer_indice_libre l :
  primer_indice false l = None ↔ servidoresOcupados l = Z.of_nat (length l).
Proof.
  induction l as [|o l IH]; simpl; [done|].
  pose proof (servidoresOcupados_cota l).
  destruct o; simpl.
  - destruct (primer_indice false l); simpl; split; try done; try lia.
    + intros H'. assert (servidoresOcupados l = Z.of_nat (length l)) by lia.
      by apply IH in H0.
    + intros _. assert (servidoresOcupados l = Z.of_nat (length l)) by (by apply IH).
      lia.
  - split; [done | lia].
Qed.

Lemma primer_indice_ocupado l :
  primer_indice true l = None ↔ servidoresOcupados l = 0%Z.
Proof.
  induction l as [|o l IH]; simpl; [done|].
  pose proof (servidoresOcupados_cota l).
  destruct o; simpl.
  - split; [done | lia].
  - destruct (primer_indice true l); simpl; split; try done; try lia.
    + intros H'. assert (servidoresOcupados l = 0%Z) by lia. by apply IH in H0.
    + intros _. assert (servidoresOcupados l = 0%Z) by (by apply IH). lia.
Qed.

End Banderas.

(** ** Gaps that bound the arrivals, in exact arithmetic *)

Section Brechas.
Context `{Di : Distribuciones} `{Cp : !ColaPrioridad}.
Context {HCp : ColaPrioridadOk}.
Context {HL : LeyesOrden} {HS : LeyesSuma} {HE : LeyesExactas}.

Implicit Types (s : SimulacionColas) (e : Evento.t) (c : Cliente.t).

Lemma no_mayor_trans_exacta (a b c : double) :
  no_mayor a b → no_mayor b c → no_mayor a c.
Proof. apply no_mayor_trans, todo_numero. Qed.

Lemma multiplo_S n δ :
  no_mayor cero δ → no_mayor (multiplo n δ) (multiplo (S n) δ).
Proof.
  intros H. destruct n as [|n]; [done|].
  change (multiplo (S (S n)) δ) with (suma (multiplo (S n) δ) δ).
  by apply suma_no_neg.
Qed.

Lemma multiplo_mono a b δ :
  no_mayor cero δ → a ≤ b → no_mayor (multiplo a δ) (multiplo b δ).
Proof.
  intros H. induction 1 as [|b Hle IH]; [apply menor_irrefl|].
  apply (no_mayor_trans_exacta _ (multiplo b δ)); [done | by apply multiplo_S].
Qed.

Section Cota.
Variables (δ : double) (N : nat).
Hypothesis Hδ : no_mayor cero δ.

Lemma llegada_admitida s e :
  RInv δ s → Acotado δ N s → e ∈ eventos s → Evento.tipo e = LLEGADA →
  menor (Evento.tiempo e) (duracionSimulacion s) = true →
  S (length (clientes s)) < N.
Proof.
  intros [_ HR] [_ Hcota] He Ht Hlt.
  destruct (decide (S (length (clientes s)) < N)) as [|Hge]; [done|].
  exfalso.
  assert (Hm : no_mayor (multiplo N δ) (multiplo (S (length (clientes s))) δ)).
  { apply multiplo_mono; [done | lia]. }
  pose proof (no_mayor_trans_exacta _ _ _ Hcota
                (no_mayor_trans_exacta _ _ _ Hm (HR _ He Ht))) as Hno.
  unfold no_mayor in Hno. congruence.
Qed.

Lemma paso_RInv s s' :
  Inv s → RInv δ s → Acotado δ N s → paso s = Some s' →
  RInv δ s' ∧
  (length (clientes s') = length (clientes s) ∨ length (clientes s') < N).
Proof.
  intros HI HR HA Hp.
  pose proof (paso_cambio _ _ HI Hp) as [_ Hcv].
  pose proof HR as [HR1 HR2]. pose proof HA as [Hgap Hcota].
  rewrite paso_eq in Hp.
  destruct (pq_empty (colaEventos s)) eqn:Hne; [done|].
  injection Hp as <-.
  pose proof (eventos_extraido _ Hne) as Hev.
  pose proof (extraido_trabajo s Hne) as [Hl0 Ht0]. cbv zeta in Hl0, Ht0.
  set (e := pq_top (colaEventos s)) in *.
  assert (Hein : e ∈ eventos s) by (rewrite Hev; left).
  assert (Hsub : ∀ x, x ∈ eventos (extraido s) → x ∈ eventos s).
  { intros x Hx. rewrite Hev. by right. }
  unfold es_llegada, es_fin in Hl0, Ht0.
  destruct (Evento.tipo e) eqn:Ht; simpl in Hl0, Ht0.
  - (* an arrival *)
    assert (Hl1 : llegadas s = 1) by lia.
    assert (Hl2 : llegadas (extraido s) = 0) by lia.
    change (tiempoActual (extraido s)) with (Evento.tiempo e) in *.
    destruct (menor (Evento.tiempo e) (duracionSimulacion s)) eqn:Hlt.
    + pose proof (llegada_admitida _ _ HR HA Hein Ht Hlt) as HN.
      rewrite procesarLlegada_eq in *.
      pose proof (extraido_Inv _ Hne Ht HI) as HIe.
      pose proof (llegar_trabajo _ HIe) as (Ha1 & Ha2 & Ha3). cbv zeta in *.
      pose proof (llegar_Inv _ HIe) as HIl.
      set (sb := if Estacion.hayServidorDisponible _ then _ else _) in *.
      assert (Hb : llegadas sb = llegadas (llegar (extraido s)) ∧
                   length (clientes sb) = length (clientes (llegar (extraido s)))).
      { unfold sb. destruct (Estacion.hayServidorDisponible _); [|done].
        pose proof (iniciarServicio_trabajo CAJAS _ HIl) as (? & ? & ?). done. }
      destruct Hb as (Hb2 & Hb3).
      pose proof (programar_trabajo sb) as (Hp1 & Hp2 & Hp3). cbv zeta in *.
      set (s' := programar sb) in *.
      change (length (clientes (extraido s))) with (length (clientes s)) in Ha3.
      split; [split|].
      * lia.
      * intros x Hx Htx. rewrite Hp3, Hb3, Ha3.
        destruct (Hcv _ Hx) as [Hx0 | [(_ & _ & g & Hg) | (Hf & _)]].
        -- exfalso. by apply (llegadas_cero _ _ Hl2 Hx0).
        -- rewrite Hg.
           change (multiplo (S (S (length (clientes s)))) δ)
             with (suma (multiplo (S (length (clientes s))) δ) δ).
           apply suma_no_mayor; [by apply HR2 | apply Hgap].
        -- congruence.
      * right. rewrite Hp3, Hb3, Ha3. lia.
    + split; [split|].
      * lia.
      * intros x Hx Htx. exfalso. by apply (llegadas_cero _ _ Hl2 Hx).
      * by left.
  - (* the end of a service *)
    pose proof (procesarFinServicio_trabajo s Hne Ht HI) as (Hf1 & Hf2 & Hf3).
    cbv zeta in *. fold e in Hf1, Hf2, Hf3.
    set (s' := procesarFinServicio e (extraido s)) in *.
    split; [split|].
    + lia.
    + intros x Hx Htx. rewrite Hf3.
      apply procesarFinServicio_viejo_o_fin in Hx as [Hx|Hx]; [|congruence].
      apply HR2; [by apply Hsub | done].
    + by left.
Qed.

Lemma paso_Acotado s s' : Inv s → Acotado δ N s → paso s = Some s' → Acotado δ N s'.
Proof.
  intros HI [Hg Hc] Hp.
  pose proof (paso_clientes _ _ HI Hp) as (_ & _ & Hdu & Hra & _).
  split; by rewrite ?Hdu, ?Hra.
Qed.

Lemma inicializar_RInv config sp s0 :
  inicializar config sp = Some s0 → Acotado δ N s0 → RInv δ s0.
Proof.
  intros H [Hgap _].
  destruct (eventos_inicializar _ _ _ H) as (t & Hev & Ht).
  destruct (inicializar_clientes _ _ _ H) as (Hc0 & _ & Hra & _).
  split.
  - unfold llegadas. rewrite Hev. by rewrite cuenta_cons, cuenta_nil.
  - intros e He _. rewrite Hev in He. apply list_elem_of_singleton in He.
    subst e. rewrite Hc0. simpl. rewrite Ht, <- Hra. apply Hgap.
Qed.

(** With gaps of at least [δ], of which [N] reach the horizon, no run has
    more than [N] customers. *)
Lemma Acotado_LlegadasAcotadas config sp s0 :
  inicializar config sp = Some s0 → Acotado δ N s0 → LlegadasAcotadas N s0.
Proof.
  intros Hini HA tr s Hc.
  pose proof (inicializar_Inv _ _ _ Hini) as HI.
  pose proof (inicializar_RInv _ _ _ Hini HA) as HR.
  destruct (inicializar_clientes _ _ _ Hini) as (Hc0 & _).
  assert (H : RInv δ s ∧ Acotado δ N s ∧ length (clientes s) ≤ N).
  { induction Hc as [|tr s s' Hc IH Hp].
    - split; [done|]. split; [done|]. rewrite Hc0. simpl. lia.
    - destruct IH as (HRs & HAs & Hle).
      pose proof (Corrida_Inv _ _ _ HI Hc) as HIs.
      destruct (paso_RInv _ _ HIs HRs HAs Hp) as [HR' Hlen].
      split; [done|]. split; [by eapply paso_Acotado | lia]. }
  by destruct H as (_ & _ & H).
Qed.
End Cota.

End Brechas.

(** ** Termination, statistics, utilization and routes *)

Section Resultados.
Context `{Di : Distribuciones} `{Cp : !ColaPrioridad}.
Context {HCp : ColaPrioridadOk}.
Context {HL : LeyesOrden} {HS : LeyesSuma} {HD : DistribucionesOk}.

Implicit Types (s : SimulacionColas) (e : Evento.t) (c : Cliente.t).

Lemma inicializar_potencial config sp s0 N :
  inicializar config sp = Some s0 → potencial N s0 = 1 + 11 * N.
Proof.
  intros H. destruct (eventos_inicializar _ _ _ H) as (t & Hev & _).
  destruct (inicializar_Some _ _ _ H) as (e0&e1&e2&e3&e4&t'&g&H0&H1&H2&H3&H4&_&Hs).
  apply Estacion_nueva_Some in H0 as [_ ->], H1 as [_ ->], H2 as [_ ->],
        H3 as [_ ->], H4 as [_ ->].
  unfold potencial, trabajo, llegadas, fines. rewrite Hev.
  rewrite !cuenta_cons, !cuenta_nil.
  subst s0. unfold futuras, encolados. simpl. lia.
Qed.

Lemma inicializar_llegadas config sp s0 :
  inicializar config sp = Some s0 → llegadas s0 = 1.
Proof.
  intros H. destruct (eventos_inicializar _ _ _ H) as (t & Hev & _).
  unfold llegadas. rewrite Hev. by rewrite cuenta_cons, cuenta_nil.
Qed.

(** After [inicializar], when no run has more than [N] customers, the
    loop ends within [1 + 11 N] iterations. *)
Lemma inicializado_termina config sp s0 N n :
  inicializar config sp = Some s0 → LlegadasAcotadas N s0 → 1 + 11 * N ≤ n →
  ∃ s1, bucle n s0 = Some s1.
Proof.
  intros Hini HA Hn. apply (bucle_termina N); [by eapply inicializar_Inv | |done|].
  - by rewrite (inicializar_llegadas _ _ _ Hini).
  - by rewrite (inicializar_potencial _ _ _ _ Hini).
Qed.

(** C1, as the code has it.  After [inicializar], the loop of [ejecutar]
    ends exactly when the customers of the run are bounded in number:
    within [1 + 11 N] iterations when no state of the run has more than
    [N] customers, and when it ends the event queue is empty, so that no
    service is in progress, and no state of the run had more customers
    than the last one.  In every run, each event taken is a least element
    of the queue; an arrival creates a customer only when its time is
    below the horizon and is dropped otherwise, the end of a service is
    always handled; an arrival that [procesarLlegada] schedules is before
    the horizon; no customer has an arrival time at or after the horizon;
    and, when the arrival rate is positive, the events are taken in
    ascending order of time. *)
Theorem C1_horizonte_y_drenado (config : ConfiguracionServidores.t)
    (sp s0 : SimulacionColas) :
  inicializar config sp = Some s0 →
  (∀ N, LlegadasAcotadas N s0 → ∃ sf, ejecutar (1 + 11 * N) s0 = Some sf) ∧
  (∀ n sf, ejecutar n s0 = Some sf →
     pq_empty (colaEventos sf) = true ∧
     (∀ i, en_servicio i sf = 0) ∧
     LlegadasAcotadas (length (clientes sf)) s0) ∧
  ∀ tr s, Corrida s0 tr s →
    (menor cero (tasaLlegada sp) = true →
     StronglySorted no_mayor (Evento.tiempo <$> tr)) ∧
    (∀ i c, clientes s !! i = Some c →
       menor (Cliente.tiempoLlegada c) (duracionSimulacion sp) = true) ∧
    ∀ s', paso s = Some s' →
      let e := pq_top (colaEventos s) in
      (∀ x, x ∈ eventos s → menor (Evento.tiempo x) (Evento.tiempo e) = false) ∧
      tiempoActual s' = Evento.tiempo e ∧
      s' = match Evento.tipo e with
           | LLEGADA =>
               if menor (Evento.tiempo e) (duracionSimulacion sp)
               then procesarLlegada (extraido s) else extraido s
           | FIN_SERVICIO => procesarFinServicio e (extraido s)
           end ∧
      (∀ x, x ∈ eventos s' → Evento.tipo x = LLEGADA →
         x ∈ eventos s ∨
         menor (Evento.tiempo x) (duracionSimulacion sp) = true).
Proof.
  intros Hini.
  pose proof (inicializar_Inv _ _ _ Hini) as H0.
  destruct (inicializar_clientes _ _ _ Hini) as (Hc0 & _ & Hra & Hdu & _).
  split; [|split].
  - intros N HA.
    destruct (inicializado_termina _ _ _ N (1 + 11 * N) Hini HA (le_n _))
      as [s1 Hb].
    exists (con_tiempoFinalReal (tiempoActual s1) s1).
    unfold ejecutar. by rewrite Hb.
  - intros n sf Hej. unfold ejecutar in Hej.
    destruct (bucle n s0) as [s1|] eqn:Hb; [|done]. injection Hej as <-.
    destruct (bucle_Corrida _ _ _ Hb) as (tr & _ & Hp).
    rewrite paso_eq in Hp.
    destruct (pq_empty (colaEventos s1)) eqn:He; [|done].
    split; [done|]. split.
    + intros i. apply en_servicio_cero.
      intros e Hin. apply pq_empty_spec in He.
      unfold eventos in Hin. simpl in Hin. rewrite He in Hin.
      by apply elem_of_nil in Hin.
    + exact (bucle_LlegadasAcotadas _ _ _ H0 Hb).
  - intros tr s Hc.
    pose proof (Corrida_Inv _ _ _ H0 Hc) as HI.
    destruct (Corrida_TrInv _ _ _ H0 Hc0 Hc) as [_ HT].
    destruct (Corrida_campos _ _ _ H0 Hc) as (Hdu' & Hra' & _).
    rewrite Hdu in Hdu'.
    split.
    { intros Hr.
      pose proof (inicializar_TInv _ _ _ Hr Hini) as HT0.
      rewrite <- Hra in Hr.
      by destruct (Corrida_TInv _ _ _ H0 HT0 Hr Hc) as (_ & _ & _ & Hso). }
    split.
    { intros i c Hi. destruct (HT _ _ Hi) as (_ & Hll & _). by rewrite <- Hdu'. }
    intros s' Hp e.
    pose proof (paso_clientes _ _ HI Hp) as (Hein & Hta & _).
    pose proof (paso_cambio _ _ HI Hp) as [_ Hcv].
    assert (Hne : pq_empty (colaEventos s) = false).
    { rewrite paso_eq in Hp. by destruct (pq_empty (colaEventos s)). }
    split; [intros x Hx; by apply (pq_top_spec (colaEventos s) x Hne)|].
    split; [done|]. split.
    { rewrite paso_eq, Hne in Hp. injection Hp as <-. by rewrite <- Hdu'. }
    intros x Hx Htx. destruct (Hcv _ Hx) as [Hx0 | [(_ & Hlt & _) | (Hf & _)]].
    + left. rewrite (eventos_extraido _ Hne). by right.
    + right. by rewrite <- Hdu'.
    + congruence.
Qed.

Lemma acumular_sumatoria (f : Cliente.t → double) (l : list Cliente.t) :
  Forall (λ c, completo c = true) l → acumular f l = sumatoria (f <$> l).
Proof.
  unfold acumular, sumatoria. generalize cero.
  induction l as [|c l IH]; intros a Hall; [done|].
  inversion Hall as [|? ? Hc Hl]; subst. simpl. rewrite Hc. by apply IH.
Qed.

Lemma Inv_completos s :
  Inv s → Forall (λ c, completo c = true) (clientesCompletados s).
Proof.
  intros HI. apply Forall_forall. intros d Hd.
  destruct (inv_copia _ HI _ Hd) as [Hd0 Hdl].
  pose proof (inv_completado _ HI _ _ Hdl) as Hco.
  assert (0 < completado (Z.of_nat (Z.to_nat (Cliente.id d))) s).
  { apply (cuenta_elem _ _ d Hd). apply Z.eqb_eq. lia. }
  unfold en_ruta in Hco. unfold completo.
  destruct (_ <? _)%Z eqn:Hlt; [lia|].
  apply Z.ltb_ge in Hlt. apply Z.geb_le. lia.
Qed.

Lemma Corrida_nil_inv s0 s : Corrida s0 [] s → s = s0.
Proof.
  intros H. inversion H as [|tr' s2 s3 ? ? Htr]; [done|]. by destruct tr'.
Qed.

Lemma Corrida_ultimo s0 tr s :
  Inv s0 → Corrida s0 tr s → tr ≠ [] →
  ∃ e, last tr = Some e ∧ tiempoActual s = Evento.tiempo e.
Proof.
  intros H0 Hc Hne. destruct Hc as [|tr s2 s3 Hc2 Hp2]; [done|].
  exists (pq_top (colaEventos s2)). split; [apply last_snoc|].
  pose proof (Corrida_Inv _ _ _ H0 Hc2) as HI2.
  by destruct (paso_clientes _ _ HI2 Hp2) as (_ & -> & _).
Qed.

(** The horizon is a number as soon as a customer arrived. *)
Lemma horizonte_numero s0 tr s :
  Inv s0 → clientes s0 = [] → Corrida s0 tr s → clientes s ≠ [] →
  es_numero (duracionSimulacion s).
Proof.
  intros H0 Hc0 Hc Hne. destruct (Corrida_TrInv _ _ _ H0 Hc0 Hc) as [_ HT].
  destruct (clientes s) as [|c l] eqn:Hcl; [done|].
  destruct (HT 0 c eq_refl) as (_ & Hll & _).
  by apply menor_numero in Hll as [_ ?].
Qed.

(** A number that is neither below nor above [0] is [0]. *)
Lemma no_negativo_cero (a : double) :
  es_numero a → no_mayor cero a → menor cero a = false → igual a cero = true.
Proof. intros Ha Hz Hp. apply tricotomia; [done | apply igual_cero | done | done]. Qed.

Lemma igual_cero_no_mayor (a : double) : igual a cero = true → menor cero a = false.
Proof.
  intros H. destruct (igual_menor _ _ cero H) as [_ ->]. apply menor_irrefl.
Qed.

(** A call of a method of a station at time [0] leaves a busy time of [0]
    at [0]. *)
Lemma EstPasos_nulo t est est' :
  igual t cero = true → rtc (EstPaso t) est est' →
  igual (Estacion.tiempoTotalOcupado est) cero = true →
  igual (Estacion.tiempoUltimoCambio est) cero = true →
  igual (Estacion.tiempoTotalOcupado est') cero = true ∧
  igual (Estacion.tiempoUltimoCambio est') cero = true.
Proof.
  intros Ht Hr. induction Hr as [x | x y z Hxy Hyz IH]; [done|].
  intros Ha Hb. apply IH.
  - destruct Hxy as [x j | x i j resto Hq Hi | x]; [done| |].
    + simpl. apply suma_cero; [done|]. apply mult_cero. by apply resta_cero.
    + unfold Estacion.finalizarServicio.
      destruct (primer_indice true _) as [i|]; [|done].
      simpl. apply suma_cero; [done|]. apply mult_cero. by apply resta_cero.
  - destruct Hxy as [x j | x i j resto Hq Hi | x]; [done|done|].
    unfold Estacion.finalizarServicio.
    by destruct (primer_indice true _) as [i|].
Qed.

(** While the clock is at [0], no station has been busy for any time. *)
Lemma Corrida_nulo s0 tr s :
  Inv s0 → TInv s0 → menor cero (tasaLlegada s0) = true →
  (∀ k est, estaciones s0 !! k = Some est →
     igual (Estacion.tiempoTotalOcupado est) cero = true ∧
     igual (Estacion.tiempoUltimoCambio est) cero = true) →
  Corrida s0 tr s → igual (tiempoActual s) cero = true →
  ∀ k est, estaciones s !! k = Some est →
    igual (Estacion.tiempoTotalOcupado est) cero = true ∧
    igual (Estacion.tiempoUltimoCambio est) cero = true.
Proof.
  intros H0 HT0 Hr Hz0. induction 1 as [|tr s s' Hc IH Hp]; [done|].
  intros Hz k est' Hk.
  pose proof (Corrida_Inv _ _ _ H0 Hc) as HI.
  destruct (Corrida_TInv _ _ _ H0 HT0 Hr Hc) as (HT & _).
  destruct (Corrida_campos _ _ _ H0 Hc) as (_ & Hra & _).
  assert (Hr' : menor cero (tasaLlegada s) = true) by by rewrite Hra.
  destruct (paso_TInv _ _ HI HT Hr' Hp) as (HT' & Hclk & Hest).
  destruct HT as (Hnum & Hpos & _). destruct HT' as (Hnum' & _).
  assert (Hzs : igual (tiempoActual s) cero = true).
  { apply no_negativo_cero; [done | done |].
    destruct (menor cero (tiempoActual s)) eqn:Hm; [|done].
    pose proof (menor_no_mayor _ _ _ Hnum' Hm Hclk) as Hm'.
    by rewrite (igual_cero_no_mayor _ Hz) in Hm'. }
  destruct (Hest _ _ Hk) as (est & Hk0 & Hrt & _).
  destruct (IH Hzs _ _ Hk0) as [Ha Hb].
  by apply (EstPasos_nulo (tiempoActual s') est est').
Qed.

(** C2. After a run in which a customer completed, [getEstadisticas]
    returns the number of completed customers, the mean of their waits,
    the population variance of their waits and the mean of wait plus
    service; [tiempoFinalReal] is the time of the last event processed;
    and the five utilizations are those over [tiempoFinalReal] when it is
    above [0].  With a positive arrival rate it is above [0] or [0], and
    when it is [0] the utilizations, over the horizon then, are [0], as
    are those over [tiempoFinalReal]. *)
Theorem C2_estadisticas (config : ConfiguracionServidores.t)
    (sp s0 : SimulacionColas) (n : nat) (sf : SimulacionColas) :
  inicializar config sp = Some s0 →
  ejecutar n s0 = Some sf →
  clientesCompletados sf ≠ [] →
  let st := getEstadisticas sf in
  let esperas := Cliente.tiempoEsperaTotal <$> clientesCompletados sf in
  let sobre_el_final :=
    (λ k, Estacion.getUtilizacion (tiempoFinalReal sf) (estacion k sf))
      <$> [0; 1; 2; 3; 4]%Z in
  Estadisticas.totalClientes st = Z.of_nat (length (clientesCompletados sf)) ∧
  Estadisticas.tiempoEsperaPromedio st = media esperas ∧
  Estadisticas.varianzaTiempoEspera st = varianza_poblacional esperas ∧
  Estadisticas.tiempoSistemaPromedio st
  = media ((λ c, suma (Cliente.tiempoEsperaTotal c) (Cliente.tiempoServicioTotal c))
             <$> clientesCompletados sf) ∧
  (∃ tr e s, Corrida s0 tr s ∧ paso s = None ∧ last tr = Some e ∧
             tiempoFinalReal sf = Evento.tiempo e) ∧
  (mayor (tiempoFinalReal sf) cero = true →
   Estadisticas.utilizacionEstaciones st = sobre_el_final) ∧
  (menor cero (tasaLlegada sp) = true →
   Estadisticas.utilizacionEstaciones st = sobre_el_final ∨
   (igual (tiempoFinalReal sf) cero = true ∧
    sobre_el_final = [cero; cero; cero; cero; cero] ∧
    Forall (λ u, igual u cero = true) (Estadisticas.utilizacionEstaciones st))).
Proof.
  intros Hini Hej Hne.
  pose proof (inicializar_Inv _ _ _ Hini) as H0.
  destruct (inicializar_clientes _ _ _ Hini) as (Hc0 & Hd0 & Hra & _).
  unfold ejecutar in Hej. destruct (bucle n s0) as [s1|] eqn:Hb; [|done].
  injection Hej as <-.
  destruct (bucle_Corrida _ _ _ Hb) as (tr & Hc & Hp).
  pose proof (Corrida_Inv _ _ _ H0 Hc) as HI.
  change (clientesCompletados (con_tiempoFinalReal (tiempoActual s1) s1))
    with (clientesCompletados s1) in *.
  assert (Htr : tr ≠ []).
  { intros ->. apply Corrida_nil_inv in Hc. by subst s1. }
  pose proof (Inv_completos _ HI) as Hall.
  cbv zeta.
  assert (Hut :
    Estadisticas.utilizacionEstaciones
      (getEstadisticas (con_tiempoFinalReal (tiempoActual s1) s1))
    = (λ k, Estacion.getUtilizacion
              (if mayor (tiempoActual s1) cero then tiempoActual s1
               else duracionSimulacion s1) (estacion k s1))
        <$> [0; 1; 2; 3; 4]%Z).
  { unfold getEstadisticas.
    change (clientesCompletados (con_tiempoFinalReal (tiempoActual s1) s1))
      with (clientesCompletados s1).
    destruct (Z.of_nat (length (clientesCompletados s1)) =? 0)%Z eqn:Hz; [|done].
    apply Z.eqb_eq in Hz.
    destruct (clientesCompletados s1); [done | simpl in Hz; lia]. }
  rewrite Hut. clear Hut.
  change (tiempoFinalReal (con_tiempoFinalReal (tiempoActual s1) s1))
    with (tiempoActual s1).
  change (λ k, Estacion.getUtilizacion (tiempoActual s1)
                 (estacion k (con_tiempoFinalReal (tiempoActual s1) s1)))
    with (λ k, Estacion.getUtilizacion (tiempoActual s1) (estacion k s1)).
  unfold getEstadisticas.
  change (clientesCompletados (con_tiempoFinalReal (tiempoActual s1) s1))
    with (clientesCompletados s1).
  destruct (Z.of_nat (length (clientesCompletados s1)) =? 0)%Z eqn:Hz.
  { apply Z.eqb_eq in Hz. destruct (clientesCompletados s1); [done | simpl in Hz; lia]. }
  rewrite !acumular_sumatoria by done. simpl.
  unfold varianza_poblacional, media. rewrite !length_fmap.
  split; [done|]. split; [done|]. split.
  { by rewrite <- list_fmap_compose. }
  split; [done|]. split.
  { destruct (Corrida_ultimo _ _ _ H0 Hc Htr) as (e & Hl & Ht).
    by exists tr, e, s1. }
  split; [by intros ->|].
  intros Hr.
  destruct (mayor (tiempoActual s1) cero) eqn:Hm; [by left|]. right.
  pose proof (inicializar_TInv _ _ _ Hr Hini) as HT0.
  rewrite <- Hra in Hr.
  destruct (Corrida_TInv _ _ _ H0 HT0 Hr Hc) as ((Hnum & Hpos & _) & _).
  assert (Hz1 : igual (tiempoActual s1) cero = true)
    by by apply no_negativo_cero.
  split; [done|]. split.
  { unfold Estacion.getUtilizacion. by rewrite Hz1. }
  assert (Hcl : clientes s1 ≠ []).
  { destruct (clientesCompletados s1) as [|d l] eqn:Hd; [done|].
    destruct (inv_copia _ HI d) as [_ Hdl]; [rewrite Hd; left|].
    intros Hn. by rewrite Hn in Hdl. }
  pose proof (horizonte_numero _ _ _ H0 Hc0 Hc Hcl) as Hdn.
  assert (Hz0 : ∀ k est, estaciones s0 !! k = Some est →
            igual (Estacion.tiempoTotalOcupado est) cero = true ∧
            igual (Estacion.tiempoUltimoCambio est) cero = true).
  { intros k est Hk.
    destruct (inicializar_estaciones _ _ _ _ _ Hini Hk) as (-> & -> & _).
    split; apply igual_cero. }
  pose proof (Corrida_nulo _ _ _ H0 HT0 Hr Hz0 Hc Hz1) as Hnul.
  assert (Hk : ∀ k, (0 ≤ k < 5)%Z →
            igual (Estacion.getUtilizacion (duracionSimulacion s1) (estacion k s1))
                  cero = true).
  { intros k Hk.
    destruct (lookup_lt_is_Some_2 (estaciones s1) (Z.to_nat k)) as [est Hest].
    { rewrite (inv_estaciones _ HI). lia. }
    rewrite (estacion_lookup _ _ _ Hest).
    apply getUtilizacion_cero; [done | by apply (Hnul _ _ Hest)]. }
  repeat constructor; apply Hk; lia.
Qed.

(** C3, as the code has it.  [getUtilizacion] is [0] when the elapsed
    time is [0] or the station has no server, and otherwise the busy time
    divided by servers times elapsed time.  A call of a method of a
    station leaves the busy time and the flags of the servers, or changes
    a flag and adds to the busy time a number of servers times the time
    since the last change, which becomes the time of the call.  In a run
    the stations change only by such calls, made at the clock, and with a
    positive arrival rate no busy time decreases. *)
Theorem C3_utilizacion (config : ConfiguracionServidores.t)
    (sp s0 : SimulacionColas) (tr : list Evento.t) (s s' : SimulacionColas) :
  inicializar config sp = Some s0 →
  Corrida s0 tr s → paso s = Some s' →
  (∀ t est,
     (igual t cero = true → Estacion.getUtilizacion t est = cero) ∧
     (Estacion.numServidores est = 0%Z → Estacion.getUtilizacion t est = cero) ∧
     (igual t cero = false → Estacion.numServidores est ≠ 0%Z →
      Estacion.getUtilizacion t est
      = divi (Estacion.tiempoTotalOcupado est)
             (mult (de_int (Estacion.numServidores est)) t))) ∧
  (∀ t est est', EstPaso t est est' →
     (Estacion.tiempoTotalOcupado est' = Estacion.tiempoTotalOcupado est ∧
      Estacion.tiempoUltimoCambio est' = Estacion.tiempoUltimoCambio est ∧
      Estacion.servidorOcupado est' = Estacion.servidorOcupado est) ∨
     (Estacion.servidorOcupado est' ≠ Estacion.servidorOcupado est ∧
      Estacion.tiempoUltimoCambio est' = t ∧
      ∃ ocupados,
        (0 ≤ ocupados ≤ Z.of_nat (length (Estacion.servidorOcupado est)))%Z ∧
        Estacion.tiempoTotalOcupado est'
        = suma (Estacion.tiempoTotalOcupado est)
               (mult (de_int ocupados)
                     (resta t (Estacion.tiempoUltimoCambio est))))) ∧
  (∀ k est', estaciones s' !! k = Some est' →
     ∃ est, estaciones s !! k = Some est ∧
            rtc (EstPaso (tiempoActual s')) est est' ∧
            (menor cero (tasaLlegada sp) = true →
             no_mayor (Estacion.tiempoTotalOcupado est)
                      (Estacion.tiempoTotalOcupado est'))).
Proof.
  intros Hini Hc Hp. split; [|split].
  - intros t est. unfold Estacion.getUtilizacion. repeat split.
    + by intros ->.
    + intros ->. by rewrite orb_true_r.
    + intros -> Hn. by rewrite (proj2 (Z.eqb_neq _ _) Hn).
  - intros t est est' [x j | x i j resto Hq Hi | x].
    + by left.
    + right. apply primer_indice_rango in Hi as Hi'.
      split; [|split; [done|]].
      * simpl. intros Heq. apply (f_equal (λ l, l !! i)) in Heq.
        rewrite list_lookup_insert_eq in Heq by (by apply lookup_lt_Some in Hi').
        congruence.
      * exists (servidoresOcupados (<[i:=true]> (Estacion.servidorOcupado x))).
        split; [|done].
        pose proof (servidoresOcupados_cota
                      (<[i:=true]> (Estacion.servidorOcupado x))) as Hn.
        by rewrite length_insert in Hn.
    + unfold Estacion.finalizarServicio.
      destruct (primer_indice true (Estacion.servidorOcupado x)) as [i|] eqn:Hi;
        [|by left].
      right. apply primer_indice_rango in Hi as Hi'.
      split; [|split; [done|]].
      * simpl. intros Heq. apply (f_equal (λ l, l !! i)) in Heq.
        rewrite list_lookup_insert_eq in Heq by (by apply lookup_lt_Some in Hi').
        congruence.
      * exists (servidoresOcupados (<[i:=false]> (Estacion.servidorOcupado x))).
        split; [|done].
        pose proof (servidoresOcupados_cota
                      (<[i:=false]> (Estacion.servidorOcupado x))) as Hn.
        by rewrite length_insert in Hn.
  - pose proof (inicializar_Inv _ _ _ Hini) as H0.
    destruct (inicializar_clientes _ _ _ Hini) as (_ & _ & Hra & _).
    pose proof (Corrida_Inv _ _ _ H0 Hc) as HI.
    pose proof (paso_cambio _ _ HI Hp) as [Hce _].
    pose proof (paso_clientes _ _ HI Hp) as (_ & Hta & _). cbv zeta in Hta.
    intros k est' Hk. destruct (Hce _ _ Hk) as (est & Hk0 & Hrt & _).
    change (estaciones (extraido s)) with (estaciones s) in Hk0.
    change (tiempoActual (extraido s))
      with (Evento.tiempo (pq_top (colaEventos s))) in Hrt.
    rewrite <- Hta in Hrt.
    exists est. split; [done|]. split; [done|].
    intros Hr.
    pose proof (inicializar_TInv _ _ _ Hr Hini) as HT0.
    rewrite <- Hra in Hr.
    destruct (Corrida_TInv _ _ _ H0 HT0 Hr Hc) as (HT & _).
    destruct (Corrida_campos _ _ _ H0 Hc) as (_ & Hra' & _).
    rewrite <- Hra' in Hr.
    destruct (paso_TInv _ _ HI HT Hr Hp) as (_ & _ & H).
    destruct (H _ _ Hk) as (est2 & Hk2 & _ & Hle).
    assert (est2 = est) by congruence. by subst est2.
Qed.


End Resultados.

(** ** The accumulator of busy time *)

Section Acumulador.
Context `{Ar : Aritmetica}.

Implicit Types (est : Estacion.t) (t : double).

Lemma iniciarServicio_acumula t est j resto i :
  Estacion.colaEspera est = j :: resto →
  primer_indice false (Estacion.servidorOcupado est) = Some i →
  let ocupados := servidoresOcupados (Estacion.servidorOcupado est) in
  let est' := snd (Estacion.iniciarServicio t est) in
  fst (Estacion.iniciarServicio t est) = j ∧
  Estacion.colaEspera est' = resto ∧
  servidoresOcupados (Estacion.servidorOcupado est') = (ocupados + 1)%Z ∧
  Estacion.tiempoTotalOcupado est'
  = suma (Estacion.tiempoTotalOcupado est)
         (mult (de_int (ocupados + 1))
               (resta t (Estacion.tiempoUltimoCambio est))) ∧
  Estacion.tiempoUltimoCambio est' = t.
Proof.
  intros Hq Hi. cbv zeta. unfold Estacion.iniciarServicio. rewrite Hq, Hi. simpl.
  rewrite (servidoresOcupados_insert _ i true)
    by (by apply primer_indice_rango).
  done.
Qed.

Lemma finalizarServicio_acumula t est i :
  primer_indice true (Estacion.servidorOcupado est) = Some i →
  let ocupados := servidoresOcupados (Estacion.servidorOcupado est) in
  let est' := Estacion.finalizarServicio t est in
  servidoresOcupados (Estacion.servidorOcupado est') = (ocupados - 1)%Z ∧
  Estacion.tiempoTotalOcupado est'
  = suma (Estacion.tiempoTotalOcupado est)
         (mult (de_int (ocupados - 1))
               (resta t (Estacion.tiempoUltimoCambio est))) ∧
  Estacion.tiempoUltimoCambio est' = t ∧
  Estacion.totalAtendidos est' = (Estacion.totalAtendidos est + 1)%Z.
Proof.
  intros Hi. cbv zeta. unfold Estacion.finalizarServicio. rewrite Hi. simpl.
  rewrite (servidoresOcupados_insert _ i false)
    by (by apply primer_indice_rango).
  done.
Qed.

(** X17. The accumulator of busy time is updated after the flag of the
    server is changed.  When [Estacion::iniciarServicio] takes a customer
    it adds the elapsed time once for every server that was busy and once
    more for the server just taken; when [finalizarServicio] frees a
    server it adds the elapsed time for the servers that were busy but
    one.  So a service from [t] to [t'] at a station that was idle since
    [u] adds 1 (t - u) + 0 (t' - t): the idle interval before the service
    and not the service. *)
Theorem X17_acumulador_tras_el_cambio (t t' : double) (est : Estacion.t) :
  let ocupados := servidoresOcupados (Estacion.servidorOcupado est) in
  let u := Estacion.tiempoUltimoCambio est in
  (∀ j resto i,
     Estacion.colaEspera est = j :: resto →
     primer_indice false (Estacion.servidorOcupado est) = Some i →
     let est' := snd (Estacion.iniciarServicio t est) in
     fst (Estacion.iniciarServicio t est) = j ∧
     servidoresOcupados (Estacion.servidorOcupado est') = (ocupados + 1)%Z ∧
     Estacion.tiempoTotalOcupado est'
     = suma (Estacion.tiempoTotalOcupado est)
            (mult (de_int (ocupados + 1)) (resta t u)) ∧
     Estacion.tiempoUltimoCambio est' = t) ∧
  (∀ i,
     primer_indice true (Estacion.servidorOcupado est) = Some i →
     let est' := Estacion.finalizarServicio t est in
     servidoresOcupados (Estacion.servidorOcupado est') = (ocupados - 1)%Z ∧
     Estacion.tiempoTotalOcupado est'
     = suma (Estacion.tiempoTotalOcupado est)
            (mult (de_int (ocupados - 1)) (resta t u)) ∧
     Estacion.tiempoUltimoCambio est' = t) ∧
  (∀ j resto i,
     Estacion.colaEspera est = j :: resto →
     primer_indice false (Estacion.servidorOcupado est) = Some i →
     ocupados = 0%Z →
     Estacion.tiempoTotalOcupado
       (Estacion.finalizarServicio t' (snd (Estacion.iniciarServicio t est)))
     = suma (suma (Estacion.tiempoTotalOcupado est) (mult (de_int 1) (resta t u)))
            (mult (de_int 0) (resta t' t))).
Proof.
  cbv zeta. split; [|split].
  - intros j resto i Hq Hi.
    destruct (iniciarServicio_acumula t est j resto i Hq Hi)
      as (H1 & _ & H2 & H3 & H4). done.
  - intros i Hi.
    destruct (finalizarServicio_acumula t est i Hi) as (H1 & H2 & H3 & _). done.
  - intros j resto i Hq Hi H0.
    destruct (iniciarServicio_acumula t est j resto i Hq Hi)
      as (_ & _ & H2 & H3 & H4). cbv zeta in H2, H3, H4.
    set (est1 := snd (Estacion.iniciarServicio t est)) in *.
    destruct (primer_indice true (Estacion.servidorOcupado est1)) as [i1|] eqn:Hi1.
    + destruct (finalizarServicio_acumula t' est1 i1 Hi1) as (_ & H5 & _).
      cbv zeta in H5. rewrite H5, H2, H3, H4, H0. done.
    + apply primer_indice_ocupado in Hi1. lia.
Qed.

End Acumulador.

(** ** What the stations keep between two events *)

Section Servicio.
Context `{Di : Distribuciones} `{Cp : !ColaPrioridad}.
Context {HCp : ColaPrioridadOk}.

Implicit Types (s : SimulacionColas) (e : Evento.t) (c : Cliente.t).

Lemma lugar_mismo j k s s' :
  (∀ i c, clientes s !! i = Some c →
          ∃ c', clientes s' !! i = Some c' ∧ mismo_progreso c c') →
  lugar j k s → lugar j k s'.
Proof.
  intros H (c & Hc & Hk). destruct (H _ _ Hc) as (c' & Hc' & _ & Hr & Hi & _).
  exists c'. split; [done|]. by rewrite Hr, Hi.
Qed.

(** [iniciarServicio], with the invariant: it leaves the state, or takes
    the head of the queue to the first free server. *)
Lemma iniciarServicio_forma k s :
  Inv s → (0 ≤ k < 5)%Z →
  (iniciarServicio k s = s ∧
   (Estacion.colaEspera (estacion k s) = [] ∨
    Estacion.hayServidorDisponible (estacion k s) = false)) ∨
  ∃ est j resto i c c' t,
    estaciones s !! Z.to_nat k = Some est ∧
    Estacion.colaEspera est = j :: resto ∧
    primer_indice false (Estacion.servidorOcupado est) = Some i ∧
    (0 ≤ j)%Z ∧ clientes s !! Z.to_nat j = Some c ∧
    estaciones (iniciarServicio k s)
    = <[Z.to_nat k := ocupar (tiempoActual s) i resto est]> (estaciones s) ∧
    clientes (iniciarServicio k s) = <[Z.to_nat j := c']> (clientes s) ∧
    mismo_progreso c c' ∧
    eventos (iniciarServicio k s) ≡ₚ Evento.mk t FIN_SERVICIO j k :: eventos s.
Proof.
  intros HI Hk.
  destruct (iniciarServicio_casos k s)
    as [H | (j & resto & i & Hq & Hi & ->)]; [by left | right].
  assert (Hjq : j ∈ Estacion.colaEspera (estacion k s)) by (rewrite Hq; left).
  pose proof (estacion_cola_lookup _ _ _ Hjq) as Hest.
  pose proof (inv_colas _ HI _ _ _ Hest Hjq) as Hjr.
  cbv zeta. replace (j <? 0)%Z with false by (symmetry; apply Z.ltb_ge; lia).
  set (s1 := con_estacion k _ s).
  destruct (atender_spec j k s1) as (ts & g & _ & ->).
  assert (Hc : clientes s !! Z.to_nat j = Some (cliente j s)).
  { apply cliente_en_rango. lia. }
  eexists (estacion k s), j, resto, i, (cliente j s), _, _.
  split; [done|]. split; [done|]. split; [done|]. split; [lia|].
  split; [done|]. split; [reflexivity|]. split; [reflexivity|].
  split; [by repeat split|]. apply eventos_push.
Qed.

Lemma mismo_progreso_insert s j c c' i d :
  clientes s !! Z.to_nat j = Some c → mismo_progreso c c' →
  clientes s !! i = Some d →
  ∃ d', <[Z.to_nat j := c']> (clientes s) !! i = Some d' ∧ mismo_progreso d d'.
Proof.
  intros Hc Hm Hd. destruct (decide (i = Z.to_nat j)) as [->|Hne].
  - rewrite list_lookup_insert_eq by (by apply lookup_lt_Some in Hc).
    exists c'. split; [done|]. congruence.
  - rewrite list_lookup_insert_ne by done. exists d. split; [done|].
    apply mismo_progreso_refl.
Qed.

Lemma es_fin_en_mk t j k k' :
  es_fin_en k' (Evento.mk t FIN_SERVICIO j k) = (k =? k')%Z.
Proof. reflexivity. Qed.

Lemma iniciarServicio_SInv k s :
  Inv s → (0 ≤ k < 5)%Z → SInv s → SInv (iniciarServicio k s).
Proof.
  intros HI Hk HS.
  destruct (iniciarServicio_forma k s HI Hk)
    as [[-> _] | (est & j & resto & i & c & c' & t & Hest & Hq & Hi & Hj & Hc
                  & He & Hcl & Hm & Hev)]; [done|].
  assert (Hmis : ∀ n d, clientes s !! n = Some d →
            ∃ d', clientes (iniciarServicio k s) !! n = Some d' ∧ mismo_progreso d d').
  { intros n d Hd. rewrite Hcl. by eapply mismo_progreso_insert. }
  pose proof (primer_indice_rango _ _ _ Hi) as Hfl.
  split.
  - intros n est' Hn. rewrite He in Hn.
    destruct (decide (n = Z.to_nat k)) as [->|Hne].
    + rewrite list_lookup_insert_eq in Hn by (by apply lookup_lt_Some in Hest).
      injection Hn as <-. simpl. rewrite length_insert.
      apply (sinv_forma _ HS _ _ Hest).
    + rewrite list_lookup_insert_ne in Hn by done. apply (sinv_forma _ HS _ _ Hn).
  - intros n est' Hn. rewrite He in Hn.
    rewrite (cuenta_perm _ _ _ Hev), cuenta_cons, es_fin_en_mk.
    destruct (decide (n = Z.to_nat k)) as [->|Hne].
    + rewrite list_lookup_insert_eq in Hn by (by apply lookup_lt_Some in Hest).
      injection Hn as <-. simpl.
      rewrite (servidoresOcupados_insert _ _ true) by done.
      rewrite (sinv_ocupados _ HS _ _ Hest).
      replace (k =? Z.of_nat (Z.to_nat k))%Z with true
        by (symmetry; apply Z.eqb_eq; lia).
      lia.
    + rewrite list_lookup_insert_ne in Hn by done.
      rewrite (sinv_ocupados _ HS _ _ Hn).
      replace (k =? Z.of_nat n)%Z with false
        by (symmetry; apply Z.eqb_neq; lia).
      lia.
  - intros e Hin Ht.
    apply (elem_of_Permutation_proper _ _ _ Hev) in Hin.
    apply elem_of_cons in Hin as [->|Hin]; simpl.
    + apply (lugar_mismo _ _ s); [done|].
      replace k with (Z.of_nat (Z.to_nat k)) at 1 by lia.
      apply (sinv_cola _ HS _ _ _ Hest). rewrite Hq. left.
    + apply (lugar_mismo _ _ s); [done|]. by apply (sinv_evento _ HS).
  - intros n est' j' Hn Hj'. rewrite He in Hn.
    apply (lugar_mismo _ _ s); [done|].
    destruct (decide (n = Z.to_nat k)) as [->|Hne].
    + rewrite list_lookup_insert_eq in Hn by (by apply lookup_lt_Some in Hest).
      injection Hn as <-. simpl in Hj'.
      apply (sinv_cola _ HS _ _ _ Hest). rewrite Hq. by right.
    + rewrite list_lookup_insert_ne in Hn by done.
      by apply (sinv_cola _ HS _ _ _ Hn).
  - intros n d' Hn. rewrite Hcl in Hn.
    destruct (decide (n = Z.to_nat j)) as [->|Hne].
    + rewrite list_lookup_insert_eq in Hn by (by apply lookup_lt_Some in Hc).
      injection Hn as <-. destruct Hm as (_ & -> & _).
      apply (sinv_ruta _ HS _ _ Hc).
    + rewrite list_lookup_insert_ne in Hn by done. apply (sinv_ruta _ HS _ _ Hn).
Qed.

Lemma lugar_ext j k s s' :
  Forall2 mismo_lugar (clientes s) (clientes s') → lugar j k s → lugar j k s'.
Proof.
  intros H (c & Hc & Hk).
  destruct (Forall2_lookup_l _ _ _ _ _ H Hc) as (c' & Hc' & Hr & Hi).
  exists c'. split; [done|]. by rewrite Hr, Hi.
Qed.

Lemma mismo_lugar_refl (l : list Cliente.t) : Forall2 mismo_lugar l l.
Proof. apply Forall2_same_length_lookup_2; [done|]. intros i x y Hx Hy.
       assert (x = y) by congruence. by subst. Qed.

(** [SInv] reads the stations, the ends of service scheduled and, of the
    customers, the routes and the route indices. *)
Lemma SInv_ext s s' :
  estaciones s' = estaciones s →
  (∀ k, cuenta (es_fin_en k) (eventos s') = cuenta (es_fin_en k) (eventos s)) →
  (∀ e, e ∈ eventos s' → Evento.tipo e = FIN_SERVICIO → e ∈ eventos s) →
  Forall2 mismo_lugar (clientes s) (clientes s') →
  SInv s → SInv s'.
Proof.
  intros He Hn Hin Hc HS. split.
  - rewrite He. apply (sinv_forma _ HS).
  - intros k est Hk. rewrite He in Hk. rewrite Hn. by apply (sinv_ocupados _ HS).
  - intros e H Ht. apply (lugar_ext _ _ s); [done|].
    apply (sinv_evento _ HS); [by apply Hin | done].
  - intros k est j Hk Hj. rewrite He in Hk. apply (lugar_ext _ _ s); [done|].
    by apply (sinv_cola _ HS _ _ _ Hk).
  - intros i c' Hi.
    destruct (Forall2_lookup_r _ _ _ _ _ Hc Hi) as (c & Hci & Hr & _).
    rewrite Hr. apply (sinv_ruta _ HS _ _ Hci).
Qed.

(** A customer joins the queue of the station it is at. *)
Lemma agregar_SInv k j t est s :
  (0 ≤ k)%Z → estaciones s !! Z.to_nat k = Some est → lugar j k s →
  SInv s → SInv (con_estacion k (Estacion.agregarCliente j t est) s).
Proof.
  intros Hk Hest Hl HS. split; simpl.
  - intros n est' Hn. destruct (decide (n = Z.to_nat k)) as [->|Hne].
    + rewrite list_lookup_insert_eq in Hn by (by apply lookup_lt_Some in Hest).
      injection Hn as <-. simpl. apply (sinv_forma _ HS _ _ Hest).
    + rewrite list_lookup_insert_ne in Hn by done. apply (sinv_forma _ HS _ _ Hn).
  - intros n est' Hn. destruct (decide (n = Z.to_nat k)) as [->|Hne].
    + rewrite list_lookup_insert_eq in Hn by (by apply lookup_lt_Some in Hest).
      injection Hn as <-. simpl. apply (sinv_ocupados _ HS _ _ Hest).
    + rewrite list_lookup_insert_ne in Hn by done.
      apply (sinv_ocupados _ HS _ _ Hn).
  - intros e He Ht. by apply (sinv_evento _ HS).
  - intros n est' j' Hn Hj'. destruct (decide (n = Z.to_nat k)) as [->|Hne].
    + rewrite list_lookup_insert_eq in Hn by (by apply lookup_lt_Some in Hest).
      injection Hn as <-. simpl in Hj'. rewrite Z2Nat.id by done.
      apply elem_of_app in Hj' as [Hj' | Hj'].
      * pose proof (sinv_cola _ HS _ _ _ Hest Hj') as H.
        by rewrite Z2Nat.id in H.
      * apply list_elem_of_singleton in Hj'. by subst.
    + rewrite list_lookup_insert_ne in Hn by done.
      by apply (sinv_cola _ HS _ _ _ Hn).
  - apply (sinv_ruta _ HS).
Qed.

Lemma ruta_de_ordenada b1 b2 b3 b4 : StronglySorted Z.lt (ruta_de b1 b2 b3 b4).
Proof.
  destruct b1, b2, b3, b4; unfold ruta_de; simpl;
    repeat (constructor; [|repeat constructor;
              unfold CAJAS, REFRESCOS, FREIDORA, POSTRES, POLLO; lia]);
    constructor.
Qed.

Lemma sortearRuta_ordenada ps g : StronglySorted Z.lt (fst (sortearRuta ps g)).
Proof.
  destruct (sortearRuta_forma ps g)
    as (b1 & g1 & b2 & g2 & b3 & g3 & b4 & g4 & _ & _ & _ & _ & ->).
  apply ruta_de_ordenada.
Qed.

Lemma llegar_SInv s : Inv s → SInv s → SInv (llegar s).
Proof.
  intros HI HS. unfold llegar.
  pose proof (cliente_nuevo_spec s) as (Hid & Hr & Hix & _).
  destruct (cliente_nuevo_ruta s) as (g0 & Hruta).
  destruct (cliente_nuevo s) as [c g]. simpl in Hid, Hr, Hix, Hruta.
  pose proof (inv_siguiente _ HI) as Hsig.
  pose proof (inv_estaciones _ HI) as Hlen.
  assert (H0 : estaciones s !! Z.to_nat CAJAS = Some (estacion CAJAS s)).
  { apply estacion_en_rango. rewrite Hlen. unfold CAJAS. simpl. lia. }
  set (s1 := con_clientes _ _).
  assert (HS1 : SInv s1).
  { split; simpl.
    - apply (sinv_forma _ HS).
    - apply (sinv_ocupados _ HS).
    - intros e He Ht. destruct (sinv_evento _ HS e He Ht) as (d & Hd & Hk).
      exists d. split; [|done]. simpl. by apply lookup_app_l_Some.
    - intros k est j Hk Hj. destruct (sinv_cola _ HS _ _ _ Hk Hj) as (d & Hd & Hk').
      exists d. split; [|done]. simpl. by apply lookup_app_l_Some.
    - intros i c' Hi. apply lookup_app_Some in Hi as [Hi | [Hge Hi]].
      + apply (sinv_ruta _ HS _ _ Hi).
      + apply list_lookup_singleton_Some in Hi as [Hi ->].
        rewrite Hruta. apply sortearRuta_ordenada. }
  apply (agregar_SInv CAJAS _ _ _ s1); [done | done | | done].
  exists c. split.
  - simpl. rewrite Hid, Hsig, Nat2Z.id. rewrite lookup_app_r by done.
    by rewrite Nat.sub_diag.
  - rewrite Hix. simpl. destruct Hr as (Hh & _).
    destruct (Cliente.estaciones c); [done|]. simpl in *. congruence.
Qed.

Lemma programar_SInv s : SInv s → SInv (programar s).
Proof.
  intros HS. unfold programar.
  destruct (GeneradorAleatorio.tiempoEntreLlegadas _ _) as [entre g]. simpl.
  destruct (menor _ _).
  - apply (SInv_ext s); simpl; try done.
    + intros k. rewrite (cuenta_perm _ _ _ (eventos_push _ _ (con_rng g s))).
      by rewrite cuenta_cons.
    + intros e He Ht.
      apply (elem_of_Permutation_proper _ _ _ (eventos_push _ _ (con_rng g s))) in He.
      apply elem_of_cons in He as [->|He]; [done|]. done.
    + apply mismo_lugar_refl.
  - apply (SInv_ext s); simpl; try done. apply mismo_lugar_refl.
Qed.

Lemma procesarLlegada_SInv s : Inv s → SInv s → SInv (procesarLlegada s).
Proof.
  intros HI HS. rewrite procesarLlegada_eq. apply programar_SInv.
  pose proof (llegar_Inv _ HI). pose proof (llegar_SInv _ HI HS).
  destruct (Estacion.hayServidorDisponible _); [|done].
  apply iniciarServicio_SInv; [done | unfold CAJAS; lia | done].
Qed.

Lemma finalizarServicio_forma t (est : Estacion.t) :
  Estacion.id (Estacion.finalizarServicio t est) = Estacion.id est ∧
  Estacion.numServidores (Estacion.finalizarServicio t est)
  = Estacion.numServidores est ∧
  length (Estacion.servidorOcupado (Estacion.finalizarServicio t est))
  = length (Estacion.servidorOcupado est).
Proof.
  unfold Estacion.finalizarServicio.
  destruct (primer_indice true _); simpl; [|done]. by rewrite length_insert.
Qed.

(** With a busy server, [finalizarServicio] frees one and counts one more
    customer served. *)
Lemma finalizarServicio_ocupados t (est : Estacion.t) :
  (0 < servidoresOcupados (Estacion.servidorOcupado est))%Z →
  servidoresOcupados (Estacion.servidorOcupado (Estacion.finalizarServicio t est))
  = (servidoresOcupados (Estacion.servidorOcupado est) - 1)%Z ∧
  Estacion.totalAtendidos (Estacion.finalizarServicio t est)
  = (Estacion.totalAtendidos est + 1)%Z.
Proof.
  intros H. unfold Estacion.finalizarServicio.
  destruct (primer_indice true _) as [i|] eqn:Hi.
  - simpl. rewrite (servidoresOcupados_insert _ _ false).
    + split; [lia | done].
    + by apply primer_indice_rango in Hi.
  - apply primer_indice_ocupado in Hi. lia.
Qed.

(** What the invariants say of the event [paso] takes from the queue when
    it is the end of a service. *)
Lemma evento_fin_unico s0 evs e :
  Inv s0 → SInv s0 → eventos s0 ≡ₚ e :: evs → Evento.tipo e = FIN_SERVICIO →
  ∃ c0,
    (0 ≤ Evento.idCliente e)%Z ∧ (0 ≤ Evento.idEstacion e < 5)%Z ∧
    clientes s0 !! Z.to_nat (Evento.idCliente e) = Some c0 ∧
    Cliente.id c0 = Evento.idCliente e ∧
    Cliente.estaciones c0 !! Z.to_nat (Cliente.indiceEstacionActual c0)
    = Some (Evento.idEstacion e) ∧
    (0 ≤ Cliente.indiceEstacionActual c0)%Z ∧
    en_ruta c0 = true ∧
    (∀ e', e' ∈ evs → Evento.tipo e' = FIN_SERVICIO →
           Evento.idCliente e' ≠ Evento.idCliente e) ∧
    (∀ k est, estaciones s0 !! k = Some est →
              Evento.idCliente e ∉ Estacion.colaEspera est).
Proof.
  intros HI HS Hev Ht.
  assert (He : e ∈ eventos s0) by (rewrite Hev; left).
  destruct (inv_eventos _ HI e He Ht) as [Hj Hk].
  destruct (sinv_evento _ HS e He Ht) as (c0 & Hc0 & Hl).
  destruct (inv_cliente _ HI _ _ Hc0) as (Hid & _ & Hix).
  assert (Hr : en_ruta c0 = true).
  { unfold en_ruta. apply Z.ltb_lt. apply lookup_lt_Some in Hl. lia. }
  pose proof (inv_pendiente _ HI _ _ Hc0) as Hp. rewrite Hr in Hp.
  rewrite Z2Nat.id in Hp, Hid by lia.
  unfold en_servicio in Hp. rewrite (cuenta_perm _ _ _ Hev), cuenta_cons in Hp.
  assert (Hfe : es_fin_de (Evento.idCliente e) e = true).
  { unfold es_fin_de. rewrite Ht. simpl. apply Z.eqb_refl. }
  rewrite Hfe in Hp.
  exists c0. repeat split; try done; try lia.
  - intros e' He' Ht' Heq.
    assert (0 < cuenta (es_fin_de (Evento.idCliente e)) evs); [|lia].
    apply (cuenta_elem _ _ e' He'). unfold es_fin_de. rewrite Ht'. simpl.
    by apply Z.eqb_eq.
  - intros k est Hest Hin. pose proof (en_cola_pos _ _ _ _ Hest Hin). lia.
Qed.

Lemma cuenta_fin_en_cons k e evs :
  Evento.tipo e = FIN_SERVICIO →
  cuenta (es_fin_en k) (e :: evs)
  = (if (Evento.idEstacion e =? k)%Z then 1 else 0) + cuenta (es_fin_en k) evs.
Proof. intros Ht. rewrite cuenta_cons. unfold es_fin_en at 1. by rewrite Ht. Qed.

Lemma avanzar_SInv s0 s e :
  Inv s0 → SInv s0 → eventos s0 ≡ₚ e :: eventos s →
  estaciones s = estaciones s0 → clientes s = clientes s0 →
  Evento.tipo e = FIN_SERVICIO →
  SInv (avanzar e s).
Proof.
  intros HI HS Hev Hest Hcl Ht.
  destruct (evento_fin_unico _ _ _ HI HS Hev Ht)
    as (c0 & Hj & Hk & Hc0 & Hid & Hl & Hix & Hr & Hotros & Hcolas).
  remember (Evento.idCliente e) as j eqn:Ej.
  remember (Evento.idEstacion e) as kE eqn:EkE.
  assert (Hcj : cliente j s = c0).
  { unfold cliente. rewrite Hcl. by apply list_lookup_total_correct. }
  assert (HkE : estaciones s0 !! Z.to_nat kE = Some (estacion kE s)).
  { rewrite <- Hest. apply estacion_en_rango.
    rewrite Hest, (inv_estaciones _ HI). lia. }
  set (c := cliente_avanzado e s).
  assert (Hc : c = Cliente.con_indiceEstacionActual
                     (Cliente.indiceEstacionActual c0 + 1)%Z c0).
  { unfold c, cliente_avanzado. by rewrite <- Ej, Hcj. }
  set (s1 := con_cliente j c
               (con_estacion kE
                  (Estacion.finalizarServicio (tiempoActual s) (estacion kE s)) s)).
  assert (Hbusy : (0 < servidoresOcupados
                         (Estacion.servidorOcupado (estacion kE s)))%Z).
  { rewrite (sinv_ocupados _ HS _ _ HkE), (cuenta_perm _ _ _ Hev).
    rewrite (cuenta_fin_en_cons _ _ _ Ht), <- EkE.
    destruct (Z.eqb_spec kE (Z.of_nat (Z.to_nat kE))); lia. }
  assert (HS1 : SInv s1).
  { split; simpl.
    - intros n est' Hn. rewrite Hest in Hn.
      destruct (decide (n = Z.to_nat kE)) as [->|Hne].
      + rewrite list_lookup_insert_eq in Hn by (by apply lookup_lt_Some in HkE).
        injection Hn as <-.
        destruct (finalizarServicio_forma (tiempoActual s) (estacion kE s))
          as (-> & -> & ->).
        apply (sinv_forma _ HS _ _ HkE).
      + rewrite list_lookup_insert_ne in Hn by done.
        apply (sinv_forma _ HS _ _ Hn).
    - intros n est' Hn. rewrite Hest in Hn.
      destruct (decide (n = Z.to_nat kE)) as [->|Hne].
      + rewrite list_lookup_insert_eq in Hn by (by apply lookup_lt_Some in HkE).
        injection Hn as <-.
        destruct (finalizarServicio_ocupados (tiempoActual s) _ Hbusy) as [-> _].
        rewrite (sinv_ocupados _ HS _ _ HkE), (cuenta_perm _ _ _ Hev).
        rewrite (cuenta_fin_en_cons _ _ _ Ht), <- EkE.
        change (eventos s1) with (eventos s).
        destruct (Z.eqb_spec kE (Z.of_nat (Z.to_nat kE))); lia.
      + rewrite list_lookup_insert_ne in Hn by done.
        rewrite (sinv_ocupados _ HS _ _ Hn), (cuenta_perm _ _ _ Hev).
        rewrite (cuenta_fin_en_cons _ _ _ Ht), <- EkE.
        change (eventos s1) with (eventos s).
        destruct (Z.eqb_spec kE (Z.of_nat n)); lia.
    - intros e' He' Ht'. change (e' ∈ eventos s) in He'.
      assert (He0 : e' ∈ eventos s0) by (rewrite Hev; by right).
      pose proof (Hotros _ He' Ht') as Hne.
      destruct (inv_eventos _ HI e' He0 Ht') as [Hj' _].
      destruct (sinv_evento _ HS e' He0 Ht') as (d & Hd & Hkd).
      exists d. split; [|done]. simpl. rewrite Hcl.
      rewrite list_lookup_insert_ne by lia. done.
    - intros n est' j' Hn Hj'. rewrite Hest in Hn.
      assert (∃ est0, estaciones s0 !! n = Some est0 ∧
                      j' ∈ Estacion.colaEspera est0) as (est0 & Hn0 & Hj0).
      { destruct (decide (n = Z.to_nat kE)) as [->|Hne].
        - rewrite list_lookup_insert_eq in Hn by (by apply lookup_lt_Some in HkE).
          injection Hn as <-. rewrite finalizarServicio_cola in Hj'.
          by exists (estacion kE s).
        - rewrite list_lookup_insert_ne in Hn by done. by exists est'. }
      assert (Hne : j' ≠ j) by (intros ->; by apply (Hcolas _ _ Hn0)).
      pose proof (inv_colas _ HI _ _ _ Hn0 Hj0) as Hj'r.
      destruct (sinv_cola _ HS _ _ _ Hn0 Hj0) as (d & Hd & Hkd).
      exists d. split; [|done]. simpl. rewrite Hcl.
      rewrite list_lookup_insert_ne by lia. done.
    - intros i d Hi. rewrite Hcl in Hi.
      destruct (decide (i = Z.to_nat j)) as [->|Hne].
      + rewrite list_lookup_insert_eq in Hi by (by apply lookup_lt_Some in Hc0).
        injection Hi as <-. rewrite Hc. simpl. apply (sinv_ruta _ HS _ _ Hc0).
      + rewrite list_lookup_insert_ne in Hi by done.
        apply (sinv_ruta _ HS _ _ Hi). }
  assert (Hc1 : clientes s1 !! Z.to_nat j = Some c).
  { simpl. rewrite Hcl. apply list_lookup_insert_eq.
    by apply lookup_lt_Some in Hc0. }
  unfold avanzar. rewrite <- Ej, <- EkE. fold c s1.
  destruct (siguiente_de e s) as [sig|] eqn:Hsig.
  - assert (He0 : e ∈ eventos s0) by (rewrite Hev; left).
    pose proof (siguiente_de_rango _ _ _ _ HI He0 Hcl Ht Hsig) as Hsr.
    set (c2 := Cliente.con_tiempoEntradaCola (tiempoActual s) c).
    set (s2 := con_cliente j c2 s1).
    assert (HS2 : SInv s2).
    { apply (SInv_ext s1); simpl; try done.
      rewrite <- (list_insert_id (<[Z.to_nat j:=c]> (clientes s)) (Z.to_nat j) c) at 1
        by exact Hc1.
      apply Forall2_insert; [apply mismo_lugar_refl | done]. }
    apply agregar_SInv; [lia | | | done].
    + apply estacion_en_rango. simpl. rewrite length_insert, Hest.
      rewrite (inv_estaciones _ HI). lia.
    + exists c2. split.
      * simpl. rewrite <- Ej, Hcj, Hid.
        apply list_lookup_insert_eq. rewrite length_insert, Hcl.
        by apply lookup_lt_Some in Hc0.
      * unfold siguiente_de in Hsig. fold c in Hsig.
        destruct (en_ruta c) eqn:Hrc; [|done]. injection Hsig as <-.
        simpl. apply list_lookup_lookup_total_lt.
        unfold en_ruta in Hrc. apply Z.ltb_lt in Hrc.
        rewrite Hc in *. simpl in *. rewrite <- Ej, Hcj. lia.
  - apply (SInv_ext s1); simpl; try done. apply mismo_lugar_refl.
Qed.

Lemma procesarFinServicio_SInv s :
  pq_empty (colaEventos s) = false →
  Evento.tipo (pq_top (colaEventos s)) = FIN_SERVICIO →
  Inv s → SInv s →
  SInv (procesarFinServicio (pq_top (colaEventos s)) (extraido s)).
Proof.
  intros Hne Ht HI HS. pose proof (eventos_extraido _ Hne) as Hev.
  set (e := pq_top (colaEventos s)) in *.
  assert (Hein : e ∈ eventos s) by (rewrite Hev; left).
  destruct (inv_eventos _ HI _ Hein Ht) as [_ Hkd].
  rewrite procesarFinServicio_eq. cbv zeta.
  pose proof (avanzar_Inv s (extraido s) e HI Hev eq_refl eq_refl eq_refl eq_refl Ht)
    as Ha.
  pose proof (avanzar_SInv s (extraido s) e HI HS Hev eq_refl eq_refl Ht) as HSa.
  set (sb := match siguiente_de e (extraido s) with
             | Some k => _ | None => _ end).
  assert (Hb : Inv sb ∧ SInv sb).
  { unfold sb. destruct (siguiente_de e (extraido s)) as [k|] eqn:Hk; [|done].
    pose proof (siguiente_de_rango s (extraido s) e k HI Hein eq_refl Ht Hk).
    destruct (Estacion.hayServidorDisponible _); [|done].
    split; [by apply iniciarServicio_Inv | by apply iniciarServicio_SInv]. }
  destruct Hb as [Hb HSb].
  destruct (_ && _); [|done]. by apply iniciarServicio_SInv.
Qed.

Lemma extraido_SInv s :
  pq_empty (colaEventos s) = false →
  Evento.tipo (pq_top (colaEventos s)) = LLEGADA →
  SInv s → SInv (extraido s).
Proof.
  intros Hne Ht HS. pose proof (eventos_extraido _ Hne) as Hev.
  apply (SInv_ext s); try done.
  - intros k. rewrite (cuenta_perm _ _ _ Hev), cuenta_cons.
    unfold es_fin_en at 2. by rewrite Ht.
  - intros e He _. rewrite Hev. by right.
  - apply mismo_lugar_refl.
Qed.

Lemma paso_SInv s s' : Inv s → SInv s → paso s = Some s' → SInv s'.
Proof.
  intros HI HS. rewrite paso_eq.
  destruct (pq_empty (colaEventos s)) eqn:Hne; [done|]. intros [= <-].
  destruct (Evento.tipo (pq_top (colaEventos s))) eqn:Ht.
  - pose proof (extraido_Inv _ Hne Ht HI).
    pose proof (extraido_SInv _ Hne Ht HS).
    destruct (menor _ _); [|done]. by apply procesarLlegada_SInv.
  - by apply procesarFinServicio_SInv.
Qed.

Lemma inicializar_SInv config sp s0 : inicializar config sp = Some s0 → SInv s0.
Proof.
  intros Hini.
  destruct (eventos_inicializar _ _ _ Hini) as (t & Hev & _).
  destruct (inicializar_clientes _ _ _ Hini) as (Hcl & _).
  destruct (inicializar_Some _ _ _ Hini)
    as (x0 & x1 & x2 & x3 & x4 & t' & g & H0 & H1 & H2 & H3 & H4 & _ & Hs).
  assert (Hids : ∀ k est, estaciones s0 !! k = Some est → Estacion.id est = Z.of_nat k).
  { apply Estacion_nueva_Some in H0 as [_ ->], H1 as [_ ->], H2 as [_ ->],
      H3 as [_ ->], H4 as [_ ->].
    rewrite Hs. simpl. intros [|[|[|[|[|k]]]]] est; simpl; try done;
      by intros [= <-]. }
  split.
  - intros k est Hk.
    destruct (inicializar_estaciones _ _ _ _ _ Hini Hk) as (_ & _ & _ & Hn & ->).
    rewrite length_replicate. auto.
  - intros k est Hk.
    destruct (inicializar_estaciones _ _ _ _ _ Hini Hk) as (_ & _ & _ & Hn & ->).
    rewrite Hev, cuenta_cons, cuenta_nil. simpl.
    induction (Z.to_nat (Estacion.numServidores est)) as [|n IH]; simpl; [done|].
    lia.
  - intros e He Ht. rewrite Hev in He. apply list_elem_of_singleton in He.
    by subst.
  - intros k est j Hk Hj.
    destruct (inicializar_estaciones _ _ _ _ _ Hini Hk) as (_ & _ & Hq & _).
    rewrite Hq in Hj. by apply elem_of_nil in Hj.
  - intros i c Hi. by rewrite Hcl in Hi.
Qed.

Lemma Corrida_SInv s0 tr s : Inv s0 → SInv s0 → Corrida s0 tr s → SInv s.
Proof.
  intros HI HS Hc. induction Hc as [|tr s s' Hc IH Hp]; [done|].
  apply (paso_SInv s s'); [by eapply Corrida_Inv | done | done].
Qed.

End Servicio.

(** ** No customer waits while a server is free *)

Lemma StronglySorted_indices {A} (R : relation A) (l : list A) i j x y :
  StronglySorted R l → l !! i = Some x → l !! j = Some y → i < j → R x y.
Proof.
  intros H. revert i j. induction H as [|z l Hs IH Hz]; intros i j; [done|].
  destruct i as [|i], j as [|j]; simpl; try lia.
  - intros [= <-] Hy _. rewrite Forall_forall in Hz. apply Hz.
    by apply list_elem_of_lookup_2 in Hy.
  - intros Hx Hy Hij. apply (IH i j); [done | done | lia].
Qed.

Section Conservacion.
Context `{Di : Distribuciones} `{Cp : !ColaPrioridad}.
Context {HCp : ColaPrioridadOk}.

Implicit Types (s : SimulacionColas) (e : Evento.t) (c : Cliente.t).

Lemma hay_libre (est : Estacion.t) :
  Estacion.hayServidorDisponible est = false
  ↔ servidoresOcupados (Estacion.servidorOcupado est)
    = Z.of_nat (length (Estacion.servidorOcupado est)).
Proof.
  rewrite <- primer_indice_libre. unfold Estacion.hayServidorDisponible.
  by destruct (primer_indice false _).
Qed.

Lemma Conserva_ext ks s s' :
  estaciones s' = estaciones s → Conserva ks s → Conserva ks s'.
Proof. intros He H k est Hk. rewrite He in Hk. by apply H. Qed.

Lemma programar_estaciones s : estaciones (programar s) = estaciones s.
Proof.
  unfold programar. destruct (GeneradorAleatorio.tiempoEntreLlegadas _ _).
  simpl. by destruct (menor _ _).
Qed.

(** [iniciarServicio] at a station that has at most one customer waiting,
    or at most one free server, leaves no customer waiting before a free
    server there. *)
Lemma iniciarServicio_restaura k ks s (b : bool) :
  Inv s → (0 ≤ k < 5)%Z → Conserva (k :: ks) s →
  (b = false → Estacion.colaEspera (estacion k s) = [] ∨
               Estacion.hayServidorDisponible (estacion k s) = false) →
  (b = true →
   length (Estacion.colaEspera (estacion k s)) ≤ 1 ∨
   (servidoresOcupados (Estacion.servidorOcupado (estacion k s)) + 1
    = Z.of_nat (length (Estacion.servidorOcupado (estacion k s))))%Z) →
  Conserva ks (if b then iniciarServicio k s else s).
Proof.
  intros HI Hk HC Hf Ht.
  assert (Hquieto : (Estacion.colaEspera (estacion k s) = [] ∨
                     Estacion.hayServidorDisponible (estacion k s) = false) →
                    Conserva ks s).
  { intros Hq n est Hn Hnk Hne.
    destruct (decide (Z.of_nat n = k)) as [<-|Hd].
    - rewrite (estacion_lookup (Z.of_nat n) s est) in Hq
        by (by rewrite Nat2Z.id).
      by destruct Hq.
    - apply (HC _ _ Hn); [|done]. intros Hin.
      apply elem_of_cons in Hin as [?|?]; done. }
  destruct b; [|by apply Hquieto, Hf].
  destruct (iniciarServicio_forma k s HI Hk)
    as [[-> Hq] | (est & j & resto & i & c & c' & t & Hest & Hq & Hi & Hj & Hc
                   & He & _)]; [by apply Hquieto|].
  rewrite (estacion_lookup _ _ _ Hest) in Ht.
  intros n est' Hn Hnk Hne. rewrite He in Hn.
  destruct (decide (n = Z.to_nat k)) as [->|Hd].
  - rewrite list_lookup_insert_eq in Hn by (by apply lookup_lt_Some in Hest).
    injection Hn as <-. simpl in Hne. apply hay_libre. simpl.
    rewrite length_insert, (servidoresOcupados_insert _ _ true)
      by (by apply primer_indice_rango in Hi).
    destruct (Ht eq_refl) as [Hl | Hl]; [|lia].
    rewrite Hq in Hl. simpl in Hl. destruct resto; [done | simpl in Hl; lia].
  - rewrite list_lookup_insert_ne in Hn by done.
    apply (HC _ _ Hn); [|done]. intros Hin.
    apply elem_of_cons in Hin as [?|?]; [lia | done].
Qed.

Lemma llegar_estaciones s :
  estaciones (llegar s)
  = <[Z.to_nat CAJAS :=
        Estacion.agregarCliente (Cliente.id (fst (cliente_nuevo s)))
          (tiempoActual s) (estacion CAJAS s)]> (estaciones s).
Proof. unfold llegar. by destruct (cliente_nuevo s). Qed.

Lemma procesarLlegada_Conserva s :
  Inv s → Conserva [] s → Conserva [] (procesarLlegada s).
Proof.
  intros HI HC. rewrite procesarLlegada_eq.
  apply (Conserva_ext _ _ _ (programar_estaciones _)).
  pose proof (llegar_Inv _ HI) as HIl.
  assert (H0 : estaciones s !! Z.to_nat CAJAS = Some (estacion CAJAS s)).
  { apply estacion_en_rango. rewrite (inv_estaciones _ HI). unfold CAJAS. simpl. lia. }
  assert (Hl : estacion CAJAS (llegar s)
               = Estacion.agregarCliente (Cliente.id (fst (cliente_nuevo s)))
                   (tiempoActual s) (estacion CAJAS s)).
  { apply estacion_lookup. rewrite llegar_estaciones.
    apply list_lookup_insert_eq. by apply lookup_lt_Some in H0. }
  apply iniciarServicio_restaura; [done | unfold CAJAS; lia | | by right |].
  - intros n est Hn Hnk. rewrite llegar_estaciones in Hn.
    rewrite list_lookup_insert_ne in Hn.
    + apply (HC _ _ Hn). apply not_elem_of_nil.
    + intros <-. apply Hnk. left.
  - intros Hb. left. rewrite Hl in *. simpl.
    destruct (Estacion.colaEspera (estacion CAJAS s)) eqn:Hq; [simpl; lia|].
    assert (Estacion.hayServidorDisponible (estacion CAJAS s) = false).
    { apply (HC _ _ H0); [apply not_elem_of_nil | by rewrite Hq]. }
    unfold Estacion.hayServidorDisponible in *. simpl in Hb. congruence.
Qed.

Lemma avanzar_estaciones e s :
  estaciones (avanzar e s) =
  let est1 := <[Z.to_nat (Evento.idEstacion e) :=
                  Estacion.finalizarServicio (tiempoActual s)
                    (estacion (Evento.idEstacion e) s)]> (estaciones s) in
  match siguiente_de e s with
  | Some sig =>
      <[Z.to_nat sig :=
          Estacion.agregarCliente (Cliente.id (cliente_avanzado e s))
            (tiempoActual s) (est1 !!! Z.to_nat sig)]> est1
  | None => est1
  end.
Proof. unfold avanzar. by destruct (siguiente_de e s). Qed.

Lemma iniciarServicio_otras k s n :
  n ≠ Z.to_nat k → estaciones (iniciarServicio k s) !! n = estaciones s !! n.
Proof.
  intros Hn. unfold iniciarServicio.
  destruct (Estacion.iniciarServicio _ _) as [j est].
  destruct (j <? 0)%Z; [|destruct (getTiempoServicio _ _)]; simpl;
    by rewrite list_lookup_insert_ne.
Qed.

Lemma estaVacia_false (est : Estacion.t) b :
  negb (Estacion.estaVacia est) && b = false →
  Estacion.colaEspera est = [] ∨ b = false.
Proof.
  unfold Estacion.estaVacia. destruct (Estacion.colaEspera est); [by left|].
  simpl. by right.
Qed.

Lemma procesarFinServicio_Conserva s :
  pq_empty (colaEventos s) = false →
  Evento.tipo (pq_top (colaEventos s)) = FIN_SERVICIO →
  Inv s → SInv s → Conserva [] s →
  Conserva [] (procesarFinServicio (pq_top (colaEventos s)) (extraido s)).
Proof.
  intros Hne Ht HI HS HC. pose proof (eventos_extraido _ Hne) as Hev.
  remember (pq_top (colaEventos s)) as e eqn:Ee.
  assert (Hein : e ∈ eventos s) by (rewrite Hev; left).
  destruct (evento_fin_unico _ _ _ HI HS Hev Ht)
    as (c0 & Hj & Hk & Hc0 & Hid & Hl & Hix & Hr & _ & _).
  remember (Evento.idEstacion e) as kE eqn:EkE.
  pose proof (avanzar_Inv s (extraido s) e HI Hev eq_refl eq_refl eq_refl eq_refl Ht)
    as HIa.
  assert (HkE : estaciones s !! Z.to_nat kE = Some (estacion kE s)).
  { apply estacion_en_rango. rewrite (inv_estaciones _ HI). lia. }
  set (fin := Estacion.finalizarServicio (tiempoActual (extraido s)) (estacion kE s)).
  (* the station that released a server, before it is looked at again *)
  assert (Hfin : length (Estacion.colaEspera fin) ≤ 1 ∨
                 (servidoresOcupados (Estacion.servidorOcupado fin) + 1
                  = Z.of_nat (length (Estacion.servidorOcupado fin)))%Z).
  { unfold fin. rewrite finalizarServicio_cola.
    destruct (Estacion.colaEspera (estacion kE s)) eqn:Hq; [left; simpl; lia|].
    right.
    assert (Hh : Estacion.hayServidorDisponible (estacion kE s) = false).
    { apply (HC _ _ HkE); [apply not_elem_of_nil | by rewrite Hq]. }
    apply hay_libre in Hh.
    destruct (finalizarServicio_forma (tiempoActual (extraido s)) (estacion kE s))
      as (_ & _ & ->).
    assert (Hb : (0 < servidoresOcupados
                         (Estacion.servidorOcupado (estacion kE s)))%Z).
    { rewrite (sinv_ocupados _ HS _ _ HkE), (cuenta_perm _ _ _ Hev).
      rewrite (cuenta_fin_en_cons _ _ _ Ht), <- EkE.
      destruct (Z.eqb_spec kE (Z.of_nat (Z.to_nat kE))); lia. }
    destruct (finalizarServicio_ocupados (tiempoActual (extraido s)) _ Hb)
      as [-> _]. lia. }
  rewrite procesarFinServicio_eq. cbv zeta. rewrite <- EkE.
  set (sa := avanzar e (extraido s)) in *.
  set (sb := match siguiente_de e (extraido s) with
             | Some k => _ | None => _ end).
  assert (Hb : Inv sb ∧ Conserva [kE] sb ∧ estacion kE sb = fin).
  { pose proof (avanzar_estaciones e (extraido s)) as Hea.
    rewrite <- EkE in Hea. cbv zeta in Hea. fold sa fin in Hea.
    change (estaciones (extraido s)) with (estaciones s) in Hea.
    unfold sb. destruct (siguiente_de e (extraido s)) as [sig|] eqn:Hsig.
    - pose proof (siguiente_de_rango s (extraido s) e sig HI Hein eq_refl Ht Hsig)
        as Hsr.
      assert (Hne' : Z.to_nat sig ≠ Z.to_nat kE).
      { assert (kE < sig)%Z; [|lia].
        unfold siguiente_de in Hsig. unfold cliente_avanzado in Hsig.
        assert (Hcj : cliente (Evento.idCliente e) (extraido s) = c0).
        { unfold cliente. simpl. by apply list_lookup_total_correct. }
        rewrite Hcj in Hsig. unfold en_ruta in Hsig. simpl in Hsig.
        destruct (_ <? _)%Z eqn:Hlt; [|done]. injection Hsig as <-.
        apply Z.ltb_lt in Hlt.
        apply (StronglySorted_indices Z.lt (Cliente.estaciones c0)
                 (Z.to_nat (Cliente.indiceEstacionActual c0))
                 (Z.to_nat (Cliente.indiceEstacionActual c0 + 1)));
          [by apply (sinv_ruta _ HS _ _ Hc0) | done | | lia].
        apply list_lookup_lookup_total_lt. lia. }
      assert (Hsg : estaciones s !! Z.to_nat sig = Some (estacion sig s)).
      { apply estacion_en_rango. rewrite (inv_estaciones _ HI). lia. }
      rewrite list_lookup_total_insert_ne in Hea by done.
      fold (estacion sig s) in Hea.
      assert (Hsa : estacion sig sa
                    = Estacion.agregarCliente
                        (Cliente.id (cliente_avanzado e (extraido s)))
                        (tiempoActual (extraido s)) (estacion sig s)).
      { apply estacion_lookup. rewrite Hea. apply list_lookup_insert_eq.
        rewrite length_insert. by apply lookup_lt_Some in Hsg. }
      assert (HCa : Conserva [sig; kE] sa).
      { intros n est Hn Hnk Hq. rewrite Hea in Hn.
        rewrite !list_lookup_insert_ne in Hn.
        - apply (HC _ _ Hn); [apply not_elem_of_nil | done].
        - intros <-. apply Hnk. rewrite Z2Nat.id by lia. right. left.
        - intros <-. apply Hnk. rewrite Z2Nat.id by lia. left. }
      assert (HkEa : estaciones sa !! Z.to_nat kE = Some fin).
      { rewrite Hea. rewrite list_lookup_insert_ne by done.
        apply list_lookup_insert_eq. by apply lookup_lt_Some in HkE. }
      split; [|split].
      + destruct (Estacion.hayServidorDisponible _); [|done].
        by apply iniciarServicio_Inv.
      + apply iniciarServicio_restaura; [done | done | done | by right |].
        intros Hb. left. rewrite Hsa in *. simpl.
        destruct (Estacion.colaEspera (estacion sig s)) eqn:Hq; [simpl; lia|].
        assert (Estacion.hayServidorDisponible (estacion sig s) = false).
        { apply (HC _ _ Hsg); [apply not_elem_of_nil | by rewrite Hq]. }
        unfold Estacion.hayServidorDisponible in *. simpl in Hb. congruence.
      + apply estacion_lookup.
        destruct (Estacion.hayServidorDisponible _); [|done].
        rewrite iniciarServicio_otras by done. done.
    - split; [done|]. split.
      + intros n est Hn Hnk Hq. rewrite Hea in Hn.
        rewrite list_lookup_insert_ne in Hn.
        * apply (HC _ _ Hn); [apply not_elem_of_nil | done].
        * intros <-. apply Hnk. rewrite Z2Nat.id by lia. left.
      + apply estacion_lookup. rewrite Hea. apply list_lookup_insert_eq.
        by apply lookup_lt_Some in HkE. }
  destruct Hb as (HIb & HCb & Hfb).
  apply iniciarServicio_restaura; [done | done | done | |].
  - intros Hf. apply estaVacia_false in Hf. done.
  - intros _. by rewrite Hfb.
Qed.

Lemma paso_Conserva s s' :
  Inv s → SInv s → Conserva [] s → paso s = Some s' → Conserva [] s'.
Proof.
  intros HI HS HC. rewrite paso_eq.
  destruct (pq_empty (colaEventos s)) eqn:Hne; [done|]. intros [= <-].
  destruct (Evento.tipo (pq_top (colaEventos s))) eqn:Ht.
  - pose proof (extraido_Inv _ Hne Ht HI).
    destruct (menor _ _); [|done]. by apply procesarLlegada_Conserva.
  - by apply procesarFinServicio_Conserva.
Qed.

Lemma inicializar_Conserva config sp s0 :
  inicializar config sp = Some s0 → Conserva [] s0.
Proof.
  intros Hini k est Hk _ Hq.
  destruct (inicializar_estaciones _ _ _ _ _ Hini Hk) as (_ & _ & Hq0 & _).
  done.
Qed.

Lemma Corrida_Conserva s0 tr s :
  Inv s0 → SInv s0 → Conserva [] s0 → Corrida s0 tr s → Conserva [] s.
Proof.
  intros HI HS HC Hc. induction Hc as [|tr s s' Hc IH Hp]; [done|].
  apply (paso_Conserva s s');
    [by eapply Corrida_Inv | by eapply Corrida_SInv | done | done].
Qed.

End Conservacion.

(** ** Customers served *)

Section Atendidos.
Context `{Di : Distribuciones} `{Cp : !ColaPrioridad}.
Context {HCp : ColaPrioridadOk}.

Implicit Types (s : SimulacionColas) (e : Evento.t) (c : Cliente.t).

Lemma sirvio_refl k l : sirvio k 0 l l.
Proof. intros n est Hn. exists est. split; [done|]. split; [done|].
       destruct (_ =? _)%Z; lia. Qed.

Lemma sirvio_trans k d l1 l2 l3 :
  sirvio k d l1 l2 → sirvio k 0 l2 l3 → sirvio k d l1 l3.
Proof.
  intros H1 H2 n est3 H3. destruct (H2 _ _ H3) as (est2 & Hn2 & Hs2 & Ht2).
  destruct (H1 _ _ Hn2) as (est1 & Hn1 & Hs1 & Ht1).
  exists est1. split; [done|]. split; [congruence|].
  destruct (_ =? _)%Z; lia.
Qed.

Lemma sirvio_insert k l i (est est' : Estacion.t) :
  l !! i = Some est →
  Estacion.numServidores est' = Estacion.numServidores est →
  Estacion.totalAtendidos est' = Estacion.totalAtendidos est →
  sirvio k 0 l (<[i:=est']> l).
Proof.
  intros Hi Hs Ht n x Hn. destruct (decide (n = i)) as [->|Hne].
  - rewrite list_lookup_insert_eq in Hn by (by apply lookup_lt_Some in Hi).
    injection Hn as <-. exists est. split; [done|]. split; [done|].
    destruct (_ =? _)%Z; lia.
  - rewrite list_lookup_insert_ne in Hn by done. by apply sirvio_refl.
Qed.

Lemma insert_fuera {A} (l : list A) i x : l !! i = None → <[i:=x]> l = l.
Proof. intros H. apply list_insert_ge. by apply lookup_ge_None. Qed.

Lemma iniciarServicio_sirvio k0 k s :
  sirvio k0 0 (estaciones s) (estaciones (iniciarServicio k s)).
Proof.
  assert (He : estaciones (iniciarServicio k s)
               = <[Z.to_nat k := snd (Estacion.iniciarServicio (tiempoActual s)
                                        (estacion k s))]> (estaciones s)).
  { unfold iniciarServicio. destruct (Estacion.iniciarServicio _ _) as [j est].
    destruct (j <? 0)%Z; [|destruct (getTiempoServicio _ _)]; done. }
  rewrite He. destruct (estaciones s !! Z.to_nat k) as [est|] eqn:Hk.
  - rewrite (estacion_lookup _ _ _ Hk).
    apply (sirvio_insert _ _ _ est); [done | |];
      unfold Estacion.iniciarServicio;
      destruct (Estacion.colaEspera est); try done;
      destruct (primer_indice false _); done.
  - rewrite insert_fuera by done. apply sirvio_refl.
Qed.

Lemma procesarLlegada_sirvio k0 s :
  sirvio k0 0 (estaciones s) (estaciones (procesarLlegada s)).
Proof.
  rewrite procesarLlegada_eq, programar_estaciones.
  assert (Hl : sirvio k0 0 (estaciones s) (estaciones (llegar s))).
  { rewrite llegar_estaciones.
    destruct (estaciones s !! Z.to_nat CAJAS) as [est|] eqn:Hk.
    - rewrite (estacion_lookup _ _ _ Hk). by apply (sirvio_insert _ _ _ est).
    - rewrite insert_fuera by done. apply sirvio_refl. }
  destruct (Estacion.hayServidorDisponible _); [|done].
  eapply sirvio_trans; [exact Hl | apply iniciarServicio_sirvio].
Qed.

Lemma procesarFinServicio_sirvio s :
  pq_empty (colaEventos s) = false →
  Evento.tipo (pq_top (colaEventos s)) = FIN_SERVICIO →
  Inv s → SInv s →
  sirvio (Evento.idEstacion (pq_top (colaEventos s))) 1 (estaciones s)
    (estaciones (procesarFinServicio (pq_top (colaEventos s)) (extraido s))).
Proof.
  intros Hne Ht HI HS. pose proof (eventos_extraido _ Hne) as Hev.
  remember (pq_top (colaEventos s)) as e eqn:Ee.
  assert (Hein : e ∈ eventos s) by (rewrite Hev; left).
  destruct (inv_eventos _ HI _ Hein Ht) as [_ Hk].
  remember (Evento.idEstacion e) as kE eqn:EkE.
  assert (HkE : estaciones s !! Z.to_nat kE = Some (estacion kE s)).
  { apply estacion_en_rango. rewrite (inv_estaciones _ HI). lia. }
  assert (Hb : (0 < servidoresOcupados
                       (Estacion.servidorOcupado (estacion kE s)))%Z).
  { rewrite (sinv_ocupados _ HS _ _ HkE), (cuenta_perm _ _ _ Hev).
    rewrite (cuenta_fin_en_cons _ _ _ Ht), <- EkE.
    destruct (Z.eqb_spec kE (Z.of_nat (Z.to_nat kE))); lia. }
  set (fin := Estacion.finalizarServicio (tiempoActual (extraido s)) (estacion kE s)).
  assert (H1 : sirvio kE 1 (estaciones s)
                 (<[Z.to_nat kE := fin]> (estaciones s))).
  { intros n x Hn. destruct (decide (n = Z.to_nat kE)) as [->|Hd].
    - rewrite list_lookup_insert_eq in Hn by (by apply lookup_lt_Some in HkE).
      injection Hn as <-. exists (estacion kE s). split; [done|].
      destruct (finalizarServicio_forma (tiempoActual (extraido s)) (estacion kE s))
        as (_ & Hs & _).
      destruct (finalizarServicio_ocupados (tiempoActual (extraido s)) _ Hb)
        as [_ Hta].
      split; [done|]. fold fin in Hta. rewrite Hta.
      destruct (Z.eqb_spec (Z.of_nat (Z.to_nat kE)) kE); lia.
    - rewrite list_lookup_insert_ne in Hn by done. exists x.
      split; [done|]. split; [done|].
      destruct (Z.eqb_spec (Z.of_nat n) kE); lia. }
  assert (Ha : sirvio kE 1 (estaciones s) (estaciones (avanzar e (extraido s)))).
  { rewrite avanzar_estaciones. rewrite <- EkE. cbv zeta. fold fin.
    change (estaciones (extraido s)) with (estaciones s).
    destruct (siguiente_de e (extraido s)) as [sig|]; [|done].
    eapply sirvio_trans; [exact H1|].
    destruct (<[Z.to_nat kE:=fin]> (estaciones s) !! Z.to_nat sig) as [x|] eqn:Hx.
    - rewrite (list_lookup_total_correct _ _ _ Hx).
      by apply (sirvio_insert _ _ _ x).
    - rewrite (insert_fuera _ (Z.to_nat sig)) by done. apply sirvio_refl. }
  rewrite procesarFinServicio_eq. cbv zeta.
  set (sb := match siguiente_de e (extraido s) with
             | Some k => _ | None => _ end).
  assert (Hsb : sirvio kE 1 (estaciones s) (estaciones sb)).
  { unfold sb. destruct (siguiente_de e (extraido s)); [|done].
    destruct (Estacion.hayServidorDisponible _); [|done].
    eapply sirvio_trans; [exact Ha | apply iniciarServicio_sirvio]. }
  destruct (_ && _); [|done].
  eapply sirvio_trans; [exact Hsb | apply iniciarServicio_sirvio].
Qed.

(** An iteration of the loop adds one to the customers served by the
    station of the event when it is the end of a service, and changes no
    other count and no number of servers. *)
Lemma paso_sirvio s s' n est' :
  Inv s → SInv s → paso s = Some s' → estaciones s' !! n = Some est' →
  ∃ est, estaciones s !! n = Some est ∧
         Estacion.numServidores est' = Estacion.numServidores est ∧
         Estacion.totalAtendidos est'
         = (Estacion.totalAtendidos est
            + if es_fin_en (Z.of_nat n) (pq_top (colaEventos s)) then 1 else 0)%Z.
Proof.
  intros HI HS. rewrite paso_eq.
  destruct (pq_empty (colaEventos s)) eqn:Hne; [done|]. intros [= <-].
  unfold es_fin_en.
  destruct (Evento.tipo (pq_top (colaEventos s))) eqn:Ht; simpl.
  - intros Hn.
    assert (H : sirvio 0 0 (estaciones s)
                  (estaciones (if menor (tiempoActual (extraido s))
                                        (duracionSimulacion s)
                               then procesarLlegada (extraido s) else extraido s))).
    { destruct (menor _ _); [|apply sirvio_refl].
      apply (procesarLlegada_sirvio 0 (extraido s)). }
    destruct (H _ _ Hn) as (est & He & Hs & Hta). exists est.
    split; [done|]. split; [done|]. destruct (_ =? _)%Z; lia.
  - intros Hn.
    destruct (procesarFinServicio_sirvio s Hne Ht HI HS _ _ Hn)
      as (est & He & Hs & Hta).
    exists est. split; [done|]. split; [done|].
    rewrite Hta, (Z.eqb_sym (Z.of_nat n)). done.
Qed.

Lemma Corrida_sirvio s0 tr s n est :
  Inv s0 → SInv s0 → Corrida s0 tr s → estaciones s !! n = Some est →
  ∃ est0, estaciones s0 !! n = Some est0 ∧
          Estacion.numServidores est = Estacion.numServidores est0 ∧
          Estacion.totalAtendidos est
          = (Estacion.totalAtendidos est0
             + Z.of_nat (cuenta (es_fin_en (Z.of_nat n)) tr))%Z.
Proof.
  intros HI HS Hc. revert est.
  induction Hc as [|tr s s' Hc IH Hp]; intros est Hn.
  - exists est. split; [done|]. split; [done|]. rewrite cuenta_nil. lia.
  - destruct (paso_sirvio s s' n est (Corrida_Inv _ _ _ HI Hc)
                (Corrida_SInv _ _ _ HI HS Hc) Hp Hn) as (est1 & H1 & Hs1 & Ht1).
    destruct (IH _ H1) as (est0 & H0 & Hs0 & Ht0).
    exists est0. split; [done|]. split; [congruence|].
    rewrite cuenta_app, cuenta_cons, cuenta_nil.
    destruct (es_fin_en _ _); lia.
Qed.

End Atendidos.

(** ** Counting by key *)

Section Conteo.

Context {A : Type}.

Lemma sum_list_with_suma (f g : nat → nat) (l : list nat) :
  sum_list_with (λ i, f i + g i) l = sum_list_with f l + sum_list_with g l.
Proof. induction l as [|x l IH]; simpl; lia. Qed.

Lemma sum_list_with_uno (z : Z) (n : nat) :
  (0 ≤ z < Z.of_nat n)%Z →
  sum_list_with (λ i, if (z =? Z.of_nat i)%Z then 1 else 0) (seq 0 n) = 1.
Proof.
  induction n as [|n IH]; intros Hz; [lia|].
  rewrite seq_S, sum_list_with_app. simpl.
  destruct (Z.eqb_spec z (Z.of_nat n)) as [->|Hne].
  - assert (sum_list_with (λ i, if (Z.of_nat n =? Z.of_nat i)%Z then 1 else 0)
              (seq 0 n) = 0); [|lia].
    clear. assert (H : ∀ m, m ≤ n →
      sum_list_with (λ i, if (Z.of_nat n =? Z.of_nat i)%Z then 1 else 0)
        (seq 0 m) = 0); [|by apply H].
    induction m as [|m IHm]; intros Hm; [done|].
    rewrite seq_S, sum_list_with_app, IHm by lia. simpl.
    destruct (Z.eqb_spec (Z.of_nat n) (Z.of_nat m)); lia.
  - rewrite IH by lia. lia.
Qed.

(** A list whose elements have keys below [n] is as long as the counts of
    its elements per key add up to. *)
Lemma length_por_clave (f : A → Z) (l : list A) (n : nat) :
  (∀ x, x ∈ l → (0 ≤ f x < Z.of_nat n)%Z) →
  length l
  = sum_list_with (λ i, cuenta (λ x, (f x =? Z.of_nat i)%Z) l) (seq 0 n).
Proof.
  induction l as [|x l IH]; intros H.
  - simpl. induction (seq 0 n) as [|i r IHr]; [done|]. simpl.
    by rewrite <- IHr.
  - change (sum_list_with (λ i, cuenta (λ y, (f y =? Z.of_nat i)%Z) (x :: l)) (seq 0 n))
      with (sum_list_with
              (λ i, (if (f x =? Z.of_nat i)%Z then 1 else 0)
                    + cuenta (λ y, (f y =? Z.of_nat i)%Z) l) (seq 0 n)).
    rewrite sum_list_with_suma, sum_list_with_uno by (apply H; left).
    rewrite <- IH by (intros y Hy; apply H; by right). done.
Qed.

Lemma sum_list_with_const (g : nat → nat) (l : list nat) c :
  (∀ i, i ∈ l → g i = c) → sum_list_with g l = c * length l.
Proof.
  induction l as [|x l IH]; intros H; simpl; [lia|].
  rewrite IH by (intros i Hi; apply H; by right).
  rewrite (H x) by left. lia.
Qed.

End Conteo.

(** ** Runs that drain, and runs without cashiers *)

Section Drenado.
Context `{Di : Distribuciones} `{Cp : !ColaPrioridad}.
Context {HCp : ColaPrioridadOk}.

Implicit Types (s : SimulacionColas) (e : Evento.t) (c : Cliente.t).

(** With the event queue empty and a server at every station, nobody is
    left in the restaurant. *)
Lemma drenado_completo s :
  Inv s → SInv s → Conserva [] s → eventos s = [] →
  (∀ k est, estaciones s !! k = Some est → (1 ≤ Estacion.numServidores est)%Z) →
  (∀ k est, estaciones s !! k = Some est →
     Estacion.colaEspera est = [] ∧ servidoresOcupados (Estacion.servidorOcupado est) = 0%Z) ∧
  (∀ i c, clientes s !! i = Some c →
     en_ruta c = false ∧ c ∈ clientesCompletados s) ∧
  length (clientesCompletados s) = length (clientes s).
Proof.
  intros HI HS HC Hev Hn.
  assert (Hest : ∀ k est, estaciones s !! k = Some est →
            Estacion.colaEspera est = [] ∧
            servidoresOcupados (Estacion.servidorOcupado est) = 0%Z).
  { intros k est Hk.
    pose proof (sinv_ocupados _ HS _ _ Hk) as Hb. rewrite Hev, cuenta_nil in Hb.
    split; [|done].
    destruct (Estacion.colaEspera est) eqn:Hq; [done|].
    assert (Hh : Estacion.hayServidorDisponible est = false).
    { apply (HC _ _ Hk); [apply not_elem_of_nil | by rewrite Hq]. }
    apply hay_libre in Hh.
    destruct (sinv_forma _ HS _ _ Hk) as (_ & _ & Hl).
    specialize (Hn _ _ Hk). lia. }
  assert (Hcli : ∀ i c, clientes s !! i = Some c → en_ruta c = false).
  { intros i c Hi. pose proof (inv_pendiente _ HI _ _ Hi) as Hp.
    rewrite (en_cola_cero (Z.of_nat i)), (en_servicio_cero (Z.of_nat i)) in Hp.
    - by destruct (en_ruta c).
    - intros e He. rewrite Hev in He. by apply elem_of_nil in He.
    - intros k est Hk. destruct (Hest _ _ Hk) as [-> _]. apply not_elem_of_nil. }
  split; [done|]. split.
  - intros i c Hi. split; [by apply (Hcli i)|].
    pose proof (inv_completado _ HI _ _ Hi) as Hco. rewrite (Hcli _ _ Hi) in Hco.
    assert (H1 : 0 < completado (Z.of_nat i) s) by lia.
    apply cuenta_pos in H1 as (d & Hd & Hid). apply Z.eqb_eq in Hid.
    destruct (inv_copia _ HI _ Hd) as [_ Hdl]. rewrite Hid, Nat2Z.id in Hdl.
    assert (d = c) by congruence. by subst.
  - rewrite (length_por_clave Cliente.id _ (length (clientes s))).
    + rewrite (sum_list_with_const _ _ 1).
      * rewrite length_seq. lia.
      * intros i Hi. apply elem_of_seq in Hi.
        destruct (lookup_lt_is_Some_2 (clientes s) i) as [c Hc]; [lia|].
        pose proof (inv_completado _ HI _ _ Hc) as Hco.
        rewrite (Hcli _ _ Hc) in Hco. exact Hco.
    + intros d Hd. destruct (inv_copia _ HI _ Hd) as [H0 Hdl].
      apply lookup_lt_Some in Hdl. lia.
Qed.

Lemma programar_SinCajas s : SinCajas s → SinCajas (programar s).
Proof.
  intros (H1 & H2 & H3 & H4). unfold programar.
  destruct (GeneradorAleatorio.tiempoEntreLlegadas _ _) as [entre g]. simpl.
  destruct (menor _ _); [|done].
  split; [|done]. intros e He.
  apply (elem_of_Permutation_proper _ _ _ (eventos_push _ _ (con_rng g s))) in He.
  apply elem_of_cons in He as [->|He]; [done | by apply H1].
Qed.

Lemma paso_SinCajas s s' : Inv s → SinCajas s → paso s = Some s' → SinCajas s'.
Proof.
  intros HI (H1 & H2 & H3 & est & H4 & H5 & H6). rewrite paso_eq.
  destruct (pq_empty (colaEventos s)) eqn:Hne; [done|]. intros [= <-].
  pose proof (eventos_extraido _ Hne) as Hev.
  assert (Ht : Evento.tipo (pq_top (colaEventos s)) = LLEGADA).
  { apply H1. rewrite Hev. left. }
  rewrite Ht.
  assert (Hx : SinCajas (extraido s)).
  { split; [|split; [done|split; [done|by exists est]]].
    intros e He. apply H1. rewrite Hev. by right. }
  destruct (menor _ _); [|done].
  rewrite procesarLlegada_eq.
  pose proof (extraido_Inv _ Hne Ht HI) as HIx.
  assert (Hl : SinCajas (llegar (extraido s))).
  { pose proof (llegar_estaciones (extraido s)) as He.
    pose proof (llegar_clientes (extraido s)) as (Hc & _ & _ & _ & _ & Hco).
    pose proof (cliente_nuevo_spec (extraido s)) as (Hid & _ & Hix & _).
    split; [|split; [|split]].
    - intros e Hin. apply (proj1 Hx). unfold llegar in Hin.
      by destruct (cliente_nuevo (extraido s)).
    - by rewrite Hco.
    - intros i c Hi. rewrite Hc in Hi.
      apply lookup_app_Some in Hi as [Hi | [_ Hi]]; [by apply (H3 i)|].
      apply list_lookup_singleton_Some in Hi as [_ <-]. done.
    - exists (Estacion.agregarCliente (Cliente.id (fst (cliente_nuevo (extraido s))))
                (tiempoActual (extraido s)) est).
      rewrite He.
      replace (estacion CAJAS (extraido s)) with est
        by (symmetry; by apply estacion_lookup).
      split; [apply list_lookup_insert_eq; by apply lookup_lt_Some in H4|].
      split; [done|]. simpl. rewrite H6, Hc, length_app. simpl.
      rewrite Nat.add_1_r, seq_S, fmap_app. simpl.
      rewrite Hid. by rewrite (inv_siguiente _ HIx). }
  apply programar_SinCajas.
  destruct Hl as (L1 & L2 & L3 & est' & L4 & L5 & L6).
  replace (Estacion.hayServidorDisponible (estacion CAJAS (llegar (extraido s))))
    with false; [by repeat split; try done; exists est'|].
  rewrite (estacion_lookup CAJAS _ est') by done.
  unfold Estacion.hayServidorDisponible. by rewrite L5.
Qed.

Lemma inicializar_SinCajas config sp s0 :
  inicializar config sp = Some s0 →
  ConfiguracionServidores.cajas config = 0%Z → SinCajas s0.
Proof.
  intros Hini H0.
  destruct (eventos_inicializar _ _ _ Hini) as (t & Hev & _).
  destruct (inicializar_clientes _ _ _ Hini) as (Hcl & Hco & _).
  destruct (inicializar_Some _ _ _ Hini)
    as (x0 & x1 & x2 & x3 & x4 & t' & g & Hx0 & _ & _ & _ & _ & _ & Hs).
  split; [|split; [done|split]].
  - intros e He. rewrite Hev in He. apply list_elem_of_singleton in He. by subst.
  - intros i c Hi. by rewrite Hcl in Hi.
  - exists x0. rewrite Hcl. rewrite H0 in Hx0.
    apply Estacion_nueva_Some in Hx0 as [_ ->]. by rewrite Hs.
Qed.

Lemma Corrida_SinCajas s0 tr s :
  Inv s0 → SinCajas s0 → Corrida s0 tr s → SinCajas s.
Proof.
  intros HI HS Hc. induction Hc as [|tr s s' Hc IH Hp]; [done|].
  apply (paso_SinCajas s s'); [by eapply Corrida_Inv | done | done].
Qed.

End Drenado.

(** ** The stations in every state of a run *)

Section Estaciones2.
Context `{Di : Distribuciones} `{Cp : !ColaPrioridad}.
Context {HCp : ColaPrioridadOk}.

Implicit Types (s : SimulacionColas) (e : Evento.t) (c : Cliente.t).

Lemma inicializar_cuentas config sp s0 :
  inicializar config sp = Some s0 →
  Estacion.numServidores <$> estaciones s0
  = [ConfiguracionServidores.cajas config;
     ConfiguracionServidores.refrescos config;
     ConfiguracionServidores.freidora config;
     ConfiguracionServidores.postres config;
     ConfiguracionServidores.pollo config] ∧
  ∀ k est, estaciones s0 !! k = Some est → Estacion.totalAtendidos est = 0%Z.
Proof.
  intros Hini.
  destruct (inicializar_Some _ _ _ Hini)
    as (x0 & x1 & x2 & x3 & x4 & t' & g & H0 & H1 & H2 & H3 & H4 & _ & ->).
  apply Estacion_nueva_Some in H0 as [_ ->], H1 as [_ ->], H2 as [_ ->],
    H3 as [_ ->], H4 as [_ ->].
  split; [done|]. simpl.
  intros [|[|[|[|[|k]]]]] est; simpl; try done; by intros [= <-].
Qed.

Lemma Corrida_cuentas s0 tr s :
  Inv s0 → SInv s0 → Corrida s0 tr s →
  Estacion.numServidores <$> estaciones s = Estacion.numServidores <$> estaciones s0.
Proof.
  intros HI HS Hc. apply list_eq_same_length with 5.
  - rewrite length_fmap. apply (inv_estaciones _ HI).
  - rewrite length_fmap. apply (inv_estaciones _ (Corrida_Inv _ _ _ HI Hc)).
  - intros i x y _ Hx Hy. rewrite list_lookup_fmap in Hx, Hy.
    destruct (estaciones s !! i) as [est|] eqn:Hi; [|done].
    destruct (Corrida_sirvio _ _ _ _ _ HI HS Hc Hi) as (est0 & Hi0 & Hn & _).
    rewrite Hi0 in Hy. simpl in *. congruence.
Qed.

(** X1. In every state of a run each station keeps its id and the number
    of servers of the configuration, its vector of servers has that
    length, and as many of them are busy as ends of service are scheduled
    at the station: never more than it has servers. *)
Theorem X1_ocupados_son_servicios (config : ConfiguracionServidores.t)
    (sp s0 : SimulacionColas) (tr : list Evento.t) (s : SimulacionColas) :
  inicializar config sp = Some s0 → Corrida s0 tr s →
  Estacion.numServidores <$> estaciones s
  = [ConfiguracionServidores.cajas config;
     ConfiguracionServidores.refrescos config;
     ConfiguracionServidores.freidora config;
     ConfiguracionServidores.postres config;
     ConfiguracionServidores.pollo config] ∧
  ∀ k est, estaciones s !! k = Some est →
    Estacion.id est = Z.of_nat k ∧
    length (Estacion.servidorOcupado est) = Z.to_nat (Estacion.numServidores est) ∧
    servidoresOcupados (Estacion.servidorOcupado est)
    = Z.of_nat (cuenta (es_fin_en (Z.of_nat k)) (eventos s)) ∧
    (servidoresOcupados (Estacion.servidorOcupado est)
     ≤ Estacion.numServidores est)%Z.
Proof.
  intros Hini Hc.
  pose proof (inicializar_Inv _ _ _ Hini) as HI.
  pose proof (inicializar_SInv _ _ _ Hini) as HS.
  pose proof (Corrida_SInv _ _ _ HI HS Hc) as HSs.
  split.
  - rewrite (Corrida_cuentas _ _ _ HI HS Hc).
    apply (inicializar_cuentas _ _ _ Hini).
  - intros k est Hk. destruct (sinv_forma _ HSs _ _ Hk) as (Hid & Hn & Hl).
    split; [done|]. split; [done|]. split; [apply (sinv_ocupados _ HSs _ _ Hk)|].
    pose proof (servidoresOcupados_cota (Estacion.servidorOcupado est)). lia.
Qed.

(** X2. In every state of a run, between two events, no customer waits
    at a station that has a free server: where the queue is not empty
    every server is busy. *)
Theorem X2_sin_espera_ociosa (config : ConfiguracionServidores.t)
    (sp s0 : SimulacionColas) (tr : list Evento.t) (s : SimulacionColas) :
  inicializar config sp = Some s0 → Corrida s0 tr s →
  ∀ k est, estaciones s !! k = Some est → Estacion.colaEspera est ≠ [] →
    Estacion.hayServidorDisponible est = false ∧
    servidoresOcupados (Estacion.servidorOcupado est) = Estacion.numServidores est.
Proof.
  intros Hini Hc k est Hk Hq.
  pose proof (inicializar_Inv _ _ _ Hini) as HI.
  pose proof (inicializar_SInv _ _ _ Hini) as HS.
  pose proof (Corrida_Conserva _ _ _ HI HS (inicializar_Conserva _ _ _ Hini) Hc)
    as HC.
  assert (Hh : Estacion.hayServidorDisponible est = false).
  { apply (HC _ _ Hk); [apply not_elem_of_nil | done]. }
  split; [done|]. apply hay_libre in Hh.
  destruct (sinv_forma _ (Corrida_SInv _ _ _ HI HS Hc) _ _ Hk) as (_ & Hn & Hl).
  lia.
Qed.

(** X3. The counter [totalAtendidos] of a station is the number of ends
    of service the run has processed for that station. *)
Theorem X3_atendidos_por_estacion (config : ConfiguracionServidores.t)
    (sp s0 : SimulacionColas) (tr : list Evento.t) (s : SimulacionColas) :
  inicializar config sp = Some s0 → Corrida s0 tr s →
  ∀ k est, estaciones s !! k = Some est →
    Estacion.totalAtendidos est
    = Z.of_nat (cuenta (es_fin_en (Z.of_nat k)) tr).
Proof.
  intros Hini Hc k est Hk.
  pose proof (inicializar_Inv _ _ _ Hini) as HI.
  pose proof (inicializar_SInv _ _ _ Hini) as HS.
  destruct (Corrida_sirvio _ _ _ _ _ HI HS Hc Hk) as (est0 & H0 & _ & ->).
  rewrite (proj2 (inicializar_cuentas _ _ _ Hini) _ _ H0). lia.
Qed.

(** X4. When every station has at least one server, the state that
    [ejecutar] returns has nobody left: every queue is empty, every
    server is free, every customer that arrived completed its route and
    is in the completed list, and the statistics count every arrival. *)
Theorem X4_todos_completan (config : ConfiguracionServidores.t)
    (sp s0 : SimulacionColas) (n : nat) (sf : SimulacionColas) :
  inicializar config sp = Some s0 →
  (1 ≤ ConfiguracionServidores.cajas config)%Z →
  (1 ≤ ConfiguracionServidores.refrescos config)%Z →
  (1 ≤ ConfiguracionServidores.freidora config)%Z →
  (1 ≤ ConfiguracionServidores.postres config)%Z →
  (1 ≤ ConfiguracionServidores.pollo config)%Z →
  ejecutar n s0 = Some sf →
  (∀ k est, estaciones sf !! k = Some est →
     Estacion.colaEspera est = [] ∧
     Estacion.hayServidorDisponible est = true ∧
     servidoresOcupados (Estacion.servidorOcupado est) = 0%Z) ∧
  (∀ i c, clientes sf !! i = Some c →
     Cliente.indiceEstacionActual c = Z.of_nat (length (Cliente.estaciones c)) ∧
     c ∈ clientesCompletados sf) ∧
  Estadisticas.totalClientes (getEstadisticas sf) = Z.of_nat (length (clientes sf)).
Proof.
  intros Hini H0 H1 H2 H3 H4 Hej.
  pose proof (inicializar_Inv _ _ _ Hini) as HI.
  pose proof (inicializar_SInv _ _ _ Hini) as HS.
  unfold ejecutar in Hej. destruct (bucle n s0) as [s|] eqn:Hb; [|done].
  injection Hej as <-.
  destruct (bucle_Corrida _ _ _ Hb) as (tr & Hc & Hp).
  pose proof (Corrida_Inv _ _ _ HI Hc) as HIs.
  pose proof (Corrida_SInv _ _ _ HI HS Hc) as HSs.
  pose proof (Corrida_Conserva _ _ _ HI HS (inicializar_Conserva _ _ _ Hini) Hc)
    as HC.
  assert (Hev : eventos s = []).
  { unfold paso in Hp. destruct (pq_empty (colaEventos s)) eqn:He; [|done].
    by apply pq_empty_spec. }
  assert (Hn : ∀ k est, estaciones s !! k = Some est →
                        (1 ≤ Estacion.numServidores est)%Z).
  { intros k est Hk.
    pose proof (Corrida_cuentas _ _ _ HI HS Hc) as Hcu.
    rewrite (proj1 (inicializar_cuentas _ _ _ Hini)) in Hcu.
    apply (f_equal (λ l, l !! k)) in Hcu. rewrite list_lookup_fmap, Hk in Hcu.
    simpl in Hcu.
    destruct k as [|[|[|[|[|k]]]]]; simpl in Hcu; try done;
      injection Hcu as ->; done. }
  destruct (drenado_completo s HIs HSs HC Hev Hn) as (Hd1 & Hd2 & Hd3).
  split; [|split].
  - intros k est Hk. simpl in Hk. destruct (Hd1 _ _ Hk) as [Hq Hb0].
    split; [done|]. split; [|done].
    destruct (Estacion.hayServidorDisponible est) eqn:Hh; [done|].
    apply hay_libre in Hh. destruct (sinv_forma _ HSs _ _ Hk) as (_ & _ & Hl).
    specialize (Hn _ _ Hk). lia.
  - intros i c Hi. simpl in Hi. destruct (Hd2 _ _ Hi) as [Hr Hin].
    split; [|done]. destruct (inv_cliente _ HIs _ _ Hi) as (_ & _ & Hix).
    unfold en_ruta in Hr. apply Z.ltb_ge in Hr. lia.
  - unfold getEstadisticas. simpl. rewrite Hd3.
    by destruct (_ =? _)%Z.
Qed.

(** X5. When CAJAS has no server nothing is ever served: in every state
    of a run only arrivals are scheduled, no customer has left its first
    station or completed, the customers stand in the queue of CAJAS in
    the order of their arrival, and the statistics are all zero. *)
Theorem X5_sin_cajas (config : ConfiguracionServidores.t)
    (sp s0 : SimulacionColas) (tr : list Evento.t) (s : SimulacionColas) :
  inicializar config sp = Some s0 →
  ConfiguracionServidores.cajas config = 0%Z →
  Corrida s0 tr s →
  (∀ e, e ∈ eventos s → Evento.tipo e = LLEGADA) ∧
  (∀ i c, clientes s !! i = Some c → Cliente.indiceEstacionActual c = 0%Z) ∧
  Estacion.colaEspera (estacion CAJAS s)
  = Z.of_nat <$> seq 0 (length (clientes s)) ∧
  clientesCompletados s = [] ∧
  getEstadisticas s
  = Estadisticas.mk cero cero [cero; cero; cero; cero; cero] 0 cero.
Proof.
  intros Hini H0 Hc.
  pose proof (inicializar_Inv _ _ _ Hini) as HI.
  destruct (Corrida_SinCajas _ _ _ HI (inicializar_SinCajas _ _ _ Hini H0) Hc)
    as (H1 & H2 & H3 & est & H4 & H5 & H6).
  split; [done|]. split; [done|]. split.
  - by rewrite (estacion_lookup CAJAS s est).
  - split; [done|]. unfold getEstadisticas. by rewrite H2.
Qed.

End Estaciones2.

(** ** The customers in every state of a run *)

Section Clientes2.
Context `{Di : Distribuciones} `{Cp : !ColaPrioridad}.
Context {HCp : ColaPrioridadOk}.

Implicit Types (s : SimulacionColas) (e : Evento.t) (c : Cliente.t).

(** X6. No vector is indexed out of range.  In every state of a run
    there are five stations, the customer at index [i] has id [i] and the
    next id is the number of customers; every id in a waiting queue and
    every customer and station id of a scheduled end of service is the
    index of an element; and when an end of service is handled, the
    route index read for the next station is inside the route and the
    station read there is one of the five. *)
Theorem X6_indices_en_rango (config : ConfiguracionServidores.t)
    (sp s0 : SimulacionColas) (tr : list Evento.t) (s : SimulacionColas) :
  inicializar config sp = Some s0 → Corrida s0 tr s →
  length (estaciones s) = 5 ∧
  siguienteIdCliente s = Z.of_nat (length (clientes s)) ∧
  (∀ i c, clientes s !! i = Some c → Cliente.id c = Z.of_nat i) ∧
  (∀ k est j, estaciones s !! k = Some est → j ∈ Estacion.colaEspera est →
     (0 ≤ j < Z.of_nat (length (clientes s)))%Z) ∧
  (∀ e, e ∈ eventos s → Evento.tipo e = FIN_SERVICIO →
     (0 ≤ Evento.idCliente e < Z.of_nat (length (clientes s)))%Z ∧
     (0 ≤ Evento.idEstacion e < Z.of_nat (length (estaciones s)))%Z) ∧
  (∀ k, pq_empty (colaEventos s) = false →
     Evento.tipo (pq_top (colaEventos s)) = FIN_SERVICIO →
     siguiente_de (pq_top (colaEventos s)) (extraido s) = Some k →
     let c := cliente_avanzado (pq_top (colaEventos s)) (extraido s) in
     (0 ≤ Cliente.indiceEstacionActual c
        < Z.of_nat (length (Cliente.estaciones c)))%Z ∧
     (0 ≤ k < Z.of_nat (length (estaciones s)))%Z).
Proof.
  intros Hini Hc.
  pose proof (Corrida_Inv _ _ _ (inicializar_Inv _ _ _ Hini) Hc) as HI.
  pose proof (inv_estaciones _ HI) as H5.
  split; [done|]. split; [apply (inv_siguiente _ HI)|].
  split; [intros i c Hi; apply (inv_cliente _ HI _ _ Hi)|].
  split; [apply (inv_colas _ HI)|]. split.
  - intros e He Ht. rewrite H5. by apply (inv_eventos _ HI).
  - intros k Hne Ht Hk. cbv zeta.
    pose proof (eventos_extraido _ Hne) as Hev.
    assert (Hein : pq_top (colaEventos s) ∈ eventos s) by (rewrite Hev; left).
    pose proof (siguiente_de_rango s (extraido s) _ k HI Hein eq_refl Ht Hk).
    split; [|lia].
    destruct (evento_fin_cliente _ _ HI Hein Ht) as (Hj & _ & c & Hcl & Hr).
    unfold siguiente_de in Hk.
    destruct (en_ruta _) eqn:Hr'; [|done].
    unfold en_ruta in Hr'. apply Z.ltb_lt in Hr'. split; [|done].
    unfold cliente_avanzado. simpl.
    assert (Hcj : cliente (Evento.idCliente (pq_top (colaEventos s))) (extraido s) = c).
    { unfold cliente. simpl. by apply list_lookup_total_correct. }
    rewrite Hcj. destruct (inv_cliente _ HI _ _ Hcl) as (_ & _ & Hix). lia.
Qed.

(** X7. A customer is in one place.  In every state of a run each
    customer is either waiting in one queue, or in service with one end
    of service scheduled, or in the completed list, once and never two of
    these; the queue it waits in and the station of its scheduled end of
    service are the station its route index points to; and its route is
    strictly increasing in the station ids, so it visits no station
    twice. *)
Theorem X7_un_solo_lugar (config : ConfiguracionServidores.t)
    (sp s0 : SimulacionColas) (tr : list Evento.t) (s : SimulacionColas)
    (i : nat) (c : Cliente.t) :
  inicializar config sp = Some s0 → Corrida s0 tr s →
  clientes s !! i = Some c →
  en_cola (Z.of_nat i) s + en_servicio (Z.of_nat i) s
    + completado (Z.of_nat i) s = 1 ∧
  (∀ k est, estaciones s !! k = Some est →
     Z.of_nat i ∈ Estacion.colaEspera est →
     Cliente.estaciones c !! Z.to_nat (Cliente.indiceEstacionActual c)
     = Some (Z.of_nat k)) ∧
  (∀ e, e ∈ eventos s → Evento.tipo e = FIN_SERVICIO →
     Evento.idCliente e = Z.of_nat i →
     Cliente.estaciones c !! Z.to_nat (Cliente.indiceEstacionActual c)
     = Some (Evento.idEstacion e)) ∧
  StronglySorted Z.lt (Cliente.estaciones c) ∧
  NoDup (Cliente.estaciones c).
Proof.
  intros Hini Hc Hi.
  pose proof (inicializar_Inv _ _ _ Hini) as HI0.
  pose proof (Corrida_Inv _ _ _ HI0 Hc) as HI.
  pose proof (Corrida_SInv _ _ _ HI0 (inicializar_SInv _ _ _ Hini) Hc) as HS.
  pose proof (sinv_ruta _ HS _ _ Hi) as Hso.
  split; [|split; [|split; [|split; [done|]]]].
  - pose proof (inv_pendiente _ HI _ _ Hi). pose proof (inv_completado _ HI _ _ Hi).
    destruct (en_ruta c); lia.
  - intros k est Hk Hin. destruct (sinv_cola _ HS _ _ _ Hk Hin) as (d & Hd & Hl).
    rewrite Nat2Z.id in Hd. assert (d = c) by congruence. by subst.
  - intros e He Ht Hid. destruct (sinv_evento _ HS _ He Ht) as (d & Hd & Hl).
    rewrite Hid, Nat2Z.id in Hd. assert (d = c) by congruence. by subst.
  - clear -Hso. induction Hso as [|x l Hs IH Hx]; constructor; [|done].
    intros Hin. rewrite Forall_forall in Hx. specialize (Hx _ Hin). lia.
Qed.

End Clientes2.

(** ** Accumulated times *)

Section Tiempos.
Context `{Di : Distribuciones} `{Cp : !ColaPrioridad}.
Context {HCp : ColaPrioridadOk}.
Context {HL : LeyesOrden} {HS : LeyesSuma} {HD : DistribucionesOk}.

Implicit Types (s : SimulacionColas) (e : Evento.t) (c : Cliente.t).

Lemma tiempos_ok_mono t t' c :
  es_numero t → no_mayor t t' → tiempos_ok t c → tiempos_ok t' c.
Proof.
  intros Hn Ht (H1 & H2 & H3 & H4 & H5). repeat split; try done.
  by apply (no_mayor_trans _ t).
Qed.

(** A sum of two values that are not negative is not negative; either
    may be a NaN, and then so is the sum. *)
Lemma suma_no_negs (a b : double) :
  no_mayor cero a → no_mayor cero b → no_mayor cero (suma a b).
Proof.
  intros Ha Hb. destruct (igual a a) eqn:Hn.
  - apply (no_mayor_trans _ a); [done | done | by apply suma_no_neg].
  - apply no_numero_no_mayor. intros Hs. apply suma_nan in Hs.
    unfold es_numero in Hs. congruence.
Qed.

Lemma iniciarServicio_WInv k s : Inv s → WInv s → WInv (iniciarServicio k s).
Proof.
  intros HI HW.
  destruct (iniciarServicio_casos k s)
    as [[-> _] | (j & resto & i & Hq & Hi & ->)]; [done|].
  assert (Hjq : j ∈ Estacion.colaEspera (estacion k s)) by (rewrite Hq; left).
  pose proof (estacion_cola_lookup _ _ _ Hjq) as Hest.
  pose proof (inv_colas _ HI _ _ _ Hest Hjq) as Hjr.
  cbv zeta. replace (j <? 0)%Z with false by (symmetry; apply Z.ltb_ge; lia).
  set (s1 := con_estacion k _ s).
  destruct (atender_spec j k s1) as (ts & g & Hts & ->).
  assert (Hc : clientes s !! Z.to_nat j = Some (cliente j s)).
  { apply cliente_en_rango. lia. }
  unfold WInv in *. simpl. apply Forall_insert; [done|].
  rewrite Forall_lookup in HW. destruct (HW _ _ Hc) as (H1 & H2 & H3 & H4 & H5).
  change (cliente j s1) with (cliente j s).
  repeat split; simpl; try done.
  - apply suma_no_negs; [done|]. by apply resta_no_neg.
  - apply suma_no_negs; [done|].
    pose proof (getTiempoServicio_no_neg k (rng s1)) as [_ Hn].
    by rewrite Hts in Hn.
Qed.

Lemma procesarLlegada_WInv s :
  Inv s → es_numero (tiempoActual s) → WInv s → WInv (procesarLlegada s).
Proof.
  intros HI Hnum HW. rewrite procesarLlegada_eq.
  assert (Hp : ∀ x, WInv x → WInv (programar x)).
  { intros x Hx. unfold programar.
    destruct (GeneradorAleatorio.tiempoEntreLlegadas _ _). simpl.
    by destruct (menor _ _). }
  apply Hp.
  assert (Hl : WInv (llegar s)).
  { pose proof (llegar_clientes s) as (Hc & Ht & _).
    pose proof (cliente_nuevo_spec s) as (_ & _ & _ & Hll & Hec & Hw & Hs).
    unfold WInv. rewrite Hc, Ht. apply Forall_app. split; [done|].
    apply Forall_singleton. unfold tiempos_ok. rewrite Hll, Hec, Hw, Hs.
    repeat split; try apply no_mayor_refl. done. }
  pose proof (llegar_Inv _ HI).
  destruct (Estacion.hayServidorDisponible _); [|done].
  by apply iniciarServicio_WInv.
Qed.

Lemma avanzar_WInv s0 s e :
  Inv s0 → e ∈ eventos s0 → clientes s = clientes s0 →
  Evento.tipo e = FIN_SERVICIO →
  es_numero (tiempoActual s) →
  WInv s → WInv (avanzar e s).
Proof.
  intros HI He Hcl Ht Hnum HW.
  destruct (evento_fin_cliente _ _ HI He Ht) as (Hj & _ & c & Hc & _).
  assert (Hcj : cliente (Evento.idCliente e) s = c).
  { unfold cliente. rewrite Hcl. by apply list_lookup_total_correct. }
  unfold WInv in HW. rewrite Forall_lookup in HW.
  rewrite <- Hcl in Hc. destruct (HW _ _ Hc) as (H1 & H2 & H3 & H4 & H5).
  assert (Ha : tiempos_ok (tiempoActual s) (cliente_avanzado e s)).
  { unfold cliente_avanzado. rewrite Hcj. by repeat split. }
  assert (HW1 : Forall (tiempos_ok (tiempoActual s))
                  (<[Z.to_nat (Evento.idCliente e) := cliente_avanzado e s]>
                     (clientes s))).
  { apply Forall_insert; [by apply Forall_lookup | done]. }
  unfold avanzar, WInv. destruct (siguiente_de e s); simpl; [|done].
  apply Forall_insert; [done|].
  unfold cliente_avanzado. rewrite Hcj. repeat split; simpl; try done.
  - by apply (no_mayor_trans _ (Cliente.tiempoEntradaCola c)).
  - apply no_mayor_refl.
Qed.

Lemma paso_WInv s s' :
  Inv s → TInv s → WInv s → paso s = Some s' → WInv s'.
Proof.
  intros HI HT HW. rewrite paso_eq.
  destruct (pq_empty (colaEventos s)) eqn:Hne; [done|]. intros [= <-].
  pose proof (eventos_extraido _ Hne) as Hev.
  set (e := pq_top (colaEventos s)) in *.
  assert (Hein : e ∈ eventos s) by (rewrite Hev; left).
  destruct HT as (Hnum & _ & HT1 & _). destruct (HT1 _ Hein) as [Hnum' Hclk].
  assert (Hx : WInv (extraido s)).
  { unfold WInv. simpl. eapply Forall_impl; [exact HW|].
    intros c. by apply tiempos_ok_mono. }
  destruct (Evento.tipo e) eqn:Ht.
  - pose proof (extraido_Inv _ Hne Ht HI).
    destruct (menor _ _); [|done]. by apply procesarLlegada_WInv.
  - rewrite procesarFinServicio_eq. cbv zeta.
    pose proof (avanzar_Inv s (extraido s) e HI Hev eq_refl eq_refl eq_refl eq_refl Ht)
      as HIa.
    pose proof (avanzar_WInv s (extraido s) e HI Hein eq_refl Ht Hnum' Hx) as HWa.
    set (sb := match siguiente_de e (extraido s) with
               | Some k => _ | None => _ end).
    assert (Hb : Inv sb ∧ WInv sb).
    { unfold sb. destruct (siguiente_de e (extraido s)) as [k|] eqn:Hk; [|done].
      pose proof (siguiente_de_rango s (extraido s) e k HI Hein eq_refl Ht Hk).
      destruct (Estacion.hayServidorDisponible _); [|done].
      split; [by apply iniciarServicio_Inv | by apply iniciarServicio_WInv]. }
    destruct Hb as [HIb HWb].
    destruct (_ && _); [|done]. by apply iniciarServicio_WInv.
Qed.

Lemma Corrida_WInv s0 tr s :
  Inv s0 → TInv s0 → menor cero (tasaLlegada s0) = true → WInv s0 →
  Corrida s0 tr s → WInv s.
Proof.
  intros HI HT Hr HW Hc. induction Hc as [|tr s s' Hc IH Hp]; [done|].
  destruct (Corrida_TInv _ _ _ HI HT Hr Hc) as (HTs & _).
  apply (paso_WInv s s'); [by eapply Corrida_Inv | done | done | done].
Qed.

(** X8. With a positive arrival rate, in every state of a run no customer
    has a negative accumulated wait or a negative accumulated service
    time, and the time it entered its current queue is neither before
    its arrival nor after the clock. *)
Theorem X8_tiempos_no_negativos (config : ConfiguracionServidores.t)
    (sp s0 : SimulacionColas) (tr : list Evento.t) (s : SimulacionColas)
    (i : nat) (c : Cliente.t) :
  inicializar config sp = Some s0 →
  menor cero (tasaLlegada sp) = true →
  Corrida s0 tr s → clientes s !! i = Some c →
  no_mayor cero (Cliente.tiempoEsperaTotal c) ∧
  no_mayor cero (Cliente.tiempoServicioTotal c) ∧
  no_mayor cero (Cliente.getTiempoTotal c) ∧
  no_mayor (Cliente.tiempoLlegada c) (Cliente.tiempoEntradaCola c) ∧
  no_mayor (Cliente.tiempoEntradaCola c) (tiempoActual s).
Proof.
  intros Hini Hr Hc Hi.
  pose proof (inicializar_Inv _ _ _ Hini) as HI.
  pose proof (inicializar_TInv _ _ _ Hr Hini) as HT.
  destruct (inicializar_clientes _ _ _ Hini) as (Hcl & _ & Hta & _).
  assert (HW0 : WInv s0) by (unfold WInv; rewrite Hcl; constructor).
  rewrite <- Hta in Hr.
  pose proof (Corrida_WInv _ _ _ HI HT Hr HW0 Hc) as HW.
  unfold WInv in HW. rewrite Forall_lookup in HW.
  destruct (HW _ _ Hi) as (H1 & H2 & H3 & H4 & H5).
  repeat split; try done. by apply suma_no_negs.
Qed.

End Tiempos.

(** ** The size of the event queue *)

Section ColaAcotada.
Context `{Di : Distribuciones} `{Cp : !ColaPrioridad}.
Context {HCp : ColaPrioridadOk}.

Implicit Types (s : SimulacionColas) (e : Evento.t) (c : Cliente.t).

Lemma eventos_llegadas_fines s : length (eventos s) = llegadas s + fines s.
Proof.
  unfold llegadas, fines. induction (eventos s) as [|e l IH]; [done|].
  rewrite !cuenta_cons. simpl. rewrite IH. unfold es_llegada, es_fin.
  destruct (Evento.tipo e); simpl; lia.
Qed.

Lemma fines_por_estacion (l : list Evento.t) (n : nat) :
  (∀ e, e ∈ l → Evento.tipo e = FIN_SERVICIO →
        (0 ≤ Evento.idEstacion e < Z.of_nat n)%Z) →
  cuenta es_fin l
  = sum_list_with (λ k, cuenta (es_fin_en (Z.of_nat k)) l) (seq 0 n).
Proof.
  induction l as [|e l IH]; intros H.
  - simpl. induction (seq 0 n) as [|i r IHr]; [done|]. simpl. by rewrite <- IHr.
  - change (sum_list_with (λ k, cuenta (es_fin_en (Z.of_nat k)) (e :: l)) (seq 0 n))
      with (sum_list_with
              (λ k, (if es_fin_en (Z.of_nat k) e then 1 else 0)
                    + cuenta (es_fin_en (Z.of_nat k)) l) (seq 0 n)).
    rewrite sum_list_with_suma, cuenta_cons.
    rewrite <- IH by (intros x Hx; apply H; by right). f_equal.
    unfold es_fin, es_fin_en. destruct (Evento.tipo e) eqn:Ht; simpl.
    + clear. induction (seq 0 n) as [|i r IHr]; [done|]. simpl. by rewrite <- IHr.
    + symmetry. apply sum_list_with_uno. apply H; [left | done].
Qed.

(** X9. The event queue stays small: in every state of a run at most one
    arrival is scheduled, and the queue holds at most one event more
    than [ConfiguracionServidores::total()] says there are servers. *)
Theorem X9_cola_de_eventos_acotada (config : ConfiguracionServidores.t)
    (sp s0 : SimulacionColas) (tr : list Evento.t) (s : SimulacionColas) :
  inicializar config sp = Some s0 → Corrida s0 tr s →
  cuenta es_llegada (eventos s) ≤ 1 ∧
  (Z.of_nat (pq_size (colaEventos s)) ≤ 1 + ConfiguracionServidores.total config)%Z.
Proof.
  intros Hini Hc.
  pose proof (inicializar_Inv _ _ _ Hini) as HI.
  pose proof (Corrida_Inv _ _ _ HI Hc) as HIs.
  assert (Hl0 : llegadas s0 ≤ 1).
  { destruct (eventos_inicializar _ _ _ Hini) as (t & Hev & _).
    unfold llegadas. rewrite Hev. simpl. lia. }
  pose proof (Corrida_llegadas _ _ _ HI Hl0 Hc) as Hl.
  split; [exact Hl|].
  rewrite pq_size_spec. fold (eventos s). rewrite eventos_llegadas_fines.
  unfold fines. rewrite (fines_por_estacion _ 5)
    by (intros e He Ht; apply (inv_eventos _ HIs _ He Ht)).
  pose proof (inicializar_SInv _ _ _ Hini) as HS.
  pose proof (Corrida_SInv _ _ _ HI HS Hc) as HSs.
  pose proof (Corrida_cuentas _ _ _ HI HS Hc) as Hn.
  rewrite (proj1 (inicializar_cuentas _ _ _ Hini)) in Hn.
  assert (Hk : ∀ k est, estaciones s !! k = Some est →
            (Z.of_nat (cuenta (es_fin_en (Z.of_nat k)) (eventos s))
             ≤ Estacion.numServidores est)%Z).
  { intros k est Hk. rewrite <- (sinv_ocupados _ HSs _ _ Hk).
    destruct (sinv_forma _ HSs _ _ Hk) as (_ & H0 & Hlen).
    pose proof (servidoresOcupados_cota (Estacion.servidorOcupado est)). lia. }
  unfold ConfiguracionServidores.total.
  destruct (estaciones s) as [|e0 [|e1 [|e2 [|e3 [|e4 [|e5 r]]]]]] eqn:He;
    try done.
  injection Hn as <- <- <- <- <-.
  pose proof (Hk 0 e0 eq_refl) as A0. pose proof (Hk 1 e1 eq_refl) as A1.
  pose proof (Hk 2 e2 eq_refl) as A2. pose proof (Hk 3 e3 eq_refl) as A3.
  pose proof (Hk 4 e4 eq_refl) as A4. simpl in *. lia.
Qed.

End ColaAcotada.

(** ** The replicas and their averages *)

Section Replicas.
Context `{Di : Distribuciones} `{Cp : !ColaPrioridad}.
Context {HCp : ColaPrioridadOk}.
Implicit Types (s : SimulacionColas) (e : Evento.t) (c : Cliente.t).

Implicit Types (st : Estadisticas.t) (m : Muestras).

Lemma anotar_muestras vs st :
  anotar st (muestras_de vs)
  = muestras_de (vs ++ if bool_decide (0 < Estadisticas.totalClientes st)%Z
                       then [st] else []).
Proof.
  unfold anotar. case_bool_decide as Hd.
  - replace (Estadisticas.totalClientes st >? 0)%Z with true
      by (symmetry; apply Z.gtb_lt; lia).
    unfold muestras_de. simpl. rewrite !fmap_app. done.
  - replace (Estadisticas.totalClientes st >? 0)%Z with false
      by (symmetry; rewrite Z.gtb_ltb; apply Z.ltb_ge; lia).
    by rewrite app_nil_r.
Qed.

Lemma validas_snoc l st :
  validas (l ++ [st])
  = validas l ++ if bool_decide (0 < Estadisticas.totalClientes st)%Z
                 then [st] else [].
Proof.
  unfold validas. rewrite filter_app. f_equal.
  rewrite filter_cons, filter_nil. by destruct (decide _) as [H|H];
    [rewrite bool_decide_eq_true_2 | rewrite bool_decide_eq_false_2].
Qed.

(** The loop: it fails when a replica fails, and otherwise keeps the
    statistics of the replicas that completed a customer. *)
Lemma replicar_spec n config i q l0 :
  replicar n config i q (muestras_de (validas l0))
  = l ← mapM (replica n config) ((λ k, (i + Z.of_nat k)%Z) <$> seq 0 q);
    Some (muestras_de (validas (l0 ++ l))).
Proof.
  revert i l0. induction q as [|q IH]; intros i l0; simpl.
  - by rewrite app_nil_r.
  - rewrite Z.add_0_r. destruct (replica n config i) as [st|]; simpl; [|done].
    rewrite anotar_muestras, <- validas_snoc, IH.
    rewrite <- fmap_S_seq, <- list_fmap_compose.
    replace ((λ k, (i + 1 + Z.of_nat k)%Z) <$> seq 0 q)
      with ((λ k, (i + Z.of_nat k)%Z) ∘ S <$> seq 0 q)
      by (apply list_fmap_ext; intros ? k ?; simpl; lia).
    destruct (mapM _ _) as [l|]; simpl; [|done].
    by rewrite <- app_assoc.
Qed.

Lemma suma_cuadrados (p : double) (l : list double) (a : double) :
  fold_left (λ acc v, let d := resta v p in suma acc (mult d d)) l a
  = fold_left suma ((λ x, mult (resta x p) (resta x p)) <$> l) a.
Proof. revert a. induction l as [|x l IH]; intros a; simpl; [done|]. apply IH. Qed.

(** After the loop: no replica kept gives zeros; otherwise the averages. *)
Lemma promediar_spec vs :
  promediar (muestras_de vs)
  = Some (match vs with [] => sin_replicas | _ => promedio_de vs end).
Proof.
  unfold promediar. simpl.
  destruct vs as [|v vs]; [done|].
  replace (Z.of_nat (length (Estadisticas.tiempoEsperaPromedio <$> v :: vs)) =? 0)%Z
    with false by done.
  cbv zeta. rewrite suma_cuadrados.
  unfold promedio_de, varianza_poblacional, media, sumatoria.
  simpl. rewrite !length_fmap. reflexivity.
Qed.

End Replicas.

(** ** What [ejecutarMultiplesReplicas] returns *)

Section Replicas2.
Context `{Di : Distribuciones} `{Cp : !ColaPrioridad}.
Implicit Types (s : SimulacionColas) (e : Evento.t) (c : Cliente.t).

Implicit Types (st : Estadisticas.t) (m : Muestras).

Lemma mapM_primero_None {A B} (f : A → option B) (x : A) (r : list A) :
  f x = None → mapM f (x :: r) = None.
Proof. intros H. simpl. by rewrite H. Qed.

(** The loop and the averages after it, as one expression. *)
Lemma replicas_promedio n config z :
  ejecutarMultiplesReplicas n config z
  = (l ← mapM (replica n config) (Z.of_nat <$> seq 0 (Z.to_nat z));
     Some (match validas l with
           | [] => sin_replicas
           | v :: vs => promedio_de (v :: vs)
           end)).
Proof.
  unfold ejecutarMultiplesReplicas.
  change muestras_vacias with (muestras_de (validas [])).
  rewrite replicar_spec.
  replace ((λ k, (0 + Z.of_nat k)%Z) <$> seq 0 (Z.to_nat z))
    with (Z.of_nat <$> seq 0 (Z.to_nat z))
    by (apply list_fmap_ext; intros ? k ?; lia).
  destruct (mapM _ _) as [l|]; simpl; [|done].
  rewrite promediar_spec. by destruct (validas l).
Qed.

(** X10. [ejecutarMultiplesReplicas(config, numReplicas)] runs the
    replicas with seeds 42, 43, ... in order and throws when one of them
    does; otherwise it keeps the replicas that completed a customer and
    returns zeros when none is kept, else the mean of their mean waits,
    the population variance of these means, the mean system time, the
    truncated mean of the customer counts and the mean utilization of
    each station.  With [numReplicas <= 0] it returns zeros. *)
Theorem X10_replicas_promedio (n : nat) (config : ConfiguracionServidores.t)
    (numReplicas : Z) :
  ejecutarMultiplesReplicas n config numReplicas
  = (l ← mapM (replica n config) (Z.of_nat <$> seq 0 (Z.to_nat numReplicas));
     Some (match validas l with
           | [] => sin_replicas
           | v :: vs => promedio_de (v :: vs)
           end))
  ∧ ∀ k : nat, ejecutarMultiplesReplicas n config (- Z.of_nat k)
               = Some sin_replicas.
Proof.
  split; [apply replicas_promedio|].
  intros k. rewrite replicas_promedio.
  replace (Z.to_nat (- Z.of_nat k)) with 0 by lia. done.
Qed.

End Replicas2.

(** ** When the replicas return *)

Section Replicas3.
Context `{Di : Distribuciones} `{Cp : !ColaPrioridad}.
Context {HCp : ColaPrioridadOk}.
Implicit Types (s : SimulacionColas) (e : Evento.t) (c : Cliente.t).

Implicit Types (st : Estadisticas.t) (m : Muestras).

Lemma inicializar_is_Some config s :
  cuentas_no_negativas config → is_Some (inicializar config s).
Proof.
  intros (H0 & H1 & H2 & H3 & H4). unfold inicializar, Estacion.nueva.
  repeat match goal with
         | |- context [(?a <? 0)%Z] =>
             replace (a <? 0)%Z with false by (symmetry; apply Z.ltb_ge; lia)
         end.
  simpl. by destruct (GeneradorAleatorio.tiempoEntreLlegadas _ _).
Qed.

Lemma inicializar_None config s :
  ¬ cuentas_no_negativas config → inicializar config s = None.
Proof.
  intros Hn. destruct (inicializar config s) as [s0|] eqn:H; [|done].
  exfalso. apply Hn.
  destruct (inicializar_Some _ _ _ H) as (e0&e1&e2&e3&e4&t'&g&H0&H1&H2&H3&H4&_).
  apply Estacion_nueva_Some in H0 as [? _], H1 as [? _], H2 as [? _],
        H3 as [? _], H4 as [? _].
  done.
Qed.

(** A replica whose run has at most [N] customers ends within [1 + 11 N]
    iterations of the loop. *)
Lemma replica_termina N n config i :
  ReplicasAcotadas N config → cuentas_no_negativas config → 1 + 11 * N ≤ n →
  ∃ s0 sb,
    inicializar config
      (SimulacionColas_nueva (de_int 480) (decimal 8 10) (42 + i)%Z) = Some s0 ∧
    bucle n s0 = Some sb ∧
    replica n config i
    = Some (getEstadisticas (con_tiempoFinalReal (tiempoActual sb) sb)).
Proof.
  intros HA Hc Hn.
  destruct (inicializar_is_Some config
              (SimulacionColas_nueva (de_int 480) (decimal 8 10) (42 + i)%Z) Hc)
    as [s0 H0].
  destruct (inicializado_termina _ _ _ N n H0 (HA _ _ H0) Hn) as [sb Hb].
  exists s0, sb. split; [done|]. split; [done|].
  unfold replica, ejecutar. rewrite H0. simpl. rewrite Hb. done.
Qed.

Lemma replicas_terminan N n config (indices : list Z) :
  ReplicasAcotadas N config → cuentas_no_negativas config → 1 + 11 * N ≤ n →
  is_Some (mapM (replica n config) indices).
Proof.
  intros HA Hc Hn. induction indices as [|i r [l Hl]]; [by eexists|].
  destruct (replica_termina N n config i HA Hc Hn) as (s0 & sb & _ & _ & Hr).
  simpl. rewrite Hr. simpl. rewrite Hl. by eexists.
Qed.

(** X11. When no run of a replica of [config] has more than [N]
    customers, [ejecutarMultiplesReplicas] returns, each replica within
    [1 + 11 N] iterations of the loop, exactly when no replica is asked
    for or no server count is negative; what it returns has five
    utilizations. *)
Theorem X11_replicas_terminan (N n : nat) (config : ConfiguracionServidores.t)
    (numReplicas : Z) :
  ReplicasAcotadas N config → 1 + 11 * N ≤ n →
  (is_Some (ejecutarMultiplesReplicas n config numReplicas)
   ↔ (numReplicas ≤ 0)%Z ∨ cuentas_no_negativas config) ∧
  ∀ stats, ejecutarMultiplesReplicas n config numReplicas = Some stats →
           length (Estadisticas.utilizacionEstaciones stats) = 5.
Proof.
  intros HA Hn.
  rewrite replicas_promedio. split; [split|].
  - intros [st Hst].
    destruct (decide (numReplicas ≤ 0)%Z) as [|Hpos]; [by left|]. right.
    destruct (Z.to_nat numReplicas) as [|q] eqn:Hq; [lia|].
    assert (Hdec : Decision (cuentas_no_negativas config))
      by (unfold cuentas_no_negativas; apply _).
    destruct Hdec as [|Hneg]; [done|]. exfalso.
    assert (Hr : replica n config (Z.of_nat 0) = None).
    { unfold replica. by rewrite (inicializar_None _ _ Hneg). }
    change (seq 0 (S q)) with (0 :: seq 1 q) in Hst. rewrite fmap_cons in Hst.
    rewrite (mapM_primero_None _ _ _ Hr) in Hst. done.
  - intros [Hz | Hc].
    + replace (Z.to_nat numReplicas) with 0 by lia. by eexists.
    + destruct (replicas_terminan N n config
                  (Z.of_nat <$> seq 0 (Z.to_nat numReplicas)) HA Hc Hn) as [l ->].
      by eexists.
  - intros stats Hst. destruct (mapM _ _) as [l|]; [|done].
    injection Hst as <-. by destruct (validas l).
Qed.

End Replicas3.

(** ** A station without servers *)

Section SinServidores.
Context `{Di : Distribuciones} `{Cp : !ColaPrioridad}.
Context {HCp : ColaPrioridadOk}.

Implicit Types (s : SimulacionColas) (e : Evento.t) (c : Cliente.t).

Lemma servidoresOcupados_nil : servidoresOcupados [] = 0%Z.
Proof. reflexivity. Qed.

(** A station without servers has no end of service scheduled. *)
Lemma sin_servidores_sin_fin s (k : nat) est e :
  SInv s → estaciones s !! k = Some est → Estacion.numServidores est = 0%Z →
  e ∈ eventos s → es_fin_en (Z.of_nat k) e = false.
Proof.
  intros HS Hk H0 He.
  destruct (sinv_forma _ HS _ _ Hk) as (_ & _ & Hl).
  pose proof (sinv_ocupados _ HS _ _ Hk) as Ho.
  rewrite H0 in Hl. destruct (Estacion.servidorOcupado est); [|done].
  rewrite servidoresOcupados_nil in Ho.
  destruct (es_fin_en (Z.of_nat k) e) eqn:Hf; [|done].
  pose proof (cuenta_elem _ _ _ He Hf). lia.
Qed.

Lemma paso_Detenidos s s' (k : nat) est :
  Inv s → SInv s → estaciones s !! k = Some est →
  Estacion.numServidores est = 0%Z →
  paso s = Some s' → Detenidos (Z.of_nat k) s →
  Detenidos (Z.of_nat k) s' ∧ es_fin_en (Z.of_nat k) (pq_top (colaEventos s)) = false.
Proof.
  intros HI HS Hk H0 Hp HD.
  pose proof (paso_clientes _ _ HI Hp) as (He & _ & _ & _ & _ & _ & Hcl).
  cbv zeta in He, Hcl.
  pose proof (sin_servidores_sin_fin _ _ _ _ HS Hk H0 He) as Hf.
  split; [|done].
  intros i c' m Hc' Hm.
  destruct (Hcl _ _ Hc') as [(c & Hc & (_ & Hr & Hi & _) & _)
                            | [(_ & _ & _ & Hi & _)
                            | (c & Hc & Ht & Hid & _ & Hr & _ & Hi & Hen & _)]].
  - rewrite Hi. rewrite Hr in Hm. by eapply HD.
  - lia.
  - rewrite Hr in Hm. pose proof (HD _ _ _ Hc Hm) as Hle.
    destruct (sinv_evento _ HS _ He Ht) as (c0 & Hc0 & Hl0).
    rewrite Hid, Nat2Z.id, Hc in Hc0. injection Hc0 as <-.
    destruct (inv_cliente _ HI _ _ Hc) as (_ & _ & Hpos).
    destruct (decide (Cliente.indiceEstacionActual c = Z.of_nat m)) as [Heq|]; [|lia].
    exfalso. rewrite Heq, Nat2Z.id, Hm in Hl0. injection Hl0 as Hke.
    unfold es_fin_en in Hf. rewrite Ht, <- Hke, Z.eqb_refl in Hf. done.
Qed.

Lemma Corrida_Detenidos s0 tr s (k : nat) est0 :
  Inv s0 → SInv s0 → estaciones s0 !! k = Some est0 →
  Estacion.numServidores est0 = 0%Z → clientes s0 = [] →
  Corrida s0 tr s →
  Detenidos (Z.of_nat k) s ∧ cuenta (es_fin_en (Z.of_nat k)) tr = 0.
Proof.
  intros HI HS Hk H0 Hcl Hc.
  induction Hc as [|tr s s' Hc [IH1 IH2] Hp].
  - split; [|done]. intros i c m Hi. by rewrite Hcl in Hi.
  - pose proof (Corrida_Inv _ _ _ HI Hc) as HIs.
    pose proof (Corrida_SInv _ _ _ HI HS Hc) as HSs.
    pose proof (Corrida_cuentas _ _ _ HI HS Hc) as Hn.
    assert (∃ est, estaciones s !! k = Some est ∧ Estacion.numServidores est = 0%Z)
      as (est & Hke & Hze).
    { apply (f_equal (λ l, l !! k)) in Hn. rewrite !list_lookup_fmap, Hk in Hn.
      destruct (estaciones s !! k) as [est|]; [|done].
      exists est. split; [done|]. simpl in Hn. congruence. }
    destruct (paso_Detenidos _ _ _ _ HIs HSs Hke Hze Hp IH1) as [HD Hf].
    split; [done|]. rewrite cuenta_snoc, IH2, Hf. done.
Qed.

(** X12. A station configured with no server never serves: in every
    state of a run no end of service is scheduled or was processed at it,
    its counter of customers served is 0, no customer has gone past a
    visit to it, and no customer whose route contains it is in the
    completed list. *)
Theorem X12_estacion_sin_servidores (config : ConfiguracionServidores.t)
    (sp s0 : SimulacionColas) (tr : list Evento.t) (s : SimulacionColas)
    (k : nat) :
  inicializar config sp = Some s0 → Corrida s0 tr s →
  [ConfiguracionServidores.cajas config;
   ConfiguracionServidores.refrescos config;
   ConfiguracionServidores.freidora config;
   ConfiguracionServidores.postres config;
   ConfiguracionServidores.pollo config] !! k = Some 0%Z →
  (∀ e, e ∈ eventos s ∨ e ∈ tr →
     ¬ (Evento.tipo e = FIN_SERVICIO ∧ Evento.idEstacion e = Z.of_nat k)) ∧
  (∃ est, estaciones s !! k = Some est ∧
          Estacion.servidorOcupado est = [] ∧
          Estacion.hayServidorDisponible est = false ∧
          Estacion.totalAtendidos est = 0%Z) ∧
  (∀ i c m, clientes s !! i = Some c →
     Cliente.estaciones c !! m = Some (Z.of_nat k) →
     (Cliente.indiceEstacionActual c ≤ Z.of_nat m)%Z) ∧
  ∀ d, d ∈ clientesCompletados s → Z.of_nat k ∉ Cliente.estaciones d.
Proof.
  intros Hini Hc H0.
  pose proof (inicializar_Inv _ _ _ Hini) as HI.
  pose proof (inicializar_SInv _ _ _ Hini) as HS.
  destruct (inicializar_clientes _ _ _ Hini) as (Hcl & _).
  destruct (inicializar_cuentas _ _ _ Hini) as [Hn0 Ht0].
  rewrite <- Hn0, list_lookup_fmap in H0.
  destruct (estaciones s0 !! k) as [est0|] eqn:Hk0; [|done].
  injection H0 as H0.
  destruct (Corrida_Detenidos _ _ _ _ _ HI HS Hk0 H0 Hcl Hc) as [HD Htr].
  pose proof (Corrida_Inv _ _ _ HI Hc) as HIs.
  pose proof (Corrida_SInv _ _ _ HI HS Hc) as HSs.
  pose proof (Corrida_cuentas _ _ _ HI HS Hc) as Hn.
  assert (∃ est, estaciones s !! k = Some est ∧ Estacion.numServidores est = 0%Z)
    as (est & Hke & Hze).
  { apply (f_equal (λ l, l !! k)) in Hn. rewrite !list_lookup_fmap, Hk0 in Hn.
    destruct (estaciones s !! k) as [est|]; [|done].
    exists est. split; [done|]. simpl in Hn. congruence. }
  assert (Hfin : ∀ e, es_fin_en (Z.of_nat k) e = false →
            ¬ (Evento.tipo e = FIN_SERVICIO ∧ Evento.idEstacion e = Z.of_nat k)).
  { intros e Hf [Ht Hid]. unfold es_fin_en in Hf.
    by rewrite Ht, Hid, Z.eqb_refl in Hf. }
  split; [|split; [|split]].
  - intros e [He | He]; apply Hfin.
    + by eapply sin_servidores_sin_fin.
    + destruct (es_fin_en (Z.of_nat k) e) eqn:Hf; [|done].
      pose proof (cuenta_elem _ _ _ He Hf). lia.
  - exists est. split; [done|].
    destruct (sinv_forma _ HSs _ _ Hke) as (_ & _ & Hl). rewrite Hze in Hl.
    destruct (Estacion.servidorOcupado est) as [|b l] eqn:Hso; [|done].
    split; [done|]. split.
    + unfold Estacion.hayServidorDisponible. by rewrite Hso.
    + destruct (Corrida_sirvio _ _ _ _ _ HI HS Hc Hke) as (est0' & H0' & _ & ->).
      rewrite Hk0 in H0'. injection H0' as <-.
      rewrite (Ht0 _ _ Hk0), Htr. done.
  - done.
  - intros d Hd Hin.
    destruct (inv_copia _ HIs _ Hd) as [Hpos Hcd].
    pose proof (inv_completado _ HIs _ _ Hcd) as Hco.
    rewrite Z2Nat.id in Hco by done.
    assert (0 < completado (Cliente.id d) s).
    { apply (cuenta_elem _ _ d Hd). apply Z.eqb_refl. }
    destruct (en_ruta d) eqn:Hen; [lia|].
    apply list_elem_of_lookup in Hin as [m Hm].
    pose proof (HD _ _ _ Hcd Hm) as Hle.
    apply lookup_lt_Some in Hm.
    unfold en_ruta in Hen. apply Z.ltb_ge in Hen. lia.
Qed.

End SinServidores.

(** ** The search of [main] *)

Section Busqueda.
Context `{Di : Distribuciones} `{Cp : !ColaPrioridad}.
Context {HCp : ColaPrioridadOk} {HL : LeyesOrden}.
Implicit Types (s : SimulacionColas) (e : Evento.t) (c : Cliente.t).

Implicit Types (st : Estadisticas.t) (m : Muestras).

(** A replica without cashiers completes nobody. *)
Lemma replica_sin_cajas n config i st :
  ConfiguracionServidores.cajas config = 0%Z →
  replica n config i = Some st → st = sin_replicas.
Proof.
  intros H0. unfold replica, ejecutar.
  destruct (inicializar _ _) as [s0|] eqn:Hini; [|done]. simpl.
  destruct (bucle n s0) as [sb|] eqn:Hb; [|done]. simpl. intros [= <-].
  destruct (bucle_Corrida _ _ _ Hb) as (tr & Hc & _).
  destruct (Corrida_SinCajas _ _ _ (inicializar_Inv _ _ _ Hini)
              (inicializar_SinCajas _ _ _ Hini H0) Hc) as (_ & Hco & _).
  unfold getEstadisticas.
  change (clientesCompletados (con_tiempoFinalReal (tiempoActual sb) sb))
    with (clientesCompletados sb).
  by rewrite Hco.
Qed.

Lemma replicas_sin_cajas n config indices l :
  ConfiguracionServidores.cajas config = 0%Z →
  mapM (replica n config) indices = Some l → validas l = [].
Proof.
  intros H0. revert l. induction indices as [|i r IH]; intros l; simpl.
  - by intros [= <-].
  - destruct (replica n config i) as [st|] eqn:Hr; [|done]. simpl.
    destruct (mapM _ r) as [l'|]; [|done]. simpl. intros [= <-].
    rewrite (replica_sin_cajas _ _ _ _ H0 Hr).
    unfold validas. rewrite filter_cons_False by (simpl; lia).
    by apply IH.
Qed.

(** Utilizations of [0] are below the arrival rate [0.8]. *)
Lemma sin_replicas_estable : Estadisticas.esEstable sin_replicas = true.
Proof.
  unfold Estadisticas.esEstable, sin_replicas. simpl.
  assert (H : mayor_igual cero (decimal 8 10) = false).
  { pose proof tasa_llegada_pos as Hp.
    unfold mayor_igual, mayor. rewrite (menor_asim _ _ Hp). simpl.
    destruct (igual cero (decimal 8 10)) eqn:He; [|done].
    destruct (igual_menor _ _ (decimal 8 10) He) as [Hm _].
    rewrite Hp, menor_irrefl in Hm. done. }
  by rewrite H.
Qed.

Lemma replicas_Some N n config z :
  ReplicasAcotadas N config → cuentas_no_negativas config → 1 + 11 * N ≤ n →
  is_Some (ejecutarMultiplesReplicas n config z).
Proof.
  intros HA Hc Hn. rewrite replicas_promedio.
  destruct (replicas_terminan N n config
              (Z.of_nat <$> seq 0 (Z.to_nat z)) HA Hc Hn) as [l ->].
  by eexists.
Qed.

(** X13. With no cashier and no negative count the replicas complete
    nobody, so [ejecutarMultiplesReplicas], which returns when no run of
    a replica has more than [N] customers, returns zeros, which
    [esEstable] accepts; the search of [main] takes such a configuration
    of 12 servers as the best so far, with a wait of 0, whenever the
    best wait so far is positive. *)
Theorem X13_sin_cajas_preferida (N n : nat) (config : ConfiguracionServidores.t)
    (numReplicas : Z) (mejor : double * ConfiguracionServidores.t) :
  ReplicasAcotadas N config → 1 + 11 * N ≤ n →
  cuentas_no_negativas config →
  ConfiguracionServidores.cajas config = 0%Z →
  ejecutarMultiplesReplicas n config numReplicas = Some sin_replicas ∧
  Estadisticas.esEstable sin_replicas = true ∧
  (ConfiguracionServidores.total config = 12%Z →
   probar n mejor config
   = Some (if menor cero (fst mejor) then (cero, config) else mejor)).
Proof.
  intros HA Hn Hc H0.
  assert (Hr : ∀ z, ejecutarMultiplesReplicas n config z = Some sin_replicas).
  { intros z. destruct (replicas_Some N n config z HA Hc Hn) as [st Hst].
    rewrite Hst. rewrite replicas_promedio in Hst.
    destruct (mapM _ _) as [l|] eqn:Hl; [|done]. simpl in Hst.
    rewrite (replicas_sin_cajas _ _ _ _ H0 Hl) in Hst. done. }
  pose proof sin_replicas_estable as He.
  split; [done|]. split; [done|].
  intros Ht. unfold probar. rewrite Ht, Hr. simpl. rewrite He. simpl.
  by destruct (menor cero (fst mejor)).
Qed.

(** From a best wait that is a NaN the search returns what it started
    from: no wait is below a NaN. *)
Lemma buscar_nan n configs mejor res :
  ¬ es_numero (fst mejor) → buscar n configs mejor = Some res → res = mejor.
Proof.
  intros Hn. revert res. induction configs as [|config r IH]; intros res; simpl.
  - by intros [= <-].
  - unfold probar. destruct (negb _); simpl; [apply IH|].
    destruct (ejecutarMultiplesReplicas n config 10) as [stats|]; [|done]. simpl.
    destruct (negb _); simpl; [apply IH|].
    destruct (menor _ _) eqn:Hlt; simpl; [|apply IH].
    apply menor_numero in Hlt as [_ Hlt]. done.
Qed.

Lemma buscar_minima N n configs mejor :
  es_numero (fst mejor) → 1 + 11 * N ≤ n →
  (∀ config, config ∈ configs → ConfiguracionServidores.total config = 12%Z →
             cuentas_no_negativas config ∧ ReplicasAcotadas N config) →
  ∃ res, buscar n configs mejor = Some res ∧
    es_numero (fst res) ∧
    no_mayor (fst res) (fst mejor) ∧
    (res = mejor ∨
     ∃ config stats, config ∈ configs ∧
       ConfiguracionServidores.total config = 12%Z ∧
       ejecutarMultiplesReplicas n config 10 = Some stats ∧
       Estadisticas.esEstable stats = true ∧
       res = (Estadisticas.tiempoEsperaPromedio stats, config)) ∧
    ∀ config stats, config ∈ configs →
      ConfiguracionServidores.total config = 12%Z →
      ejecutarMultiplesReplicas n config 10 = Some stats →
      Estadisticas.esEstable stats = true →
      no_mayor (fst res) (Estadisticas.tiempoEsperaPromedio stats).
Proof.
  intros Hnum Hn. revert mejor Hnum.
  induction configs as [|config r IH]; intros mejor Hnum Hc.
  - exists mejor. split; [done|]. split; [done|]. split; [apply menor_irrefl|].
    split; [by left|]. intros config stats Hin. by apply elem_of_nil in Hin.
  - assert (Hr : ∀ config0, config0 ∈ r →
              ConfiguracionServidores.total config0 = 12%Z →
              cuentas_no_negativas config0 ∧ ReplicasAcotadas N config0).
    { intros config0 Hin. apply Hc. by right. }
    simpl. unfold probar.
    destruct (ConfiguracionServidores.total config =? 12)%Z eqn:Ht; simpl.
    + apply Z.eqb_eq in Ht.
      assert (Hin0 : config ∈ config :: r) by left.
      destruct (Hc _ Hin0 Ht) as [Hcn HA].
      destruct (replicas_Some N n config 10 HA Hcn Hn) as [stats Hst].
      rewrite Hst. simpl.
      destruct (Estadisticas.esEstable stats) eqn:Hes; simpl.
      * destruct (menor (Estadisticas.tiempoEsperaPromedio stats) (fst mejor))
          eqn:Hlt; simpl.
        -- pose proof (menor_numero _ _ Hlt) as [Hw _].
           destruct (IH (Estadisticas.tiempoEsperaPromedio stats, config) Hw Hr)
             as (res & Hres & Hrn & Hle & Hor & Hmin).
           exists res. split; [done|]. split; [done|]. simpl in Hle. split.
           { apply (no_mayor_trans _ _ _ Hw Hle). by apply menor_asim. }
           split.
           { right. destruct Hor as [-> | (c0 & st0 & Hin & ?)].
             - exists config, stats. split; [left|]; done.
             - exists c0, st0. split; [by right | done]. }
           intros c0 st0 Hin Ht0 Hst0 Hes0.
           apply elem_of_cons in Hin as [-> | Hin]; [|by eapply Hmin].
           rewrite Hst in Hst0. injection Hst0 as <-. done.
        -- destruct (IH mejor Hnum Hr) as (res & Hres & Hrn & Hle & Hor & Hmin).
           exists res. split; [done|]. split; [done|]. split; [done|]. split.
           { destruct Hor as [-> | (c0 & st0 & Hin & ?)]; [by left|].
             right. exists c0, st0. split; [by right | done]. }
           intros c0 st0 Hin Ht0 Hst0 Hes0.
           apply elem_of_cons in Hin as [-> | Hin]; [|by eapply Hmin].
           rewrite Hst in Hst0. injection Hst0 as <-.
           apply (no_mayor_trans _ _ _ Hnum Hle). exact Hlt.
      * destruct (IH mejor Hnum Hr) as (res & Hres & Hrn & Hle & Hor & Hmin).
        exists res. split; [done|]. split; [done|]. split; [done|]. split.
        { destruct Hor as [-> | (c0 & st0 & Hin & ?)]; [by left|].
          right. exists c0, st0. split; [by right | done]. }
        intros c0 st0 Hin Ht0 Hst0 Hes0.
        apply elem_of_cons in Hin as [-> | Hin]; [|by eapply Hmin].
        rewrite Hst in Hst0. injection Hst0 as <-. congruence.
    + destruct (IH mejor Hnum Hr) as (res & Hres & Hrn & Hle & Hor & Hmin).
      exists res. split; [done|]. split; [done|]. split; [done|]. split.
      { destruct Hor as [-> | (c0 & st0 & Hin & ?)]; [by left|].
        right. exists c0, st0. split; [by right | done]. }
      intros c0 st0 Hin Ht0 Hst0 Hes0.
      apply elem_of_cons in Hin as [-> | Hin]; [|by eapply Hmin].
      apply Z.eqb_neq in Ht. done.
Qed.

Lemma buscar_Some N n configs mejor :
  1 + 11 * N ≤ n →
  (∀ config, config ∈ configs → ConfiguracionServidores.total config = 12%Z →
             cuentas_no_negativas config ∧ ReplicasAcotadas N config) →
  is_Some (buscar n configs mejor).
Proof.
  intros Hn. revert mejor. induction configs as [|config r IH]; intros mejor Hc;
    [by eexists|].
  assert (Hr : ∀ config0, config0 ∈ r →
            ConfiguracionServidores.total config0 = 12%Z →
            cuentas_no_negativas config0 ∧ ReplicasAcotadas N config0).
  { intros config0 Hin. apply Hc. by right. }
  simpl. unfold probar.
  destruct (ConfiguracionServidores.total config =? 12)%Z eqn:Ht; simpl;
    [|by apply IH].
  apply Z.eqb_eq in Ht.
  assert (Hin0 : config ∈ config :: r) by left.
  destruct (Hc _ Hin0 Ht) as [Hcn HA].
  destruct (replicas_Some N n config 10 HA Hcn Hn) as [stats ->]. simpl.
  destruct (negb _); simpl; [by apply IH|].
  destruct (menor _ _); simpl; by apply IH.
Qed.

(** X14. The search of [main], from the best wait and configuration so
    far over a list of candidates of which those with 12 servers have no
    negative count and no more than [N] customers in a run of a replica,
    returns; the wait it returns is not above the one it started from,
    nor above the mean wait of any candidate with 12 servers whose
    replicas [esEstable] accepts; and it returns what it started from,
    or such a candidate with its mean wait. *)
Theorem X14_busqueda_minima (N n : nat)
    (configs : list ConfiguracionServidores.t)
    (mejor : double * ConfiguracionServidores.t) :
  1 + 11 * N ≤ n →
  (∀ config, config ∈ configs → ConfiguracionServidores.total config = 12%Z →
             cuentas_no_negativas config ∧ ReplicasAcotadas N config) →
  ∃ res, buscar n configs mejor = Some res ∧
    no_mayor (fst res) (fst mejor) ∧
    (res = mejor ∨
     ∃ config stats, config ∈ configs ∧
       ConfiguracionServidores.total config = 12%Z ∧
       ejecutarMultiplesReplicas n config 10 = Some stats ∧
       Estadisticas.esEstable stats = true ∧
       res = (Estadisticas.tiempoEsperaPromedio stats, config)) ∧
    ∀ config stats, config ∈ configs →
      ConfiguracionServidores.total config = 12%Z →
      ejecutarMultiplesReplicas n config 10 = Some stats →
      Estadisticas.esEstable stats = true →
      no_mayor (fst res) (Estadisticas.tiempoEsperaPromedio stats).
Proof.
  intros Hn Hc. destruct (igual (fst mejor) (fst mejor)) eqn:Hnum.
  - destruct (buscar_minima N n configs mejor Hnum Hn Hc)
      as (res & Hres & _ & H).
    by exists res.
  - assert (Hnan : ¬ es_numero (fst mejor)) by (unfold es_numero; congruence).
    destruct (buscar_Some N n configs mejor Hn Hc) as [res Hres].
    pose proof (buscar_nan _ _ _ _ Hnan Hres) as ->.
    exists mejor. split; [done|]. split; [apply menor_irrefl|].
    split; [by left|]. intros config stats _ _ _ _.
    unfold no_mayor. destruct (menor _ (fst mejor)) eqn:Hlt; [|done].
    apply menor_numero in Hlt as [_ Hlt]. done.
Qed.

End Busqueda.

(** ** Maximum and minimum *)

Section Puntos.

Context `{Ar : Aritmetica}.
Hypothesis menor_irreflexiva : ∀ a : double, menor a a = false.
Hypothesis menor_asimetrica : ∀ a b : double, menor a b = true → menor b a = false.

Lemma max_double_cotas (a b : double) :
  no_mayor a (max_double a b) ∧ no_mayor b (max_double a b).
Proof.
  unfold max_double, no_mayor. destruct (menor a b) eqn:H.
  - split; [by apply menor_asimetrica | apply menor_irreflexiva].
  - split; [apply menor_irreflexiva | done].
Qed.

Lemma min_double_cotas (a b : double) :
  no_mayor (min_double a b) a ∧ no_mayor (min_double a b) b.
Proof.
  unfold min_double, no_mayor. destruct (menor b a) eqn:H.
  - split; [by apply menor_asimetrica | apply menor_irreflexiva].
  - split; [apply menor_irreflexiva | done].
Qed.

Lemma max_double_elige (a b : double) : max_double a b = a ∨ max_double a b = b.
Proof. unfold max_double. destruct (menor a b); auto. Qed.

End Puntos.

(** ** The points of [main] *)

Section Puntos2.

Context `{Ar : Aritmetica}.

(** X15. When [<] is irreflexive and asymmetric and [0 < 50], as in
    binary64, the points [main] gives for the mean waiting time lie
    between 0 and 50, whatever the waiting time obtained, a NaN
    included. *)
Theorem X15_puntos_acotados (W_obtenido : double) :
  (∀ a : double, menor a a = false) →
  (∀ a b : double, menor a b = true → menor b a = false) →
  menor cero (de_int 50) = true →
  no_mayor cero (puntosMedia W_obtenido) ∧
  no_mayor (puntosMedia W_obtenido) (de_int 50).
Proof.
  intros Hirr Hasim H50.
  unfold puntosMedia. cbv zeta.
  set (puntos := mult _ _).
  split; [by apply max_double_cotas|].
  destruct (max_double_elige cero (min_double (de_int 50) puntos)) as [-> | ->].
  - unfold no_mayor. by apply Hasim.
  - by apply min_double_cotas.
Qed.

End Puntos2.

(** ** Configurations within a budget *)

Section Presupuesto.

Implicit Types (config : ConfiguracionServidores.t).

Lemma filter_bind {A B} (P : B → Prop) `{∀ x, Decision (P x)}
    (f : A → list B) (l : list A) :
  filter P (l ≫= f) = l ≫= (λ x, filter P (f x)).
Proof.
  induction l as [|x l IH]; [done|].
  rewrite !bind_cons, filter_app, IH. done.
Qed.

Lemma generar_filter presupuestoMax :
  generarConfiguracionesEnPresupuesto presupuestoMax
  = filter (λ config,
              (ConfiguracionServidores.calcularCosto config ≤ presupuestoMax)%Z)
           configuraciones_en_rango.
Proof.
  unfold generarConfiguracionesEnPresupuesto, configuraciones_en_rango.
  do 5 (rewrite filter_bind; apply list_bind_ext; [intros ?|done]).
  cbv zeta. rewrite filter_cons, filter_nil.
  destruct (decide _) as [Hd|Hd];
    [rewrite (proj2 (Z.leb_le _ _) Hd) | rewrite (proj2 (Z.leb_gt _ _))];
    [done | done | lia].
Qed.

Lemma en_rango_elem config : config ∈ configuraciones_en_rango ↔ en_rango config.
Proof.
  split.
  - unfold configuraciones_en_rango. intros H.
    repeat (apply list_elem_of_bind in H as (? & H & ?)).
    apply list_elem_of_singleton in H. subst config.
    unfold en_rango. simpl. set_unfold. lia.
  - destruct config as [c r f p pl]. unfold en_rango. simpl.
    intros (Hc & Hr & Hf & Hp & Hpl). unfold configuraciones_en_rango.
    apply list_elem_of_bind. exists c. split; [|set_unfold; lia].
    apply list_elem_of_bind. exists r. split; [|set_unfold; lia].
    apply list_elem_of_bind. exists f. split; [|set_unfold; lia].
    apply list_elem_of_bind. exists p. split; [|set_unfold; lia].
    apply list_elem_of_bind. exists pl. split; [|set_unfold; lia].
    by apply list_elem_of_singleton.
Qed.

Lemma configuraciones_en_rango_NoDup : NoDup configuraciones_en_rango.
Proof.
  assert (H4 : NoDup [1; 2; 3; 4]%Z)
    by (repeat (apply NoDup_cons; split; [set_unfold; lia|]); apply NoDup_nil_2).
  assert (H3 : NoDup [1; 2; 3]%Z)
    by (repeat (apply NoDup_cons; split; [set_unfold; lia|]); apply NoDup_nil_2).
  assert (H2 : NoDup [0; 1; 2]%Z)
    by (repeat (apply NoDup_cons; split; [set_unfold; lia|]); apply NoDup_nil_2).
  unfold configuraciones_en_rango.
  repeat (apply NoDup_bind;
          [ intros ? ? ? _ _ Hy1 Hy2;
            repeat (apply list_elem_of_bind in Hy1 as (? & Hy1 & _));
            repeat (apply list_elem_of_bind in Hy2 as (? & Hy2 & _));
            apply list_elem_of_singleton in Hy1, Hy2; congruence
          | intros ? _
          | done ]).
  apply NoDup_singleton.
Qed.

(** X16. [generarConfiguracionesEnPresupuesto(presupuestoMax)] lists,
    each once, exactly the configurations with 1 to 4 cashiers, 1 to 3
    drink and fryer servers, 0 to 2 dessert servers and 1 to 4 chicken
    servers that [cumplePresupuesto(presupuestoMax)] accepts; the list is
    empty exactly below the cost 1550 of the cheapest of them. *)
Theorem X16_configuraciones_en_presupuesto (presupuestoMax : Z) :
  (∀ config,
     config ∈ generarConfiguracionesEnPresupuesto presupuestoMax ↔
     ((1 ≤ ConfiguracionServidores.cajas config ≤ 4)%Z ∧
      (1 ≤ ConfiguracionServidores.refrescos config ≤ 3)%Z ∧
      (1 ≤ ConfiguracionServidores.freidora config ≤ 3)%Z ∧
      (0 ≤ ConfiguracionServidores.postres config ≤ 2)%Z ∧
      (1 ≤ ConfiguracionServidores.pollo config ≤ 4)%Z) ∧
     ConfiguracionServidores.cumplePresupuesto presupuestoMax config = true) ∧
  NoDup (generarConfiguracionesEnPresupuesto presupuestoMax) ∧
  (generarConfiguracionesEnPresupuesto presupuestoMax = [] ↔
   (presupuestoMax < 1550)%Z).
Proof.
  assert (Hm : ∀ config,
    config ∈ generarConfiguracionesEnPresupuesto presupuestoMax ↔
    en_rango config ∧
    ConfiguracionServidores.cumplePresupuesto presupuestoMax config = true).
  { intros config. rewrite generar_filter, list_elem_of_filter, en_rango_elem.
    unfold ConfiguracionServidores.cumplePresupuesto. rewrite Z.leb_le. tauto. }
  split; [exact Hm|]. split.
  - rewrite generar_filter. apply NoDup_filter, configuraciones_en_rango_NoDup.
  - split.
    + intros He.
      destruct (decide (presupuestoMax < 1550)%Z) as [|Hge]; [done|]. exfalso.
      assert (Hin : ConfiguracionServidores.mk 1 1 1 0 1
                      ∈ generarConfiguracionesEnPresupuesto presupuestoMax).
      { apply Hm. split; [unfold en_rango; simpl; lia|].
        apply Z.leb_le.
        change (ConfiguracionServidores.calcularCosto
                  (ConfiguracionServidores.mk 1 1 1 0 1)) with 1550%Z. lia. }
      rewrite He in Hin. by apply elem_of_nil in Hin.
    + intros Hlt.
      destruct (generarConfiguracionesEnPresupuesto presupuestoMax)
        as [|config l]; [done|]. exfalso.
      assert (Hin : config ∈ config :: l) by left.
      apply Hm in Hin as [(Hc & Hr & Hf & Hp & Hpl) Hle].
      apply Z.leb_le in Hle.
      unfold ConfiguracionServidores.calcularCosto,
        ConfiguracionServidores.COSTO_CAJA, ConfiguracionServidores.COSTO_REFRESCOS,
        ConfiguracionServidores.COSTO_FREIDORA, ConfiguracionServidores.COSTO_POSTRES,
        ConfiguracionServidores.COSTO_POLLO in Hle.
      lia.
Qed.

End Presupuesto.

(** ** The instances satisfy the laws *)

Section ColaListaOk.
Context `{Ar : Aritmetica} {HL : LeyesOrden} {HE : LeyesExactas}.

Lemma extraer_min_perm (e : Evento.t) (l : list Evento.t) :
  e :: l ≡ₚ fst (extraer_min e l) :: snd (extraer_min e l).
Proof.
  revert e. induction l as [|x r IH]; intros e; simpl; [done|].
  specialize (IH x). destruct (extraer_min x r) as [m r'].
  destruct (Evento.gt e m); simpl in *; [|done].
  rewrite IH. apply Permutation_swap.
Qed.

Lemma extraer_min_menor (e : Evento.t) (l : list Evento.t) (y : Evento.t) :
  y ∈ e :: l → Evento.gt (fst (extraer_min e l)) y = false.
Proof.
  revert e y. induction l as [|x r IH]; intros e y Hy; simpl.
  - apply list_elem_of_singleton in Hy. subst y. apply menor_irrefl.
  - specialize (IH x). destruct (extraer_min x r) as [m r']. simpl in IH.
    destruct (Evento.gt e m) eqn:Hg; simpl.
    + apply elem_of_cons in Hy as [->|Hy]; [|by apply IH].
      by apply menor_asim.
    + apply elem_of_cons in Hy as [->|Hy]; [apply menor_irrefl|].
      apply (no_mayor_trans _ (Evento.tiempo m));
        [apply todo_numero | exact Hg | by apply IH].
Qed.

(** Without NaN among the times, the list is a priority queue. *)
Lemma Cola_lista_ok : @ColaPrioridadOk Ar Cola_lista.
Proof.
  split; simpl.
  - done.
  - intros [|e l]; by split.
  - done.
  - intros e q. symmetry. apply Permutation_cons_append.
  - intros [|e l] Hq; [done|]. apply extraer_min_perm.
  - intros [|e l] y Hq Hy; [done|]. by apply extraer_min_menor.
Qed.
End ColaListaOk.

Section LeyesQ.
Open Scope Q_scope.

Lemma Q_no_mayor (a b : Q) : @no_mayor Arit_Q a b ↔ a <= b.
Proof.
  unfold no_mayor. simpl. rewrite negb_false_iff. apply Qle_bool_iff.
Qed.

Lemma Q_menor (a b : Q) : @menor Arit_Q a b = true ↔ a < b.
Proof.
  simpl. rewrite negb_true_iff. split.
  - intros H. apply Qnot_le_lt. intros Hle. apply Qle_bool_iff in Hle. congruence.
  - intros H. destruct (Qle_bool b a) eqn:Hb; [|done].
    apply Qle_bool_iff in Hb. exfalso. by apply (Qlt_not_le _ _ H).
Qed.

Lemma Q_menor_falso (a b : Q) : @menor Arit_Q a b = false ↔ b <= a.
Proof. apply Q_no_mayor. Qed.

Lemma Q_igual (a b : Q) : @igual Arit_Q a b = true ↔ a == b.
Proof. apply Qeq_bool_iff. Qed.

Lemma Q_igual_falso (a : Q) : Qeq_bool a 0 = false ↔ ¬ a == 0.
Proof.
  split.
  - intros H Heq. apply Qeq_bool_iff in Heq. congruence.
  - intros H. destruct (Qeq_bool a 0) eqn:Ha; [|done].
    apply Qeq_bool_iff in Ha. done.
Qed.

Lemma Q_numero (a : Q) : @es_numero Arit_Q a.
Proof. apply Qeq_bool_refl. Qed.

Ltac en_Q :=
  simpl; rewrite ?Qred_correct;
  change (@cero Arit_Q) with 0 in *; change (inject_Z 0) with 0 in *.

Lemma Leyes_Q : @LeyesOrden Arit_Q.
Proof.
  split.
  - intros a. apply Q_no_mayor. apply Qle_refl.
  - intros a b H. apply Q_menor in H. apply Q_no_mayor. by apply Qlt_le_weak.
  - intros a b _. split; apply Q_numero.
  - intros a b c _ H1 H2. apply Q_no_mayor in H1, H2. apply Q_no_mayor.
    by apply (Qle_trans _ b).
  - intros a b c _ H1 H2. apply Q_menor in H1. apply Q_no_mayor in H2.
    apply Q_menor. by apply (Qlt_le_trans _ b).
  - intros a b _ _ H1 H2. apply Q_menor_falso in H1, H2. apply Q_igual.
    by apply Qle_antisym.
  - intros a b c H. apply Q_igual in H.
    split; apply Bool.eq_iff_eq_true; rewrite !Q_menor, H; done.
  - done.
  - vm_compute. reflexivity.
  - vm_compute. reflexivity.
  - vm_compute. reflexivity.
  - vm_compute. reflexivity.
Qed.

Lemma Suma_Q : @LeyesSuma Arit_Q.
Proof.
  split.
  - intros a b H. apply Q_no_mayor in H. apply Q_no_mayor. en_Q. lra.
  - intros a b H. apply Q_no_mayor in H. apply Q_no_mayor. en_Q. lra.
  - intros n a Hn H. apply Q_no_mayor in H. apply Q_no_mayor. en_Q.
    apply Qmult_le_0_compat; [|done].
    unfold Qle. simpl. lia.
  - intros a b _ _ _ _. apply Q_numero.
  - intros a b _. apply Q_numero.
  - intros n. apply Q_numero.
  - intros n Hn. apply Q_no_mayor. unfold Qle. simpl. lia.
  - intros n a _ _. apply Q_numero.
  - intros n a Hn Ha. apply Q_igual_falso in Ha. apply Q_igual_falso.
    simpl. rewrite Qred_correct. intros H.
    apply Qmult_integral in H as [H|H]; [|by apply Ha].
    apply Hn. unfold Qeq in H. simpl in H. lia.
  - intros a b Ha Hb. apply Q_igual in Ha, Hb. apply Q_igual. en_Q.
    rewrite Ha, Hb. reflexivity.
  - intros a b Ha Hb. apply Q_igual in Ha, Hb. apply Q_igual. en_Q.
    rewrite Ha, Hb. reflexivity.
  - intros n a Ha. apply Q_igual in Ha. apply Q_igual. en_Q.
    rewrite Ha. apply Qmult_0_r.
  - intros a b Ha _ _. apply Q_igual in Ha. apply Q_igual. en_Q.
    rewrite Ha. unfold Qdiv. apply Qmult_0_l.
Qed.

Lemma Exactas_Q : @LeyesExactas Arit_Q.
Proof.
  split.
  - apply Q_numero.
  - intros a b c d H1 H2. apply Q_no_mayor in H1, H2. apply Q_no_mayor.
    en_Q. by apply Qplus_le_compat.
Qed.

Lemma Dist_lcg_ok : @DistribucionesOk Arit_Q Dist_lcg.
Proof.
  split.
  - intros lambda g Hl. split; [apply Q_numero|].
    apply Q_menor in Hl. apply Q_no_mayor.
    unfold lcg_exponential. en_Q.
    apply Qle_shift_div_l; [done|]. rewrite Qmult_0_l.
    unfold Qle. simpl.
    pose proof (Z.mod_pos_bound (lcg g / 65536) 16). lia.
  - intros p g. simpl. unfold lcg_geometric. simpl.
    pose proof (Z.mod_pos_bound (lcg g / 65536) 8). lia.
  - intros a b g Hab. apply Q_no_mayor in Hab.
    apply (proj2 (Q_no_mayor a _)). unfold lcg_uniform. en_Q.
    assert (0 <= (lcg g / 65536) mod 1000 # 1000).
    { unfold Qle. simpl.
      pose proof (Z.mod_pos_bound (lcg g / 65536) 1000). lia. }
    assert (0 <= (b - a) * ((lcg g / 65536) mod 1000 # 1000)).
    { apply Qmult_le_0_compat; [lra | done]. }
    lra.
Qed.

(** A generator whose gaps are all [0] is within the ranges too. *)
Lemma Dist_cero_ok : @DistribucionesOk Arit_Q Dist_cero.
Proof.
  split.
  - intros lambda g _. split; [apply Q_numero | done].
  - intros p g. simpl. unfold lcg_geometric. simpl.
    pose proof (Z.mod_pos_bound (lcg g / 65536) 8). lia.
  - intros a b g Hab. apply Q_no_mayor in Hab.
    apply (proj2 (Q_no_mayor a _)). simpl. unfold lcg_uniform. en_Q.
    assert (0 <= (lcg g / 65536) mod 1000 # 1000).
    { unfold Qle. simpl.
      pose proof (Z.mod_pos_bound (lcg g / 65536) 1000). lia. }
    assert (0 <= (b - a) * ((lcg g / 65536) mod 1000 # 1000)).
    { apply Qmult_le_0_compat; [lra | done]. }
    lra.
Qed.
End LeyesQ.

(** *** The order of binary64

    [<] and [==] of binary64 compare the places of their operands in the
    order, [clave], and are false when an operand has none. *)
Section LeyesBinary64.

Lemma compare_cont_Eq (m1 m2 : positive) :
  Pos.compare_cont Eq m1 m2 = (Z.pos m1 ?= Z.pos m2)%Z.
Proof. reflexivity. Qed.

Lemma SFltb_clave (x y : spec_float) :
  SFltb x y = true ↔
  ∃ a b, clave x = Some a ∧ clave y = Some b ∧ clave_menor a b.
Proof.
  unfold SFltb, clave_menor.
  destruct x as [sx|sx| |sx mx ex], y as [sy|sy| |sy my ey]; simpl;
    try (split; [done | by intros (a & b & ? & ? & _)]);
    try destruct sx; try destruct sy; simpl;
    rewrite ?compare_cont_Eq;
    try (destruct (Z.compare_spec ex ey);
         try destruct (Z.compare_spec (Z.pos mx) (Z.pos my)); simpl);
    (split;
     [intros Hx;
      first [done
            | eexists _, _; split; [reflexivity|]; split; [reflexivity|];
              simpl; lia]
     | intros (a & b & [= <-] & [= <-] & Hx); simpl in Hx; first [done | lia]]).
Qed.

Lemma SFeqb_clave (x y : spec_float) :
  SFeqb x y = true ↔ ∃ a, clave x = Some a ∧ clave y = Some a.
Proof.
  unfold SFeqb.
  destruct x as [sx|sx| |sx mx ex], y as [sy|sy| |sy my ey]; simpl;
    try (split; [done | by intros (a & ? & ?)]);
    try destruct sx; try destruct sy; simpl;
    rewrite ?compare_cont_Eq;
    try (destruct (Z.compare_spec ex ey);
         try destruct (Z.compare_spec (Z.pos mx) (Z.pos my)); simpl);
    (split;
     [intros Hx;
      first [done | eexists; split; [reflexivity|]; repeat f_equal; lia]
     | intros (a & [= <-] & Hx); simplify_eq/=; first [done | lia]]).
Qed.

Lemma float_menor (x y : float) :
  PrimFloat.ltb x y = true ↔
  match clave (Prim2SF x), clave (Prim2SF y) with
  | Some a, Some b => clave_menor a b
  | _, _ => False
  end.
Proof.
  rewrite FloatAxioms.ltb_spec, SFltb_clave. split.
  - intros (a & b & -> & -> & H). done.
  - destruct (clave (Prim2SF x)) as [a|]; [|done].
    destruct (clave (Prim2SF y)) as [b|]; [|done]. intros H. by exists a, b.
Qed.

Lemma float_igual (x y : float) :
  PrimFloat.eqb x y = true ↔
  match clave (Prim2SF x), clave (Prim2SF y) with
  | Some a, Some b => clave_igual a b
  | _, _ => False
  end.
Proof.
  rewrite FloatAxioms.eqb_spec, SFeqb_clave. split.
  - intros (a & -> & ->). done.
  - destruct (clave (Prim2SF x)) as [[[a1 a2] a3]|]; [|done].
    destruct (clave (Prim2SF y)) as [[[b1 b2] b3]|]; [|done].
    intros (H1 & H2 & H3). simpl in *. subst. by eexists.
Qed.

Ltac en_claves :=
  unfold no_mayor, es_numero; simpl;
  rewrite <- ?not_true_iff_false, ?float_menor, ?float_igual;
  repeat match goal with
         | |- context [clave (Prim2SF ?x)] =>
             let a := fresh "a" in let b := fresh "b" in let c := fresh "c" in
             destruct (clave (Prim2SF x)) as [[[a b] c]|]
         end;
  unfold clave_menor, clave_igual; simpl; try tauto; try lia.

(** The laws of [<] and [==] hold in binary64. *)
Lemma Leyes_float : @LeyesOrden Arit_float.
Proof.
  split.
  - intros a. en_claves.
  - intros a b. en_claves.
  - intros a b. en_claves.
  - intros a b c. en_claves.
  - intros a b c. en_claves.
  - intros a b. en_claves.
  - intros a b c H. split; apply Bool.eq_iff_eq_true; revert H; en_claves.
  - vm_compute. reflexivity.
  - vm_compute. reflexivity.
  - vm_compute. reflexivity.
  - vm_compute. reflexivity.
  - vm_compute. reflexivity.
Qed.

(** *** The arithmetic of binary64

    A sum, a difference or a product of binary64 is the exact result
    rounded by [binary_round_aux]: its mantissa shifted to the exponent of
    the format, then rounded to nearest.  The result is not below a number
    of the format that the exact result is not below, nor above one that
    it is not above, and has the sign of the exact result; hence the laws
    of [LeyesSuma]. *)
Section Redondeo.
Open Scope Z_scope.

Lemma digits2_pos_size (p : positive) : digits2_pos p = Pos.size p.
Proof. induction p as [p IH|p IH|]; simpl; by rewrite ?IH. Qed.

Lemma digitos_cotas (p : positive) :
  2 ^ (Z.pos (digits2_pos p) - 1) ≤ Z.pos p < 2 ^ Z.pos (digits2_pos p).
Proof.
  induction p as [p IH|p IH|]; simpl digits2_pos; [| |simpl; lia];
    rewrite Pos2Z.inj_succ;
    replace (Z.succ (Z.pos (digits2_pos p)) - 1) with (Z.succ (Z.pos (digits2_pos p) - 1)) by lia;
    rewrite !Z.pow_succ_r by lia; lia.
Qed.

(** The number of digits is monotone. *)
Lemma digitos_mono (p q : positive) :
  Z.pos p ≤ Z.pos q → Z.pos (digits2_pos p) ≤ Z.pos (digits2_pos q).
Proof.
  intros H. pose proof (digitos_cotas p) as [Hp _].
  pose proof (digitos_cotas q) as [_ Hq].
  destruct (Z.le_gt_cases (Z.pos (digits2_pos p)) (Z.pos (digits2_pos q))) as [|Hlt];
    [done|].
  assert (2 ^ Z.pos (digits2_pos q) ≤ 2 ^ (Z.pos (digits2_pos p) - 1))
    by (apply Z.pow_le_mono_r; lia).
  lia.
Qed.

Lemma shr_1_m (mrs : shr_record) :
  0 ≤ shr_m mrs →
  shr_m (shr_1 mrs) = shr_m mrs / 2 ∧
  (shr_r mrs = false → shr_s mrs = false → shr_m mrs mod 2 = 0 →
   shr_r (shr_1 mrs) = false ∧ shr_s (shr_1 mrs) = false).
Proof.
  destruct mrs as [m r s]. cbn [shr_m shr_r shr_s]. intros Hm.
  destruct m as [|[p|p|]|p]; cbn [shr_1 shr_m shr_r shr_s]; try lia.
  - split; [done | by intros -> ->].
  - split; [|intros _ _ H; exfalso; revert H; rewrite Pos2Z.inj_xI, Z.add_comm, Z.mul_comm, Z.mod_add by lia; done].
    rewrite Pos2Z.inj_xI. rewrite Z.add_comm, Z.mul_comm, Z.div_add by lia. done.
  - split; [|by intros -> ->].
    rewrite Pos2Z.inj_xO, Z.mul_comm, Z.div_mul by lia. done.
  - split; [done|]. by intros _ _ H.
Qed.

Lemma shr_1_desplazado (M k : Z) (mrs : shr_record) :
  0 ≤ M → 0 ≤ k → desplazado M k mrs → desplazado M (k + 1) (shr_1 mrs).
Proof.
  intros HM Hk [Hm Hrs].
  assert (H0 : 0 ≤ shr_m mrs) by (rewrite Hm; apply Z.div_pos; lia).
  destruct (shr_1_m mrs H0) as [H1 H2].
  assert (Hp : 2 ^ (k + 1) = 2 ^ k * 2) by (rewrite Z.pow_add_r by lia; lia).
  split.
  - rewrite H1, Hm, Hp, Z.div_div by lia. done.
  - intros Hmod. rewrite Hp in Hmod.
    assert (Hk0 : M mod 2 ^ k = 0).
    { rewrite Z.rem_mul_r in Hmod by lia. 
      pose proof (Z.mod_pos_bound M (2 ^ k) ltac:(lia)).
      pose proof (Z.mod_pos_bound (M / 2 ^ k) 2 ltac:(lia)). nia. }
    destruct (Hrs Hk0) as [Hr Hs]. apply H2; [done | done|].
    rewrite Hm. rewrite Z.rem_mul_r in Hmod by lia.
    pose proof (Z.mod_pos_bound (M / 2 ^ k) 2 ltac:(lia)). nia.
Qed.

Lemma iter_desplazado (M : Z) (p : positive) :
  0 ≤ M → ∀ k mrs, 0 ≤ k → desplazado M k mrs →
  desplazado M (k + Z.pos p) (SpecFloat.iter_pos shr_1 p mrs).
Proof.
  intros HM. induction p as [p IH|p IH|]; intros k mrs Hk H; simpl.
  - replace (k + Z.pos p~1) with (k + 1 + Z.pos p + Z.pos p) by lia.
    apply IH; [lia|]. apply IH; [lia|]. by apply shr_1_desplazado.
  - replace (k + Z.pos p~0) with (k + Z.pos p + Z.pos p) by lia.
    apply IH; [lia|]. by apply IH.
  - by apply shr_1_desplazado.
Qed.

Lemma shr_desplazado (M e n : Z) :
  0 ≤ M → 0 ≤ n →
  desplazado M n (fst (shr (shr_record_of_loc M loc_Exact) e n)) ∧
  snd (shr (shr_record_of_loc M loc_Exact) e n) = e + n.
Proof.
  intros HM Hn.
  assert (H0 : desplazado M 0 (shr_record_of_loc M loc_Exact)).
  { split; simpl; [by rewrite Z.div_1_r | done]. }
  destruct n as [|p|p]; simpl; [|  |lia].
  - split; [done | lia].
  - split; [|done]. apply (iter_desplazado M p HM 0); [lia | done].
Qed.

Lemma shr_nada (mrs : shr_record) (e n : Z) : n ≤ 0 → shr mrs e n = (mrs, e).
Proof. by destruct n. Qed.

Lemma fexp_64 (x : Z) : fexp prec emax x = Z.max (x - 53) (-1074).
Proof. reflexivity. Qed.

Lemma redondea_cotas (m1 : Z) (mrs : shr_record) :
  shr_m mrs = m1 →
  m1 ≤ round_nearest_even (shr_m mrs) (loc_of_shr_record mrs) ≤ m1 + 1 ∧
  (shr_r mrs = false → shr_s mrs = false →
   round_nearest_even (shr_m mrs) (loc_of_shr_record mrs) = m1).
Proof.
  destruct mrs as [m [] []]; simpl; intros ->;
    try destruct (Z.even m1); split; try lia; done.
Qed.

Lemma binary_round_aux_cotas (sx : bool) (m : positive) (e : Z) :
  let E := fexp prec emax (Z.pos (digits2_pos m) + e) in
  e ≤ E →
  ∃ m2, Z.pos m / 2 ^ (E - e) ≤ m2 ≤ Z.pos m / 2 ^ (E - e) + 1 ∧
        (Z.pos m mod 2 ^ (E - e) = 0 → m2 = Z.pos m / 2 ^ (E - e)) ∧
        m2 ≤ 2 ^ 53 ∧
        binary_round_aux prec emax sx (Z.pos m) e loc_Exact = redondeado sx m2 E.
Proof.
  intros E HE.
  assert (HEmin : -1074 ≤ E) by (unfold E; rewrite fexp_64; lia).
  unfold binary_round_aux, shr_fexp. cbn [Zdigits2]. fold E.
  destruct (shr_desplazado (Z.pos m) e (E - e)) as [[Hm1 Hex] He1]; [lia | lia|].
  destruct (shr (shr_record_of_loc (Z.pos m) loc_Exact) e (E - e)) as [mrs' e'].
  simpl in Hm1, Hex, He1. subst e'. replace (e + (E - e)) with E by lia.
  destruct (redondea_cotas _ mrs' Hm1) as [Hm2 Hexacto].
  set (m2 := round_nearest_even (shr_m mrs') (loc_of_shr_record mrs')) in *.
  assert (Hlt : Z.pos m / 2 ^ (E - e) < 2 ^ 53).
  { apply Z.div_lt_upper_bound; [lia|]. rewrite <- Z.pow_add_r by lia.
    pose proof (digitos_cotas m) as [_ Hd].
    assert (2 ^ Z.pos (digits2_pos m) ≤ 2 ^ (E - e + 53)).
    { apply Z.pow_le_mono_r; [lia|]. unfold E. rewrite fexp_64. lia. }
    lia. }
  assert (H0 : 0 ≤ Z.pos m / 2 ^ (E - e)) by (apply Z.div_pos; lia).
  exists m2. split; [done|]. split.
  { intros Hmod. destruct (Hex Hmod) as [Hr Hs]. by apply Hexacto. }
  split; [lia|]. unfold redondeado.
  destruct (Z.eqb_spec m2 0) as [->|Hn0].
  { rewrite shr_nada; [done|]. simpl Zdigits2. rewrite fexp_64. lia. }
  destruct (Z.ltb_spec m2 (2 ^ 53)) as [Hlt2|Hge].
  - destruct m2 as [|q|q]; [done| |lia].
    rewrite shr_nada; [done|]. cbn [Zdigits2]. rewrite fexp_64.
    pose proof (digitos_cotas q) as [Hq _].
    assert (Z.pos (digits2_pos q) ≤ 53); [|lia].
    destruct (Z.le_gt_cases (Z.pos (digits2_pos q)) 53) as [|Hgt]; [done|].
    assert (2 ^ 53 ≤ 2 ^ (Z.pos (digits2_pos q) - 1))
      by (apply Z.pow_le_mono_r; lia).
    lia.
  - assert (Heq : m2 = 2 ^ 53) by lia. rewrite Heq.
    change (Zdigits2 (2 ^ 53)) with 54. rewrite fexp_64.
    replace (Z.max (54 + E - 53) (-1074) - E) with 1 by lia.
    cbn. done.
Qed.

Lemma iter_xO (m d : positive) :
  Z.pos (Pos.iter xO m d) = Z.pos m * 2 ^ Z.pos d.
Proof.
  induction d as [|d IH] using Pos.peano_ind.
  - simpl. lia.
  - rewrite Pos.iter_succ, Pos2Z.inj_xO, IH, Pos2Z.inj_succ, Z.pow_succ_r by lia.
    lia.
Qed.

Lemma shl_align_spec (m : positive) (e e' : Z) :
  snd (shl_align m e e') = Z.min e e' ∧
  Z.pos (fst (shl_align m e e')) = Z.pos m * 2 ^ (e - Z.min e e').
Proof.
  unfold shl_align. destruct (e' - e) as [|d|d] eqn:Hd; simpl.
  - replace (e - Z.min e e') with 0 by lia. simpl. lia.
  - replace (e - Z.min e e') with 0 by lia. simpl. lia.
  - replace (e - Z.min e e') with (Z.pos d) by lia. split; [lia|].
    apply iter_xO.
Qed.

Lemma digitos_unico (q : positive) (D : Z) :
  2 ^ (D - 1) ≤ Z.pos q < 2 ^ D → Z.pos (digits2_pos q) = D.
Proof.
  intros [H1 H2]. pose proof (digitos_cotas q) as [H3 H4].
  destruct (Z.lt_trichotomy (Z.pos (digits2_pos q)) D) as [Hlt|[Heq|Hgt]];
    [|done|].
  - assert (2 ^ Z.pos (digits2_pos q) ≤ 2 ^ (D - 1))
      by (apply Z.pow_le_mono_r; lia).
    lia.
  - assert (2 ^ D ≤ 2 ^ (Z.pos (digits2_pos q) - 1)).
    { destruct (Z.le_gt_cases 0 D).
      - apply Z.pow_le_mono_r; lia.
      - rewrite (Z.pow_neg_r 2 D) by lia. apply Z.pow_nonneg. lia. }
    lia.
Qed.

Lemma digitos_desplazado (m q : positive) (k : Z) :
  0 ≤ k → Z.pos q = Z.pos m * 2 ^ k →
  Z.pos (digits2_pos q) = Z.pos (digits2_pos m) + k.
Proof.
  intros Hk Hq. apply digitos_unico. rewrite Hq.
  pose proof (digitos_cotas m) as [H1 H2].
  replace (Z.pos (digits2_pos m) + k - 1) with (Z.pos (digits2_pos m) - 1 + k)
    by lia.
  rewrite (Z.pow_add_r 2 (Z.pos (digits2_pos m) - 1)) by lia.
  rewrite (Z.pow_add_r 2 (Z.pos (digits2_pos m))) by lia.
  assert (0 < 2 ^ k) by (apply Z.pow_pos_nonneg; lia). nia.
Qed.

Lemma binary_round_cotas (sx : bool) (m : positive) (e : Z) :
  let E := fexp prec emax (Z.pos (digits2_pos m) + e) in
  let z := Z.min e E in
  let M := Z.pos m * 2 ^ (e - z) in
  ∃ m2, M / 2 ^ (E - z) ≤ m2 ≤ M / 2 ^ (E - z) + 1 ∧
        (M mod 2 ^ (E - z) = 0 → m2 = M / 2 ^ (E - z)) ∧
        m2 ≤ 2 ^ 53 ∧
        binary_round prec emax sx m e = redondeado sx m2 E.
Proof.
  intros E z M. unfold binary_round. fold E.
  destruct (shl_align_spec m e E) as [Hz HM].
  destruct (shl_align m e E) as [mz ez]. simpl in Hz, HM. fold z in Hz, HM.
  fold M in HM. subst ez.
  assert (Hd : Z.pos (digits2_pos mz) + z = Z.pos (digits2_pos m) + e).
  { rewrite (digitos_desplazado m mz (e - z)); [lia | lia | done]. }
  pose proof (binary_round_aux_cotas sx mz z) as H. simpl in H. rewrite Hd in H.
  fold E in H. rewrite <- HM. apply H. lia.
Qed.

Lemma redondeado_casos (sx : bool) (m2 E : Z) :
  0 ≤ m2 ≤ 2 ^ 53 → -1074 ≤ E →
  (m2 = 0 ∧ redondeado sx m2 E = S754_zero sx) ∨
  (0 < m2 ∧
   ((redondeado sx m2 E = S754_infinity sx ∧
     (971 < E ∨ (m2 = 2 ^ 53 ∧ 971 < E + 1))) ∨
    ∃ m' e', redondeado sx m2 E = S754_finite sx m' e' ∧
             peso m' e' = m2 * 2 ^ (E + 1074))).
Proof.
  intros Hm HE. unfold redondeado.
  destruct (Z.eqb_spec m2 0) as [->|Hn0]; [by left|]. right.
  split; [lia|].
  destruct (Z.ltb_spec m2 (2 ^ 53)) as [Hlt|Hge].
  - destruct (Z.leb_spec E 971); [|left; split; [done | lia]].
    right. eexists _, _. split; [done|]. unfold peso.
    rewrite Z2Pos.id by lia. done.
  - destruct (Z.leb_spec (E + 1) 971); [|left; split; [done | lia]].
    right. eexists _, _. split; [done|]. unfold peso.
    replace (E + 1 + 1074) with (1 + (E + 1074)) by lia.
    rewrite Z.pow_add_r by lia. replace m2 with (2 ^ 53) by lia.
    change (Z.pos (Z.to_pos (2 ^ 52))) with (2 ^ 52). lia.
Qed.

Lemma bounded_64 (m : positive) (e : Z) :
  bounded prec emax m e = true →
  e = Z.max (Z.pos (digits2_pos m) + e - 53) (-1074) ∧ e ≤ 971.
Proof.
  unfold bounded, canonical_mantissa. rewrite fexp_64.
  intros [H1 H2]%andb_prop. apply Z.eqb_eq in H1. apply Z.leb_le in H2.
  change (emax - prec) with 971 in H2. lia.
Qed.

Lemma peso_digitos (m1 m2 : positive) (e1 e2 : Z) :
  -1074 ≤ e1 → -1074 ≤ e2 → peso m1 e1 ≤ peso m2 e2 →
  Z.pos (digits2_pos m1) + e1 ≤ Z.pos (digits2_pos m2) + e2.
Proof.
  unfold peso. intros H1 H2 H.
  pose proof (digitos_cotas m1) as [Ha _].
  pose proof (digitos_cotas m2) as [_ Hb].
  assert (Hp1 : 0 < 2 ^ (e1 + 1074)) by (apply Z.pow_pos_nonneg; lia).
  assert (Hp2 : 0 < 2 ^ (e2 + 1074)) by (apply Z.pow_pos_nonneg; lia).
  assert (Hlt : 2 ^ (Z.pos (digits2_pos m1) - 1 + (e1 + 1074))
                < 2 ^ (Z.pos (digits2_pos m2) + (e2 + 1074))).
  { rewrite (Z.pow_add_r 2 (Z.pos (digits2_pos m1) - 1)) by lia.
    rewrite (Z.pow_add_r 2 (Z.pos (digits2_pos m2))) by lia.
    apply Z.le_lt_trans with (Z.pos m1 * 2 ^ (e1 + 1074));
      [apply Z.mul_le_mono_nonneg_r; lia|].
    apply Z.le_lt_trans with (Z.pos m2 * 2 ^ (e2 + 1074)); [done|].
    apply Z.mul_lt_mono_pos_r; lia. }
  apply Z.pow_lt_mono_r_iff in Hlt; lia.
Qed.

Lemma peso_red (m : positive) (e z : Z) :
  -1074 ≤ z → z ≤ e →
  peso m e = Z.pos m * 2 ^ (e - z) * 2 ^ (z + 1074).
Proof.
  intros Hz He. unfold peso.
  replace (e + 1074) with (e - z + (z + 1074)) by lia.
  rewrite Z.pow_add_r by lia. lia.
Qed.

Lemma pot_pos (k : Z) : 0 ≤ k → 0 < 2 ^ k.
Proof. intros. apply Z.pow_pos_nonneg; lia. Qed.

(** Rounding does not go below a number of the format that the exact
    value is not below. *)
Lemma cota_inferior (sx : bool) (ma : positive) (ea : Z) (m : positive) (e : Z) :
  bounded prec emax ma ea = true → -1074 ≤ e → peso ma ea ≤ peso m e →
  binary_round prec emax sx m e = S754_infinity sx ∨
  ∃ m' e', binary_round prec emax sx m e = S754_finite sx m' e' ∧
           peso ma ea ≤ peso m' e'.
Proof.
  intros [Hca Hea]%bounded_64 He Hle.
  assert (Hea0 : -1074 ≤ ea) by lia.
  pose proof (peso_digitos _ _ _ _ Hea0 He Hle) as Hd.
  destruct (binary_round_cotas sx m e) as (m2 & Hb & _ & H53 & ->).
  pose proof (fexp_64 (Z.pos (digits2_pos m) + e)) as HE.
  set (E := fexp prec emax (Z.pos (digits2_pos m) + e)) in *.
  set (z := Z.min e E) in *.
  set (M := Z.pos m * 2 ^ (e - z)) in *.
  assert (Hz : -1074 ≤ z ∧ z ≤ e ∧ z ≤ E) by lia.
  assert (HM : peso m e = M * 2 ^ (z + 1074)) by (apply peso_red; lia).
  assert (HEa : ea ≤ E) by lia.
  set (n := E - z) in *.
  pose proof (pot_pos n ltac:(lia)) as Hpn.
  pose proof (pot_pos (z + 1074) ltac:(lia)) as Hpz.
  assert (HEn : 2 ^ (E + 1074) = 2 ^ n * 2 ^ (z + 1074)).
  { rewrite <- Z.pow_add_r by lia. f_equal. lia. }
  assert (Hm1 : peso ma ea ≤ M / 2 ^ n * 2 ^ (E + 1074) ∧ 1 ≤ M / 2 ^ n).
  { destruct (Z.eq_dec ea E) as [Heq|Hne].
    - assert (HMa : Z.pos ma * 2 ^ n ≤ M).
      { apply (Z.mul_le_mono_pos_r _ _ (2 ^ (z + 1074))); [done|].
        rewrite <- HM, <- Z.mul_assoc, <- HEn, <- Heq. done. }
      assert (Z.pos ma ≤ M / 2 ^ n)
        by (apply Z.div_le_lower_bound; [done | lia]).
      split; [|lia]. unfold peso. rewrite Heq.
      apply Z.mul_le_mono_nonneg_r; [|done]. apply Z.pow_nonneg. lia.
    - assert (HEd : E = Z.pos (digits2_pos m) + e - 53) by lia.
      pose proof (digitos_cotas m) as [Hdm _].
      pose proof (digitos_cotas ma) as [_ Hdma].
      assert (H52 : 2 ^ 52 * 2 ^ n ≤ M).
      { rewrite <- Z.pow_add_r by lia. unfold M.
        replace (52 + n) with (Z.pos (digits2_pos m) - 1 + (e - z)) by lia.
        rewrite Z.pow_add_r by lia.
        apply Z.mul_le_mono_nonneg_r; [|done]. apply Z.pow_nonneg. lia. }
      assert (2 ^ 52 ≤ M / 2 ^ n)
        by (apply Z.div_le_lower_bound; [done | lia]).
      split; [|lia].
      apply Z.le_trans with (2 ^ 52 * 2 ^ (E + 1074));
        [|apply Z.mul_le_mono_nonneg_r; [apply Z.pow_nonneg; lia | done]].
      rewrite <- Z.pow_add_r by lia. unfold peso.
      apply Z.le_trans with (2 ^ 53 * 2 ^ (ea + 1074)).
      + apply Z.mul_le_mono_nonneg_r; [apply Z.pow_nonneg; lia|].
        assert (2 ^ Z.pos (digits2_pos ma) ≤ 2 ^ 53)
          by (apply Z.pow_le_mono_r; lia).
        lia.
      + rewrite <- Z.pow_add_r by lia. apply Z.pow_le_mono_r; lia. }
  destruct Hm1 as [Hm1 H1].
  pose proof (pot_pos (E + 1074) ltac:(lia)) as HpE.
  destruct (redondeado_casos sx m2 E) as [[-> _]|[_ [[-> _]|(m' & e' & -> & Hp)]]];
    [lia | lia | lia | by left|].
  right. exists m', e'. split; [done|]. rewrite Hp.
  apply Z.le_trans with (M / 2 ^ n * 2 ^ (E + 1074)); [done|].
  apply Z.mul_le_mono_nonneg_r; lia.
Qed.

(** Rounding does not go above a number of the format that the exact
    value is not above. *)
Lemma cota_superior (sx : bool) (ma : positive) (ea : Z) (m : positive) (e : Z) :
  bounded prec emax ma ea = true → -1074 ≤ e → peso m e ≤ peso ma ea →
  binary_round prec emax sx m e = S754_zero sx ∨
  ∃ m' e', binary_round prec emax sx m e = S754_finite sx m' e' ∧
           peso m' e' ≤ peso ma ea.
Proof.
  intros [Hca Hea]%bounded_64 He Hle.
  assert (Hea0 : -1074 ≤ ea) by lia.
  pose proof (peso_digitos _ _ _ _ He Hea0 Hle) as Hd.
  destruct (binary_round_cotas sx m e) as (m2 & Hb & Hex & H53 & ->).
  pose proof (fexp_64 (Z.pos (digits2_pos m) + e)) as HE.
  set (E := fexp prec emax (Z.pos (digits2_pos m) + e)) in *.
  set (z := Z.min e E) in *.
  set (M := Z.pos m * 2 ^ (e - z)) in *.
  assert (Hz : -1074 ≤ z ∧ z ≤ e ∧ z ≤ E) by lia.
  assert (HM : peso m e = M * 2 ^ (z + 1074)) by (apply peso_red; lia).
  assert (HEa : E ≤ ea) by lia.
  set (n := E - z) in *.
  pose proof (pot_pos n ltac:(lia)) as Hpn.
  pose proof (pot_pos (z + 1074) ltac:(lia)) as Hpz.
  pose proof (pot_pos (E + 1074) ltac:(lia)) as HpE.
  pose proof (pot_pos (ea - E) ltac:(lia)) as Hpa.
  assert (HEn : 2 ^ (E + 1074) = 2 ^ n * 2 ^ (z + 1074)).
  { rewrite <- Z.pow_add_r by lia. f_equal. lia. }
  set (A := Z.pos ma * 2 ^ (ea - E)).
  assert (HA : peso ma ea = A * 2 ^ (E + 1074)).
  { unfold A. apply peso_red; lia. }
  assert (HMA : M ≤ A * 2 ^ n).
  { apply (Z.mul_le_mono_pos_r _ _ (2 ^ (z + 1074))); [done|].
    rewrite <- HM, <- Z.mul_assoc, <- HEn, <- HA. done. }
  assert (H0 : 0 ≤ M / 2 ^ n) by (apply Z.div_pos; [unfold M|]; lia).
  assert (Hm2 : m2 ≤ A).
  { destruct (Z.eq_dec (M mod 2 ^ n) 0) as [H0m|Hn0].
    - rewrite (Hex H0m). apply Z.div_le_upper_bound; [done | lia].
    - assert (M / 2 ^ n < A); [|lia].
      destruct (Z.lt_ge_cases (M / 2 ^ n) A) as [|Hge]; [done|]. exfalso.
      pose proof (Z.div_mod M (2 ^ n) ltac:(lia)) as Hdm.
      pose proof (Z.mod_pos_bound M (2 ^ n) Hpn).
      assert (A * 2 ^ n ≤ M / 2 ^ n * 2 ^ n)
        by (apply Z.mul_le_mono_nonneg_r; lia).
      lia. }
  destruct (redondeado_casos sx m2 E)
    as [[-> ->]|[_ [[_ Hinf]|(m' & e' & -> & Hp)]]]; [lia | lia | by left | |].
  - exfalso. destruct Hinf as [|[-> HE1]]; [lia|].
    pose proof (digitos_cotas ma) as [_ Hdma].
    assert (2 ^ Z.pos (digits2_pos ma) ≤ 2 ^ 53)
      by (apply Z.pow_le_mono_r; lia).
    assert (ea = E) as Heq by lia. unfold A in Hm2. rewrite Heq in Hm2.
    replace (E - E) with 0 in Hm2 by lia. simpl in Hm2. lia.
  - right. exists m', e'. split; [done|]. rewrite Hp, HA.
    apply Z.mul_le_mono_nonneg_r; lia.
Qed.

(** Among the numbers of the format the order of the values is the order
    of the exponents, then of the mantissas. *)
Lemma peso_orden (m1 : positive) (e1 : Z) (m2 : positive) (e2 : Z) :
  bounded prec emax m1 e1 = true → bounded prec emax m2 e2 = true →
  e1 < e2 ∨ (e1 = e2 ∧ Z.pos m1 < Z.pos m2) → peso m1 e1 < peso m2 e2.
Proof.
  intros [H1 _]%bounded_64 [H2 _]%bounded_64 [Hlt|[-> Hlt]]; unfold peso.
  - pose proof (digitos_cotas m1) as [_ Hd1].
    pose proof (digitos_cotas m2) as [Hd2 _].
    assert (Hd : Z.pos (digits2_pos m2) = 53) by lia.
    rewrite Hd in Hd2. simpl in Hd2.
    assert (2 ^ Z.pos (digits2_pos m1) ≤ 2 ^ 53)
      by (apply Z.pow_le_mono_r; lia).
    pose proof (pot_pos (e1 + 1074) ltac:(lia)).
    apply Z.lt_le_trans with (2 ^ 53 * 2 ^ (e1 + 1074));
      [apply Z.mul_lt_mono_pos_r; lia|].
    apply Z.le_trans with (2 ^ 52 * 2 ^ (e2 + 1074));
      [|apply Z.mul_le_mono_nonneg_r; lia].
    rewrite <- !Z.pow_add_r by lia. apply Z.pow_le_mono_r; lia.
  - apply Z.mul_lt_mono_pos_r; [apply pot_pos; lia | done].
Qed.

Lemma peso_orden_no (m1 : positive) (e1 : Z) (m2 : positive) (e2 : Z) :
  bounded prec emax m1 e1 = true → bounded prec emax m2 e2 = true →
  ¬ (e1 < e2 ∨ (e1 = e2 ∧ Z.pos m1 < Z.pos m2)) → peso m2 e2 ≤ peso m1 e1.
Proof.
  intros H1 H2 Hn.
  destruct (Z.lt_trichotomy e1 e2) as [?|[->|?]]; [tauto| |].
  - destruct (Z.lt_trichotomy (Z.pos m1) (Z.pos m2)) as [?|[Heq|?]]; [tauto| |].
    + unfold peso. rewrite Heq. lia.
    + apply Z.lt_le_incl, peso_orden; [done | done|]. right. done.
  - apply Z.lt_le_incl, peso_orden; [done | done|]. by left.
Qed.

Lemma SFltb_finitos (s : bool) (m1 : positive) (e1 : Z) (m2 : positive) (e2 : Z) :
  SFltb (S754_finite s m1 e1) (S754_finite s m2 e2) = true ↔
  if s then e2 < e1 ∨ (e1 = e2 ∧ Z.pos m2 < Z.pos m1)
  else e1 < e2 ∨ (e1 = e2 ∧ Z.pos m1 < Z.pos m2).
Proof.
  unfold SFltb. simpl. destruct s;
    change (Pos.compare_cont Eq m1 m2) with (Z.pos m1 ?= Z.pos m2);
    destruct (Z.compare_spec e1 e2);
    try destruct (Z.compare_spec (Z.pos m1) (Z.pos m2)); simpl;
    split; first [done | lia].
Qed.

Lemma redondeado_signo (sx : bool) (m2 E : Z) : con_signo sx (redondeado sx m2 E).
Proof.
  unfold redondeado.
  repeat match goal with |- context [if ?b then _ else _] => destruct b end;
    constructor.
Qed.

Lemma binary_round_signo (sx : bool) (m : positive) (e : Z) :
  con_signo sx (binary_round prec emax sx m e).
Proof.
  destruct (binary_round_cotas sx m e) as (m2 & _ & _ & _ & ->). apply redondeado_signo.
Qed.

Lemma digitos_producto (m1 m2 : positive) :
  Z.pos (digits2_pos m1) + Z.pos (digits2_pos m2) - 1
  ≤ Z.pos (digits2_pos (m1 * m2)).
Proof.
  pose proof (digitos_cotas m1) as [H1 _].
  pose proof (digitos_cotas m2) as [H2 _].
  pose proof (digitos_cotas (m1 * m2)) as [_ H3].
  set (d1 := Z.pos (digits2_pos m1)) in *.
  set (d2 := Z.pos (digits2_pos m2)) in *.
  set (d := Z.pos (digits2_pos (m1 * m2))) in *.
  destruct (Z.le_gt_cases (d1 + d2 - 1) d) as [|Hgt]; [done|]. exfalso.
  assert (2 ^ d ≤ 2 ^ (d1 - 1 + (d2 - 1))) by (apply Z.pow_le_mono_r; lia).
  rewrite Z.pow_add_r in * by lia. rewrite Pos2Z.inj_mul in H3.
  pose proof (pot_pos (d1 - 1) ltac:(lia)).
  pose proof (pot_pos (d2 - 1) ltac:(lia)).
  assert (2 ^ (d1 - 1) * 2 ^ (d2 - 1) ≤ Z.pos m1 * Z.pos m2)
    by (apply Z.mul_le_mono_nonneg; lia).
  lia.
Qed.

(** The product of a number of the format that is not below 1 and a number
    of the format is not rounded to zero. *)
Lemma producto_no_cero (s : bool) (m1 : positive) (e1 : Z) (m2 : positive) (e2 : Z) :
  bounded prec emax m1 e1 = true → bounded prec emax m2 e2 = true →
  peso (2 ^ 52) (-52) ≤ peso m1 e1 →
  binary_round_aux prec emax s (Z.pos (m1 * m2)) (e1 + e2) loc_Exact
    = S754_infinity s ∨
  ∃ m e, binary_round_aux prec emax s (Z.pos (m1 * m2)) (e1 + e2) loc_Exact
           = S754_finite s m e.
Proof.
  intros H1 H2 Huno.
  apply bounded_64 in H1 as [H1 _]. apply bounded_64 in H2 as [H2 _].
  assert (Hd1 : 53 + -52 ≤ Z.pos (digits2_pos m1) + e1)
    by (apply (peso_digitos (2 ^ 52) m1 (-52) e1); [lia | lia | done]).
  pose proof (digitos_producto m1 m2) as Hd.
  pose proof (digitos_cotas (m1 * m2)) as [Hm _].
  pose proof (fexp_64 (Z.pos (digits2_pos (m1 * m2)) + (e1 + e2))) as HE.
  destruct (binary_round_aux_cotas s (m1 * m2) (e1 + e2)) as (m2' & Hb & _ & H53 & ->).
  { lia. }
  set (E := fexp prec emax (Z.pos (digits2_pos (m1 * m2)) + (e1 + e2))) in *.
  assert (1 ≤ Z.pos (m1 * m2) / 2 ^ (E - (e1 + e2))).
  { apply Z.div_le_lower_bound; [apply pot_pos; lia|]. rewrite Z.mul_1_r.
    apply Z.le_trans with (2 ^ (Z.pos (digits2_pos (m1 * m2)) - 1)); [|done].
    apply Z.pow_le_mono_r; lia. }
  destruct (redondeado_casos s m2' E) as [[-> _]|[_ [[-> _]|(m' & e' & -> & _)]]];
    [lia | lia | lia | by left|].
  right. by exists m', e'.
Qed.

(** [(double) n]: a positive zero for 0, else a number of the sign of [n]
    and of magnitude at least 1. *)
Lemma entero_forma (k : Z) :
  0 < k < 2 ^ 63 →
  ∃ m e, binary_normalize prec emax k 0 false = S754_finite false m e ∧
         peso (2 ^ 52) (-52) ≤ peso m e.
Proof.
  intros Hk. destruct k as [|p|p]; [lia| |lia]. simpl.
  assert (H1 : peso (2 ^ 52) (-52) ≤ peso p 0).
  { unfold peso. change (2 ^ (-52 + 1074)) with (2 ^ 1022).
    change (2 ^ (0 + 1074)) with (2 ^ 52 * 2 ^ 1022).
    change (Z.pos (2 ^ 52)) with (2 ^ 52).
    rewrite Z.mul_assoc. apply Z.mul_le_mono_nonneg_r; lia. }
  assert (H2 : peso p 0 ≤ peso (2 ^ 52) 11).
  { unfold peso. change (2 ^ (11 + 1074)) with (2 ^ 11 * 2 ^ (0 + 1074)).
    change (Z.pos (2 ^ 52)) with (2 ^ 52).
    rewrite Z.mul_assoc. apply Z.mul_le_mono_nonneg_r; lia. }
  destruct (cota_inferior false (2 ^ 52) (-52) p 0 eq_refl ltac:(lia) H1)
    as [Hinf|(m & e & Hr & Hle)];
    [|by exists m, e].
  destruct (cota_superior false (2 ^ 52) 11 p 0 eq_refl ltac:(lia) H2)
    as [Hz|(m & e & Hr & Hle)]; congruence.
Qed.

Lemma alineado (m : positive) (e ez : Z) :
  -1074 ≤ ez → ez ≤ e →
  Z.pos (fst (shl_align m e ez)) * 2 ^ (ez + 1074) = peso m e.
Proof.
  intros H1 H2. destruct (shl_align_spec m e ez) as [_ ->].
  replace (Z.min e ez) with ez by lia. by rewrite <- peso_red.
Qed.

Lemma SFltb_irrefl (x : spec_float) : SFltb x x = false.
Proof.
  destruct x as [s|s| |s m e]; try done; try by destruct s.
  apply not_true_iff_false. rewrite SFltb_finitos. destruct s; lia.
Qed.

Lemma con_signo_no_negativo (r : spec_float) :
  con_signo false r → SFltb r (S754_zero false) = false.
Proof. by intros []. Qed.

Lemma con_signo_negativo (r : spec_float) (s : bool) (m : positive) (e : Z) :
  con_signo false r → SFltb r (S754_finite true m e) = false.
Proof. by intros []. Qed.

Lemma SFltb_no_negativo (y : spec_float) :
  SFltb y (S754_zero false) = false →
  match y with
  | S754_infinity s | S754_finite s _ _ => s = false
  | _ => True
  end.
Proof. destruct y as [s|s| |s m e]; try done; by destruct s. Qed.

(** [a + b] is not below [a] when [b] is not below 0. *)
Lemma SF_suma_no_neg (x y : spec_float) :
  valid_binary x = true → valid_binary y = true →
  valid_binary (SF64add x y) = true →
  SFltb y (S754_zero false) = false → SFltb (SF64add x y) x = false.
Proof.
  intros Hx Hy Hr Hy0%SFltb_no_negativo. unfold SF64add in *.
  destruct x as [sx|sx| |sx mx ex], y as [sy|sy| |sy my ey]; subst;
    try (by destruct sx); try (by destruct sx, sy);
    try apply SFltb_irrefl.
  simpl in Hx, Hy. unfold SFadd in *. simpl cond_Zopp in *.
  pose proof (bounded_64 _ _ Hx) as [Hcx _].
  pose proof (bounded_64 _ _ Hy) as [Hcy _].
  set (ez := Z.min ex ey) in *.
  pose proof (alineado mx ex ez ltac:(lia) ltac:(lia)) as Hax.
  pose proof (alineado my ey ez ltac:(lia) ltac:(lia)) as Hay.
  set (mx' := fst (shl_align mx ex ez)) in *.
  set (my' := fst (shl_align my ey ez)) in *.
  pose proof (pot_pos (ez + 1074) ltac:(lia)) as Hp.
  destruct sx; simpl cond_Zopp in *.
  - destruct (- Z.pos mx' + Z.pos my') as [|p|p] eqn:HS;
      cbn [binary_normalize] in *.
    + done.
    + apply (con_signo_negativo _ true), binary_round_signo.
    + destruct (cota_superior true mx ex p ez Hx ltac:(lia))
        as [->|(m' & e' & Hr' & Hle)]; [|done|].
      { rewrite <- Hax. unfold peso.
        replace (Z.pos p) with (Z.pos mx' - Z.pos my') by lia. nia. }
      rewrite Hr' in *. simpl in Hr.
      apply not_true_iff_false. rewrite SFltb_finitos. intros Hlt.
      pose proof (peso_orden mx ex m' e' Hx Hr). lia.
  - destruct (Z.pos mx' + Z.pos my') as [|p|p] eqn:HS; [lia| |lia].
    cbn [binary_normalize] in *.
    destruct (cota_inferior false mx ex p ez Hx ltac:(lia))
      as [->|(m' & e' & Hr' & Hle)]; [|done|].
    { rewrite <- Hax. unfold peso. rewrite <- HS. nia. }
    rewrite Hr' in *. simpl in Hr.
    apply not_true_iff_false. rewrite SFltb_finitos. intros Hlt.
    pose proof (peso_orden m' e' mx ex Hr Hx Hlt). lia.
Qed.

(** [b - a] is not below 0 when [b] is not below [a]. *)
Lemma SF_resta_no_neg (x y : spec_float) :
  valid_binary x = true → valid_binary y = true →
  SFltb y x = false → SFltb (SF64sub y x) (S754_zero false) = false.
Proof.
  intros Hx Hy H. unfold SF64sub.
  destruct x as [sx|sx| |sx mx ex], y as [sy|sy| |sy my ey];
    try done; try (by destruct sx); try (by destruct sy);
    try (by destruct sx, sy).
  simpl in Hx, Hy. unfold SFsub.
  pose proof (bounded_64 _ _ Hx) as [Hcx _].
  pose proof (bounded_64 _ _ Hy) as [Hcy _].
  set (ez := Z.min ey ex) in *.
  pose proof (alineado mx ex ez ltac:(lia) ltac:(lia)) as Hax.
  pose proof (alineado my ey ez ltac:(lia) ltac:(lia)) as Hay.
  set (mx' := fst (shl_align mx ex ez)) in *.
  set (my' := fst (shl_align my ey ez)) in *.
  pose proof (pot_pos (ez + 1074) ltac:(lia)) as Hp.
  assert (HS : 0 ≤ cond_Zopp sy (Z.pos my') - cond_Zopp sx (Z.pos mx')).
  { destruct sy, sx; simpl cond_Zopp; [| |lia|].
    - apply not_true_iff_false in H. rewrite SFltb_finitos in H.
      pose proof (peso_orden_no mx ex my ey Hx Hy ltac:(lia)). nia.
    - done.
    - apply not_true_iff_false in H. rewrite SFltb_finitos in H.
      pose proof (peso_orden_no my ey mx ex Hy Hx ltac:(lia)). nia. }
  destruct (cond_Zopp sy (Z.pos my') - cond_Zopp sx (Z.pos mx')) as [|p|p];
    [done| |lia].
  apply con_signo_no_negativo, binary_round_signo.
Qed.

(** The product of a number that is not below 1 in magnitude. *)
Lemma SF_mult_entero (s : bool) (m : positive) (e : Z) (y : spec_float) :
  bounded prec emax m e = true → peso (2 ^ 52) (-52) ≤ peso m e →
  valid_binary y = true →
  match y with
  | S754_nan => SF64mul (S754_finite s m e) y = S754_nan
  | S754_zero sy => SF64mul (S754_finite s m e) y = S754_zero (xorb s sy)
  | S754_infinity sy =>
      SF64mul (S754_finite s m e) y = S754_infinity (xorb s sy)
  | S754_finite sy _ _ =>
      SF64mul (S754_finite s m e) y = S754_infinity (xorb s sy) ∨
      ∃ m' e', SF64mul (S754_finite s m e) y = S754_finite (xorb s sy) m' e'
  end.
Proof.
  intros Hb H1 Hy. destruct y as [sy|sy| |sy my ey]; try done.
  by apply producto_no_cero.
Qed.

Lemma SFeqb_refl (x : spec_float) :
  SFeqb x x = match x with S754_nan => false | _ => true end.
Proof.
  destruct x as [s|s| |s m e]; try done; try by destruct s.
  unfold SFeqb. simpl.
  change (Pos.compare_cont Eq m m) with (Z.pos m ?= Z.pos m).
  rewrite !Z.compare_refl. by destruct s.
Qed.

Lemma SFeqb_cero (x : spec_float) :
  SFeqb x (S754_zero false) = match x with S754_zero _ => true | _ => false end.
Proof. destruct x as [s|s| |s m e]; try done; by destruct s. Qed.

Lemma float_de_int_forma (n : Z) :
  (n = 0 ∧ Prim2SF (float_de_int n) = S754_zero false) ∨
  (n ≠ 0 ∧ ∃ m e, Prim2SF (float_de_int n) = S754_finite (n <? 0) m e ∧
                  bounded prec emax m e = true ∧
                  peso (2 ^ 52) (-52) ≤ peso m e).
Proof.
  destruct (Z.eq_dec n 0) as [->|Hn]; [by left|]. right. split; [done|].
  set (k := Z.min (Z.abs n) (2 ^ 63 - 1)).
  assert (Hk : 0 < k < 2 ^ 63) by lia.
  destruct (entero_forma k Hk) as (m & e & Hr & Hle).
  assert (Hsf : Prim2SF (of_uint63 (of_Z k)) = S754_finite false m e).
  { rewrite of_uint63_spec, Uint63.of_Z_spec, Z.mod_small; [done|].
    change Uint63.wB with (2 ^ 63). lia. }
  assert (Hb : bounded prec emax m e = true).
  { pose proof (Prim2SF_valid (of_uint63 (of_Z k))) as Hv. by rewrite Hsf in Hv. }
  exists m, e. split; [|done]. unfold float_de_int. fold k.
  destruct (n <? 0); [|done]. by rewrite opp_spec, Hsf.
Qed.

Lemma binary_normalize_signo (m e : Z) :
  ∃ s, con_signo s (binary_normalize prec emax m e false).
Proof.
  destruct m as [|p|p]; simpl.
  - exists false. constructor.
  - exists false. apply binary_round_signo.
  - exists true. apply binary_round_signo.
Qed.

Lemma con_signo_numero (s : bool) (r : spec_float) :
  con_signo s r → SFeqb r r = true.
Proof. intros H. rewrite SFeqb_refl. by destruct H. Qed.

Ltac en_binary64 :=
  unfold no_mayor, es_numero, cero in *;
  cbn [menor igual suma resta mult divi de_int Arit_float] in *;
  rewrite ?FloatAxioms.ltb_spec, ?FloatAxioms.eqb_spec, ?FloatAxioms.add_spec,
    ?FloatAxioms.sub_spec, ?FloatAxioms.mul_spec, ?FloatAxioms.div_spec in *;
  change (Prim2SF (float_de_int 0)) with (S754_zero false) in *.

(** The laws of the arithmetic hold in binary64. *)
Lemma Suma_float : @LeyesSuma Arit_float.
Proof.
  split.
  - intros a b H. en_binary64.
    apply SF_suma_no_neg; try apply Prim2SF_valid; [|done].
    rewrite <- FloatAxioms.add_spec. apply Prim2SF_valid.
  - intros a b H. en_binary64.
    apply SF_resta_no_neg; try apply Prim2SF_valid. done.
  - intros n a Hn H. en_binary64. apply SFltb_no_negativo in H.
    pose proof (Prim2SF_valid a) as Hv.
    destruct (float_de_int_forma n) as [[-> ->]|(_ & m & e & -> & Hb & H1)].
    + destruct (Prim2SF a) as [s|s| |s ma ea]; try done; by destruct s.
    + pose proof (SF_mult_entero (n <? 0) m e _ Hb H1 Hv) as Hm.
      replace (n <? 0) with false in * by lia.
      destruct (Prim2SF a) as [s|s| |s ma ea]; subst;
        [by rewrite Hm..|].
      destruct Hm as [->|(m' & e' & ->)]; done.
  - intros a b Ha Hb Ha0 Hb0. en_binary64.
    apply SFltb_no_negativo in Ha0, Hb0. rewrite SFeqb_refl in Ha, Hb.
    destruct (Prim2SF a) as [sa|sa| |sa ma ea], (Prim2SF b) as [sb|sb| |sb mb eb];
      subst; try done; try (by destruct sa); try (by destruct sb);
      try (by destruct sa, sb); try apply SFeqb_refl.
    unfold SF64add, SFadd.
    destruct (binary_normalize_signo
                (cond_Zopp false (Z.pos (fst (shl_align ma ea (Z.min ea eb)))) +
                 cond_Zopp false (Z.pos (fst (shl_align mb eb (Z.min ea eb)))))
                (Z.min ea eb)) as [s Hs].
    by apply (con_signo_numero s).
  - intros a b H. en_binary64. rewrite SFeqb_refl in *.
    by destruct (Prim2SF a).
  - intros n. en_binary64. rewrite SFeqb_refl.
    by destruct (float_de_int_forma n) as [[-> ->]|(_ & m & e & -> & _)].
  - intros n Hn. en_binary64.
    destruct (float_de_int_forma n) as [[-> ->]|(_ & m & e & -> & _)]; [done|].
    by replace (n <? 0) with false by lia.
  - intros n a Hn Ha. en_binary64. rewrite SFeqb_refl in *.
    pose proof (Prim2SF_valid a) as Hv.
    destruct (float_de_int_forma n) as [[-> ->]|(_ & m & e & -> & Hb & H1)];
      [done|].
    pose proof (SF_mult_entero (n <? 0) m e _ Hb H1 Hv) as Hm.
    destruct (Prim2SF a) as [s|s| |s ma ea]; [by rewrite Hm..|done|].
    by destruct Hm as [->|(m' & e' & ->)].
  - intros n a Hn Ha. en_binary64. rewrite SFeqb_cero in *.
    pose proof (Prim2SF_valid a) as Hv.
    destruct (float_de_int_forma n) as [[-> ->]|(_ & m & e & -> & Hb & H1)];
      [done|].
    pose proof (SF_mult_entero (n <? 0) m e _ Hb H1 Hv) as Hm.
    destruct (Prim2SF a) as [s|s| |s ma ea]; [done|by rewrite Hm..|].
    by destruct Hm as [->|(m' & e' & ->)].
  - intros a b Ha Hb. en_binary64. rewrite SFeqb_cero in *.
    destruct (Prim2SF a) as [sa|sa| |sa ma ea], (Prim2SF b) as [sb|sb| |sb mb eb];
      try done. by destruct sa, sb.
  - intros a b Ha Hb. en_binary64. rewrite SFeqb_cero in *.
    destruct (Prim2SF a) as [sa|sa| |sa ma ea], (Prim2SF b) as [sb|sb| |sb mb eb];
      try done. by destruct sa, sb.
  - intros n a Ha. en_binary64. rewrite SFeqb_cero in *.
    destruct (float_de_int_forma n) as [[-> ->]|(_ & m & e & -> & _)];
      by destruct (Prim2SF a).
  - intros a b Ha Hb Hb0. en_binary64. rewrite SFeqb_cero, SFeqb_refl in *.
    by destruct (Prim2SF a) as [sa|sa| |sa ma ea],
                (Prim2SF b) as [sb|sb| |sb mb eb].
Qed.
End Redondeo.

(** The laws of the arithmetic computed, at all pairs of the values of
    [muestra_binary64], among them a NaN, the infinities, both zeros and
    the least and greatest positive numbers, and at the integers of
    [muestra_enteros]. *)
Lemma Suma_float_muestra : leyes_en_muestra = true.
Proof. vm_compute. reflexivity. Qed.

End LeyesBinary64.

(** ** The theorems on concrete runs *)

(** An option that is decided to be [Some] is [Some] of its [default]. *)
Lemma por_defecto_Some {A} (d : A) (o : option A) :
  bool_decide (is_Some o) = true → o = Some (default d o).
Proof. intros H. apply bool_decide_eq_true in H. destruct H as [x ->]. done. Qed.

(** The theorems above at the runs of [Ejemplo], with the laws of the
    rationals, of the list queue and of the small generator. *)
Section Testigos.
#[local] Existing Instance Arit_Q.
#[local] Existing Instance Dist_lcg.
#[local] Existing Instance Cola_lista.
#[local] Existing Instance Leyes_Q.
#[local] Existing Instance Suma_Q.
#[local] Existing Instance Exactas_Q.
#[local] Existing Instance Dist_lcg_ok.
#[local] Existing Instance Cola_lista_ok.

(** The runs exist: each step of them returns a state. *)
Lemma ejemplo_inicializado :
  inicializar ejemplo_config ejemplo_motor = Some ejemplo_s0.
Proof. apply por_defecto_Some. vm_compute. reflexivity. Qed.

Lemma ejemplo_paso : paso ejemplo_s0 = Some ejemplo_s1.
Proof. apply por_defecto_Some. vm_compute. reflexivity. Qed.

Lemma ejemplo_ejecutado : ejecutar 200 ejemplo_s0 = Some ejemplo_final.
Proof. apply por_defecto_Some. vm_compute. reflexivity. Qed.


Lemma ejemplo_vacio_inicializado :
  inicializar ConfiguracionServidores.nueva ejemplo_motor = Some ejemplo_vacio.
Proof. apply por_defecto_Some. vm_compute. reflexivity. Qed.

(** Every gap the small generator draws at rate 1 is at least 1/4, and 80
    of them reach the horizon 20. *)
Lemma ejemplo_acotado : Acotado (1 # 4)%Q 80 ejemplo_s0.
Proof.
  split.
  - intros g. apply Q_no_mayor. simpl. unfold lcg_exponential. simpl.
    rewrite Qred_correct. unfold Qle, Qdiv, Qmult, Qinv. simpl.
    pose proof (Z.mod_pos_bound (lcg g / 65536) 16). lia.
  - vm_compute. reflexivity.
Qed.

(** So no run of the example has more than 80 customers. *)
Lemma ejemplo_llegadas : LlegadasAcotadas 80 ejemplo_s0.
Proof.
  apply (Acotado_LlegadasAcotadas ((1 # 4)%Q : @double Arit_Q) 80)
    with ejemplo_config ejemplo_motor.
  - vm_compute. reflexivity.
  - exact ejemplo_inicializado.
  - exact ejemplo_acotado.
Qed.

Lemma ejemplo_bucle : bucle 200 ejemplo_s0 = Some ejemplo_fin.
Proof. apply por_defecto_Some. vm_compute. reflexivity. Qed.

(** C1 at the example: the run ends within 881 iterations; run with at
    most 200, it ends drained after eleven customers, having taken its
    events in ascending order of time. *)
Lemma C1_testigo :
  inicializar ejemplo_config ejemplo_motor = Some ejemplo_s0 ∧
  LlegadasAcotadas 80 ejemplo_s0 ∧
  (∃ sf, ejecutar (1 + 11 * 80) ejemplo_s0 = Some sf) ∧
  ejecutar 200 ejemplo_s0 = Some ejemplo_final ∧
  pq_empty (colaEventos ejemplo_final) = true ∧
  (∀ i, en_servicio i ejemplo_final = 0) ∧
  length (clientes ejemplo_final) = 11 ∧
  menor cero (tasaLlegada ejemplo_motor) = true ∧
  ∃ tr, Corrida ejemplo_s0 tr ejemplo_fin ∧
        StronglySorted no_mayor (Evento.tiempo <$> tr).
Proof.
  assert (H1 : menor cero (tasaLlegada ejemplo_motor) = true)
    by (vm_compute; reflexivity).
  assert (H2 : length (clientes ejemplo_final) = 11) by (vm_compute; reflexivity).
  destruct (C1_horizonte_y_drenado ejemplo_config ejemplo_motor ejemplo_s0
              ejemplo_inicializado) as (Ha & Hb & Hc).
  destruct (Hb 200 ejemplo_final ejemplo_ejecutado) as (Hb1 & Hb2 & _).
  destruct (bucle_Corrida _ _ _ ejemplo_bucle) as (tr & Htr & _).
  split; [exact ejemplo_inicializado|]. split; [exact ejemplo_llegadas|].
  split; [exact (Ha 80 ejemplo_llegadas)|]. split; [exact ejemplo_ejecutado|].
  split; [exact Hb1|]. split; [exact Hb2|]. split; [exact H2|].
  split; [exact H1|].
  exists tr. split; [exact Htr|]. exact (proj1 (Hc tr ejemplo_fin Htr) H1).
Defined.

(** C2 at the example: eleven customers completed; the mean and the
    variance reported are those of their waits, the run ended after time
    0 and the utilizations are those over the time it ended at. *)
Lemma C2_testigo :
  inicializar ejemplo_config ejemplo_motor = Some ejemplo_s0 ∧
  ejecutar 200 ejemplo_s0 = Some ejemplo_final ∧
  length (clientesCompletados ejemplo_final) = 11 ∧
  Estadisticas.tiempoEsperaPromedio (getEstadisticas ejemplo_final)
  = media (Cliente.tiempoEsperaTotal <$> clientesCompletados ejemplo_final) ∧
  Estadisticas.varianzaTiempoEspera (getEstadisticas ejemplo_final)
  = varianza_poblacional
      (Cliente.tiempoEsperaTotal <$> clientesCompletados ejemplo_final) ∧
  mayor (tiempoFinalReal ejemplo_final) cero = true ∧
  Estadisticas.utilizacionEstaciones (getEstadisticas ejemplo_final)
  = (λ k, Estacion.getUtilizacion (tiempoFinalReal ejemplo_final)
            (estacion k ejemplo_final)) <$> [0; 1; 2; 3; 4]%Z.
Proof.
  assert (H3 : length (clientesCompletados ejemplo_final) = 11)
    by (vm_compute; reflexivity).
  assert (H4 : clientesCompletados ejemplo_final ≠ []).
  { intros H. rewrite H in H3. discriminate H3. }
  assert (H5 : mayor (tiempoFinalReal ejemplo_final) cero = true)
    by (vm_compute; reflexivity).
  split; [exact ejemplo_inicializado|]. split; [exact ejemplo_ejecutado|].
  split; [exact H3|].
  destruct (C2_estadisticas ejemplo_config ejemplo_motor ejemplo_s0 200
              ejemplo_final ejemplo_inicializado ejemplo_ejecutado H4)
    as (_ & Hm & Hv & _ & _ & Hu & _).
  split; [exact Hm|]. split; [exact Hv|]. split; [exact H5|]. exact (Hu H5).
Defined.

(** C3 at the first iteration of the example. *)
Lemma C3_testigo :
  inicializar ejemplo_config ejemplo_motor = Some ejemplo_s0 ∧
  paso ejemplo_s0 = Some ejemplo_s1 ∧
  menor cero (tasaLlegada ejemplo_motor) = true ∧
  ∀ k est', estaciones ejemplo_s1 !! k = Some est' →
    ∃ est, estaciones ejemplo_s0 !! k = Some est ∧
           rtc (EstPaso (tiempoActual ejemplo_s1)) est est' ∧
           no_mayor (Estacion.tiempoTotalOcupado est)
                    (Estacion.tiempoTotalOcupado est').
Proof.
  assert (H1 : menor cero (tasaLlegada ejemplo_motor) = true)
    by (vm_compute; reflexivity).
  split; [exact ejemplo_inicializado|]. split; [exact ejemplo_paso|].
  split; [exact H1|].
  intros k est' Hk.
  destruct (proj2 (proj2 (C3_utilizacion ejemplo_config ejemplo_motor ejemplo_s0 []
                            ejemplo_s0 ejemplo_s1 ejemplo_inicializado
                            (corrida_nil ejemplo_s0) ejemplo_paso)) k est' Hk)
    as (est & Ha & Hb & Hc).
  exists est. split; [exact Ha|]. split; [exact Hb|]. exact (Hc H1).
Defined.



(** C5 at the first call of [iniciarServicio] of the example: customer 0
    at CAJAS. *)
Lemma C5_testigo :
  inicializar ejemplo_config ejemplo_motor = Some ejemplo_s0 ∧
  Llamada ejemplo_s0 [pq_top (colaEventos ejemplo_s0)] CAJAS ejemplo_llegada ∧
  Estacion.colaEspera (estacion CAJAS ejemplo_llegada) = [0%Z] ∧
  Cliente.tiempoEsperaTotal (cliente 0 (iniciarServicio CAJAS ejemplo_llegada))
  = suma (Cliente.tiempoEsperaTotal (cliente 0 ejemplo_llegada))
         (resta (tiempoActual ejemplo_llegada)
                (Cliente.tiempoEntradaCola (cliente 0 ejemplo_llegada))) ∧
  Cliente.tiempoEntradaCola (cliente 0 ejemplo_llegada)
  = Cliente.tiempoLlegada (cliente 0 ejemplo_llegada).
Proof.
  assert (H1 : pq_empty (colaEventos ejemplo_s0) = false)
    by (vm_compute; reflexivity).
  assert (H2 : Evento.tipo (pq_top (colaEventos ejemplo_s0)) = LLEGADA)
    by (vm_compute; reflexivity).
  assert (H3 : menor (Evento.tiempo (pq_top (colaEventos ejemplo_s0)))
                     (duracionSimulacion ejemplo_s0) = true)
    by (vm_compute; reflexivity).
  assert (H4 : Estacion.hayServidorDisponible
                 (estacion CAJAS (llegar (extraido ejemplo_s0))) = true)
    by (vm_compute; reflexivity).
  assert (H5 : Estacion.colaEspera (estacion CAJAS ejemplo_llegada) = [0%Z])
    by (vm_compute; reflexivity).
  pose (Hll := llamada_llegada ejemplo_s0 [] ejemplo_s0 (corrida_nil ejemplo_s0)
                 H1 H2 H3 H4 : Llamada ejemplo_s0 [pq_top (colaEventos ejemplo_s0)]
                                 CAJAS ejemplo_llegada).
  split; [exact ejemplo_inicializado|]. split; [exact Hll|].
  split; [exact H5|].
  destruct (C5_espera_por_estacion ejemplo_config ejemplo_motor ejemplo_s0
              [pq_top (colaEventos ejemplo_s0)] CAJAS ejemplo_llegada 0 []
              ejemplo_inicializado Hll H5) as (Ha & _ & _ & Hb).
  split; [exact Ha|]. apply Hb. vm_compute. reflexivity.
Defined.

(** C6 at the example: a new engine run with at most 200 iterations, and
    an engine that was run before, given the seed again and run with at
    most 300. *)
Lemma C6_testigo :
  rng ejemplo_motor = rng ejemplo_usado ∧
  duracionSimulacion ejemplo_motor = duracionSimulacion ejemplo_usado ∧
  tasaLlegada ejemplo_motor = tasaLlegada ejemplo_usado ∧
  probabilidadesEstaciones ejemplo_motor = probabilidadesEstaciones ejemplo_usado ∧
  vaciar (colaEventos ejemplo_motor) = vaciar (colaEventos ejemplo_usado) ∧
  length (clientes ejemplo_usado) = 8 ∧
  simular ejemplo_config 200 ejemplo_motor = Some ejemplo_final ∧
  simular ejemplo_config 300 ejemplo_usado = Some ejemplo_final_usado ∧
  ejemplo_final = ejemplo_final_usado ∧
  getEstadisticas ejemplo_final = getEstadisticas ejemplo_final_usado.
Proof.
  assert (H1 : simular ejemplo_config 200 ejemplo_motor = Some ejemplo_final).
  { unfold simular. rewrite ejemplo_inicializado. exact ejemplo_ejecutado. }
  assert (H2 : simular ejemplo_config 300 ejemplo_usado = Some ejemplo_final_usado).
  { apply por_defecto_Some. vm_compute. reflexivity. }
  assert (Hg : rng ejemplo_motor = rng ejemplo_usado) by reflexivity.
  assert (Hd : duracionSimulacion ejemplo_motor = duracionSimulacion ejemplo_usado)
    by (vm_compute; reflexivity).
  assert (Hr : tasaLlegada ejemplo_motor = tasaLlegada ejemplo_usado)
    by (vm_compute; reflexivity).
  assert (Hp : probabilidadesEstaciones ejemplo_motor
               = probabilidadesEstaciones ejemplo_usado)
    by (vm_compute; reflexivity).
  assert (Hq : vaciar (colaEventos ejemplo_motor)
               = vaciar (colaEventos ejemplo_usado))
    by (vm_compute; reflexivity).
  assert (Hl : length (clientes ejemplo_usado) = 8) by (vm_compute; reflexivity).
  split; [exact Hg|]. split; [exact Hd|]. split; [exact Hr|].
  split; [exact Hp|]. split; [exact Hq|]. split; [exact Hl|].
  split; [exact H1|]. split; [exact H2|].
  destruct (C6_determinismo ejemplo_config 200 300 ejemplo_motor ejemplo_usado
              ejemplo_final ejemplo_final_usado Hg Hd Hr Hp Hq H1 H2)
    as (Ha & Hb & _).
  split; [exact Ha | exact Hb].
Defined.

(** The generator is what an engine carries from one run to the next:
    [inicializar] does not seed it again, and the engine of the example,
    initialised and run a second time, completes seven customers where
    the first run completed eleven. *)
Lemma ejemplo_segunda_corrida :
  simular ejemplo_config 200 ejemplo_motor = Some ejemplo_final ∧
  simular ejemplo_config 300 ejemplo_final = Some ejemplo_final2 ∧
  rng ejemplo_final ≠ rng ejemplo_motor ∧
  Estadisticas.totalClientes (getEstadisticas ejemplo_final) = 11%Z ∧
  Estadisticas.totalClientes (getEstadisticas ejemplo_final2) = 7%Z.
Proof.
  split.
  { unfold simular. rewrite ejemplo_inicializado. exact ejemplo_ejecutado. }
  split; [apply por_defecto_Some; vm_compute; reflexivity|].
  split; [vm_compute; discriminate|].
  split; vm_compute; reflexivity.
Qed.

(** C7 in the middle of the example run. *)
Lemma C7_testigo :
  Previo ejemplo_motor ∧ Alcanzable ejemplo_motor ejemplo_s1 ∧
  Estadisticas.totalClientes (getEstadisticas ejemplo_s1)
  = Z.of_nat (length (clientesCompletados ejemplo_s1)) ∧
  length (Estadisticas.utilizacionEstaciones (getEstadisticas ejemplo_s1)) = 5.
Proof.
  assert (H1 : Previo ejemplo_motor) by (repeat split; reflexivity).
  assert (H2 : Alcanzable ejemplo_motor ejemplo_s1).
  { apply (alc_paso _ ejemplo_s0); [|exact ejemplo_paso].
    apply (alc_inicializar _ ejemplo_motor ejemplo_config);
      [apply alc_inicio | exact ejemplo_inicializado]. }
  split; [exact H1|]. split; [exact H2|].
  destruct (C7_estadisticas_total ejemplo_motor ejemplo_s1 H1 H2) as (Ha & Hb & _).
  split; [exact Ha | exact Hb].
Defined.

(** C9 at the first iteration of the example. *)
Lemma C9_testigo :
  inicializar ejemplo_config ejemplo_motor = Some ejemplo_s0 ∧
  paso ejemplo_s0 = Some ejemplo_s1 ∧
  ∀ i c', clientes ejemplo_s0 !! i = None → clientes ejemplo_s1 !! i = Some c' →
          Cliente.indiceEstacionActual c' = 0%Z.
Proof.
  split; [exact ejemplo_inicializado|]. split; [exact ejemplo_paso|].
  exact (proj2 (proj2 (C9_progreso_monotono ejemplo_config ejemplo_motor ejemplo_s0
                         [] ejemplo_s0 ejemplo_inicializado
                         (corrida_nil ejemplo_s0))
                  ejemplo_s1 ejemplo_paso)).
Defined.
End Testigos.

(** With a negative arrival rate the small generator draws negative
    gaps: two iterations of the loop, and no end of it. *)
Section TasaNegativa.
#[local] Existing Instance Arit_Q.
#[local] Existing Instance Dist_lcg.
#[local] Existing Instance Cola_lista.
#[local] Existing Instance Leyes_Q.
#[local] Existing Instance Exactas_Q.
#[local] Existing Instance Cola_lista_ok.

Lemma ejemplo_n_inicializado :
  inicializar ejemplo_config ejemplo_tasa_negativa = Some ejemplo_n0.
Proof. apply por_defecto_Some. vm_compute. reflexivity. Qed.

Lemma ejemplo_n_paso : paso ejemplo_n0 = Some ejemplo_n1.
Proof. apply por_defecto_Some. vm_compute. reflexivity. Qed.

Lemma ejemplo_n_paso2 : paso ejemplo_n1 = Some ejemplo_n2.
Proof. apply por_defecto_Some. vm_compute. reflexivity. Qed.

Lemma ejemplo_n_sin_fin n : bucle n ejemplo_n0 = None.
Proof.
  pose proof ejemplo_n_inicializado as Hini.
  destruct (inicializar_clientes _ _ _ Hini) as (_ & _ & Hra & Hdu & _).
  apply bucle_sin_fin.
  - intros t g Ht. rewrite Hdu, Hra in *. apply Q_menor in Ht. apply Q_menor.
    simpl in *. unfold lcg_exponential. simpl.
    set (k := ((lcg g / 65536) mod 16)%Z).
    assert (Hk : (0 <= k < 16)%Z) by (apply Z.mod_pos_bound; lia).
    assert (Hg : ((1 + k # 4) / inject_Z (-1) <= 0)%Q).
    { unfold Qdiv, Qmult, Qinv, Qle. simpl. lia. }
    set (q := ((1 + k # 4) / inject_Z (-1))%Q) in *.
    rewrite Qred_correct. pose proof (Qred_correct q). lra.
  - by eapply inicializar_Inv.
  - split; [by eapply inicializar_llegadas|].
    intros e He _. destruct (eventos_inicializar _ _ _ Hini) as (t & Hev & Ht).
    rewrite Hev in He. apply list_elem_of_singleton in He. subst e.
    rewrite Hdu. simpl. rewrite Ht. vm_compute. reflexivity.
Qed.
End TasaNegativa.

(** With gaps of 0 an arrival before the horizon is always scheduled. *)
Section SinBrechas.
#[local] Existing Instance Arit_Q.
#[local] Existing Instance Dist_cero.
#[local] Existing Instance Cola_lista.
#[local] Existing Instance Leyes_Q.
#[local] Existing Instance Exactas_Q.
#[local] Existing Instance Cola_lista_ok.

Lemma ejemplo_b_inicializado :
  inicializar ejemplo_config ejemplo_sin_brechas = Some ejemplo_b0.
Proof. apply por_defecto_Some. vm_compute. reflexivity. Qed.

Lemma ejemplo_b_sin_fin n : bucle n ejemplo_b0 = None.
Proof.
  pose proof ejemplo_b_inicializado as Hini.
  destruct (inicializar_clientes _ _ _ Hini) as (_ & _ & Hra & Hdu & _).
  apply bucle_sin_fin.
  - intros t g Ht. rewrite Hdu in *. apply Q_menor in Ht. apply Q_menor.
    simpl. rewrite Qred_correct. simpl in Ht. lra.
  - by eapply inicializar_Inv.
  - split; [by eapply inicializar_llegadas|].
    intros e He _. destruct (eventos_inicializar _ _ _ Hini) as (t & Hev & Ht).
    rewrite Hev in He. apply list_elem_of_singleton in He. subst e.
    rewrite Hdu. simpl. rewrite Ht. vm_compute. reflexivity.
Qed.
End SinBrechas.

Section Contraejemplos.
#[local] Existing Instance Arit_Q.
#[local] Existing Instance Cola_lista.

(** C1 as stated fails.  With the generator whose gaps are 0, at the
    positive rate 1, [ejecutar] does not end, whatever the number of
    iterations: every arrival is at time 0, before the horizon, and
    schedules the next one.  With the small generator at the rate -1,
    which [inicializar] accepts, the second event taken from the queue is
    before the first, and [ejecutar] does not end either: every arrival
    is before the one that scheduled it. *)
Lemma C1_contraejemplo :
  (inicializar (Di := Dist_cero) ejemplo_config ejemplo_sin_brechas
   = Some ejemplo_b0 ∧
   menor cero (tasaLlegada ejemplo_sin_brechas) = true ∧
   DistribucionesOk (Di := Dist_cero) ∧
   ∀ n, ejecutar n ejemplo_b0 = None) ∧
  (inicializar (Di := Dist_lcg) ejemplo_config ejemplo_tasa_negativa
   = Some ejemplo_n0 ∧
   paso ejemplo_n0 = Some ejemplo_n1 ∧
   paso ejemplo_n1 = Some ejemplo_n2 ∧
   Corrida ejemplo_n0
     [pq_top (colaEventos ejemplo_n0); pq_top (colaEventos ejemplo_n1)]
     ejemplo_n2 ∧
   menor (Evento.tiempo (pq_top (colaEventos ejemplo_n1)))
         (Evento.tiempo (pq_top (colaEventos ejemplo_n0))) = true ∧
   ∀ n, ejecutar (Di := Dist_lcg) n ejemplo_n0 = None).
Proof.
  split.
  - split; [exact ejemplo_b_inicializado|]. split; [vm_compute; reflexivity|].
    split; [exact Dist_cero_ok|].
    intros n. unfold ejecutar. by rewrite ejemplo_b_sin_fin.
  - split; [exact ejemplo_n_inicializado|]. split; [exact ejemplo_n_paso|].
    split; [exact ejemplo_n_paso2|]. split; [|split; [vm_compute; reflexivity|]].
    + exact (corrida_paso _ _ _ _
               (corrida_paso _ _ _ _ (corrida_nil ejemplo_n0) ejemplo_n_paso)
               ejemplo_n_paso2).
    + intros n. unfold ejecutar. by rewrite ejemplo_n_sin_fin.
Qed.

(** C3 as stated fails.  In binary64, at a station with no server the
    quotient of the claim is 0/0, not a number, where [getUtilizacion]
    returns 0.  And with the small generator at the rate -1, which
    [inicializar] accepts, the first arrival is at a negative time and
    the busy time of CAJAS decreases. *)
Lemma C3_contraejemplo :
  (Estacion.nueva (Ar := Arit_float) CAJAS 0 = Some ejemplo_sin_servidores ∧
   @igual Arit_float (de_int 480) cero = false ∧
   Estacion.getUtilizacion (de_int 480) ejemplo_sin_servidores
   ≠ divi (Estacion.tiempoTotalOcupado ejemplo_sin_servidores)
          (mult (de_int (Estacion.numServidores ejemplo_sin_servidores))
                (de_int 480))) ∧
  (inicializar (Di := Dist_lcg) ejemplo_config ejemplo_tasa_negativa
   = Some ejemplo_n0 ∧
   paso ejemplo_n0 = Some ejemplo_n1 ∧
   menor (Estacion.tiempoTotalOcupado (estacion CAJAS ejemplo_n1))
         (Estacion.tiempoTotalOcupado (estacion CAJAS ejemplo_n0)) = true).
Proof.
  split.
  - split; [reflexivity|]. split; [vm_compute; reflexivity|].
    intros H. apply (f_equal PrimFloat.is_nan) in H. vm_compute in H.
    discriminate H.
  - split; [exact ejemplo_n_inicializado|]. split; [exact ejemplo_n_paso|].
    vm_compute. reflexivity.
Qed.
End Contraejemplos.

Section SinValidacion.
#[local] Existing Instance Arit_Q.
#[local] Existing Instance Dist_lcg.
#[local] Existing Instance Cola_lista.

(** C8 as stated fails: with the default configuration, every count 0,
    [inicializar] succeeds and [ejecutar] runs to the end; seven customers
    arrive and stay in the queue of CAJAS. *)
Lemma C8_contraejemplo :
  inicializar ConfiguracionServidores.nueva ejemplo_motor = Some ejemplo_vacio ∧
  Estacion.numServidores <$> estaciones ejemplo_vacio = [0; 0; 0; 0; 0]%Z ∧
  ejecutar 200 ejemplo_vacio = Some ejemplo_vacio_final ∧
  length (clientes ejemplo_vacio_final) = 7 ∧
  Estacion.colaEspera (estacion CAJAS ejemplo_vacio_final)
  = [0; 1; 2; 3; 4; 5; 6]%Z.
Proof.
  split; [exact ejemplo_vacio_inicializado|].
  split; [vm_compute; reflexivity|].
  split; [apply por_defecto_Some; vm_compute; reflexivity|].
  split; vm_compute; reflexivity.
Qed.
End SinValidacion.

(** The further theorems at the runs of [Ejemplo] and [Ejemplo2]. *)
Section Testigos2.
#[local] Existing Instance Arit_Q.
#[local] Existing Instance Dist_lcg.
#[local] Existing Instance Cola_lista.
#[local] Existing Instance Leyes_Q.
#[local] Existing Instance Suma_Q.
#[local] Existing Instance Exactas_Q.
#[local] Existing Instance Dist_lcg_ok.
#[local] Existing Instance Cola_lista_ok.

(** The run of one iteration. *)
Lemma ejemplo_corrida :
  Corrida ejemplo_s0 ([] ++ [pq_top (colaEventos ejemplo_s0)]) ejemplo_s1.
Proof. exact (corrida_paso _ _ _ _ (corrida_nil ejemplo_s0) ejemplo_paso). Qed.

Lemma ejemplo_primer_cliente :
  clientes ejemplo_s1 !! 0 = Some (clientes ejemplo_s1 !!! 0).
Proof.
  apply list_lookup_lookup_total_lt.
  replace (length (clientes ejemplo_s1)) with 1 by (vm_compute; reflexivity). lia.
Qed.

Lemma ejemplo_vacio_paso : paso ejemplo_vacio = Some ejemplo_vacio_s1.
Proof. apply por_defecto_Some. vm_compute. reflexivity. Qed.

Lemma ejemplo_vacio_corrida :
  Corrida ejemplo_vacio ([] ++ [pq_top (colaEventos ejemplo_vacio)]) ejemplo_vacio_s1.
Proof. exact (corrida_paso _ _ _ _ (corrida_nil ejemplo_vacio) ejemplo_vacio_paso). Qed.

Lemma ejemplo_r_inicializado :
  inicializar ejemplo_sin_refrescos ejemplo_motor = Some ejemplo_r0.
Proof. apply por_defecto_Some. vm_compute. reflexivity. Qed.

Lemma ejemplo_r_bucle : bucle 200 ejemplo_r0 = Some ejemplo_rf.
Proof. apply por_defecto_Some. vm_compute. reflexivity. Qed.

(** Every gap the small generator draws at rate 0.8 is at least 5/16, and
    1536 of them reach the horizon 480. *)
Lemma ejemplo_brechas g :
  no_mayor (5 # 16)%Q
    (fst (GeneradorAleatorio.tiempoEntreLlegadas (decimal 8 10) g)).
Proof.
  apply Q_no_mayor. simpl. unfold lcg_exponential. simpl.
  rewrite Qred_correct.
  change (decimal 8 10) with (4 # 5)%Q.
  unfold Qle, Qdiv, Qmult, Qinv. simpl.
  pose proof (Z.mod_pos_bound (lcg g / 65536) 16). lia.
Qed.

Lemma ejemplo_horizonte : no_mayor (de_int 480) (multiplo 1536 (5 # 16)%Q).
Proof. vm_compute. reflexivity. Qed.

(** So no run of a replica has more than 1536 customers. *)
Lemma ejemplo_replicas config : ReplicasAcotadas 1536 config.
Proof.
  intros i s0 Hini.
  destruct (inicializar_clientes _ _ _ Hini) as (_ & _ & Hra & Hdu & _).
  apply (Acotado_LlegadasAcotadas ((5 # 16)%Q : @double Arit_Q) 1536)
    with config (SimulacionColas_nueva (de_int 480) (decimal 8 10) (42 + i)%Z).
  - vm_compute. reflexivity.
  - exact Hini.
  - split; [rewrite Hra; exact ejemplo_brechas | rewrite Hdu; exact ejemplo_horizonte].
Qed.

(** X1 after the first iteration of the example. *)
Lemma X1_testigo :
  inicializar ejemplo_config ejemplo_motor = Some ejemplo_s0 ∧
  Corrida ejemplo_s0 ([] ++ [pq_top (colaEventos ejemplo_s0)]) ejemplo_s1 ∧
  Estacion.numServidores <$> estaciones ejemplo_s1 = [3; 2; 2; 1; 4]%Z ∧
  ∀ k est, estaciones ejemplo_s1 !! k = Some est →
    Estacion.id est = Z.of_nat k ∧
    length (Estacion.servidorOcupado est) = Z.to_nat (Estacion.numServidores est) ∧
    servidoresOcupados (Estacion.servidorOcupado est)
    = Z.of_nat (cuenta (es_fin_en (Z.of_nat k)) (eventos ejemplo_s1)) ∧
    (servidoresOcupados (Estacion.servidorOcupado est)
     ≤ Estacion.numServidores est)%Z.
Proof.
  split; [exact ejemplo_inicializado|]. split; [exact ejemplo_corrida|].
  exact (X1_ocupados_son_servicios ejemplo_config ejemplo_motor ejemplo_s0 _
           ejemplo_s1 ejemplo_inicializado ejemplo_corrida).
Defined.

(** X2 when the loop has ended with no server at REFRESCOS, where
    customers wait. *)
Lemma X2_testigo :
  inicializar ejemplo_sin_refrescos ejemplo_motor = Some ejemplo_r0 ∧
  Estacion.colaEspera (estacion REFRESCOS ejemplo_rf) = [1; 0; 2; 3; 4; 6; 5; 7]%Z ∧
  ∃ tr, Corrida ejemplo_r0 tr ejemplo_rf ∧
    ∀ k est, estaciones ejemplo_rf !! k = Some est →
      Estacion.colaEspera est ≠ [] →
      Estacion.hayServidorDisponible est = false ∧
      servidoresOcupados (Estacion.servidorOcupado est) = Estacion.numServidores est.
Proof.
  split; [exact ejemplo_r_inicializado|]. split; [vm_compute; reflexivity|].
  destruct (bucle_Corrida _ _ _ ejemplo_r_bucle) as (tr & Hc & _).
  exists tr. split; [exact Hc|].
  exact (X2_sin_espera_ociosa ejemplo_sin_refrescos ejemplo_motor ejemplo_r0 tr
           ejemplo_rf ejemplo_r_inicializado Hc).
Defined.

(** X3 when the loop of the example has ended: CAJAS served the eleven
    customers. *)
Lemma X3_testigo :
  inicializar ejemplo_config ejemplo_motor = Some ejemplo_s0 ∧
  Estacion.totalAtendidos (estacion CAJAS ejemplo_fin) = 11%Z ∧
  ∃ tr, Corrida ejemplo_s0 tr ejemplo_fin ∧
    ∀ k est, estaciones ejemplo_fin !! k = Some est →
      Estacion.totalAtendidos est
      = Z.of_nat (cuenta (es_fin_en (Z.of_nat k)) tr).
Proof.
  split; [exact ejemplo_inicializado|]. split; [vm_compute; reflexivity|].
  destruct (bucle_Corrida _ _ _ ejemplo_bucle) as (tr & Hc & _).
  exists tr. split; [exact Hc|].
  exact (X3_atendidos_por_estacion ejemplo_config ejemplo_motor ejemplo_s0 tr
           ejemplo_fin ejemplo_inicializado Hc).
Defined.

(** X4 at the end of the example: every customer that arrived is counted. *)
Lemma X4_testigo :
  inicializar ejemplo_config ejemplo_motor = Some ejemplo_s0 ∧
  ejecutar 200 ejemplo_s0 = Some ejemplo_final ∧
  (∀ i c, clientes ejemplo_final !! i = Some c →
     Cliente.indiceEstacionActual c = Z.of_nat (length (Cliente.estaciones c)) ∧
     c ∈ clientesCompletados ejemplo_final) ∧
  Estadisticas.totalClientes (getEstadisticas ejemplo_final)
  = Z.of_nat (length (clientes ejemplo_final)).
Proof.
  split; [exact ejemplo_inicializado|]. split; [exact ejemplo_ejecutado|].
  assert (H0 : (1 ≤ ConfiguracionServidores.cajas ejemplo_config)%Z) by (simpl; lia).
  assert (H1 : (1 ≤ ConfiguracionServidores.refrescos ejemplo_config)%Z)
    by (simpl; lia).
  assert (H2 : (1 ≤ ConfiguracionServidores.freidora ejemplo_config)%Z)
    by (simpl; lia).
  assert (H3 : (1 ≤ ConfiguracionServidores.postres ejemplo_config)%Z)
    by (simpl; lia).
  assert (H4 : (1 ≤ ConfiguracionServidores.pollo ejemplo_config)%Z) by (simpl; lia).
  exact (proj2 (X4_todos_completan ejemplo_config ejemplo_motor ejemplo_s0 200
                  ejemplo_final ejemplo_inicializado H0 H1 H2 H3 H4
                  ejemplo_ejecutado)).
Defined.

(** X5 after the first iteration with no server anywhere. *)
Lemma X5_testigo :
  inicializar ConfiguracionServidores.nueva ejemplo_motor = Some ejemplo_vacio ∧
  ConfiguracionServidores.cajas ConfiguracionServidores.nueva = 0%Z ∧
  Corrida ejemplo_vacio ([] ++ [pq_top (colaEventos ejemplo_vacio)])
    ejemplo_vacio_s1 ∧
  (∀ e, e ∈ eventos ejemplo_vacio_s1 → Evento.tipo e = LLEGADA) ∧
  (∀ i c, clientes ejemplo_vacio_s1 !! i = Some c →
     Cliente.indiceEstacionActual c = 0%Z) ∧
  Estacion.colaEspera (estacion CAJAS ejemplo_vacio_s1)
  = Z.of_nat <$> seq 0 (length (clientes ejemplo_vacio_s1)) ∧
  clientesCompletados ejemplo_vacio_s1 = [] ∧
  getEstadisticas ejemplo_vacio_s1
  = Estadisticas.mk cero cero [cero; cero; cero; cero; cero] 0 cero.
Proof.
  split; [exact ejemplo_vacio_inicializado|]. split; [reflexivity|].
  split; [exact ejemplo_vacio_corrida|].
  exact (X5_sin_cajas ConfiguracionServidores.nueva ejemplo_motor ejemplo_vacio _
           ejemplo_vacio_s1 ejemplo_vacio_inicializado eq_refl
           ejemplo_vacio_corrida).
Defined.

(** X6 after the first iteration of the example. *)
Lemma X6_testigo :
  inicializar ejemplo_config ejemplo_motor = Some ejemplo_s0 ∧
  Corrida ejemplo_s0 ([] ++ [pq_top (colaEventos ejemplo_s0)]) ejemplo_s1 ∧
  length (estaciones ejemplo_s1) = 5 ∧
  siguienteIdCliente ejemplo_s1 = Z.of_nat (length (clientes ejemplo_s1)).
Proof.
  split; [exact ejemplo_inicializado|]. split; [exact ejemplo_corrida|].
  destruct (X6_indices_en_rango ejemplo_config ejemplo_motor ejemplo_s0 _
              ejemplo_s1 ejemplo_inicializado ejemplo_corrida) as (H1 & H2 & _).
  split; [exact H1 | exact H2].
Defined.

(** X7 for the first customer of the example. *)
Lemma X7_testigo :
  inicializar ejemplo_config ejemplo_motor = Some ejemplo_s0 ∧
  Corrida ejemplo_s0 ([] ++ [pq_top (colaEventos ejemplo_s0)]) ejemplo_s1 ∧
  clientes ejemplo_s1 !! 0 = Some (clientes ejemplo_s1 !!! 0) ∧
  en_cola (Z.of_nat 0) ejemplo_s1 + en_servicio (Z.of_nat 0) ejemplo_s1
    + completado (Z.of_nat 0) ejemplo_s1 = 1 ∧
  NoDup (Cliente.estaciones (clientes ejemplo_s1 !!! 0)).
Proof.
  split; [exact ejemplo_inicializado|]. split; [exact ejemplo_corrida|].
  split; [exact ejemplo_primer_cliente|].
  destruct (X7_un_solo_lugar ejemplo_config ejemplo_motor ejemplo_s0 _
              ejemplo_s1 0 _ ejemplo_inicializado ejemplo_corrida
              ejemplo_primer_cliente) as (H1 & _ & _ & _ & H2).
  split; [exact H1 | exact H2].
Defined.

(** X8 for the first customer of the example, when the loop has ended. *)
Lemma X8_testigo :
  inicializar ejemplo_config ejemplo_motor = Some ejemplo_s0 ∧
  menor cero (tasaLlegada ejemplo_motor) = true ∧
  clientes ejemplo_fin !! 0 = Some (clientes ejemplo_fin !!! 0) ∧
  menor cero (Cliente.tiempoServicioTotal (clientes ejemplo_fin !!! 0)) = true ∧
  ∃ tr, Corrida ejemplo_s0 tr ejemplo_fin ∧
    no_mayor cero (Cliente.tiempoEsperaTotal (clientes ejemplo_fin !!! 0)) ∧
    no_mayor cero (Cliente.tiempoServicioTotal (clientes ejemplo_fin !!! 0)) ∧
    no_mayor cero (Cliente.getTiempoTotal (clientes ejemplo_fin !!! 0)) ∧
    no_mayor (Cliente.tiempoLlegada (clientes ejemplo_fin !!! 0))
             (Cliente.tiempoEntradaCola (clientes ejemplo_fin !!! 0)) ∧
    no_mayor (Cliente.tiempoEntradaCola (clientes ejemplo_fin !!! 0))
             (tiempoActual ejemplo_fin).
Proof.
  assert (H1 : menor cero (tasaLlegada ejemplo_motor) = true)
    by (vm_compute; reflexivity).
  assert (H2 : clientes ejemplo_fin !! 0 = Some (clientes ejemplo_fin !!! 0)).
  { apply list_lookup_lookup_total_lt.
    replace (length (clientes ejemplo_fin)) with 11 by (vm_compute; reflexivity).
    lia. }
  split; [exact ejemplo_inicializado|]. split; [exact H1|].
  split; [exact H2|]. split; [vm_compute; reflexivity|].
  destruct (bucle_Corrida _ _ _ ejemplo_bucle) as (tr & Hc & _).
  exists tr. split; [exact Hc|].
  exact (X8_tiempos_no_negativos ejemplo_config ejemplo_motor ejemplo_s0 tr
           ejemplo_fin 0 _ ejemplo_inicializado H1 Hc H2).
Defined.

(** X9 after the first iteration of the example: at most 13 events. *)
Lemma X9_testigo :
  inicializar ejemplo_config ejemplo_motor = Some ejemplo_s0 ∧
  Corrida ejemplo_s0 ([] ++ [pq_top (colaEventos ejemplo_s0)]) ejemplo_s1 ∧
  cuenta es_llegada (eventos ejemplo_s1) ≤ 1 ∧
  (Z.of_nat (pq_size (colaEventos ejemplo_s1))
   ≤ 1 + ConfiguracionServidores.total ejemplo_config)%Z.
Proof.
  split; [exact ejemplo_inicializado|]. split; [exact ejemplo_corrida|].
  exact (X9_cola_de_eventos_acotada ejemplo_config ejemplo_motor ejemplo_s0 _
           ejemplo_s1 ejemplo_inicializado ejemplo_corrida).
Defined.

(** X11 with the small generator: two replicas of the example return. *)
Lemma X11_testigo :
  ReplicasAcotadas 1536 ejemplo_config ∧
  1 + 11 * 1536 ≤ 1 + 11 * 1536 ∧
  cuentas_no_negativas ejemplo_config ∧
  is_Some (ejecutarMultiplesReplicas (1 + 11 * 1536) ejemplo_config 2).
Proof.
  assert (H1 : cuentas_no_negativas ejemplo_config)
    by (unfold cuentas_no_negativas; simpl; lia).
  split; [exact (ejemplo_replicas ejemplo_config)|]. split; [exact (le_n _)|].
  split; [exact H1|].
  apply (proj1 (X11_replicas_terminan 1536 (1 + 11 * 1536) ejemplo_config 2
                  (ejemplo_replicas ejemplo_config) (le_n _))).
  right. exact H1.
Defined.

(** X12 at the end of the loop with no server at REFRESCOS. *)
Lemma X12_testigo :
  inicializar ejemplo_sin_refrescos ejemplo_motor = Some ejemplo_r0 ∧
  [ConfiguracionServidores.cajas ejemplo_sin_refrescos;
   ConfiguracionServidores.refrescos ejemplo_sin_refrescos;
   ConfiguracionServidores.freidora ejemplo_sin_refrescos;
   ConfiguracionServidores.postres ejemplo_sin_refrescos;
   ConfiguracionServidores.pollo ejemplo_sin_refrescos] !! 1 = Some 0%Z ∧
  ∃ tr, Corrida ejemplo_r0 tr ejemplo_rf ∧
    (∀ i c m, clientes ejemplo_rf !! i = Some c →
       Cliente.estaciones c !! m = Some (Z.of_nat 1) →
       (Cliente.indiceEstacionActual c ≤ Z.of_nat m)%Z) ∧
    ∀ d, d ∈ clientesCompletados ejemplo_rf →
         Z.of_nat 1 ∉ Cliente.estaciones d.
Proof.
  split; [exact ejemplo_r_inicializado|]. split; [reflexivity|].
  destruct (bucle_Corrida _ _ _ ejemplo_r_bucle) as (tr & Hc & _).
  exists tr. split; [exact Hc|].
  exact (proj2 (proj2 (X12_estacion_sin_servidores ejemplo_sin_refrescos
                         ejemplo_motor ejemplo_r0 tr ejemplo_rf 1
                         ejemplo_r_inicializado Hc eq_refl))).
Defined.

(** X13 with the small generator, for twelve servers and no cashier. *)
Lemma X13_testigo :
  ReplicasAcotadas 1536 ejemplo_sin_cajas ∧
  1 + 11 * 1536 ≤ 1 + 11 * 1536 ∧
  cuentas_no_negativas ejemplo_sin_cajas ∧
  ConfiguracionServidores.cajas ejemplo_sin_cajas = 0%Z ∧
  ConfiguracionServidores.total ejemplo_sin_cajas = 12%Z ∧
  ejecutarMultiplesReplicas (1 + 11 * 1536) ejemplo_sin_cajas 10
  = Some sin_replicas ∧
  Estadisticas.esEstable sin_replicas = true ∧
  probar (1 + 11 * 1536) (de_int 100, ejemplo_config) ejemplo_sin_cajas
  = Some (cero, ejemplo_sin_cajas).
Proof.
  assert (H2 : cuentas_no_negativas ejemplo_sin_cajas)
    by (unfold cuentas_no_negativas; simpl; lia).
  split; [exact (ejemplo_replicas ejemplo_sin_cajas)|].
  split; [exact (le_n _)|].
  split; [exact H2|]. split; [reflexivity|]. split; [reflexivity|].
  destruct (X13_sin_cajas_preferida 1536 (1 + 11 * 1536) ejemplo_sin_cajas 10
              (de_int 100, ejemplo_config) (ejemplo_replicas ejemplo_sin_cajas)
              (le_n _) H2 eq_refl) as (Ha & Hb & Hc).
  split; [exact Ha|]. split; [exact Hb|]. exact (Hc eq_refl).
Defined.

(** X14 with the small generator, over two candidates. *)
Lemma X14_testigo :
  1 + 11 * 1536 ≤ 1 + 11 * 1536 ∧
  (∀ config, config ∈ ejemplo_candidatas →
     ConfiguracionServidores.total config = 12%Z →
     cuentas_no_negativas config ∧ ReplicasAcotadas 1536 config) ∧
  ∃ res, buscar (1 + 11 * 1536) ejemplo_candidatas (de_int 100, ejemplo_config)
         = Some res ∧
         no_mayor (fst res) (de_int 100).
Proof.
  assert (H2 : ∀ config, config ∈ ejemplo_candidatas →
            ConfiguracionServidores.total config = 12%Z →
            cuentas_no_negativas config ∧ ReplicasAcotadas 1536 config).
  { intros config Hin _. split; [|exact (ejemplo_replicas config)].
    unfold ejemplo_candidatas in Hin.
    apply elem_of_cons in Hin as [-> | Hin];
      [|apply list_elem_of_singleton in Hin; subst config];
      unfold cuentas_no_negativas; simpl; lia. }
  split; [exact (le_n _)|]. split; [exact H2|].
  destruct (X14_busqueda_minima 1536 (1 + 11 * 1536) ejemplo_candidatas
              (de_int 100, ejemplo_config) (le_n _) H2) as (res & Hr & Hle & _).
  exists res. split; [exact Hr | exact Hle].
Defined.
End Testigos2.

Section Testigos3.
#[local] Existing Instance Arit_float.

(** X15 in binary64, for a mean wait that is a NaN. *)
Lemma X15_testigo :
  (∀ a : double, menor a a = false) ∧
  (∀ a b : double, menor a b = true → menor b a = false) ∧
  menor cero (de_int 50) = true ∧
  no_mayor cero (puntosMedia PrimFloat.nan) ∧
  no_mayor (puntosMedia PrimFloat.nan) (de_int 50).
Proof.
  assert (H50 : menor cero (de_int 50) = true) by (vm_compute; reflexivity).
  split; [exact (@menor_irrefl _ Leyes_float)|].
  split; [exact (@menor_asim _ Leyes_float)|]. split; [exact H50|].
  exact (X15_puntos_acotados PrimFloat.nan (@menor_irrefl _ Leyes_float)
           (@menor_asim _ Leyes_float) H50).
Defined.
End Testigos3.
